(* ===== verification/_CoqProject ===== *)
-Q . S2P
Prelude.v
Constants.v
Bn.v
BnBytes.v
State.v
Addresses.v
Value.v
AmmMath.v
BankBalance.v
Twap.v
Oracle.v
PositionMath.v
CurveMath.v
Repeg.v
AmmController.v
OrdersMath.v
Position.v
Maps.v
Funding.v
FundingProps.v
Fees.v
Margin.v
OrderValidation.v
Orders.v
MarginProps.v
Events.v
EventFunding.v
Tokens.v
BankHandlers.v
EventBanks.v
BankLedger.v
BankOrders.v
Loading.v
Trading.v
EventOrders.v
Liquidation.v
EventTrades.v
TradingProps.v
Frames.v
LiquidationProps.v
BankTypes.v
Admin.v
EventAdmin.v
EventLog.v
AdminProps.v
Exposure.v
System.v
EventSystem.v
EventKinds.v
EventProps.v
EventFills.v
Typing.v
TypedCurves.v
TypedUsers.v
TypedTrades.v
TypedBanks.v
TypedSystem.v
SystemExposure.v
Contexts.v
Transactions.v
Custody.v
Liveness.v
Withdrawals.v
SystemLiveness.v
MockOracle.v
Faucet.v
Examples.v
Witnesses.v
SystemExamples.v
EventExamples.v
CustodyExamples.v
