(* ===== verification/Prelude.v ===== *)
(** * Drift Protocol v2 clearing house: a verification development

    The program (src/programs/clearing_house/src) is a perpetual futures exchange on
    Solana.  Users deposit tokens into banks, which lend them with interest, and trade
    against a virtual AMM per market, at once or by orders that others fill; funding ties
    the price of a market to its oracle; users below their margin requirement are
    liquidated; an administrator creates markets and moves their curves.  Two small
    programs serve the tests: a mock of the Pyth oracle and a faucet of tokens.

    ** The parts and where they are

    Foundations
    - Prelude: error.rs, math/casting.rs, the checked operations of macros.rs and of the
      standard library, on integers that are values of [Z] with their width as an
      argument ([cadd U128 a b]).  A computation returns a [result]: a value, an error
      code of the program, or [Panic] (an unwrap, an assertion, a failed call of another
      program).  An instruction that fails leaves no trace, as on Solana: what it changed is
      only in the value that it would have returned.
    - Constants (math/constants.rs), Bn and BnBytes (math/bn.rs), State (state/*.rs: the
      accounts as records, their integer types as the predicates [typed]).

    Market making
    - Value, AmmMath, Twap, CurveMath, PositionMath, OrdersMath: the arithmetic of
      math/quote_asset.rs, pnl.rs, collateral.rs, slippage.rs, amm.rs, position.rs,
      orders.rs.
    - AmmController (controller/amm.rs), Repeg (math/repeg.rs, controller/repeg.rs),
      Oracle (state/oracle.rs, math/oracle.rs), Funding and FundingProps (math/funding.rs,
      controller/funding.rs), Fees (math/fees.rs), Position (controller/position.rs).

    Accounts of users
    - BankBalance (controller/bank_balance.rs, math/bank_balance.rs, math/withdrawal.rs,
      the trait of state/bank.rs), Maps and Loading (state/*_map.rs, account_loader.rs,
      optional_accounts.rs), Margin and MarginProps (math/margin.rs, margin_validation.rs),
      OrderValidation (order_validation.rs), Orders (controller/orders.rs, and the parts
      of math/orders.rs that need the margin), Tokens (controller/token.rs).

    Instructions (lib.rs)
    - BankHandlers: deposit, withdraw, transfer_deposit, settle_pnl, the creation of banks
      and users.  Trading: open_position, close_position and the entry points of orders.
      Liquidation: liquidate.  Admin: the creation of the exchange and of markets, and
      all that the administrator does.
    - System: the accounts of the exchange as one state, [World], and every instruction
      as a rule of [step], with what its account context demands of who signs.
    - Addresses: the seeds of the program's accounts as bytes.  Contexts (context.rs): the
      accounts of every instruction and the checks of their attributes.  Transactions: the
      instructions as they are sent, with their contexts and signatures, as the relation
      [transaction], which refines [step]; other programs' transactions are a rule too.

    Records of the log (state/events.rs)
    - Events: the records and [emits], computations with a log.  EventFunding, EventBanks,
      EventOrders, EventTrades and EventAdmin: every function that emits, as [..._emits],
      with the lemma that it is the function when the log is forgotten ([..._erase]).
      EventSystem: [recorded], the instructions of [step] with their logs, and runs.
      EventLog, EventKinds: what the log of each function counts, and of which kinds.

    Types of the accounts
    - Typing, TypedCurves, TypedUsers, TypedTrades, TypedBanks: every function that changes
      an account keeps its fields within their Rust types.  TypedSystem: so do the rules of
      [step], whose arguments have the types of the instruction's arguments ([run_typed]).
      Withdrawals and SystemLiveness build on it.

    Other programs: MockOracle (programs/pyth), Faucet (programs/mock_usdc_faucet).

    ** How the model follows the code

    A function has the name of the Rust function; one that is part of a Rust function
    says so.  [&mut] arguments are passed and returned.  The maps of accounts keep the
    dynamic borrows of [AccountLoader]: a mutable borrow leaves [MutBorrowed] behind, so
    that a second borrow fails as it does in the code, and an account that is passed
    twice is one cell.  The oracle map carries its cache of prices.  Loops over the fixed
    arrays of a user or over the accounts of an instruction are recursive on the list.

    Code outside of the repository is the argument of the definitions that use it: big
    integers ([BnLib], [BnBytes]), integer roots ([Roots]), the oracle formats
    ([OracleAccounts]), the token program ([TokenProgram], [MintProgram]) and the
    derivation of addresses ([ProgramAddresses], [FaucetAddresses]).  What the proofs
    need of them is in the classes [...Laws], each with an instance.  No definition uses
    fuel, except the search of a root in the instance of [Roots] that the examples run
    on: 130 halvings of a range below 2^128.

    ** What is proved

    - The exchange as a whole (System, on top of BankLedger, BankOrders, BankTypes,
      Frames, Exposure, TradingProps, LiquidationProps, AdminProps): whatever instructions
      are run by whoever, the positions of a user count its open orders, balances are not
      negative and the totals of every bank are the sums of the balances of users and
      profit pools, exactly so as long as no profit or loss is settled
      ([system_invariant], [system_books_exact]); the net position that a market counts is
      the sum of the positions of its users (SystemExposure, [market_counts_positions]);
      only the administrator changes parameters ([params_change_by_admin]); accounts stay
      and stay their owner's ([user_stays_owned]); trading moves no funds ([trading_keeps_funds]); numbers of a
      bank stay within their types, its parameters stay and its interest grows
      ([banks_stay_typed]); in every state that the exchange can reach a user with
      deposits and nothing else can withdraw them ([lenders_can_withdraw]).  BankLedger has the abstract moves of balances, [balanced],
      that every instruction on balances is shown to refine.
    - Custody of the tokens (Transactions, Custody): what is sent to the program is a step
      of one of its signers ([transactions_refine_steps]); the vaults stay token accounts
      of the program at the addresses of their seeds, which never collide
      ([vaults_in_custody]); tokens leave a vault only by the instructions that are meant
      to take them out and with the signature that these need ([bank_vault_debits],
      [insurance_vault_debits]).
    - The log (EventSystem, EventProps, EventFills): the instructions with their logs are
      the instructions ([recorded_step], [step_recorded]); the records of a market are
      numbered without a gap ([records_are_numbered]); the records say what was done, for
      payments of funding, deposits and withdrawals, fills, liquidations and what the
      administrator does to curves
      ([funding_payments_recorded], [deposits_recorded], [fill_order_recorded],
      [liquidation_recorded], [curve_changes_recorded]).
    - Conservation: fees of fills and of trades move quote between user, filler,
      referrer and market and make none ([settle_fill_conserves],
      [settle_trade_conserves], [taker_fee_conserved]); the rates of a funding update credit
      the two sides no more than leaves the fees ([funding_is_covered]); a position and its market move
      together ([update_position_with_base_asset_amount_tracks]); a round trip on the
      curve loses ([base_swap_round_trip_loses]); interest that depositors earn is paid
      by borrowers ([interest_covered_by_borrows]).
    - What must hold when an instruction succeeds: [withdraw_safe], [open_position_safe],
      [liquidate_safe], [fill_order_within_order], [update_k_ix_safe],
      [repeg_amm_curve_safe], [withdraw_fees_bounded]; and that a user can cancel
      ([cancel_order_succeeds]).
    - What the checks of a fill compare: the requirement and the collateral as sums over
      the balances and positions of a user ([fill_requirement_spec]).
    - Equivalence with a reference: the margin computation with the cache of oracle
      prices and the one without ([margin_cache_transparent]), the validation of orders
      and of oracles ([validate_order_accepts], [is_oracle_valid_spec]), the loading of
      markets ([load_market_map_takes_prefix]).
    - Bounds and rounding of rates, rewards, averages, scales and waits.
    Examples, Witnesses, SystemExamples, EventExamples and CustodyExamples run the model on
    concrete states: a run of the whole exchange from its creation to an order and a trade, one by
    transactions to a withdrawal, fills, a liquidation.

    ** What modelling showed

    [PNLPool::decrease_balance] adds instead of subtracting, so that the books are exact
    only without settlements; [transfer_deposit] fails unless the sender's balance
    becomes zero ([transfer_deposit_empties_sender]); the partial margin requirement is
    divided twice, so that a post-only order is filled for a user who is liquidated in full
    ([fill_requirement_spec] and its witness); an account that borrows cannot be liquidated
    ([borrower_is_not_liquidated]); a move of the price by the administrator, and the
    re-peg in front of a fill, change the curve without a record of it
    ([curve_changes_recorded]); a bid above the mark price (AmmMath); a division by
    zero for a spread of 1 (AmmMath); a budget for k that aborts (CurveMath); the partial
    margin ratio of a new market is not checked (AdminProps); an order that is reduce-only
    and immediate-or-cancel may be filled and then fail (SystemExamples).

    ** What is not modelled

    - Log messages and the encoding of the records in the log of the chain.
    - Of the account contexts, the [mut] flags and the rent and program accounts, which
      the Anchor framework checks to be the cluster's.  CancelAllOrders and ExpireOrder
      are contexts of no instruction.
    - The byte layout of accounts, which derives from libraries; the methods of AMM in
      state/market.rs that repeat state/oracle.rs word for word are modelled once, in
      Oracle; the paddings of records and unused constants.
    - The clients: SDK, command line, tests.

    ** Plan

    Next: when fills and liquidations succeed, as Liveness has for cancellations and
    SystemLiveness for withdrawals; that the vault of a bank covers what its depositors
    are owed along a run. *)

From stdpp Require Import base numbers list option gmap.
Local Open Scope Z_scope.

(** ** Error codes (error.rs) *)

Inductive ErrorCode :=
  | InvalidBankAuthority | InvalidInsuranceAccountAuthority | InsufficientDeposit
  | InsufficientCollateral | SufficientCollateral | MaxNumberOfPositions
  | AdminControlsPricesDisabled | MarketIndexNotInitialized
  | MarketIndexAlreadyInitialized | UserAccountAndUserPositionsAccountMismatch
  | UserHasNoPositionInMarket | InvalidInitialPeg | InvalidRepegRedundant
  | InvalidRepegDirection | InvalidRepegProfitability | SlippageOutsideLimit
  | TradeSizeTooSmall | InvalidUpdateK | AdminWithdrawTooLarge | MathError
  | BnConversionError | ClockUnavailable | UnableToLoadOracle | OracleMarkSpreadLimit
  | ExchangePaused | InvalidWhitelistToken | WhitelistTokenNotFound
  | InvalidDiscountToken | DiscountTokenNotFound | InvalidReferrer | ReferrerNotFound
  | InvalidOracle | OracleNotFound | LiquidationsBlockedByOracle | UserMaxDeposit
  | CantDeleteUserWithCollateral | InvalidFundingProfitability | CastingFailure
  | InvalidOrder | UserHasNoOrder | OrderAmountTooSmall | MaxNumberOfOrders
  | OrderDoesNotExist | OrderNotOpen | CouldNotFillOrder
  | ReduceOnlyOrderIncreasedRisk | OrderStateAlreadyInitialized
  | UnableToLoadAccountLoader | TradeSizeTooLarge | UserCantReferThemselves
  | DidNotReceiveExpectedReferrer | CouldNotDeserializeReferrer
  | MarketOrderMustBeInPlaceAndFill | UserOrderIdAlreadyInUse
  | NoPositionsLiquidatable | InvalidMarginRatio | CantCancelPostOnlyOrder
  | InvalidOracleOffset | CantExpireOrders | CouldNotLoadMarketData | MarketNotFound
  | InvalidMarketAccount | UnableToLoadMarketAccount | MarketWrongMutability
  | UnableToCastUnixTime | CouldNotFindBankBalance | NoUserBankBalanceAvailable
  | InvalidBankInitialization | CouldNotLoadBankData | BankNotFound
  | InvalidBankAccount | UnableToLoadBankAccount | BankWrongMutability
  | BankInterestNotUpToDate | BankInsufficientDeposits
  | UserMustSettleTheirOwnPositiveUnsettledPNL | CantUpdatePNLPoolBalanceType.

#[export] Instance ErrorCode_eq_dec : EqDecision ErrorCode.
Proof. solve_decision. Defined.

(** ** Results

    [Ok] and [Err] are Rust's [Result<T, ErrorCode>]; [Panic] is an aborted
    instruction ([assert!], [unwrap] on a failure, [panic!], an integer
    division by zero, an index out of range).  A state that a function updates
    through [&mut] is returned only by [Ok]: a Solana instruction that returns
    an error or panics leaves every account as it was. *)
Inductive result (A : Type) : Type :=
| Ok (a : A)
| Err (e : ErrorCode)
| Panic.
Arguments Ok {A} a.
Arguments Err {A} e.
Arguments Panic {A}.

#[export] Instance result_eq_dec {A} `{EqDecision A} : EqDecision (result A).
Proof. solve_decision. Defined.

Definition bind {A B} (m : result A) (f : A → result B) : result B :=
  match m with
  | Ok a => f a
  | Err e => Err e
  | Panic => Panic
  end.

Declare Scope rust_scope.
Delimit Scope rust_scope with rust.

(** The [?] operator: [let? x := m in k] is [let x = m?; k]. *)
Notation "'let?' x := m 'in' k" := (bind m (λ x, k))
  (at level 10, x name, m at level 100, k at level 200,
   format "'[v' 'let?'  x  :=  '[' m ']'  'in' '/' k ']'") : rust_scope.
Notation "'let?' ' p := m 'in' k" := (bind m (λ p, k))
  (at level 10, p strict pattern, m at level 100, k at level 200,
   format "'[v' 'let?'  ' p  :=  '[' m ']'  'in' '/' k ']'") : rust_scope.
Open Scope rust_scope.

Definition ok_or {A} (o : option A) (e : ErrorCode) : result A :=
  match o with Some a => Ok a | None => Err e end.

(** [Option::unwrap] *)
Definition unwrap {A} (o : option A) : result A :=
  match o with Some a => Ok a | None => Panic end.

(** [Result::unwrap] *)
Definition unwrap_result {A} (r : result A) : result A :=
  match r with Ok a => Ok a | _ => Panic end.

Definition is_ok {A} (r : result A) : bool :=
  match r with Ok _ => true | _ => false end.

(** The [validate!] macro (macros.rs), without its log lines. *)
Definition validate (cond : bool) (e : ErrorCode) : result () :=
  if cond then Ok () else Err e.

(** [assert!] *)
Definition rust_assert (cond : bool) : result () :=
  if cond then Ok () else Panic.

(** ** Machine integers

    A value of an integer type is a [Z]; the type of each operation says where
    it overflows.  [checked_*] are the standard library's methods; the
    unchecked operators wrap, as the release profile of the workspace (which
    does not set [overflow-checks]) compiles them. *)
Inductive ity := U8 | U16 | U32 | U64 | U128 | I32 | I64 | I128.

Definition is_signed (t : ity) : bool :=
  match t with I32 | I64 | I128 => true | _ => false end.

Definition modulus (t : ity) : Z :=
  match t with
  | U8 => 256
  | U16 => 65536
  | U32 | I32 => 4294967296
  | U64 | I64 => 18446744073709551616
  | U128 | I128 => 340282366920938463463374607431768211456
  end.

Definition int_min (t : ity) : Z :=
  match t with
  | I32 => -2147483648
  | I64 => -9223372036854775808
  | I128 => -170141183460469231731687303715884105728
  | _ => 0
  end.

Definition int_max (t : ity) : Z :=
  match t with
  | U8 => 255
  | U16 => 65535
  | U32 => 4294967295
  | U64 => 18446744073709551615
  | U128 => 340282366920938463463374607431768211455
  | I32 => 2147483647
  | I64 => 9223372036854775807
  | I128 => 170141183460469231731687303715884105727
  end.

Definition in_range (t : ity) (z : Z) : bool :=
  (int_min t <=? z) && (z <=? int_max t).

(** The proposition that [z] is a value of the type [t]. *)
Definition has_type (t : ity) (z : Z) : Prop := int_min t ≤ z ≤ int_max t.

Definition checked (t : ity) (z : Z) : option Z :=
  if in_range t z then Some z else None.

Definition checked_add (t : ity) (a b : Z) : option Z := checked t (a + b).
Definition checked_sub (t : ity) (a b : Z) : option Z := checked t (a - b).
Definition checked_mul (t : ity) (a b : Z) : option Z := checked t (a * b).

(** Division truncates toward zero. *)
Definition int_quot (t : ity) (a b : Z) : Z :=
  if is_signed t then Z.quot a b else a / b.

Definition checked_div (t : ity) (a b : Z) : option Z :=
  if b =? 0 then None else checked t (int_quot t a b).

(** Two's complement wrap-around: [as] casts and the unchecked operators. *)
Definition wrap (t : ity) (z : Z) : Z := (z - int_min t) mod modulus t + int_min t.

(** The operators [/] and [Div::div]: a zero divisor panics. *)
Definition op_div (t : ity) (a b : Z) : result Z :=
  if b =? 0 then Panic else Ok (wrap t (int_quot t a b)).

(** [unsigned_abs] of a signed value. *)
Definition unsigned_abs (z : Z) : Z := Z.abs z.

(** [b.pow(e)] wraps. *)
Definition int_pow (t : ity) (b e : Z) : Z := wrap t (b ^ e).

(** [r.or(Err(e))] *)
Definition or_err {A} (r : result A) (e : ErrorCode) : result A :=
  match r with Err _ => Err e | r => r end.

(** [x.checked_op(y).ok_or_else(math_error!())] *)
Definition math {A} (o : option A) : result A := ok_or o MathError.
Definition cadd (t : ity) (a b : Z) : result Z := math (checked_add t a b).
Definition csub (t : ity) (a b : Z) : result Z := math (checked_sub t a b).
Definition cmul (t : ity) (a b : Z) : result Z := math (checked_mul t a b).
Definition cdiv (t : ity) (a b : Z) : result Z := math (checked_div t a b).

(** [cast], [cast_to_i128], [cast_to_u128], [cast_to_i64] and [cast_to_u64]
    (math/casting.rs): the first argument is the target type. *)
Definition cast (t : ity) (z : Z) : result Z :=
  ok_or (checked t z) CastingFailure.
Definition cast_to_i128 : Z → result Z := cast I128.
Definition cast_to_u128 : Z → result Z := cast U128.
Definition cast_to_i64 : Z → result Z := cast I64.
Definition cast_to_u64 : Z → result Z := cast U64.

(** The [get_then_update_id!] macro (macros.rs): the current id and the next
    one, which starts again at 1 when the counter is full. *)
Definition get_then_update_id (current_id : Z) : Z * Z :=
  (current_id, match checked_add U64 current_id 1 with Some n => n | None => 1 end).

(** ** Updating one field of a record

    [r <| f := v |>] is the assignment [r.f = v].  The setter of a field is
    computed from the record's eta-expansion, an instance of [Eta]. *)
Class Eta (R : Type) := eta_expand : R → R.
Class Setter {R T : Type} (proj : R → T) := put : T → R → R.
#[global] Hint Mode Setter - - + : typeclass_instances.

Ltac build_setter proj :=
  lazymatch type of proj with
  | ?R → ?T =>
      let inst := constr:(_ : Eta R) in
      exact (λ (v : T) (r : R),
        ltac:(let e := eval hnf in (inst r) in
              lazymatch eval pattern (proj r) in e with
              | ?g _ => let b := eval cbv beta in (g v) in exact b
              end))
  end.
#[export] Hint Extern 1 (Setter ?proj) => build_setter proj : typeclass_instances.

Notation "r <| p := v |>" := (put (proj := p) v r)
  (at level 1, left associativity, p constr, v constr at level 200,
   format "r  <|  p  :=  v  |>") : rust_scope.

(** ** Inversion of successful computations *)

Lemma Ok_inj {A} (a b : A) : Ok a = Ok b → a = b.
Proof. by injection 1. Qed.

Lemma bind_ok {A B} (m : result A) (f : A → result B) b :
  bind m f = Ok b ↔ ∃ a, m = Ok a ∧ f a = Ok b.
Proof. destruct m; simpl; naive_solver. Qed.

Lemma ok_or_ok {A} (o : option A) e a : ok_or o e = Ok a ↔ o = Some a.
Proof. destruct o; simpl; naive_solver. Qed.

Lemma unwrap_ok {A} (o : option A) a : unwrap o = Ok a ↔ o = Some a.
Proof. destruct o; simpl; naive_solver. Qed.

Lemma unwrap_result_ok {A} (r : result A) a : unwrap_result r = Ok a ↔ r = Ok a.
Proof. destruct r; simpl; naive_solver. Qed.

Lemma validate_ok c e u : validate c e = Ok u ↔ c = true.
Proof. destruct c, u; simpl; naive_solver. Qed.

Lemma or_err_ok {A} (r : result A) e a : or_err r e = Ok a ↔ r = Ok a.
Proof. destruct r; simpl; naive_solver. Qed.

Lemma rust_assert_ok c u : rust_assert c = Ok u ↔ c = true.
Proof. destruct c, u; simpl; naive_solver. Qed.

Lemma in_range_true t z : in_range t z = true ↔ has_type t z.
Proof. unfold in_range, has_type. rewrite andb_true_iff, !Z.leb_le. done. Qed.

Lemma checked_some t z c : checked t z = Some c ↔ c = z ∧ has_type t z.
Proof.
  unfold checked. rewrite <-in_range_true. destruct (in_range t z); naive_solver.
Qed.

Lemma checked_in t z : has_type t z → checked t z = Some z.
Proof. intros. by apply checked_some. Qed.

Lemma checked_upper t z :
  int_min t ≤ z → checked t z = if int_max t <? z then None else Some z.
Proof.
  intros. unfold checked, in_range. rewrite (proj2 (Z.leb_le (int_min t) z)) by done.
  rewrite Z.ltb_antisym. by destruct (z <=? int_max t).
Qed.

Lemma checked_lower t z :
  z ≤ int_max t → checked t z = if z <? int_min t then None else Some z.
Proof.
  intros. unfold checked, in_range. rewrite (proj2 (Z.leb_le z (int_max t))) by done.
  rewrite andb_true_r, Z.ltb_antisym. by destruct (int_min t <=? z).
Qed.

Lemma cadd_ok t a b c : cadd t a b = Ok c ↔ c = a + b ∧ has_type t (a + b).
Proof. unfold cadd, math. by rewrite ok_or_ok, <-checked_some. Qed.
Lemma csub_ok t a b c : csub t a b = Ok c ↔ c = a - b ∧ has_type t (a - b).
Proof. unfold csub, math. by rewrite ok_or_ok, <-checked_some. Qed.
Lemma cmul_ok t a b c : cmul t a b = Ok c ↔ c = a * b ∧ has_type t (a * b).
Proof. unfold cmul, math. by rewrite ok_or_ok, <-checked_some. Qed.

Lemma cdiv_ok t a b c :
  cdiv t a b = Ok c ↔ b ≠ 0 ∧ c = int_quot t a b ∧ has_type t (int_quot t a b).
Proof.
  unfold cdiv, math. rewrite ok_or_ok. unfold checked_div.
  destruct (Z.eqb_spec b 0); [naive_solver|]. rewrite checked_some. naive_solver.
Qed.

Lemma cadd_in t a b : has_type t (a + b) → cadd t a b = Ok (a + b).
Proof. intros. by apply cadd_ok. Qed.
Lemma csub_in t a b : has_type t (a - b) → csub t a b = Ok (a - b).
Proof. intros. by apply csub_ok. Qed.
Lemma cmul_in t a b : has_type t (a * b) → cmul t a b = Ok (a * b).
Proof. intros. by apply cmul_ok. Qed.
(** The quotient of unsigned integers has their type. *)
Lemma cdiv_in t a b :
  is_signed t = false → 0 < b → has_type t a → cdiv t a b = Ok (a / b).
Proof.
  intros Ht Hb Ha. assert (0 ≤ a) by (revert Ha; unfold has_type; destruct t; simpl; by try lia).
  apply cdiv_ok. unfold int_quot. rewrite Ht. split_and!; [lia|done|].
  assert (0 ≤ a / b ≤ a).
  { split; [by apply Z.div_pos|]. apply Z.div_le_upper_bound; [done|]. nia. }
  revert Ha. unfold has_type. destruct t; simpl in *; try done; lia.
Qed.

Lemma cast_ok t z c : cast t z = Ok c ↔ c = z ∧ has_type t z.
Proof. unfold cast. by rewrite ok_or_ok, <-checked_some. Qed.

Lemma cast_in t z : has_type t z → cast t z = Ok z.
Proof. intros. by apply cast_ok. Qed.

Lemma op_div_ok t a b c :
  op_div t a b = Ok c ↔ b ≠ 0 ∧ c = wrap t (int_quot t a b).
Proof. unfold op_div. destruct (Z.eqb_spec b 0); naive_solver. Qed.

Lemma has_type_nonneg t z : is_signed t = false → has_type t z → 0 ≤ z.
Proof. unfold has_type. destruct t; simpl; intros; by try lia. Qed.

Lemma modulus_range t : modulus t = int_max t - int_min t + 1.
Proof. by destruct t. Qed.

Lemma wrap_range t z : has_type t (wrap t z).
Proof.
  unfold has_type, wrap. rewrite modulus_range.
  assert (0 < int_max t - int_min t + 1) by (by destruct t).
  pose proof (Z.mod_pos_bound (z - int_min t) (int_max t - int_min t + 1)). lia.
Qed.

Lemma wrap_in t z : has_type t z → wrap t z = z.
Proof.
  unfold has_type, wrap. intros. rewrite modulus_range, Z.mod_small; lia.
Qed.

(** The type bounds of unsigned results, in the form [lia] uses. *)
Lemma div_nonneg_le a b : 0 ≤ a → 0 < b → 0 ≤ a / b ≤ a.
Proof.
  intros. split; [by apply Z.div_pos|].
  apply Z.div_le_upper_bound; [done|]. nia.
Qed.

Lemma mul_div_le' a b : 0 < b → a / b * b ≤ a.
Proof. intros. pose proof (Z.mul_div_le a b). lia. Qed.

(** Two computations that end in the same way, with related values. *)
Definition result_rel {A B} (R : A → B → Prop) (r : result A) (r' : result B) : Prop :=
  match r, r' with
  | Ok a, Ok b => R a b
  | Err e, Err e' => e = e'
  | Panic, Panic => True
  | _, _ => False
  end.

Lemma result_rel_refl {A} (R : A → A → Prop) r : (∀ a, R a a) → result_rel R r r.
Proof. destruct r; simpl; auto. Qed.

Lemma result_rel_bind {A A' B B'} (R : A → A' → Prop) (S : B → B' → Prop) m m' f f' :
  result_rel R m m' → (∀ a a', R a a' → result_rel S (f a) (f' a')) →
  result_rel S (bind m f) (bind m' f').
Proof. destruct m, m'; simpl; naive_solver. Qed.

(** The same computation first, then related continuations. *)
Lemma result_rel_same {A B B'} (S : B → B' → Prop) (m : result A) f f' :
  (∀ a, m = Ok a → result_rel S (f a) (f' a)) → result_rel S (bind m f) (bind m f').
Proof. destruct m; simpl; auto. Qed.

(** The sum of a number of each element of a list. *)
Definition sum_of {A} (f : A → Z) (l : list A) : Z := foldr (λ a x, f a + x) 0 l.

Lemma sum_of_insert {A} (f : A → Z) l k a a' :
  l !! k = Some a → sum_of f (<[k:=a']> l) = sum_of f l - f a + f a'.
Proof.
  revert k. induction l as [|b l IH]; intros [|k] Hk; simplify_eq/=; [lia|].
  rewrite (IH k) by done. lia.
Qed.

Lemma sum_of_app {A} (f : A → Z) l1 l2 : sum_of f (l1 ++ l2) = sum_of f l1 + sum_of f l2.
Proof.
  unfold sum_of. induction l1 as [|a l1 IH]; [done|]. simpl in *. rewrite IH. lia.
Qed.

Lemma sum_of_nonneg {A} (f : A → Z) l : Forall (λ a, 0 ≤ f a) l → 0 ≤ sum_of f l.
Proof. induction 1; simpl; lia. Qed.

Arguments sum_of : simpl never.

(** [ok_step] inverts one hypothesis about a successful computation. *)
Ltac ok_step :=
  match goal with
  | H : Ok _ = Ok _ |- _ => apply Ok_inj in H; simplify_eq
  | H : Err _ = Ok _ |- _ => discriminate H
  | H : Panic = Ok _ |- _ => discriminate H
  | H : bind _ _ = Ok _ |- _ =>
      let x := fresh "x" in let Hx := fresh "Hx" in
      apply bind_ok in H as (x & Hx & H); cbv beta in H
  | H : cadd _ _ _ = Ok _ |- _ => apply cadd_ok in H as [? ?]
  | H : csub _ _ _ = Ok _ |- _ => apply csub_ok in H as [? ?]
  | H : cmul _ _ _ = Ok _ |- _ => apply cmul_ok in H as [? ?]
  | H : cdiv _ _ _ = Ok _ |- _ => apply cdiv_ok in H as (? & ? & ?)
  | H : cast _ _ = Ok _ |- _ => apply cast_ok in H as [? ?]
  | H : cast_to_i128 _ = Ok _ |- _ => apply cast_ok in H as [? ?]
  | H : cast_to_u128 _ = Ok _ |- _ => apply cast_ok in H as [? ?]
  | H : cast_to_i64 _ = Ok _ |- _ => apply cast_ok in H as [? ?]
  | H : cast_to_u64 _ = Ok _ |- _ => apply cast_ok in H as [? ?]
  | H : op_div _ _ _ = Ok _ |- _ => apply op_div_ok in H as [? ?]
  | H : ok_or _ _ = Ok _ |- _ => apply ok_or_ok in H
  | H : math _ = Ok _ |- _ => apply ok_or_ok in H
  | H : unwrap _ = Ok _ |- _ => apply unwrap_ok in H
  | H : unwrap_result _ = Ok _ |- _ => apply (proj1 (unwrap_result_ok _ _)) in H
  | H : or_err _ _ = Ok _ |- _ => apply (proj1 (or_err_ok _ _ _)) in H
  | H : validate _ _ = Ok _ |- _ => apply validate_ok in H
  | H : rust_assert _ = Ok _ |- _ => apply rust_assert_ok in H
  | H : (let '(_, _) := (_, _) in _) = Ok _ |- _ => cbv beta iota in H
  | H : (let '() := ?u in _) = Ok _ |- _ => destruct u
  | H : (let '(_, _) := ?p in _) = Ok _ |- _ => destruct p as [? ?] eqn:?
  | H : (if ?b then _ else _) = Ok _ |- _ => destruct b eqn:?
  end.
Ltac inv_ok := repeat (ok_step; try subst).

(** The steps of a computation, one after the other, whatever they compute. *)
Ltac skip_steps H :=
  repeat first
    [ apply bind_ok in H as (? & _ & H); cbv beta in H
    | match type of H with (let '(_, _) := ?p in _) = _ => destruct p end
    | match type of H with (let '() := ?u in _) = _ => destruct u end
    | match type of H with (if ?b then _ else _) = _ => destruct b end
    | match type of H with Ok _ = Ok _ => apply Ok_inj in H; (first [injection H as | idtac]); subst end].

(** What a computation guarantees of its result.  The instances are lemmas about the
    functions of the program, which [frame_steps] applies as it goes through the steps of
    a computation, in place of what the functions compute. *)
Class Frame {A} (r : result A) (P : A → Prop) : Prop := frame : ∀ a, r = Ok a → P a.
#[global] Hint Mode Frame - ! - : typeclass_instances.

Ltac frame_step :=
  match goal with
  | H : _ ∧ _ |- _ => destruct H
  | H : Ok _ = Ok _ |- _ => apply Ok_inj in H; (first [injection H as | idtac]); subst
  | H : Err _ = Ok _ |- _ => discriminate H
  | H : Panic = Ok _ |- _ => discriminate H
  | H : bind _ _ = Ok _ |- _ => apply bind_ok in H as (? & ? & H); cbv beta in H
  | H : (let '(_, _) := ?p in _) = Ok _ |- _ => first [is_var p; destruct p | destruct p eqn:?]
  | H : (let '() := ?u in _) = Ok _ |- _ => destruct u
  | H : (if ?b then _ else _) = Ok _ |- _ => destruct b
  | H : match ?x with _ => _ end = Ok _ |- _ => is_var x; destruct x
  | H : ?r = Ok _ |- _ => let F := fresh "Hf" in pose proof (frame (r := r) _ H) as F;
                          cbv beta in F; cbn [fst snd] in F; clear H
  | H : _ = Ok _ |- _ => clear H
  end.
Ltac frame_steps := repeat frame_step.

(** [unfold_int] exposes the numeric bounds of the integer types. *)
Ltac unfold_int :=
  unfold has_type, int_quot in *; cbn [int_min int_max is_signed] in *.

(** [bool_prop] turns boolean comparisons into propositions. *)
Ltac bool_prop :=
  repeat match goal with
  | H : _ && _ = true |- _ => apply andb_true_iff in H as [? ?]
  | H : _ && _ = false |- _ => apply andb_false_iff in H
  | H : _ || _ = true |- _ => apply orb_true_iff in H
  | H : _ || _ = false |- _ => apply orb_false_iff in H as [? ?]
  | H : negb _ = true |- _ => apply negb_true_iff in H
  | H : negb _ = false |- _ => apply negb_false_iff in H
  | H : (_ <? _) = true |- _ => apply Z.ltb_lt in H
  | H : (_ <? _) = false |- _ => apply Z.ltb_ge in H
  | H : (_ <=? _) = true |- _ => apply Z.leb_le in H
  | H : (_ <=? _) = false |- _ => apply Z.leb_gt in H
  | H : (_ =? _) = true |- _ => apply Z.eqb_eq in H
  | H : (_ =? _) = false |- _ => apply Z.eqb_neq in H
  | H : (_ >? _) = true |- _ => rewrite Z.gtb_ltb in H
  | H : (_ >? _) = false |- _ => rewrite Z.gtb_ltb in H
  | H : (_ >=? _) = true |- _ => rewrite Z.geb_leb in H
  | H : (_ >=? _) = false |- _ => rewrite Z.geb_leb in H
  end.

(** The lemmas that close the common side conditions: typed values and preserved
    totals. *)
Create HintDb drift.
#[export] Hint Resolve wrap_range checked_in cast_in : drift.

(** [int_lia] closes arithmetic goals about typed integers. *)
Ltac int_lia := unfold_int; bool_prop; lia.
