(* ===== verification/Constants.v ===== *)
(** * Constants (math/constants.rs)

    The constants the modelled code reads, with the expressions of the source;
    a derived constant is evaluated once, so that arithmetic tactics see a
    literal.  Unused constants of the source are left out. *)

From stdpp Require Import base numbers.
From S2P Require Import Prelude.
Local Open Scope Z_scope.

Definition AMM_RESERVE_PRECISION : Z := 10000000000000.
Definition MARK_PRICE_PRECISION : Z := 10000000000.
Definition MARK_PRICE_PRECISION_I128 : Z := 10000000000.
Definition QUOTE_PRECISION : Z := 1000000.
Definition FUNDING_PAYMENT_PRECISION : Z := 10000.
Definition MARGIN_PRECISION : Z := 10000.
Definition PEG_PRECISION : Z := 1000.
Definition BID_ASK_SPREAD_PRECISION : Z := 1000000.
Definition BID_ASK_SPREAD_PRECISION_I128 : Z := BID_ASK_SPREAD_PRECISION.
Definition BANK_INTEREST_PRECISION : Z := 1000000.
Definition BANK_CUMULATIVE_INTEREST_PRECISION : Z := 10000000000.
Definition BANK_UTILIZATION_PRECISION : Z := 1000000.
Definition BANK_WEIGHT_PRECISION : Z := 100.

Definition PRICE_TO_PEG_PRECISION_RATIO : Z :=
  Eval vm_compute in MARK_PRICE_PRECISION / PEG_PRECISION.
Definition AMM_TO_QUOTE_PRECISION_RATIO : Z :=
  Eval vm_compute in AMM_RESERVE_PRECISION / QUOTE_PRECISION.
Definition AMM_TO_QUOTE_PRECISION_RATIO_I128 : Z :=
  Eval vm_compute in AMM_RESERVE_PRECISION / QUOTE_PRECISION.
Definition AMM_TIMES_PEG_TO_QUOTE_PRECISION_RATIO : Z :=
  Eval vm_compute in AMM_RESERVE_PRECISION * PEG_PRECISION / QUOTE_PRECISION.
Definition QUOTE_TO_BASE_AMT_FUNDING_PRECISION : Z :=
  Eval vm_compute in AMM_RESERVE_PRECISION * MARK_PRICE_PRECISION
                     * FUNDING_PAYMENT_PRECISION / QUOTE_PRECISION.
Definition PRICE_TO_QUOTE_PRECISION_RATIO : Z :=
  Eval vm_compute in MARK_PRICE_PRECISION / QUOTE_PRECISION.
Definition MARK_PRICE_TIMES_AMM_TO_QUOTE_PRECISION_RATIO : Z :=
  Eval vm_compute in MARK_PRICE_PRECISION * AMM_TO_QUOTE_PRECISION_RATIO.
Definition AMM_TIMES_PEG_TO_QUOTE_PRECISION_RATIO_I128 : Z :=
  AMM_TIMES_PEG_TO_QUOTE_PRECISION_RATIO.
Definition MARK_PRICE_TIMES_AMM_TO_QUOTE_PRECISION_RATIO_I128 : Z :=
  MARK_PRICE_TIMES_AMM_TO_QUOTE_PRECISION_RATIO.

Definition SHARE_OF_FEES_ALLOCATED_TO_CLEARING_HOUSE_NUMERATOR : Z := 1.
Definition SHARE_OF_FEES_ALLOCATED_TO_CLEARING_HOUSE_DENOMINATOR : Z := 2.
Definition UPDATE_K_ALLOWED_PRICE_CHANGE : Z :=
  Eval vm_compute in MARK_PRICE_PRECISION / 10000.

Definition ONE_HOUR : Z := 3600.
Definition ONE_HOUR_I128 : Z := 3600.
Definition ONE_YEAR : Z := 31536000.
Definition TWENTYFOUR_HOUR : Z := 86400.

Definition MAX_LIQUIDATION_SLIPPAGE : Z := 10000.
Definition MAX_LIQUIDATION_SLIPPAGE_U128 : Z := 10000.
Definition MAX_MARK_TWAP_DIVERGENCE : Z := 500000.
Definition MAXIMUM_MARGIN_RATIO : Z := MARGIN_PRECISION.
Definition MINIMUM_MARGIN_RATIO : Z := Eval vm_compute in MARGIN_PRECISION / 50.

Definition K_BPS_UPDATE_SCALE : Z := 1000000.
Definition K_BPS_DECREASE_MAX : Z := 22000.
Definition K_BPS_INCREASE_MAX : Z := 1000.

Definition DEFAULT_FEE_NUMERATOR : Z := 10.
Definition DEFAULT_FEE_DENOMINATOR : Z := 10000.
Definition DEFAULT_DISCOUNT_TOKEN_FIRST_TIER_MINIMUM_BALANCE : Z := 1000000000000.
Definition DEFAULT_DISCOUNT_TOKEN_FIRST_TIER_DISCOUNT_NUMERATOR : Z := 20.
Definition DEFAULT_DISCOUNT_TOKEN_FIRST_TIER_DISCOUNT_DENOMINATOR : Z := 100.
Definition DEFAULT_DISCOUNT_TOKEN_SECOND_TIER_MINIMUM_BALANCE : Z := 100000000000.
Definition DEFAULT_DISCOUNT_TOKEN_SECOND_TIER_DISCOUNT_NUMERATOR : Z := 15.
Definition DEFAULT_DISCOUNT_TOKEN_SECOND_TIER_DISCOUNT_DENOMINATOR : Z := 100.
Definition DEFAULT_DISCOUNT_TOKEN_THIRD_TIER_MINIMUM_BALANCE : Z := 10000000000.
Definition DEFAULT_DISCOUNT_TOKEN_THIRD_TIER_DISCOUNT_NUMERATOR : Z := 10.
Definition DEFAULT_DISCOUNT_TOKEN_THIRD_TIER_DISCOUNT_DENOMINATOR : Z := 100.
Definition DEFAULT_DISCOUNT_TOKEN_FOURTH_TIER_MINIMUM_BALANCE : Z := 1000000000.
Definition DEFAULT_DISCOUNT_TOKEN_FOURTH_TIER_DISCOUNT_NUMERATOR : Z := 5.
Definition DEFAULT_DISCOUNT_TOKEN_FOURTH_TIER_DISCOUNT_DENOMINATOR : Z := 100.
Definition DEFAULT_REFERRER_REWARD_NUMERATOR : Z := 5.
Definition DEFAULT_REFERRER_REWARD_DENOMINATOR : Z := 100.
Definition DEFAULT_REFEREE_DISCOUNT_NUMERATOR : Z := 5.
Definition DEFAULT_REFEREE_DISCOUNT_DENOMINATOR : Z := 100.

Definition QUOTE_ASSET_BANK_INDEX : Z := 0.

(** [unfold_consts] replaces the constants by their values. *)
Ltac unfold_consts :=
  unfold BID_ASK_SPREAD_PRECISION_I128, AMM_TIMES_PEG_TO_QUOTE_PRECISION_RATIO_I128,
    MARK_PRICE_TIMES_AMM_TO_QUOTE_PRECISION_RATIO_I128, MAXIMUM_MARGIN_RATIO in *;
  unfold AMM_RESERVE_PRECISION, MARK_PRICE_PRECISION, MARK_PRICE_PRECISION_I128,
    QUOTE_PRECISION, FUNDING_PAYMENT_PRECISION, MARGIN_PRECISION, PEG_PRECISION,
    BID_ASK_SPREAD_PRECISION, BANK_INTEREST_PRECISION,
    BANK_CUMULATIVE_INTEREST_PRECISION, BANK_UTILIZATION_PRECISION,
    BANK_WEIGHT_PRECISION, PRICE_TO_PEG_PRECISION_RATIO,
    AMM_TO_QUOTE_PRECISION_RATIO, AMM_TO_QUOTE_PRECISION_RATIO_I128,
    AMM_TIMES_PEG_TO_QUOTE_PRECISION_RATIO, QUOTE_TO_BASE_AMT_FUNDING_PRECISION,
    PRICE_TO_QUOTE_PRECISION_RATIO, MARK_PRICE_TIMES_AMM_TO_QUOTE_PRECISION_RATIO,
    SHARE_OF_FEES_ALLOCATED_TO_CLEARING_HOUSE_NUMERATOR,
    SHARE_OF_FEES_ALLOCATED_TO_CLEARING_HOUSE_DENOMINATOR,
    UPDATE_K_ALLOWED_PRICE_CHANGE, ONE_HOUR, ONE_HOUR_I128, ONE_YEAR,
    TWENTYFOUR_HOUR, MAX_LIQUIDATION_SLIPPAGE, MAX_LIQUIDATION_SLIPPAGE_U128,
    MAX_MARK_TWAP_DIVERGENCE, MINIMUM_MARGIN_RATIO, K_BPS_UPDATE_SCALE,
    K_BPS_DECREASE_MAX, K_BPS_INCREASE_MAX, QUOTE_ASSET_BANK_INDEX in *.
