(* ===== verification/Bn.v ===== *)
(** * Big numbers (math/bn.rs)

    [U192] and [U256] are generated by [construct_uint!] of the [uint] crate,
    which is not part of the repository: its operations are the class [BnLib],
    the documented behaviour the code relies on is the class [BnLaws], and
    [Z_bn] is the instance that the concrete examples run on.  A value of a big
    number type is its numeric value.  The conversions of math/bn.rs itself are
    definitions over the class; its byte and Borsh conversions are in BnBytes.v. *)

From stdpp Require Import base numbers option.
From S2P Require Import Prelude.
Local Open Scope Z_scope.

Inductive bn := U192 | U256.

Definition bn_modulus (w : bn) : Z :=
  match w with
  | U192 => 6277101735386680763835789423207666416102355444464034512896
  | U256 => 115792089237316195423570985008687907853269984665640564039457584007913129639936
  end.

Definition bn_range (w : bn) (z : Z) : Prop := 0 ≤ z < bn_modulus w.

Definition bn_checked (w : bn) (z : Z) : option Z :=
  if (0 <=? z) && (z <? bn_modulus w) then Some z else None.

Class BnLib := {
  bn_from : bn → Z → Z;
  bn_checked_add : bn → Z → Z → option Z;
  bn_checked_mul : bn → Z → Z → option Z;
  bn_checked_div : bn → Z → Z → option Z;
  bn_try_into : bn → ity → Z → option Z;
  bn_integer_sqrt : bn → Z → Z;
}.

Class BnLaws `{BnLib} : Prop := {
  bn_from_spec w z : has_type U128 z → bn_from w z = z;
  bn_checked_add_spec w a b :
    bn_range w a → bn_range w b → bn_checked_add w a b = bn_checked w (a + b);
  bn_checked_mul_spec w a b :
    bn_range w a → bn_range w b → bn_checked_mul w a b = bn_checked w (a * b);
  bn_checked_div_spec w a b :
    bn_range w a → bn_range w b →
    bn_checked_div w a b = if b =? 0 then None else Some (a / b);
  bn_try_into_spec w t z : bn_range w z → bn_try_into w t z = checked t z;
  bn_integer_sqrt_spec w z : bn_range w z → bn_integer_sqrt w z = Z.sqrt z;
}.

(** The instance of the concrete examples. *)
#[export] Instance Z_bn : BnLib := {|
  bn_from _ z := z;
  bn_checked_add w a b := bn_checked w (a + b);
  bn_checked_mul w a b := bn_checked w (a * b);
  bn_checked_div w a b := if b =? 0 then None else Some (a / b);
  bn_try_into _ t z := checked t z;
  bn_integer_sqrt _ z := Z.sqrt z;
|}.

#[export] Instance Z_bn_laws : BnLaws.
Proof. by split. Qed.

Section Conversions.
Context `{BnLib}.

(** [x.checked_op(y).ok_or_else(math_error!())] *)
Definition bn_add (w : bn) (a b : Z) : result Z := math (bn_checked_add w a b).
Definition bn_mul (w : bn) (a b : Z) : result Z := math (bn_checked_mul w a b).
Definition bn_div (w : bn) (a b : Z) : result Z := math (bn_checked_div w a b).

Definition try_to_u64 (w : bn) (z : Z) : result Z :=
  ok_or (bn_try_into w U64 z) BnConversionError.
Definition to_u64 (w : bn) (z : Z) : option Z :=
  match try_to_u64 w z with Ok n => Some n | _ => None end.
Definition try_to_u128 (w : bn) (z : Z) : result Z :=
  ok_or (bn_try_into w U128 z) BnConversionError.
Definition to_u128 (w : bn) (z : Z) : option Z :=
  match try_to_u128 w z with Ok n => Some n | _ => None end.
End Conversions.

(** ** Inversion lemmas *)

Lemma u128_bn_range w z : has_type U128 z → bn_range w z.
Proof. unfold has_type, bn_range. destruct w; simpl; lia. Qed.

Section Laws.
Context `{BnLaws}.

Lemma bn_checked_some w z c : bn_checked w z = Some c ↔ c = z ∧ bn_range w z.
Proof.
  unfold bn_checked, bn_range.
  destruct (Z.leb_spec 0 z), (Z.ltb_spec z (bn_modulus w)); simpl; naive_solver lia.
Qed.

Lemma bn_add_ok w a b c :
  bn_range w a → bn_range w b →
  bn_add w a b = Ok c ↔ c = a + b ∧ bn_range w (a + b).
Proof.
  intros. unfold bn_add, math.
  by rewrite ok_or_ok, bn_checked_add_spec, bn_checked_some.
Qed.

Lemma bn_mul_ok w a b c :
  bn_range w a → bn_range w b →
  bn_mul w a b = Ok c ↔ c = a * b ∧ bn_range w (a * b).
Proof.
  intros. unfold bn_mul, math.
  by rewrite ok_or_ok, bn_checked_mul_spec, bn_checked_some.
Qed.

Lemma bn_div_range w a b : bn_range w a → 0 < b → bn_range w (a / b).
Proof. intros [? ?] ?. pose proof (div_nonneg_le a b). unfold bn_range. lia. Qed.

Lemma bn_div_ok w a b c :
  bn_range w a → bn_range w b →
  bn_div w a b = Ok c ↔ 0 < b ∧ c = a / b ∧ bn_range w (a / b).
Proof.
  intros Ha Hb. unfold bn_div, math. rewrite ok_or_ok, bn_checked_div_spec by done.
  destruct (Z.eqb_spec b 0) as [->|]; [naive_solver lia|].
  assert (0 < b) by (destruct Hb; lia).
  pose proof (bn_div_range w a b Ha). naive_solver.
Qed.

Lemma try_to_u128_ok w z c :
  bn_range w z → try_to_u128 w z = Ok c ↔ c = z ∧ has_type U128 z.
Proof.
  intros. unfold try_to_u128. by rewrite ok_or_ok, bn_try_into_spec, checked_some.
Qed.

Lemma bn_sqrt_range w z : bn_range w z → bn_range w (Z.sqrt z).
Proof.
  intros [? ?]. unfold bn_range. pose proof (Z.sqrt_nonneg z).
  pose proof (Z.sqrt_le_lin z). lia.
Qed.
End Laws.

(** [bn_step] inverts one big number operation; the typing hypotheses of its
    operands are found in the context. *)
Ltac bn_range_tac :=
  solve [ assumption
        | apply u128_bn_range; assumption
        | apply u128_bn_range; unfold has_type in *;
          cbn [int_min int_max] in *; lia ].
Ltac bn_step :=
  match goal with
  | H : context [bn_from ?w ?z] |- _ =>
      rewrite (bn_from_spec w z) in H
        by (first [assumption | unfold has_type in *; cbn [int_min int_max] in *; lia])
  | H : bn_add _ _ _ = Ok _ |- _ =>
      apply bn_add_ok in H as [? ?]; [|bn_range_tac..]
  | H : bn_mul _ _ _ = Ok _ |- _ =>
      apply bn_mul_ok in H as [? ?]; [|bn_range_tac..]
  | H : bn_div _ _ _ = Ok _ |- _ =>
      apply bn_div_ok in H as (? & ? & ?); [|bn_range_tac..]
  | H : try_to_u128 _ _ = Ok _ |- _ =>
      apply try_to_u128_ok in H as [? ?]; [|bn_range_tac..]
  end.
Ltac inv_bn := repeat (first [ok_step | bn_step]; try subst).
