(* ===== verification/BnBytes.v ===== *)
(** * Big numbers as bytes (math/bn.rs)

    The byte and Borsh conversions of [U192] and [U256].  Reading and writing the words
    is the [uint] crate's: the class [BnBytes], with the documented behaviour as laws.
    No other module of the program calls these conversions, and those that write cannot
    succeed. *)

From stdpp Require Import base numbers list.
From S2P Require Import Prelude Bn.
Local Open Scope Z_scope.

(** ** Definitions *)

(** A byte is its value. *)
Abbreviation bytes := (list Z).

Definition size_of (w : bn) : nat := match w with U192 => 24 | U256 => 32 end.

(** The number that bytes in little endian order are, and the bytes of a number. *)
Definition le_value (b : bytes) : Z := foldr (λ x acc, x + 256 * acc) 0 b.
Fixpoint le_bytes (n : nat) (z : Z) : bytes :=
  match n with O => [] | S n => z mod 256 :: le_bytes n (z / 256) end.

(** [write_little_endian w z buf] writes into the slice [buf]; [None] is a panic. *)
Class BnBytes := {
  from_little_endian : bn → bytes → Z;
  write_little_endian : bn → Z → bytes → option bytes;
}.

Class BnBytesLaws `{BnBytes} : Prop := {
  from_little_endian_spec w b :
    length b = size_of w → from_little_endian w b = le_value b;
  write_little_endian_spec w z buf :
    length buf = size_of w → write_little_endian w z buf = Some (le_bytes (size_of w) z);
  write_little_endian_short w z buf :
    (length buf < size_of w)%nat → write_little_endian w z buf = None;
}.

#[export] Instance example_bn_bytes : BnBytes := {|
  from_little_endian _ b := le_value b;
  write_little_endian w z buf :=
    if bool_decide (length buf = size_of w) then Some (le_bytes (size_of w) z) else None;
|}.

#[export] Instance example_bn_bytes_laws : BnBytesLaws.
Proof.
  split; intros; cbn [from_little_endian write_little_endian example_bn_bytes]; [done| |].
  - by rewrite bool_decide_true.
  - rewrite bool_decide_false by lia. done.
Qed.

(** The results of [std::io]. *)
Inductive io_error := InvalidInput | OtherIoError.
Inductive io_result (A : Type) :=
| IoOk (a : A)
| IoErr (e : io_error)
| IoPanic.
Arguments IoOk {A} a.
Arguments IoErr {A} e.
Arguments IoPanic {A}.

Section Conversions.
Context `{BnBytes}.

Definition from_le_bytes (w : bn) (b : bytes) : Z := from_little_endian w b.

(** The buffer is a new vector: it has a capacity, and no elements. *)
Definition to_le_bytes (w : bn) (z : Z) : result bytes :=
  let? buf := unwrap (write_little_endian w z []) in
  if bool_decide (length buf = size_of w) then Ok buf else Panic.

(** [write_all] is the writer's. *)
Definition serialize {W} (write_all : W → bytes → io_result W) (w : bn) (z : Z) (writer : W)
    : io_result W :=
  match to_le_bytes w z with
  | Ok b => write_all writer b
  | _ => IoPanic
  end.

Definition deserialize (w : bn) (buf : bytes) : io_result (Z * bytes) :=
  if bool_decide (length buf < size_of w)%nat then IoErr InvalidInput
  else IoOk (from_le_bytes w (take (size_of w) buf), drop (size_of w) buf).
End Conversions.

(** ** Properties *)

Definition is_byte (x : Z) : Prop := 0 ≤ x < 256.

Lemma le_value_range b : Forall is_byte b → 0 ≤ le_value b < 256 ^ Z.of_nat (length b).
Proof.
  induction 1 as [|x b Hx Hb IH]; cbn [le_value foldr length]; [done|].
  change (foldr _ 0 b) with (le_value b). rewrite Nat2Z.inj_succ, Z.pow_succ_r by lia.
  unfold is_byte in Hx. lia.
Qed.

Lemma le_bytes_value n z : 0 ≤ z < 256 ^ Z.of_nat n → le_value (le_bytes n z) = z.
Proof.
  revert z. induction n as [|n IH]; intros z Hz; cbn [le_bytes le_value foldr].
  - change (256 ^ Z.of_nat 0) with 1 in Hz. lia.
  - change (foldr _ 0 ?b) with (le_value b).
    rewrite Nat2Z.inj_succ, Z.pow_succ_r in Hz by lia. rewrite IH.
    + pose proof (Z.div_mod z 256 ltac:(lia)). lia.
    + split; [apply Z.div_pos; lia|apply Z.div_lt_upper_bound; lia].
Qed.

Lemma length_le_bytes n z : length (le_bytes n z) = n.
Proof. revert z. induction n as [|n IH]; intros z; cbn; [done|by rewrite IH]. Qed.

Lemma bn_modulus_bytes w : bn_modulus w = 256 ^ Z.of_nat (size_of w).
Proof. by destruct w. Qed.

Section Laws.
Context `{BnBytesLaws}.

(** The bytes of a big number cannot be taken: the crate writes into a slice without
    elements. *)
Lemma to_le_bytes_panics w z : to_le_bytes w z = Panic.
Proof.
  unfold to_le_bytes. rewrite write_little_endian_short; [done|]. destruct w; cbn; lia.
Qed.

Lemma serialize_panics {W} (write_all : W → bytes → io_result W) w z writer :
  serialize write_all w z writer = IoPanic.
Proof. unfold serialize. by rewrite to_le_bytes_panics. Qed.

(** A big number is read from the bytes that it has, of a buffer that may go on. *)
Lemma deserialize_reads w z rest :
  bn_range w z → deserialize w (le_bytes (size_of w) z ++ rest) = IoOk (z, rest).
Proof.
  intros Hz. unfold deserialize, from_le_bytes.
  rewrite bool_decide_false by (rewrite length_app, length_le_bytes; lia).
  rewrite take_app_length', drop_app_length' by (by rewrite length_le_bytes).
  rewrite from_little_endian_spec by apply length_le_bytes.
  rewrite le_bytes_value; [done|]. unfold bn_range in Hz. by rewrite <-bn_modulus_bytes.
Qed.

Lemma deserialize_in_range w buf z rest :
  Forall is_byte buf → deserialize w buf = IoOk (z, rest) →
  bn_range w z ∧ length buf = (size_of w + length rest)%nat.
Proof.
  intros Hb Hok. unfold deserialize, from_le_bytes in Hok.
  case_bool_decide as Hlen; [done|]. injection Hok as <- <-.
  assert (length (take (size_of w) buf) = size_of w) as Ht by (rewrite length_take; lia).
  rewrite from_little_endian_spec by done. split.
  - unfold bn_range. rewrite bn_modulus_bytes.
    pose proof (le_value_range (take (size_of w) buf) (Forall_take _ _ _ Hb)) as Hr.
    by rewrite Ht in Hr.
  - rewrite length_drop. lia.
Qed.

Lemma deserialize_short w buf :
  (length buf < size_of w)%nat → deserialize w buf = IoErr InvalidInput.
Proof. intros Hlen. unfold deserialize. by rewrite bool_decide_true. Qed.
End Laws.
