(* ===== verification/State.v ===== *)
(** * Account state (state/*.rs, and the enums of the controllers)

    One Module per Rust struct, with the struct's fields in order, its
    eta-expansion (for [r <| f := v |>]) and the predicate [typed] that every
    field holds a value of its Rust integer type.  The [padding] fields, which
    the program never reads, are left out.  Arrays are lists whose length is
    part of [typed]. *)

From stdpp Require Import base numbers list.
From S2P Require Import Prelude Constants.
Local Open Scope Z_scope.

(** A public key is a 256-bit number; the default key is zero. *)
Abbreviation Pubkey := Z.
Definition Pubkey_default : Pubkey := 0.

(** ** Enums *)

(** controller/amm.rs *)
Inductive SwapDirection := Add | Remove.
(** controller/position.rs *)
Inductive PositionDirection := Long | Short.
(** state/oracle.rs *)
Inductive OracleSource := Pyth | Switchboard | QuoteAsset.
(** state/bank.rs *)
Inductive BankBalanceType := Deposit | Borrow.
(** math/margin.rs *)
Inductive MarginRequirementType := Initial | Partial | Maintenance.
Inductive LiquidationType := NONE | PARTIAL | FULL.
(** state/user.rs *)
Inductive OrderStatus := Init | Open.
Module OrderType.
Inductive OrderType := Market | Limit | TriggerMarket | TriggerLimit.
End OrderType.
Abbreviation OrderType := OrderType.OrderType.
Module OrderDiscountTier.
Inductive OrderDiscountTier := None | First | Second | Third | Fourth.
End OrderDiscountTier.
Abbreviation OrderDiscountTier := OrderDiscountTier.OrderDiscountTier.
Inductive OrderTriggerCondition := Above | Below.

#[export] Instance SwapDirection_eq_dec : EqDecision SwapDirection.
Proof. solve_decision. Defined.
#[export] Instance PositionDirection_eq_dec : EqDecision PositionDirection.
Proof. solve_decision. Defined.
#[export] Instance OracleSource_eq_dec : EqDecision OracleSource.
Proof. solve_decision. Defined.
#[export] Instance BankBalanceType_eq_dec : EqDecision BankBalanceType.
Proof. solve_decision. Defined.
#[export] Instance LiquidationType_eq_dec : EqDecision LiquidationType.
Proof. solve_decision. Defined.
#[export] Instance OrderStatus_eq_dec : EqDecision OrderStatus.
Proof. solve_decision. Defined.
#[export] Instance OrderType_eq_dec : EqDecision OrderType.
Proof. solve_decision. Defined.
#[export] Instance OrderDiscountTier_eq_dec : EqDecision OrderDiscountTier.
Proof. solve_decision. Defined.
#[export] Instance OrderTriggerCondition_eq_dec : EqDecision OrderTriggerCondition.
Proof. solve_decision. Defined.

(** ** Structs *)

(** state/oracle.rs *)
Module OraclePriceData.
Record OraclePriceData := mk {
  price : Z;
  confidence : Z;
  delay : Z;
  has_sufficient_number_of_data_points : bool;
}.
#[export] Instance OraclePriceData_eta : Eta OraclePriceData := λ r,
  mk r.(price) r.(confidence) r.(delay) r.(has_sufficient_number_of_data_points).
(** Every field holds a value of its Rust type. *)
Record typed (r : OraclePriceData) : Prop := {
  price_ty : has_type I128 r.(price);
  confidence_ty : has_type U128 r.(confidence);
  delay_ty : has_type I64 r.(delay);
}.
End OraclePriceData.
Abbreviation OraclePriceData := OraclePriceData.OraclePriceData.
Export (hints) OraclePriceData.

(** state/market.rs: the pool of settled losses of a market. *)
Module PNLPool.
Record PNLPool := mk {
  balance : Z;
}.
#[export] Instance PNLPool_eta : Eta PNLPool := λ r,
  mk r.(balance).
(** Every field holds a value of its Rust type. *)
Record typed (r : PNLPool) : Prop := {
  balance_ty : has_type U128 r.(balance);
}.
End PNLPool.
Abbreviation PNLPool := PNLPool.PNLPool.
Export (hints) PNLPool.

(** state/market.rs: the virtual automated market maker of a market. *)
Module AMM.
Record AMM := mk {
  oracle : Pubkey;
  oracle_source : OracleSource;
  base_asset_reserve : Z;
  quote_asset_reserve : Z;
  terminal_quote_asset_reserve : Z;
  cumulative_repeg_rebate_long : Z;
  cumulative_repeg_rebate_short : Z;
  cumulative_funding_rate_long : Z;
  cumulative_funding_rate_short : Z;
  cumulative_funding_rate_lp : Z;
  last_funding_rate : Z;
  last_funding_rate_ts : Z;
  funding_period : Z;
  last_oracle_price_twap : Z;
  last_mark_price_twap : Z;
  last_mark_price_twap_ts : Z;
  sqrt_k : Z;
  peg_multiplier : Z;
  total_fee : Z;
  total_fee_minus_distributions : Z;
  total_mm_fee : Z;
  total_exchange_fee : Z;
  net_revenue_since_last_funding : Z;
  total_fee_withdrawn : Z;
  minimum_quote_asset_trade_size : Z;
  last_oracle_price_twap_ts : Z;
  last_oracle_normalised_price : Z;
  last_oracle_price : Z;
  last_oracle_conf : Z;
  last_oracle_delay : Z;
  last_oracle_mark_spread_pct : Z;
  minimum_base_asset_trade_size : Z;
  base_spread : Z;
  long_spread : Z;
  short_spread : Z;
  last_bid_price_twap : Z;
  last_ask_price_twap : Z;
  net_base_asset_amount : Z;
  quote_asset_amount_long : Z;
  quote_asset_amount_short : Z;
  mark_std : Z;
  long_intensity_time : Z;
  long_intensity_count : Z;
  long_intensity_volume : Z;
  short_intensity_time : Z;
  short_intensity_count : Z;
  short_intensity_volume : Z;
  curve_update_intensity : Z;
}.
#[export] Instance AMM_eta : Eta AMM := λ r,
  mk r.(oracle) r.(oracle_source) r.(base_asset_reserve) r.(quote_asset_reserve)
  r.(terminal_quote_asset_reserve) r.(cumulative_repeg_rebate_long)
  r.(cumulative_repeg_rebate_short) r.(cumulative_funding_rate_long)
  r.(cumulative_funding_rate_short) r.(cumulative_funding_rate_lp)
  r.(last_funding_rate) r.(last_funding_rate_ts) r.(funding_period)
  r.(last_oracle_price_twap) r.(last_mark_price_twap) r.(last_mark_price_twap_ts)
  r.(sqrt_k) r.(peg_multiplier) r.(total_fee) r.(total_fee_minus_distributions)
  r.(total_mm_fee) r.(total_exchange_fee) r.(net_revenue_since_last_funding)
  r.(total_fee_withdrawn) r.(minimum_quote_asset_trade_size)
  r.(last_oracle_price_twap_ts) r.(last_oracle_normalised_price)
  r.(last_oracle_price) r.(last_oracle_conf) r.(last_oracle_delay)
  r.(last_oracle_mark_spread_pct) r.(minimum_base_asset_trade_size) r.(base_spread)
  r.(long_spread) r.(short_spread) r.(last_bid_price_twap) r.(last_ask_price_twap)
  r.(net_base_asset_amount) r.(quote_asset_amount_long) r.(quote_asset_amount_short)
  r.(mark_std) r.(long_intensity_time) r.(long_intensity_count)
  r.(long_intensity_volume) r.(short_intensity_time) r.(short_intensity_count)
  r.(short_intensity_volume) r.(curve_update_intensity).
(** Every field holds a value of its Rust type. *)
Record typed (r : AMM) : Prop := {
  base_asset_reserve_ty : has_type U128 r.(base_asset_reserve);
  quote_asset_reserve_ty : has_type U128 r.(quote_asset_reserve);
  terminal_quote_asset_reserve_ty : has_type U128 r.(terminal_quote_asset_reserve);
  cumulative_repeg_rebate_long_ty : has_type U128 r.(cumulative_repeg_rebate_long);
  cumulative_repeg_rebate_short_ty : has_type U128 r.(cumulative_repeg_rebate_short);
  cumulative_funding_rate_long_ty : has_type I128 r.(cumulative_funding_rate_long);
  cumulative_funding_rate_short_ty : has_type I128 r.(cumulative_funding_rate_short);
  cumulative_funding_rate_lp_ty : has_type I128 r.(cumulative_funding_rate_lp);
  last_funding_rate_ty : has_type I128 r.(last_funding_rate);
  last_funding_rate_ts_ty : has_type I64 r.(last_funding_rate_ts);
  funding_period_ty : has_type I64 r.(funding_period);
  last_oracle_price_twap_ty : has_type I128 r.(last_oracle_price_twap);
  last_mark_price_twap_ty : has_type U128 r.(last_mark_price_twap);
  last_mark_price_twap_ts_ty : has_type I64 r.(last_mark_price_twap_ts);
  sqrt_k_ty : has_type U128 r.(sqrt_k);
  peg_multiplier_ty : has_type U128 r.(peg_multiplier);
  total_fee_ty : has_type U128 r.(total_fee);
  total_fee_minus_distributions_ty : has_type U128 r.(total_fee_minus_distributions);
  total_mm_fee_ty : has_type U128 r.(total_mm_fee);
  total_exchange_fee_ty : has_type U128 r.(total_exchange_fee);
  net_revenue_since_last_funding_ty : has_type I64 r.(net_revenue_since_last_funding);
  total_fee_withdrawn_ty : has_type U128 r.(total_fee_withdrawn);
  minimum_quote_asset_trade_size_ty : has_type U128 r.(minimum_quote_asset_trade_size);
  last_oracle_price_twap_ts_ty : has_type I64 r.(last_oracle_price_twap_ts);
  last_oracle_normalised_price_ty : has_type I128 r.(last_oracle_normalised_price);
  last_oracle_price_ty : has_type I128 r.(last_oracle_price);
  last_oracle_conf_ty : has_type U64 r.(last_oracle_conf);
  last_oracle_delay_ty : has_type I64 r.(last_oracle_delay);
  last_oracle_mark_spread_pct_ty : has_type I128 r.(last_oracle_mark_spread_pct);
  minimum_base_asset_trade_size_ty : has_type U128 r.(minimum_base_asset_trade_size);
  base_spread_ty : has_type U16 r.(base_spread);
  long_spread_ty : has_type U128 r.(long_spread);
  short_spread_ty : has_type U128 r.(short_spread);
  last_bid_price_twap_ty : has_type U128 r.(last_bid_price_twap);
  last_ask_price_twap_ty : has_type U128 r.(last_ask_price_twap);
  net_base_asset_amount_ty : has_type I128 r.(net_base_asset_amount);
  quote_asset_amount_long_ty : has_type U128 r.(quote_asset_amount_long);
  quote_asset_amount_short_ty : has_type U128 r.(quote_asset_amount_short);
  mark_std_ty : has_type U64 r.(mark_std);
  long_intensity_time_ty : has_type I64 r.(long_intensity_time);
  long_intensity_count_ty : has_type U16 r.(long_intensity_count);
  long_intensity_volume_ty : has_type U64 r.(long_intensity_volume);
  short_intensity_time_ty : has_type I64 r.(short_intensity_time);
  short_intensity_count_ty : has_type U16 r.(short_intensity_count);
  short_intensity_volume_ty : has_type U64 r.(short_intensity_volume);
  curve_update_intensity_ty : has_type U8 r.(curve_update_intensity);
}.
End AMM.
Abbreviation AMM := AMM.AMM.
Export (hints) AMM.

(** state/market.rs *)
Module Market.
Record Market := mk {
  market_index : Z;
  pubkey : Pubkey;
  initialized : bool;
  amm : AMM;
  base_asset_amount_long : Z;
  base_asset_amount_short : Z;
  open_interest : Z;
  margin_ratio_initial : Z;
  margin_ratio_partial : Z;
  margin_ratio_maintenance : Z;
  next_trade_record_id : Z;
  next_funding_rate_record_id : Z;
  next_curve_record_id : Z;
  pnl_pool : PNLPool;
}.
#[export] Instance Market_eta : Eta Market := λ r,
  mk r.(market_index) r.(pubkey) r.(initialized) r.(amm) r.(base_asset_amount_long)
  r.(base_asset_amount_short) r.(open_interest) r.(margin_ratio_initial)
  r.(margin_ratio_partial) r.(margin_ratio_maintenance) r.(next_trade_record_id)
  r.(next_funding_rate_record_id) r.(next_curve_record_id) r.(pnl_pool).
(** Every field holds a value of its Rust type. *)
Record typed (r : Market) : Prop := {
  market_index_ty : has_type U64 r.(market_index);
  base_asset_amount_long_ty : has_type I128 r.(base_asset_amount_long);
  base_asset_amount_short_ty : has_type I128 r.(base_asset_amount_short);
  open_interest_ty : has_type U128 r.(open_interest);
  margin_ratio_initial_ty : has_type U32 r.(margin_ratio_initial);
  margin_ratio_partial_ty : has_type U32 r.(margin_ratio_partial);
  margin_ratio_maintenance_ty : has_type U32 r.(margin_ratio_maintenance);
  next_trade_record_id_ty : has_type U64 r.(next_trade_record_id);
  next_funding_rate_record_id_ty : has_type U64 r.(next_funding_rate_record_id);
  next_curve_record_id_ty : has_type U64 r.(next_curve_record_id);
  amm_ty : AMM.typed r.(amm);
  pnl_pool_ty : PNLPool.typed r.(pnl_pool);
}.
End Market.
Abbreviation Market := Market.Market.
Export (hints) Market.

(** state/user.rs *)
Module UserBankBalance.
Record UserBankBalance := mk {
  bank_index : Z;
  balance_type : BankBalanceType;
  balance : Z;
}.
#[export] Instance UserBankBalance_eta : Eta UserBankBalance := λ r,
  mk r.(bank_index) r.(balance_type) r.(balance).
(** Every field holds a value of its Rust type. *)
Record typed (r : UserBankBalance) : Prop := {
  bank_index_ty : has_type U64 r.(bank_index);
  balance_ty : has_type U128 r.(balance);
}.
End UserBankBalance.
Abbreviation UserBankBalance := UserBankBalance.UserBankBalance.
Export (hints) UserBankBalance.

(** state/user.rs: a user's position in one market. *)
Module MarketPosition.
Record MarketPosition := mk {
  market_index : Z;
  base_asset_amount : Z;
  quote_asset_amount : Z;
  last_cumulative_funding_rate : Z;
  last_cumulative_repeg_rebate : Z;
  last_funding_rate_ts : Z;
  open_orders : Z;
  unsettled_pnl : Z;
}.
#[export] Instance MarketPosition_eta : Eta MarketPosition := λ r,
  mk r.(market_index) r.(base_asset_amount) r.(quote_asset_amount)
  r.(last_cumulative_funding_rate) r.(last_cumulative_repeg_rebate)
  r.(last_funding_rate_ts) r.(open_orders) r.(unsettled_pnl).
(** Every field holds a value of its Rust type. *)
Record typed (r : MarketPosition) : Prop := {
  market_index_ty : has_type U64 r.(market_index);
  base_asset_amount_ty : has_type I128 r.(base_asset_amount);
  quote_asset_amount_ty : has_type U128 r.(quote_asset_amount);
  last_cumulative_funding_rate_ty : has_type I128 r.(last_cumulative_funding_rate);
  last_cumulative_repeg_rebate_ty : has_type U128 r.(last_cumulative_repeg_rebate);
  last_funding_rate_ts_ty : has_type I64 r.(last_funding_rate_ts);
  open_orders_ty : has_type U128 r.(open_orders);
  unsettled_pnl_ty : has_type I128 r.(unsettled_pnl);
}.
End MarketPosition.
Abbreviation MarketPosition := MarketPosition.MarketPosition.
Export (hints) MarketPosition.

(** state/user.rs *)
Module Order.
Record Order := mk {
  status : OrderStatus;
  order_type : OrderType;
  ts : Z;
  order_id : Z;
  user_order_id : Z;
  market_index : Z;
  price : Z;
  user_base_asset_amount : Z;
  quote_asset_amount : Z;
  base_asset_amount : Z;
  base_asset_amount_filled : Z;
  quote_asset_amount_filled : Z;
  fee : Z;
  direction : PositionDirection;
  reduce_only : bool;
  post_only : bool;
  immediate_or_cancel : bool;
  discount_tier : OrderDiscountTier;
  trigger_price : Z;
  trigger_condition : OrderTriggerCondition;
  referrer : Pubkey;
  oracle_price_offset : Z;
}.
#[export] Instance Order_eta : Eta Order := λ r,
  mk r.(status) r.(order_type) r.(ts) r.(order_id) r.(user_order_id) r.(market_index)
  r.(price) r.(user_base_asset_amount) r.(quote_asset_amount) r.(base_asset_amount)
  r.(base_asset_amount_filled) r.(quote_asset_amount_filled) r.(fee) r.(direction)
  r.(reduce_only) r.(post_only) r.(immediate_or_cancel) r.(discount_tier)
  r.(trigger_price) r.(trigger_condition) r.(referrer) r.(oracle_price_offset).
(** Every field holds a value of its Rust type. *)
Record typed (r : Order) : Prop := {
  ts_ty : has_type I64 r.(ts);
  order_id_ty : has_type U64 r.(order_id);
  user_order_id_ty : has_type U8 r.(user_order_id);
  market_index_ty : has_type U64 r.(market_index);
  price_ty : has_type U128 r.(price);
  user_base_asset_amount_ty : has_type I128 r.(user_base_asset_amount);
  quote_asset_amount_ty : has_type U128 r.(quote_asset_amount);
  base_asset_amount_ty : has_type U128 r.(base_asset_amount);
  base_asset_amount_filled_ty : has_type U128 r.(base_asset_amount_filled);
  quote_asset_amount_filled_ty : has_type U128 r.(quote_asset_amount_filled);
  fee_ty : has_type I128 r.(fee);
  trigger_price_ty : has_type U128 r.(trigger_price);
  oracle_price_offset_ty : has_type I128 r.(oracle_price_offset);
}.
End Order.
Abbreviation Order := Order.Order.
Export (hints) Order.

(** state/user.rs; the name is a 32-byte array. *)
Module User.
Record User := mk {
  authority : Pubkey;
  user_id : Z;
  name : list Z;
  bank_balances : list UserBankBalance;
  total_fee_paid : Z;
  total_fee_rebate : Z;
  total_token_discount : Z;
  total_referral_reward : Z;
  total_referee_discount : Z;
  next_order_id : Z;
  positions : list MarketPosition;
  orders : list Order;
}.
#[export] Instance User_eta : Eta User := λ r,
  mk r.(authority) r.(user_id) r.(name) r.(bank_balances) r.(total_fee_paid)
  r.(total_fee_rebate) r.(total_token_discount) r.(total_referral_reward)
  r.(total_referee_discount) r.(next_order_id) r.(positions) r.(orders).
(** Every field holds a value of its Rust type. *)
Record typed (r : User) : Prop := {
  user_id_ty : has_type U8 r.(user_id);
  total_fee_paid_ty : has_type U64 r.(total_fee_paid);
  total_fee_rebate_ty : has_type U64 r.(total_fee_rebate);
  total_token_discount_ty : has_type U128 r.(total_token_discount);
  total_referral_reward_ty : has_type U128 r.(total_referral_reward);
  total_referee_discount_ty : has_type U128 r.(total_referee_discount);
  next_order_id_ty : has_type U64 r.(next_order_id);
  bank_balances_len : length r.(bank_balances) = 8%nat;
  bank_balances_ty : Forall UserBankBalance.typed r.(bank_balances);
  positions_len : length r.(positions) = 5%nat;
  positions_ty : Forall MarketPosition.typed r.(positions);
  orders_len : length r.(orders) = 32%nat;
  orders_ty : Forall Order.typed r.(orders);
}.
End User.
Abbreviation User := User.User.
Export (hints) User.

(** state/bank.rs *)
Module Bank.
Record Bank := mk {
  bank_index : Z;
  pubkey : Pubkey;
  oracle : Pubkey;
  oracle_source : OracleSource;
  mint : Pubkey;
  vault : Pubkey;
  vault_authority : Pubkey;
  vault_authority_nonce : Z;
  decimals : Z;
  optimal_utilization : Z;
  optimal_borrow_rate : Z;
  max_borrow_rate : Z;
  deposit_balance : Z;
  borrow_balance : Z;
  cumulative_deposit_interest : Z;
  cumulative_borrow_interest : Z;
  last_updated : Z;
  initial_asset_weight : Z;
  maintenance_asset_weight : Z;
  initial_liability_weight : Z;
  maintenance_liability_weight : Z;
}.
#[export] Instance Bank_eta : Eta Bank := λ r,
  mk r.(bank_index) r.(pubkey) r.(oracle) r.(oracle_source) r.(mint) r.(vault)
  r.(vault_authority) r.(vault_authority_nonce) r.(decimals) r.(optimal_utilization)
  r.(optimal_borrow_rate) r.(max_borrow_rate) r.(deposit_balance) r.(borrow_balance)
  r.(cumulative_deposit_interest) r.(cumulative_borrow_interest) r.(last_updated)
  r.(initial_asset_weight) r.(maintenance_asset_weight) r.(initial_liability_weight)
  r.(maintenance_liability_weight).
(** Every field holds a value of its Rust type. *)
Record typed (r : Bank) : Prop := {
  bank_index_ty : has_type U64 r.(bank_index);
  vault_authority_nonce_ty : has_type U8 r.(vault_authority_nonce);
  decimals_ty : has_type U8 r.(decimals);
  optimal_utilization_ty : has_type U128 r.(optimal_utilization);
  optimal_borrow_rate_ty : has_type U128 r.(optimal_borrow_rate);
  max_borrow_rate_ty : has_type U128 r.(max_borrow_rate);
  deposit_balance_ty : has_type U128 r.(deposit_balance);
  borrow_balance_ty : has_type U128 r.(borrow_balance);
  cumulative_deposit_interest_ty : has_type U128 r.(cumulative_deposit_interest);
  cumulative_borrow_interest_ty : has_type U128 r.(cumulative_borrow_interest);
  last_updated_ty : has_type U64 r.(last_updated);
  initial_asset_weight_ty : has_type U128 r.(initial_asset_weight);
  maintenance_asset_weight_ty : has_type U128 r.(maintenance_asset_weight);
  initial_liability_weight_ty : has_type U128 r.(initial_liability_weight);
  maintenance_liability_weight_ty : has_type U128 r.(maintenance_liability_weight);
}.
End Bank.
Abbreviation Bank := Bank.Bank.
Export (hints) Bank.

(** state/state.rs *)
Module PriceDivergenceGuardRails.
Record PriceDivergenceGuardRails := mk {
  mark_oracle_divergence_numerator : Z;
  mark_oracle_divergence_denominator : Z;
}.
#[export] Instance PriceDivergenceGuardRails_eta : Eta PriceDivergenceGuardRails := λ r,
  mk r.(mark_oracle_divergence_numerator) r.(mark_oracle_divergence_denominator).
(** Every field holds a value of its Rust type. *)
Record typed (r : PriceDivergenceGuardRails) : Prop := {
  mark_oracle_divergence_numerator_ty : has_type U128 r.(mark_oracle_divergence_numerator);
  mark_oracle_divergence_denominator_ty : has_type U128 r.(mark_oracle_divergence_denominator);
}.
End PriceDivergenceGuardRails.
Abbreviation PriceDivergenceGuardRails := PriceDivergenceGuardRails.PriceDivergenceGuardRails.
Export (hints) PriceDivergenceGuardRails.

(** state/state.rs *)
Module ValidityGuardRails.
Record ValidityGuardRails := mk {
  slots_before_stale : Z;
  confidence_interval_max_size : Z;
  too_volatile_ratio : Z;
}.
#[export] Instance ValidityGuardRails_eta : Eta ValidityGuardRails := λ r,
  mk r.(slots_before_stale) r.(confidence_interval_max_size) r.(too_volatile_ratio).
(** Every field holds a value of its Rust type. *)
Record typed (r : ValidityGuardRails) : Prop := {
  slots_before_stale_ty : has_type I64 r.(slots_before_stale);
  confidence_interval_max_size_ty : has_type U128 r.(confidence_interval_max_size);
  too_volatile_ratio_ty : has_type I128 r.(too_volatile_ratio);
}.
End ValidityGuardRails.
Abbreviation ValidityGuardRails := ValidityGuardRails.ValidityGuardRails.
Export (hints) ValidityGuardRails.

(** state/state.rs *)
Module OracleGuardRails.
Record OracleGuardRails := mk {
  price_divergence : PriceDivergenceGuardRails;
  validity : ValidityGuardRails;
  use_for_liquidations : bool;
}.
#[export] Instance OracleGuardRails_eta : Eta OracleGuardRails := λ r,
  mk r.(price_divergence) r.(validity) r.(use_for_liquidations).
(** Every field holds a value of its Rust type. *)
Record typed (r : OracleGuardRails) : Prop := {
  price_divergence_ty : PriceDivergenceGuardRails.typed r.(price_divergence);
  validity_ty : ValidityGuardRails.typed r.(validity);
}.
End OracleGuardRails.
Abbreviation OracleGuardRails := OracleGuardRails.OracleGuardRails.
Export (hints) OracleGuardRails.

(** state/state.rs *)
Module DiscountTokenTier.
Record DiscountTokenTier := mk {
  minimum_balance : Z;
  discount_numerator : Z;
  discount_denominator : Z;
}.
#[export] Instance DiscountTokenTier_eta : Eta DiscountTokenTier := λ r,
  mk r.(minimum_balance) r.(discount_numerator) r.(discount_denominator).
(** Every field holds a value of its Rust type. *)
Record typed (r : DiscountTokenTier) : Prop := {
  minimum_balance_ty : has_type U64 r.(minimum_balance);
  discount_numerator_ty : has_type U128 r.(discount_numerator);
  discount_denominator_ty : has_type U128 r.(discount_denominator);
}.
End DiscountTokenTier.
Abbreviation DiscountTokenTier := DiscountTokenTier.DiscountTokenTier.
Export (hints) DiscountTokenTier.

(** state/state.rs *)
Module DiscountTokenTiers.
Record DiscountTokenTiers := mk {
  first_tier : DiscountTokenTier;
  second_tier : DiscountTokenTier;
  third_tier : DiscountTokenTier;
  fourth_tier : DiscountTokenTier;
}.
#[export] Instance DiscountTokenTiers_eta : Eta DiscountTokenTiers := λ r,
  mk r.(first_tier) r.(second_tier) r.(third_tier) r.(fourth_tier).
(** Every field holds a value of its Rust type. *)
Record typed (r : DiscountTokenTiers) : Prop := {
  first_tier_ty : DiscountTokenTier.typed r.(first_tier);
  second_tier_ty : DiscountTokenTier.typed r.(second_tier);
  third_tier_ty : DiscountTokenTier.typed r.(third_tier);
  fourth_tier_ty : DiscountTokenTier.typed r.(fourth_tier);
}.
End DiscountTokenTiers.
Abbreviation DiscountTokenTiers := DiscountTokenTiers.DiscountTokenTiers.
Export (hints) DiscountTokenTiers.

(** state/state.rs *)
Module ReferralDiscount.
Record ReferralDiscount := mk {
  referrer_reward_numerator : Z;
  referrer_reward_denominator : Z;
  referee_discount_numerator : Z;
  referee_discount_denominator : Z;
}.
#[export] Instance ReferralDiscount_eta : Eta ReferralDiscount := λ r,
  mk r.(referrer_reward_numerator) r.(referrer_reward_denominator)
  r.(referee_discount_numerator) r.(referee_discount_denominator).
(** Every field holds a value of its Rust type. *)
Record typed (r : ReferralDiscount) : Prop := {
  referrer_reward_numerator_ty : has_type U128 r.(referrer_reward_numerator);
  referrer_reward_denominator_ty : has_type U128 r.(referrer_reward_denominator);
  referee_discount_numerator_ty : has_type U128 r.(referee_discount_numerator);
  referee_discount_denominator_ty : has_type U128 r.(referee_discount_denominator);
}.
End ReferralDiscount.
Abbreviation ReferralDiscount := ReferralDiscount.ReferralDiscount.
Export (hints) ReferralDiscount.

(** state/state.rs *)
Module FeeStructure.
Record FeeStructure := mk {
  fee_numerator : Z;
  fee_denominator : Z;
  discount_token_tiers : DiscountTokenTiers;
  referral_discount : ReferralDiscount;
}.
#[export] Instance FeeStructure_eta : Eta FeeStructure := λ r,
  mk r.(fee_numerator) r.(fee_denominator) r.(discount_token_tiers)
  r.(referral_discount).
(** Every field holds a value of its Rust type. *)
Record typed (r : FeeStructure) : Prop := {
  fee_numerator_ty : has_type U128 r.(fee_numerator);
  fee_denominator_ty : has_type U128 r.(fee_denominator);
  discount_token_tiers_ty : DiscountTokenTiers.typed r.(discount_token_tiers);
  referral_discount_ty : ReferralDiscount.typed r.(referral_discount);
}.
End FeeStructure.
Abbreviation FeeStructure := FeeStructure.FeeStructure.
Export (hints) FeeStructure.

(** state/state.rs: the global configuration. *)
Module State.
Record State := mk {
  admin : Pubkey;
  exchange_paused : bool;
  funding_paused : bool;
  admin_controls_prices : bool;
  insurance_vault : Pubkey;
  insurance_vault_authority : Pubkey;
  insurance_vault_nonce : Z;
  margin_ratio_initial : Z;
  margin_ratio_maintenance : Z;
  margin_ratio_partial : Z;
  partial_liquidation_close_percentage_numerator : Z;
  partial_liquidation_close_percentage_denominator : Z;
  partial_liquidation_penalty_percentage_numerator : Z;
  partial_liquidation_penalty_percentage_denominator : Z;
  full_liquidation_penalty_percentage_numerator : Z;
  full_liquidation_penalty_percentage_denominator : Z;
  partial_liquidation_liquidator_share_denominator : Z;
  full_liquidation_liquidator_share_denominator : Z;
  fee_structure : FeeStructure;
  whitelist_mint : Pubkey;
  discount_mint : Pubkey;
  oracle_guard_rails : OracleGuardRails;
  order_state : Pubkey;
  number_of_markets : Z;
  number_of_banks : Z;
}.
#[export] Instance State_eta : Eta State := λ r,
  mk r.(admin) r.(exchange_paused) r.(funding_paused) r.(admin_controls_prices)
  r.(insurance_vault) r.(insurance_vault_authority) r.(insurance_vault_nonce)
  r.(margin_ratio_initial) r.(margin_ratio_maintenance) r.(margin_ratio_partial)
  r.(partial_liquidation_close_percentage_numerator)
  r.(partial_liquidation_close_percentage_denominator)
  r.(partial_liquidation_penalty_percentage_numerator)
  r.(partial_liquidation_penalty_percentage_denominator)
  r.(full_liquidation_penalty_percentage_numerator)
  r.(full_liquidation_penalty_percentage_denominator)
  r.(partial_liquidation_liquidator_share_denominator)
  r.(full_liquidation_liquidator_share_denominator) r.(fee_structure)
  r.(whitelist_mint) r.(discount_mint) r.(oracle_guard_rails) r.(order_state)
  r.(number_of_markets) r.(number_of_banks).
(** Every field holds a value of its Rust type. *)
Record typed (r : State) : Prop := {
  insurance_vault_nonce_ty : has_type U8 r.(insurance_vault_nonce);
  margin_ratio_initial_ty : has_type U128 r.(margin_ratio_initial);
  margin_ratio_maintenance_ty : has_type U128 r.(margin_ratio_maintenance);
  margin_ratio_partial_ty : has_type U128 r.(margin_ratio_partial);
  partial_liquidation_close_percentage_numerator_ty : has_type U128 r.(partial_liquidation_close_percentage_numerator);
  partial_liquidation_close_percentage_denominator_ty : has_type U128 r.(partial_liquidation_close_percentage_denominator);
  partial_liquidation_penalty_percentage_numerator_ty : has_type U128 r.(partial_liquidation_penalty_percentage_numerator);
  partial_liquidation_penalty_percentage_denominator_ty : has_type U128 r.(partial_liquidation_penalty_percentage_denominator);
  full_liquidation_penalty_percentage_numerator_ty : has_type U128 r.(full_liquidation_penalty_percentage_numerator);
  full_liquidation_penalty_percentage_denominator_ty : has_type U128 r.(full_liquidation_penalty_percentage_denominator);
  partial_liquidation_liquidator_share_denominator_ty : has_type U64 r.(partial_liquidation_liquidator_share_denominator);
  full_liquidation_liquidator_share_denominator_ty : has_type U64 r.(full_liquidation_liquidator_share_denominator);
  number_of_markets_ty : has_type U64 r.(number_of_markets);
  number_of_banks_ty : has_type U64 r.(number_of_banks);
  fee_structure_ty : FeeStructure.typed r.(fee_structure);
  oracle_guard_rails_ty : OracleGuardRails.typed r.(oracle_guard_rails);
}.
End State.
Abbreviation State := State.State.
Export (hints) State.

(** state/order_state.rs *)
Module OrderFillerRewardStructure.
Record OrderFillerRewardStructure := mk {
  reward_numerator : Z;
  reward_denominator : Z;
  time_based_reward_lower_bound : Z;
}.
#[export] Instance OrderFillerRewardStructure_eta : Eta OrderFillerRewardStructure := λ r,
  mk r.(reward_numerator) r.(reward_denominator) r.(time_based_reward_lower_bound).
(** Every field holds a value of its Rust type. *)
Record typed (r : OrderFillerRewardStructure) : Prop := {
  reward_numerator_ty : has_type U128 r.(reward_numerator);
  reward_denominator_ty : has_type U128 r.(reward_denominator);
  time_based_reward_lower_bound_ty : has_type U128 r.(time_based_reward_lower_bound);
}.
End OrderFillerRewardStructure.
Abbreviation OrderFillerRewardStructure := OrderFillerRewardStructure.OrderFillerRewardStructure.
Export (hints) OrderFillerRewardStructure.

(** state/order_state.rs *)
Module OrderState.
Record OrderState := mk {
  order_filler_reward_structure : OrderFillerRewardStructure;
  min_order_quote_asset_amount : Z;
}.
#[export] Instance OrderState_eta : Eta OrderState := λ r,
  mk r.(order_filler_reward_structure) r.(min_order_quote_asset_amount).
(** Every field holds a value of its Rust type. *)
Record typed (r : OrderState) : Prop := {
  min_order_quote_asset_amount_ty : has_type U128 r.(min_order_quote_asset_amount);
  order_filler_reward_structure_ty : OrderFillerRewardStructure.typed r.(order_filler_reward_structure);
}.
End OrderState.
Abbreviation OrderState := OrderState.OrderState.
Export (hints) OrderState.

(** ** Methods of the structs that call no other module *)

Definition get_margin_ratio (m : Market) (margin_type : MarginRequirementType) : Z :=
  match margin_type with
  | Initial => m.(Market.margin_ratio_initial)
  | Partial => m.(Market.margin_ratio_partial)
  | Maintenance => m.(Market.margin_ratio_maintenance)
  end.

Definition get_asset_weight (b : Bank) (margin_type : MarginRequirementType) : Z :=
  match margin_type with
  | Initial => b.(Bank.initial_asset_weight)
  | Partial => b.(Bank.maintenance_asset_weight)
  | Maintenance => b.(Bank.maintenance_asset_weight)
  end.

Definition get_liability_weight (b : Bank) (margin_type : MarginRequirementType) : Z :=
  match margin_type with
  | Initial => b.(Bank.initial_liability_weight)
  | Partial => b.(Bank.maintenance_liability_weight)
  | Maintenance => b.(Bank.maintenance_liability_weight)
  end.

Definition is_open_position (p : MarketPosition) : bool :=
  negb (p.(MarketPosition.base_asset_amount) =? 0).
Definition has_open_order (p : MarketPosition) : bool :=
  negb (p.(MarketPosition.open_orders) =? 0).
Definition has_unsettled_pnl (p : MarketPosition) : bool :=
  negb (p.(MarketPosition.unsettled_pnl) =? 0).
Definition is_available (p : MarketPosition) : bool :=
  negb (is_open_position p) && negb (has_open_order p) && negb (has_unsettled_pnl p).
Definition is_for (p : MarketPosition) (market_index : Z) : bool :=
  (p.(MarketPosition.market_index) =? market_index)
  && (is_open_position p || has_open_order p || has_unsettled_pnl p).

Definition has_oracle_price_offset (o : Order) : bool :=
  negb (o.(Order.oracle_price_offset) =? 0).

Definition get_limit_price (o : Order) (valid_oracle_price : option Z) : result Z :=
  if has_oracle_price_offset o then
    match valid_oracle_price with
    | Some oracle_price =>
        let? limit_price := cadd I128 oracle_price o.(Order.oracle_price_offset) in
        if limit_price <=? 0 then Err InvalidOracleOffset
        else if o.(Order.post_only) then
          Ok (match o.(Order.direction) with
              | Long => Z.min o.(Order.price) (unsigned_abs limit_price)
              | Short => Z.max o.(Order.price) (unsigned_abs limit_price)
              end)
        else Ok (unsigned_abs limit_price)
    | None => Err OracleNotFound
    end
  else Ok o.(Order.price).

(** [Order::default] *)
Definition Order_default : Order := {|
  Order.status := Init;
  Order.order_type := OrderType.Limit;
  Order.ts := 0;
  Order.order_id := 0;
  Order.user_order_id := 0;
  Order.market_index := 0;
  Order.price := 0;
  Order.user_base_asset_amount := 0;
  Order.quote_asset_amount := 0;
  Order.base_asset_amount := 0;
  Order.base_asset_amount_filled := 0;
  Order.quote_asset_amount_filled := 0;
  Order.fee := 0;
  Order.direction := Long;
  Order.reduce_only := false;
  Order.post_only := false;
  Order.immediate_or_cancel := false;
  Order.discount_tier := OrderDiscountTier.None;
  Order.trigger_price := 0;
  Order.trigger_condition := Above;
  Order.referrer := Pubkey_default;
  Order.oracle_price_offset := 0;
|}.

(** The [Default] value of a position: every number is zero. *)
Definition MarketPosition_default : MarketPosition := {|
  MarketPosition.market_index := 0;
  MarketPosition.base_asset_amount := 0;
  MarketPosition.quote_asset_amount := 0;
  MarketPosition.last_cumulative_funding_rate := 0;
  MarketPosition.last_cumulative_repeg_rebate := 0;
  MarketPosition.last_funding_rate_ts := 0;
  MarketPosition.open_orders := 0;
  MarketPosition.unsettled_pnl := 0;
|}.

Lemma is_available_spec p :
  is_available p = true ↔
  p.(MarketPosition.base_asset_amount) = 0 ∧ p.(MarketPosition.open_orders) = 0
  ∧ p.(MarketPosition.unsettled_pnl) = 0.
Proof.
  unfold is_available, is_open_position, has_open_order, has_unsettled_pnl.
  rewrite !andb_true_iff, !negb_involutive, !Z.eqb_eq. tauto.
Qed.

(** A position is for a market exactly when it carries its index and is in use. *)
Lemma is_for_spec p i :
  is_for p i = true ↔ p.(MarketPosition.market_index) = i ∧ is_available p = false.
Proof.
  unfold is_for, is_available. rewrite andb_true_iff, Z.eqb_eq.
  destruct (is_open_position p), (has_open_order p), (has_unsettled_pnl p);
    simpl; naive_solver.
Qed.
