(* ===== verification/Addresses.v ===== *)
(** * The addresses of the program's accounts

    The accounts that the program creates have addresses derived from seeds, which
    context.rs and lib.rs list: here the seeds, as bytes, of every account, and that two
    accounts never have the same seeds.  The derivation itself is the Solana SDK's, a
    parameter with its documented behaviour as laws. *)

From Stdlib Require Import Ascii String.
From stdpp Require Import base numbers list countable.
From S2P Require Import Prelude Bn BnBytes State.
Local Open Scope Z_scope.

(** ** Definitions *)

(** [create_program_address] hashes bytes to an address, if that is not one that a private
    key could sign for; [find_program_address] also finds the nonce that, added to the
    seeds, gives an address. *)
Class ProgramAddresses := {
  create_program_address : bytes → option Pubkey;
  find_program_address : bytes → Pubkey * Z;
  has_private_key : Pubkey → Prop;
}.

Class AddressLaws `{ProgramAddresses} : Prop := {
  find_program_address_spec s :
    create_program_address (s ++ [(find_program_address s).2])
      = Some (find_program_address s).1;
  create_program_address_inj s t a :
    create_program_address s = Some a → create_program_address t = Some a → s = t;
  no_private_key s a : create_program_address s = Some a → ¬ has_private_key a;
}.

(** The instance of the concrete examples: the addresses of programs are negative. *)
#[export] Instance example_addresses : ProgramAddresses := {|
  create_program_address s := Some (Zneg (encode s));
  find_program_address s := (Zneg (encode (s ++ [255])), 255);
  has_private_key a := 0 ≤ a;
|}.

#[export] Instance example_addresses_laws : AddressLaws.
Proof.
  split; cbn [create_program_address find_program_address has_private_key example_addresses
    fst snd].
  - done.
  - intros s t a [= <-] [= Heq]. by apply (inj encode) in Heq.
  - intros s a [= <-]. lia.
Qed.

(** The bytes of a literal, and of a key, which is the number that its 32 bytes are. *)
Definition literal (s : string) : bytes :=
  (λ a, Z.of_N (N_of_ascii a)) <$> list_ascii_of_string s.
Definition key_bytes (key : Pubkey) : bytes := le_bytes 32 key.

(** The accounts at derived addresses. *)
Inductive Address :=
| ClearingHouseAddress
| InsuranceVaultAddress
| InsuranceVaultAuthorityAddress (insurance_vault : Pubkey)
| OrderStateAddress
| BankAddress (bank_index : Z)
| BankVaultAddress (bank_index : Z)
| BankVaultAuthorityAddress (bank_index : Z)
| UserAddress (authority : Pubkey) (user_id : Z)
| MarketAddress (market_index : Z).

(** The [seeds] of the account, which are hashed one after the other. *)
Definition seeds (a : Address) : bytes :=
  match a with
  | ClearingHouseAddress => literal "clearing_house"
  | InsuranceVaultAddress => literal "insurance_vault"
  | InsuranceVaultAuthorityAddress v => key_bytes v
  | OrderStateAddress => literal "order_state"
  | BankAddress i => literal "bank" ++ le_bytes 8 i
  | BankVaultAddress i => literal "bank_vault" ++ le_bytes 8 i
  | BankVaultAuthorityAddress i => literal "bank_vault_authority" ++ le_bytes 8 i
  | UserAddress k id => literal "user" ++ key_bytes k ++ le_bytes 1 id
  | MarketAddress i => literal "market" ++ le_bytes 8 i
  end.

(** The types of what the seeds are made of. *)
Definition is_key (k : Pubkey) : Prop := 0 ≤ k < 256 ^ 32.
Definition typed_address (a : Address) : Prop :=
  match a with
  | BankAddress i | BankVaultAddress i | BankVaultAuthorityAddress i | MarketAddress i =>
      has_type U64 i
  | UserAddress k id => is_key k ∧ has_type U8 id
  | InsuranceVaultAuthorityAddress v => is_key v
  | _ => True
  end.

Section Addresses.
Context `{ProgramAddresses}.

Definition address (a : Address) : Pubkey := (find_program_address (seeds a)).1.

(** What [initialize] and [initialize_bank] find. *)
Definition find_insurance_vault_authority (insurance_vault : Pubkey) : Pubkey * Z :=
  find_program_address (seeds (InsuranceVaultAuthorityAddress insurance_vault)).
Definition find_bank_vault_authority (bank_index : Z) : Pubkey * Z :=
  find_program_address (seeds (BankVaultAuthorityAddress bank_index)).
End Addresses.

(** ** Properties *)

Lemma le_bytes_inj n x y :
  0 ≤ x < 256 ^ Z.of_nat n → 0 ≤ y < 256 ^ Z.of_nat n → le_bytes n x = le_bytes n y → x = y.
Proof. intros Hx Hy Heq. by rewrite <-(le_bytes_value n x), <-(le_bytes_value n y), Heq. Qed.

Lemma le_bytes_8_inj i j :
  has_type U64 i → has_type U64 j → le_bytes 8 i = le_bytes 8 j → i = j.
Proof.
  unfold has_type, int_min, int_max. intros Hi Hj. apply le_bytes_inj; cbn in *; lia.
Qed.

(** Two accounts of the program never have the same seeds: neither by the literals that
    the seeds start with nor by the numbers and keys that follow. *)
Lemma seeds_inj a b :
  typed_address a → typed_address b → seeds a = seeds b → a = b.
Proof.
  intros Ha Hb Heq. pose proof (f_equal length Heq) as Hlen.
  destruct a, b; try done; cbn [typed_address] in *;
    cbn [seeds] in Hlen, Heq; unfold key_bytes in *;
    rewrite ?length_app, ?length_le_bytes in Hlen; try (cbn in Hlen; done);
    try (apply app_inv_head in Heq; f_equal; by apply le_bytes_8_inj).
  - f_equal. by apply (le_bytes_inj 32).
  - destruct Ha as [Hk Hid], Hb as [Hk' Hid']. apply app_inv_head in Heq.
    apply app_inj_1 in Heq as [Hkey Hn]; [|by rewrite !length_le_bytes].
    f_equal; [by apply (le_bytes_inj 32)|].
    apply (le_bytes_inj 1); [..|done]; unfold has_type, int_min, int_max in *; cbn in *; lia.
Qed.

Section Addresses.
Context `{AddressLaws}.

Lemma address_created a :
  ∃ n, create_program_address (seeds a ++ [n]) = Some (address a).
Proof. eexists. apply find_program_address_spec. Qed.

Lemma address_inj a b :
  typed_address a → typed_address b → address a = address b → a = b.
Proof.
  intros Ha Hb Heq. destruct (address_created a) as [n Hn], (address_created b) as [k Hk].
  rewrite Heq in Hn. pose proof (create_program_address_inj _ _ _ Hn Hk) as Hs.
  apply app_inj_2 in Hs as [Hs _]; [|done]. by apply seeds_inj.
Qed.

(** Nobody signs for an account of the program but the program. *)
Lemma address_no_private_key a : ¬ has_private_key (address a).
Proof. destruct (address_created a) as [n Hn]. by eapply no_private_key. Qed.
End Addresses.
