(* ===== verification/Value.v ===== *)
(** * Valuation (math/quote_asset.rs, math/pnl.rs, math/collateral.rs,
      math/slippage.rs)

    Conversions between quote asset and quote reserve amounts, profit and loss
    of a position, collateral after a profit or loss, and slippage. *)

From stdpp Require Import base numbers.
From S2P Require Import Prelude Constants State.
Local Open Scope Z_scope.

(** ** Definitions *)

Definition reserve_to_asset_amount (quote_asset_reserve peg_multiplier : Z) : result Z :=
  let? x := cmul U128 quote_asset_reserve peg_multiplier in
  op_div U128 x AMM_TIMES_PEG_TO_QUOTE_PRECISION_RATIO.

Definition asset_to_reserve_amount (quote_asset_amount peg_multiplier : Z) : result Z :=
  let? x := cmul U128 quote_asset_amount AMM_TIMES_PEG_TO_QUOTE_PRECISION_RATIO in
  op_div U128 x peg_multiplier.

Definition calculate_pnl (exit_value entry_value : Z)
    (swap_direction_to_close : SwapDirection) : result Z :=
  match swap_direction_to_close with
  | Add =>
      let? exit := cast_to_i128 exit_value in
      let? entry := cast I128 entry_value in
      csub I128 exit entry
  | Remove =>
      let? entry := cast_to_i128 entry_value in
      let? exit := cast I128 exit_value in
      csub I128 entry exit
  end.

Definition calculate_updated_collateral (collateral pnl : Z) : result Z :=
  if (pnl <? 0) && (collateral <? unsigned_abs pnl) then Ok 0
  else if 0 <? pnl then cadd U128 collateral (unsigned_abs pnl)
  else csub U128 collateral (unsigned_abs pnl).

Definition calculate_slippage (exit_value base_asset_amount mark_price_before : Z)
    : result Z :=
  let? x := cmul U128 exit_value MARK_PRICE_TIMES_AMM_TO_QUOTE_PRECISION_RATIO in
  let? amm_exit_price := cdiv U128 x base_asset_amount in
  let? p := cast_to_i128 amm_exit_price in
  csub I128 p mark_price_before.

Definition calculate_slippage_pct (slippage mark_price_before : Z) : result Z :=
  let? x := cmul I128 slippage BID_ASK_SPREAD_PRECISION_I128 in
  cdiv I128 x mark_price_before.

(** ** Lemmas *)

Lemma u128_div_in a b : has_type U128 a → 0 < b → has_type U128 (a / b).
Proof. unfold_int. intros. pose proof (div_nonneg_le a b). lia. Qed.

Lemma u128_div_wrap a b : has_type U128 a → 0 < b → wrap U128 (a / b) = a / b.
Proof. intros. apply wrap_in. by apply u128_div_in. Qed.

Lemma reserve_to_asset_amount_ok r peg q :
  reserve_to_asset_amount r peg = Ok q ↔
  has_type U128 (r * peg) ∧ q = r * peg / AMM_TIMES_PEG_TO_QUOTE_PRECISION_RATIO.
Proof.
  unfold reserve_to_asset_amount, AMM_TIMES_PEG_TO_QUOTE_PRECISION_RATIO.
  rewrite bind_ok. setoid_rewrite cmul_ok. setoid_rewrite op_div_ok. split.
  - intros (? & [-> ?] & _ & ->). split; [done|]. by apply u128_div_wrap.
  - intros [? ->]. eexists. split; [done|]. split; [done|].
    symmetry. by apply u128_div_wrap.
Qed.

Lemma asset_to_reserve_amount_ok q peg r :
  has_type U128 peg →
  asset_to_reserve_amount q peg = Ok r ↔
  has_type U128 (q * AMM_TIMES_PEG_TO_QUOTE_PRECISION_RATIO) ∧ 0 < peg
  ∧ r = q * AMM_TIMES_PEG_TO_QUOTE_PRECISION_RATIO / peg.
Proof.
  intros Hp. unfold asset_to_reserve_amount. rewrite bind_ok.
  setoid_rewrite cmul_ok. setoid_rewrite op_div_ok. split.
  - intros (? & [-> ?] & ? & ->). assert (0 < peg) by int_lia.
    split_and!; [done..|]. by apply u128_div_wrap.
  - intros (? & ? & ->). eexists. split; [done|]. split; [lia|].
    symmetry. by apply u128_div_wrap.
Qed.

Lemma calculate_pnl_ok exit entry d p :
  calculate_pnl exit entry d = Ok p →
  p = match d with Add => exit - entry | Remove => entry - exit end ∧ has_type I128 p.
Proof. destruct d; simpl; intros; inv_ok; done. Qed.

(** The collateral after a profit or loss is the sum, floored at zero; the only
    failure is a sum beyond 128 bits. *)
Lemma calculate_updated_collateral_spec collateral pnl :
  has_type U128 collateral → has_type I128 pnl →
  calculate_updated_collateral collateral pnl =
    if collateral + pnl <=? int_max U128 then Ok (Z.max 0 (collateral + pnl))
    else Err MathError.
Proof.
  intros. unfold calculate_updated_collateral, unsigned_abs, cadd, csub,
    checked_add, checked_sub, checked, in_range.
  unfold_int.
  repeat case_match; bool_prop; simpl; try (f_equal; lia); exfalso; lia.
Qed.

Lemma calculate_updated_collateral_ok collateral pnl r :
  has_type U128 collateral → has_type I128 pnl →
  calculate_updated_collateral collateral pnl = Ok r →
  r = Z.max 0 (collateral + pnl) ∧ has_type U128 r.
Proof.
  intros Hc Hp H. rewrite calculate_updated_collateral_spec in H by done.
  inv_ok. split; [done|]. unfold_int. bool_prop. lia.
Qed.
