(* ===== verification/AmmMath.v ===== *)
(** * The constant product curve (math/amm.rs, and [AMM::mark_price] and
      [AMM::bid_ask_price] of state/market.rs)

    Price, swap outputs, terminal price, spreads and trade limits of the
    virtual AMM.  The time weighted averages and the oracle checks of
    math/amm.rs are in Twap.v, its curve updates in CurveMath.v. *)

From stdpp Require Import base numbers.
From S2P Require Import Prelude Constants Bn State Value.
Local Open Scope Z_scope.

(** ** Definitions *)

Section Definitions.
Context `{BnLib}.

Definition calculate_price (quote_asset_reserve base_asset_reserve peg_multiplier : Z)
    : result Z :=
  let? peg_quote_asset_amount := cmul U128 quote_asset_reserve peg_multiplier in
  let? x := bn_mul U192 (bn_from U192 peg_quote_asset_amount)
              (bn_from U192 PRICE_TO_PEG_PRECISION_RATIO) in
  let? y := bn_div U192 x (bn_from U192 base_asset_reserve) in
  try_to_u128 U192 y.

Definition mark_price (amm : AMM) : result Z :=
  calculate_price amm.(AMM.quote_asset_reserve) amm.(AMM.base_asset_reserve)
    amm.(AMM.peg_multiplier).

(** [match precomputed_mark_price { Some(p) => p, None => amm.mark_price()? }] *)
Definition mark_price_or (amm : AMM) (precomputed_mark_price : option Z) : result Z :=
  match precomputed_mark_price with
  | Some mark_price => Ok mark_price
  | None => mark_price amm
  end.

(** The sums of the source are unchecked additions of [u128]. *)
Definition bid_ask_price (amm : AMM) (mark_price : Z) : result (Z * Z) :=
  let? a := cmul U128 mark_price
              (wrap U128 (BID_ASK_SPREAD_PRECISION + amm.(AMM.long_spread))) in
  let? ask_price := cdiv U128 a BID_ASK_SPREAD_PRECISION in
  let? b := cmul U128 mark_price
              (wrap U128 (BID_ASK_SPREAD_PRECISION + amm.(AMM.short_spread))) in
  let? bid_price := cdiv U128 b BID_ASK_SPREAD_PRECISION in
  Ok (bid_price, ask_price).

Definition calculate_swap_output (swap_amount input_asset_amount : Z)
    (direction : SwapDirection) (invariant_sqrt : Z) : result (Z * Z) :=
  let invariant_sqrt_u192 := bn_from U192 invariant_sqrt in
  let? invariant := bn_mul U192 invariant_sqrt_u192 invariant_sqrt_u192 in
  if bool_decide (direction = Remove) && (input_asset_amount <? swap_amount)
  then Err TradeSizeTooLarge
  else
    let? new_input_amount :=
      match direction with
      | Add => cadd U128 input_asset_amount swap_amount
      | Remove => csub U128 input_asset_amount swap_amount
      end in
    let new_input_amount_u192 := bn_from U192 new_input_amount in
    let? out := bn_div U192 invariant new_input_amount_u192 in
    let? new_output_amount := try_to_u128 U192 out in
    Ok (new_output_amount, new_input_amount).

Definition calculate_quote_asset_amount_swapped
    (quote_asset_reserve_before quote_asset_reserve_after : Z)
    (swap_direction : SwapDirection) (peg_multiplier : Z) : result Z :=
  let? quote_asset_reserve_change :=
    match swap_direction with
    | Add => csub U128 quote_asset_reserve_before quote_asset_reserve_after
    | Remove => csub U128 quote_asset_reserve_after quote_asset_reserve_before
    end in
  let? quote_asset_amount :=
    reserve_to_asset_amount quote_asset_reserve_change peg_multiplier in
  if bool_decide (swap_direction = Remove) then cadd U128 quote_asset_amount 1
  else Ok quote_asset_amount.

(** The swap that closes the net position of the users. *)
Definition net_position_swap_direction (amm : AMM) : SwapDirection :=
  if 0 <? amm.(AMM.net_base_asset_amount) then Add else Remove.

Definition calculate_terminal_price_and_reserves (market : Market)
    : result (Z * Z * Z) :=
  let amm := market.(Market.amm) in
  let? ' (new_quote_asset_amount, new_base_asset_amount) :=
    calculate_swap_output (unsigned_abs amm.(AMM.net_base_asset_amount))
      amm.(AMM.base_asset_reserve) (net_position_swap_direction amm)
      amm.(AMM.sqrt_k) in
  let? terminal_price := calculate_price new_quote_asset_amount
    new_base_asset_amount amm.(AMM.peg_multiplier) in
  Ok (terminal_price, new_quote_asset_amount, new_base_asset_amount).

Definition calculate_terminal_price (market : Market) : result Z :=
  let amm := market.(Market.amm) in
  let? ' (new_quote_asset_amount, new_base_asset_amount) :=
    calculate_swap_output (unsigned_abs amm.(AMM.net_base_asset_amount))
      amm.(AMM.base_asset_reserve) (net_position_swap_direction amm)
      amm.(AMM.sqrt_k) in
  let? terminal_price := calculate_price new_quote_asset_amount
    new_base_asset_amount amm.(AMM.peg_multiplier) in
  Ok terminal_price.

(** The multiplier of the inventory side's spread when the fee pool is not
    empty: one plus the effective leverage, at most five. *)
Definition effective_leverage_capped (amm : AMM) (max_inventory_skew : Z) : result Z :=
  let? long := cast_to_i128 amm.(AMM.quote_asset_amount_long) in
  let? short := cast_to_i128 amm.(AMM.quote_asset_amount_short) in
  let? net_cost_basis := csub I128 long short in
  let? quote := cast_to_i128 amm.(AMM.quote_asset_reserve) in
  let? terminal := cast_to_i128 amm.(AMM.terminal_quote_asset_reserve) in
  let? delta := csub I128 quote terminal in
  let? peg := cast_to_i128 amm.(AMM.peg_multiplier) in
  let? x := cmul I128 delta peg in
  let? net_base_asset_value :=
    cdiv I128 x AMM_TIMES_PEG_TO_QUOTE_PRECISION_RATIO_I128 in
  let? mp := mark_price amm in
  let? mp := cast_to_i128 mp in
  let? y := cmul I128 amm.(AMM.net_base_asset_amount) mp in
  let? local_base_asset_value :=
    cdiv I128 y MARK_PRICE_TIMES_AMM_TO_QUOTE_PRECISION_RATIO_I128 in
  let? net_pnl := csub I128 net_base_asset_value net_cost_basis in
  let? local_pnl := csub I128 local_base_asset_value net_cost_basis in
  let? d := csub I128 local_pnl net_pnl in
  let? d := cast_to_u128 (Z.max 0 d) in
  let? d := cmul U128 d MARK_PRICE_PRECISION in
  let? effective_leverage := cdiv U128 d amm.(AMM.total_fee_minus_distributions) in
  let? l := cadd U128 MARK_PRICE_PRECISION effective_leverage in
  Ok (Z.min max_inventory_skew l).

Definition calculate_spreads (amm : AMM) : result (AMM * (Z * Z)) :=
  let half := int_quot U16 amm.(AMM.base_spread) 2 in
  let? ' (long_spread, short_spread) :=
    if 0 <? amm.(AMM.curve_update_intensity) then
      let pct := amm.(AMM.last_oracle_mark_spread_pct) in
      let long_spread := if pct <? 0 then Z.max half (unsigned_abs pct) else half in
      let short_spread := if pct <? 0 then half else Z.max half (unsigned_abs pct) in
      let max_inventory_skew := 5 * MARK_PRICE_PRECISION in
      if 0 <? amm.(AMM.total_fee_minus_distributions) then
        let? skew := effective_leverage_capped amm max_inventory_skew in
        if 0 <? amm.(AMM.net_base_asset_amount) then
          let? x := cmul U128 long_spread skew in
          let? long_spread := cdiv U128 x MARK_PRICE_PRECISION in
          Ok (long_spread, short_spread)
        else
          let? x := cmul U128 short_spread skew in
          let? short_spread := cdiv U128 x MARK_PRICE_PRECISION in
          Ok (long_spread, short_spread)
      else
        let? long_spread :=
          cmul U128 long_spread (max_inventory_skew / MARK_PRICE_PRECISION) in
        let? short_spread :=
          cmul U128 short_spread (max_inventory_skew / MARK_PRICE_PRECISION) in
        Ok (long_spread, short_spread)
    else Ok (half, half) in
  Ok (amm <| AMM.long_spread := long_spread |> <| AMM.short_spread := short_spread |>,
      (long_spread, short_spread)).

(** [BID_ASK_SPREAD_PRECISION / (spread / 2)] is an unchecked division. *)
Definition calculate_spread_reserves (amm : AMM) (direction : PositionDirection)
    : result (Z * Z) :=
  let spread :=
    match direction with
    | Long => amm.(AMM.long_spread)
    | Short => amm.(AMM.short_spread)
    end in
  let? quote_asset_reserve_delta :=
    if 0 <? spread then
      let? half := op_div U128 spread 2 in
      let? d := op_div U128 BID_ASK_SPREAD_PRECISION half in
      cdiv U128 amm.(AMM.quote_asset_reserve) d
    else Ok 0 in
  let? quote_asset_reserve :=
    match direction with
    | Long => cadd U128 amm.(AMM.quote_asset_reserve) quote_asset_reserve_delta
    | Short => csub U128 amm.(AMM.quote_asset_reserve) quote_asset_reserve_delta
    end in
  let invariant_sqrt_u192 := bn_from U192 amm.(AMM.sqrt_k) in
  let? invariant := bn_mul U192 invariant_sqrt_u192 invariant_sqrt_u192 in
  let? out := bn_div U192 invariant (bn_from U192 quote_asset_reserve) in
  let? base_asset_reserve := try_to_u128 U192 out in
  Ok (base_asset_reserve, quote_asset_reserve).

Definition calculate_max_base_asset_amount_to_trade (amm : AMM) (limit_price : Z)
    (direction : PositionDirection) (use_spread : bool)
    : result (Z * PositionDirection) :=
  let invariant_sqrt_u192 := bn_from U192 amm.(AMM.sqrt_k) in
  let? invariant := bn_mul U192 invariant_sqrt_u192 invariant_sqrt_u192 in
  let? a := bn_mul U192 invariant (bn_from U192 MARK_PRICE_PRECISION) in
  let? b := bn_div U192 a (bn_from U192 limit_price) in
  let? c := bn_mul U192 b (bn_from U192 amm.(AMM.peg_multiplier)) in
  let? new_base_asset_reserve_squared := bn_div U192 c (bn_from U192 PEG_PRECISION) in
  let? new_base_asset_reserve :=
    try_to_u128 U192 (bn_integer_sqrt U192 new_base_asset_reserve_squared) in
  let? base_asset_reserve_before :=
    if use_spread && (0 <? amm.(AMM.base_spread)) then
      let? ' (spread_base_asset_reserve, _) := calculate_spread_reserves amm direction in
      Ok spread_base_asset_reserve
    else Ok amm.(AMM.base_asset_reserve) in
  if base_asset_reserve_before <? new_base_asset_reserve then
    let? max_trade_amount :=
      csub U128 new_base_asset_reserve base_asset_reserve_before in
    Ok (max_trade_amount, Short)
  else
    let? max_trade_amount :=
      csub U128 base_asset_reserve_before new_base_asset_reserve in
    Ok (max_trade_amount, Long).

Definition should_round_trade (amm : AMM) (quote_asset_amount base_asset_value : Z)
    : result bool :=
  let? difference :=
    if base_asset_value <? quote_asset_amount
    then csub U128 quote_asset_amount base_asset_value
    else csub U128 base_asset_value quote_asset_amount in
  let? quote_asset_reserve_amount :=
    asset_to_reserve_amount difference amm.(AMM.peg_multiplier) in
  Ok (quote_asset_reserve_amount <? amm.(AMM.minimum_quote_asset_trade_size)).
End Definitions.

(** ** Properties *)

(** What [calculate_swap_output] returns once the new input reserve is known. *)
Definition swap_result (invariant new_input : Z) : result (Z * Z) :=
  if new_input =? 0 then Err MathError
  else if int_max U128 <? invariant / new_input then Err BnConversionError
  else Ok (invariant / new_input, new_input).

(** The input reserve after a swap. *)
Definition new_input (direction : SwapDirection) (input_asset_amount swap_amount : Z) : Z :=
  match direction with
  | Add => input_asset_amount + swap_amount
  | Remove => input_asset_amount - swap_amount
  end.

Section Properties.
Context `{BnLaws}.

Lemma calculate_price_ok q b peg p :
  has_type U128 b →
  calculate_price q b peg = Ok p →
  has_type U128 (q * peg) ∧ 0 < b ∧ has_type U128 p
  ∧ p = q * peg * PRICE_TO_PEG_PRECISION_RATIO / b.
Proof.
  intros Hb Hp. unfold calculate_price in Hp. unfold PRICE_TO_PEG_PRECISION_RATIO in *.
  inv_bn. done.
Qed.

Lemma calculate_swap_output_ok a i d s o n :
  has_type U128 a → has_type U128 i → has_type U128 s →
  calculate_swap_output a i d s = Ok (o, n) →
  n = new_input d i a ∧ 0 < n ∧ has_type U128 n ∧ o = s * s / n ∧ has_type U128 o
  ∧ bn_range U192 (s * s).
Proof.
  intros Ha Hi Hs Hok. unfold calculate_swap_output in Hok.
  destruct d; simpl in Hok; inv_bn; done.
Qed.

(** [calculate_swap_output] in closed form: the result on every branch, errors
    included. *)
Lemma calculate_swap_output_spec a i d s :
  has_type U128 a → has_type U128 i → has_type U128 s →
  calculate_swap_output a i d s =
    if bn_modulus U192 <=? s * s then Err MathError
    else match d with
         | Add => if int_max U128 <? i + a then Err MathError
                  else swap_result (s * s) (i + a)
         | Remove => if i <? a then Err TradeSizeTooLarge
                     else swap_result (s * s) (i - a)
         end.
Proof.
  intros Ha Hi Hs. unfold calculate_swap_output, bn_mul, math.
  rewrite bn_from_spec, bn_checked_mul_spec by auto using u128_bn_range.
  assert (0 ≤ s * s) by int_lia.
  unfold bn_checked. rewrite (proj2 (Z.leb_le 0 (s * s))) by done. cbn [andb].
  destruct (Z.leb_spec (bn_modulus U192) (s * s)),
    (Z.ltb_spec (s * s) (bn_modulus U192)); try lia; cbn [andb ok_or bind]; [done|].
  assert (Hfin : ∀ n, has_type U128 n →
    (let? out := bn_div U192 (s * s) (bn_from U192 n) in
     let? o := try_to_u128 U192 out in Ok (o, n)) = swap_result (s * s) n).
  { intros n Hn. unfold swap_result, bn_div, math, try_to_u128.
    rewrite bn_from_spec, bn_checked_div_spec by (done || by apply u128_bn_range).
    destruct (Z.eqb_spec n 0) as [|Hn0]; cbn [ok_or bind]; [done|].
    assert (0 < n) by int_lia.
    rewrite bn_try_into_spec by (by apply bn_div_range).
    rewrite checked_upper by (by apply Z.div_pos).
    by destruct (int_max U128 <? s * s / n). }
  unfold cadd, csub, math, checked_add, checked_sub.
  destruct d; rewrite ?bool_decide_true, ?bool_decide_false by done; cbn [andb].
  - rewrite checked_upper by int_lia.
    destruct (Z.ltb_spec (int_max U128) (i + a)); cbn [ok_or bind]; [done|].
    apply Hfin. int_lia.
  - destruct (Z.ltb_spec i a); [done|].
    rewrite checked_in by int_lia. apply Hfin. int_lia.
Qed.

(** C28. The product of the reserves after a swap is the invariant, rounded down by
    less than one unit of the output reserve. *)
Lemma calculate_swap_output_invariant a i d s o n :
  has_type U128 a → has_type U128 i → has_type U128 s →
  calculate_swap_output a i d s = Ok (o, n) →
  o * n ≤ s * s < (o + 1) * n.
Proof.
  intros Ha Hi Hs Hok.
  apply calculate_swap_output_ok in Hok as (-> & Hn & _ & -> & _); [|done..].
  pose proof (Z.div_mod (s * s) (new_input d i a)).
  pose proof (Z.mod_pos_bound (s * s) (new_input d i a)). nia.
Qed.

Lemma calculate_quote_asset_amount_swapped_ok qb qa d peg x :
  calculate_quote_asset_amount_swapped qb qa d peg = Ok x →
  match d with
  | Add => qa ≤ qb ∧ x = (qb - qa) * peg / AMM_TIMES_PEG_TO_QUOTE_PRECISION_RATIO
  | Remove =>
      qb ≤ qa ∧ x = (qa - qb) * peg / AMM_TIMES_PEG_TO_QUOTE_PRECISION_RATIO + 1
  end ∧ has_type U128 x.
Proof.
  intros Hx. unfold calculate_quote_asset_amount_swapped in Hx.
  assert (0 < AMM_TIMES_PEG_TO_QUOTE_PRECISION_RATIO) by done.
  destruct d; rewrite ?bool_decide_true, ?bool_decide_false in Hx by done; inv_ok;
    repeat match goal with
    | Hr : reserve_to_asset_amount _ _ = Ok _ |- _ =>
        apply reserve_to_asset_amount_ok in Hr as [? ->]
    end; inv_ok.
  - split; [int_lia|]. by apply u128_div_in.
  - split; [int_lia|done].
Qed.

(** Both quoted prices are at least the mark price: the bid adds its spread as the
    ask does. *)
Theorem bid_ask_price_above_mark amm mark bid ask :
  AMM.typed amm → 0 ≤ mark →
  BID_ASK_SPREAD_PRECISION + amm.(AMM.long_spread) ≤ int_max U128 →
  BID_ASK_SPREAD_PRECISION + amm.(AMM.short_spread) ≤ int_max U128 →
  bid_ask_price amm mark = Ok (bid, ask) →
  mark ≤ bid ∧ mark ≤ ask
  ∧ bid = mark + mark * amm.(AMM.short_spread) / BID_ASK_SPREAD_PRECISION
  ∧ ask = mark + mark * amm.(AMM.long_spread) / BID_ASK_SPREAD_PRECISION.
Proof.
  intros Hty Hm Hl Hs Hok. unfold bid_ask_price in Hok.
  pose proof (AMM.long_spread_ty _ Hty) as Hlt. pose proof (AMM.short_spread_ty _ Hty) as Hst.
  unfold BID_ASK_SPREAD_PRECISION, has_type in *. cbn [int_min int_max] in *.
  rewrite !wrap_in in Hok by (unfold has_type; cbn [int_min int_max]; lia).
  inv_ok. unfold int_quot; cbn [is_signed].
  rewrite !Z.mul_add_distr_l, !(Z.add_comm (mark * 1000000)), !Z.div_add by lia.
  pose proof (Z.div_pos (mark * AMM.short_spread amm) 1000000 ltac:(nia) ltac:(lia)).
  pose proof (Z.div_pos (mark * AMM.long_spread amm) 1000000 ltac:(nia) ltac:(lia)). lia.
Qed.

(** The spread of a side is the whole fraction of the quote reserve that the two
    unchecked divisions leave. *)
Definition side_spread (amm : AMM) (direction : PositionDirection) : Z :=
  match direction with
  | Long => amm.(AMM.long_spread)
  | Short => amm.(AMM.short_spread)
  end.

(** A spread of one unit halves to zero and aborts the swap with a division by
    zero. *)
Theorem calculate_spread_reserves_panics amm direction :
  side_spread amm direction = 1 → calculate_spread_reserves amm direction = Panic.
Proof.
  intros Hs. unfold calculate_spread_reserves, side_spread in *.
  by destruct direction; rewrite Hs.
Qed.

(** The reserves with spread: the quote reserve moves against the trader by at most
    half of the spread's share of it, and the base reserve follows the invariant. *)
Theorem calculate_spread_reserves_ok amm direction b q :
  AMM.typed amm →
  calculate_spread_reserves amm direction = Ok (b, q) →
  let q0 := amm.(AMM.quote_asset_reserve) in
  let spread := side_spread amm direction in
  b = amm.(AMM.sqrt_k) * amm.(AMM.sqrt_k) / q ∧ 0 < q
  ∧ match direction with Long => q0 ≤ q | Short => q ≤ q0 end
  ∧ (spread = 0 → q = q0)
  ∧ (spread ≤ BID_ASK_SPREAD_PRECISION →
     (Z.abs (q - q0)) * (BID_ASK_SPREAD_PRECISION - spread / 2)
       ≤ q0 * (spread / 2)).
Proof.
  intros Hty Hok q0 spread. unfold calculate_spread_reserves in Hok.
  pose proof (AMM.quote_asset_reserve_ty _ Hty) as Hq0. fold q0 in Hq0.
  assert (has_type U128 spread) as Hst.
  { unfold spread, side_spread. destruct Hty. by destruct direction. }
  change (match direction with Long => _ | Short => _ end) with spread in Hok at 1 2.
  fold q0 in Hok. cbv zeta in Hok.
  apply bind_ok in Hok as (delta & Hdelta & Hok). apply bind_ok in Hok as (q' & Hq' & Hok).
  assert (has_type U128 q'
          ∧ q' = match direction with Long => q0 + delta | Short => q0 - delta end)
    as [Hqt Hqd] by (clear - Hq'; destruct direction; inv_ok; done).
  pose proof (AMM.sqrt_k_ty _ Hty).
  assert (b = AMM.sqrt_k amm * AMM.sqrt_k amm / q ∧ 0 < q ∧ q = q') as (Hb & Hq & ->)
    by (clear - Hok Hqt H1 H0; inv_bn; done).
  split; [done|]. split; [done|].
  unfold has_type in Hst, Hq0, Hqt. cbn [int_min int_max] in Hst, Hq0, Hqt.
  unfold BID_ASK_SPREAD_PRECISION in *.
  assert (0 ≤ delta ∧ (spread = 0 → delta = 0)
    ∧ (spread ≤ 1000000 → delta * (1000000 - spread / 2) ≤ q0 * (spread / 2))) as (H2 & H3 & H4).
  { destruct (Z.ltb_spec 0 spread) as [Hs|Hs].
    - apply bind_ok in Hdelta as (h & Hh & Hdelta). apply op_div_ok in Hh as [_ ->].
      apply bind_ok in Hdelta as (d & Hd & Hdelta). apply op_div_ok in Hd as [Hh0 ->].
      unfold int_quot in *; cbn [is_signed] in *.
      rewrite (u128_div_wrap spread 2) in * by (unfold has_type; cbn [int_min int_max]; lia).
      pose proof (Z.div_pos spread 2 ltac:(lia) ltac:(lia)).
      rewrite u128_div_wrap in Hdelta by (unfold has_type; cbn [int_min int_max]; lia).
      apply cdiv_ok in Hdelta as (Hd0 & -> & Hdt). unfold int_quot in *; cbn [is_signed] in *.
      split; [apply Hdt|]. split; [lia|]. intros Hle.
      set (h := spread / 2) in *.
      pose proof (Z.div_mod 1000000 h ltac:(lia)). pose proof (Z.mod_pos_bound 1000000 h ltac:(lia)).
      set (d := 1000000 / h) in *. assert (0 < d) by (assert (0 ≤ d) by (apply Z.div_pos; lia); lia).
      pose proof (mul_div_le' q0 d ltac:(lia)). set (x := q0 / d) in *.
      assert (0 ≤ x) by (apply Z.div_pos; lia). nia.
    - apply Ok_inj in Hdelta as <-. assert (spread = 0) as Hz by lia. rewrite Hz. change (0 / 2) with 0. split_and!; try done; lia. }
  destruct direction; subst q'; (split; [lia|]); split; intros.
  - rewrite H3 by done. lia.
  - replace (Z.abs (q0 + delta - q0)) with delta by lia. auto.
  - rewrite H3 by done. lia.
  - replace (Z.abs (q0 - delta - q0)) with delta by lia. auto.
Qed.
End Properties.


(** ** Witnesses *)

Lemma calculate_swap_output_spec_witness :
  calculate_swap_output 1000 5000 Add 5000 = Ok (4166, 6000).
Proof.
  rewrite (calculate_swap_output_spec 1000 5000 Add 5000) by (split; vm_compute; discriminate).
  reflexivity.
Defined.
