(* ===== verification/BankBalance.v ===== *)
(** * Bank balances and interest (math/bank_balance.rs, controller/bank_balance.rs,
      the trait [BankBalance] of state/bank.rs with its two implementations, and
      math/withdrawal.rs)

    A bank keeps the sums of the deposit and of the borrow balances of its
    users.  The trait [BankBalance] is a class; the laws that the update of a
    balance relies on are the class [BankBalanceLaws], which [UserBankBalance]
    satisfies and [PNLPool] does not. *)

From stdpp Require Import base numbers list.
From S2P Require Import Prelude Constants State Value.
Local Open Scope Z_scope.

(** ** Definitions *)

Class BankBalance (B : Type) := {
  balance_type : B → BankBalanceType;
  balance : B → Z;
  increase_balance : B → Z → result B;
  decrease_balance : B → Z → result B;
  update_balance_type : B → BankBalanceType → result B;
}.

#[export] Instance UserBankBalance_BankBalance : BankBalance UserBankBalance := {|
  balance_type b := b.(UserBankBalance.balance_type);
  balance b := b.(UserBankBalance.balance);
  increase_balance b delta :=
    let? x := cadd U128 b.(UserBankBalance.balance) delta in
    Ok (b <| UserBankBalance.balance := x |>);
  decrease_balance b delta :=
    let? x := csub U128 b.(UserBankBalance.balance) delta in
    Ok (b <| UserBankBalance.balance := x |>);
  update_balance_type b t := Ok (b <| UserBankBalance.balance_type := t |>);
|}.

(** [decrease_balance] of the source adds [delta]. *)
#[export] Instance PNLPool_BankBalance : BankBalance PNLPool := {|
  balance_type _ := Deposit;
  balance b := b.(PNLPool.balance);
  increase_balance b delta :=
    let? x := cadd U128 b.(PNLPool.balance) delta in
    Ok (b <| PNLPool.balance := x |>);
  decrease_balance b delta :=
    let? x := cadd U128 b.(PNLPool.balance) delta in
    Ok (b <| PNLPool.balance := x |>);
  update_balance_type _ _ := Err CantUpdatePNLPoolBalanceType;
|}.

(** The cumulative interest that scales the balances of one side. *)
Definition cumulative_interest (bank : Bank) (balance_type : BankBalanceType) : Z :=
  match balance_type with
  | Deposit => bank.(Bank.cumulative_deposit_interest)
  | Borrow => bank.(Bank.cumulative_borrow_interest)
  end.

Definition get_bank_balance (token_amount : Z) (bank : Bank)
    (balance_type : BankBalanceType) : result Z :=
  let? e := csub U8 16 bank.(Bank.decimals) in
  let precision_increase := int_pow U128 10 e in
  let? x := cmul U128 token_amount precision_increase in
  let? balance := cdiv U128 x (cumulative_interest bank balance_type) in
  if negb (balance =? 0) && bool_decide (balance_type = Borrow)
  then cadd U128 balance 1
  else Ok balance.

Definition get_token_amount (balance : Z) (bank : Bank)
    (balance_type : BankBalanceType) : result Z :=
  let? e := csub U8 16 bank.(Bank.decimals) in
  let precision_decrease := int_pow U128 10 e in
  let? x := cmul U128 balance (cumulative_interest bank balance_type) in
  cdiv U128 x precision_decrease.

Module InterestAccumulated.
Record InterestAccumulated := mk {
  borrow_interest : Z;
  deposit_interest : Z;
}.
End InterestAccumulated.
Abbreviation InterestAccumulated := InterestAccumulated.InterestAccumulated.

(** The [utilization] of [calculate_accumulated_interest]: the checked division
    fails only on a zero divisor. *)
Definition calculate_utilization (deposit_token_amount borrow_token_amount : Z)
    : result Z :=
  let? x := cmul U128 borrow_token_amount BANK_UTILIZATION_PRECISION in
  unwrap (match checked_div U128 x deposit_token_amount with
          | Some u => Some u
          | None => if (deposit_token_amount =? 0) && (borrow_token_amount =? 0)
                    then Some 0 else Some BANK_UTILIZATION_PRECISION
          end).

(** The [borrow_rate] of [calculate_accumulated_interest]: two linear pieces that
    meet at the optimal utilization. *)
Definition calculate_borrow_rate (bank : Bank) (utilization : Z) : result Z :=
  if bank.(Bank.optimal_utilization) <? utilization then
    let? surplus_utilization := csub U128 utilization bank.(Bank.optimal_utilization) in
    let? d := csub U128 bank.(Bank.max_borrow_rate) bank.(Bank.optimal_borrow_rate) in
    let? d := cmul U128 d BANK_UTILIZATION_PRECISION in
    let? w := csub U128 BANK_UTILIZATION_PRECISION bank.(Bank.optimal_utilization) in
    let? borrow_rate_slope := cdiv U128 d w in
    let? x := cmul U128 surplus_utilization borrow_rate_slope in
    let? x := cdiv U128 x BANK_UTILIZATION_PRECISION in
    cadd U128 bank.(Bank.optimal_borrow_rate) x
  else
    let? d := cmul U128 bank.(Bank.optimal_borrow_rate) BANK_UTILIZATION_PRECISION in
    let? borrow_rate_slope := cdiv U128 d bank.(Bank.optimal_utilization) in
    let? x := cmul U128 utilization borrow_rate_slope in
    cdiv U128 x BANK_UTILIZATION_PRECISION.

Definition calculate_accumulated_interest (bank : Bank) (now : Z)
    : result InterestAccumulated :=
  let? deposit_token_amount :=
    get_token_amount bank.(Bank.deposit_balance) bank Deposit in
  let? borrow_token_amount :=
    get_token_amount bank.(Bank.borrow_balance) bank Borrow in
  let? utilization := calculate_utilization deposit_token_amount borrow_token_amount in
  if utilization =? 0 then Ok (InterestAccumulated.mk 0 0)
  else
    let? borrow_rate := calculate_borrow_rate bank utilization in
    let? now := or_err (cast_to_u64 now) UnableToCastUnixTime in
    let? time_since_last_update := csub U64 now bank.(Bank.last_updated) in
    let? modified_borrow_rate := cmul U128 borrow_rate time_since_last_update in
    let? x := cmul U128 modified_borrow_rate utilization in
    let? modified_deposit_rate := cdiv U128 x BANK_UTILIZATION_PRECISION in
    let? x := cmul U128 bank.(Bank.cumulative_borrow_interest) modified_borrow_rate in
    let? x := cdiv U128 x ONE_YEAR in
    let? x := cdiv U128 x BANK_INTEREST_PRECISION in
    let? borrow_interest := cadd U128 x 1 in
    let? x := cmul U128 bank.(Bank.cumulative_deposit_interest) modified_deposit_rate in
    let? x := cdiv U128 x ONE_YEAR in
    let? deposit_interest := cdiv U128 x BANK_INTEREST_PRECISION in
    Ok (InterestAccumulated.mk borrow_interest deposit_interest).

(** [(bank.decimals - 6) as u32] is an unchecked subtraction of [u8]. *)
Definition get_balance_value (bank_balance : UserBankBalance) (bank : Bank)
    (oracle_price_data : OraclePriceData) : result Z :=
  let? token_amount := get_token_amount bank_balance.(UserBankBalance.balance) bank
    bank_balance.(UserBankBalance.balance_type) in
  let precision_decrease :=
    int_pow U128 10 (10 + wrap U8 (bank.(Bank.decimals) - 6)) in
  let? price := cast U128 oracle_price_data.(OraclePriceData.price) in
  let? x := cmul U128 token_amount price in
  cdiv U128 x precision_decrease.

Definition update_bank_cumulative_interest (bank : Bank) (now : Z) : result Bank :=
  let? i := calculate_accumulated_interest bank now in
  let deposit_interest := i.(InterestAccumulated.deposit_interest) in
  let borrow_interest := i.(InterestAccumulated.borrow_interest) in
  if (0 <? deposit_interest) && (1 <? borrow_interest) then
    let? d := cadd U128 bank.(Bank.cumulative_deposit_interest) deposit_interest in
    let bank := bank <| Bank.cumulative_deposit_interest := d |> in
    let? b := cadd U128 bank.(Bank.cumulative_borrow_interest) borrow_interest in
    let bank := bank <| Bank.cumulative_borrow_interest := b |> in
    let? t := cast_to_u64 now in
    Ok (bank <| Bank.last_updated := t |>)
  else Ok bank.

Definition increase_bank_balance (delta : Z) (bank : Bank)
    (balance_type : BankBalanceType) : result Bank :=
  match balance_type with
  | Deposit =>
      let? x := cadd U128 bank.(Bank.deposit_balance) delta in
      Ok (bank <| Bank.deposit_balance := x |>)
  | Borrow =>
      let? x := cadd U128 bank.(Bank.borrow_balance) delta in
      Ok (bank <| Bank.borrow_balance := x |>)
  end.

Definition decrease_bank_balance (delta : Z) (bank : Bank)
    (balance_type : BankBalanceType) : result Bank :=
  match balance_type with
  | Deposit =>
      let? x := csub U128 bank.(Bank.deposit_balance) delta in
      Ok (bank <| Bank.deposit_balance := x |>)
  | Borrow =>
      let? x := csub U128 bank.(Bank.borrow_balance) delta in
      Ok (bank <| Bank.borrow_balance := x |>)
  end.

Section Update.
Context {B : Type} `{BankBalance B}.

(** The [increase_balance] of both sides. *)
Definition increase_both (token_amount : Z) (update_direction : BankBalanceType)
    (bank : Bank) (bank_balance : B) : result (Bank * B) :=
  let? balance_delta := get_bank_balance token_amount bank update_direction in
  let? bank_balance := increase_balance bank_balance balance_delta in
  let? bank := increase_bank_balance balance_delta bank update_direction in
  Ok (bank, bank_balance).

(** The [reduce_user_existing_balance] branch: the amount left, the bank and the
    balance. *)
Definition reduce_existing (token_amount : Z) (bank : Bank) (bank_balance : B)
    : result (Z * Bank * B) :=
  let? current_token_amount :=
    get_token_amount (balance bank_balance) bank (balance_type bank_balance) in
  if negb (current_token_amount =? 0) then
    let? ' (token_delta, balance_delta) :=
      if token_amount <? current_token_amount then
        let? balance_delta :=
          get_bank_balance token_amount bank (balance_type bank_balance) in
        Ok (token_amount, balance_delta)
      else Ok (current_token_amount, balance bank_balance) in
    let? bank := decrease_bank_balance balance_delta bank (balance_type bank_balance) in
    let? bank_balance := decrease_balance bank_balance balance_delta in
    let? token_amount := csub U128 token_amount token_delta in
    Ok (token_amount, bank, bank_balance)
  else Ok (token_amount, bank, bank_balance).

(** The check at the end of a borrow. *)
Definition validate_deposits (bank : Bank) : result () :=
  let? deposit_token_amount :=
    get_token_amount bank.(Bank.deposit_balance) bank Deposit in
  let? borrow_token_amount :=
    get_token_amount bank.(Bank.borrow_balance) bank Borrow in
  validate (borrow_token_amount <=? deposit_token_amount) BankInsufficientDeposits.

Definition update_bank_balances (token_amount : Z) (update_direction : BankBalanceType)
    (bank : Bank) (bank_balance : B) : result (Bank * B) :=
  let? ' (bank, bank_balance) :=
    if bool_decide (update_direction = balance_type bank_balance)
    then increase_both token_amount update_direction bank bank_balance
    else
      let? ' (token_amount, bank, bank_balance) :=
        reduce_existing token_amount bank bank_balance in
      if 0 <? token_amount then
        let? bank_balance := update_balance_type bank_balance update_direction in
        increase_both token_amount update_direction bank bank_balance
      else Ok (bank, bank_balance) in
  match update_direction with
  | Borrow => let? ' () := validate_deposits bank in Ok (bank, bank_balance)
  | Deposit => Ok (bank, bank_balance)
  end.
End Update.

(** math/withdrawal.rs, over the amounts of the two token accounts *)
Definition calculate_withdrawal_amounts (amount collateral_token_amount
    insurance_token_amount : Z) : result (Z * Z) :=
  if amount <=? collateral_token_amount then Ok (amount, 0)
  else
    let? shortfall := csub U64 amount collateral_token_amount in
    if shortfall <? insurance_token_amount then Ok (collateral_token_amount, shortfall)
    else Ok (collateral_token_amount, insurance_token_amount).

(** ** Laws *)

(** What the update of a balance relies on. *)
Class BankBalanceLaws (B : Type) `{BankBalance B} : Prop := {
  increase_balance_ok (b b' : B) delta :
    increase_balance b delta = Ok b' →
    balance b' = balance b + delta ∧ balance_type b' = balance_type b;
  decrease_balance_ok (b b' : B) delta :
    decrease_balance b delta = Ok b' →
    balance b' = balance b - delta ∧ balance_type b' = balance_type b;
  update_balance_type_ok (b b' : B) t :
    update_balance_type b t = Ok b' → balance b' = balance b ∧ balance_type b' = t;
}.

#[export] Instance UserBankBalance_laws : BankBalanceLaws UserBankBalance.
Proof. split; intros b b' d Hok; simpl in *; inv_ok; done. Qed.

(** ** Lemmas *)

(** The scale between a balance and a token amount. *)
Definition token_precision (bank : Bank) : Z := 10 ^ (16 - bank.(Bank.decimals)).

(** The banks that [initialize_bank] creates, and that interest preserves. *)
Record bank_wf (bank : Bank) : Prop := {
  wf_decimals : 6 ≤ bank.(Bank.decimals);
  wf_deposit_interest :
    BANK_CUMULATIVE_INTEREST_PRECISION ≤ bank.(Bank.cumulative_deposit_interest);
  wf_borrow_interest :
    BANK_CUMULATIVE_INTEREST_PRECISION ≤ bank.(Bank.cumulative_borrow_interest);
}.

Lemma cumulative_interest_wf bank t :
  bank_wf bank → BANK_CUMULATIVE_INTEREST_PRECISION ≤ cumulative_interest bank t.
Proof. intros []. by destruct t. Qed.

Lemma int_pow_precision bank e :
  0 ≤ bank.(Bank.decimals) → csub U8 16 bank.(Bank.decimals) = Ok e →
  bank.(Bank.decimals) ≤ 16 ∧ int_pow U128 10 e = token_precision bank.
Proof.
  intros Hd He. inv_ok. unfold_int. split; [lia|].
  unfold int_pow, token_precision. apply wrap_in. unfold_int.
  assert (10 ^ 0 ≤ 10 ^ (16 - Bank.decimals bank) ≤ 10 ^ 16)
    by (split; apply Z.pow_le_mono_r; lia). lia.
Qed.

Lemma token_precision_pos bank : bank.(Bank.decimals) ≤ 16 → 0 < token_precision bank.
Proof. intros. apply Z.pow_pos_nonneg; lia. Qed.

Lemma token_precision_wf bank :
  bank_wf bank → bank.(Bank.decimals) ≤ 16 →
  0 < token_precision bank ≤ BANK_CUMULATIVE_INTEREST_PRECISION.
Proof.
  intros [] ?. split; [by apply token_precision_pos|].
  unfold token_precision. change BANK_CUMULATIVE_INTEREST_PRECISION with (10 ^ 10).
  apply Z.pow_le_mono_r; lia.
Qed.

Lemma get_token_amount_ok bal bank t x :
  0 ≤ bank.(Bank.decimals) →
  get_token_amount bal bank t = Ok x →
  bank.(Bank.decimals) ≤ 16 ∧ has_type U128 (bal * cumulative_interest bank t)
  ∧ x = bal * cumulative_interest bank t / token_precision bank ∧ has_type U128 x.
Proof.
  intros Hd Hok. unfold get_token_amount in Hok.
  apply bind_ok in Hok as (e & He & Hok).
  apply int_pow_precision in He as [? Hp]; [|done]. rewrite Hp in Hok.
  inv_ok. done.
Qed.

Lemma get_bank_balance_ok x bank t bal :
  0 ≤ bank.(Bank.decimals) → 0 ≤ cumulative_interest bank t →
  get_bank_balance x bank t = Ok bal →
  let q := x * token_precision bank / cumulative_interest bank t in
  bank.(Bank.decimals) ≤ 16 ∧ 0 < cumulative_interest bank t
  ∧ has_type U128 (x * token_precision bank)
  ∧ bal = match t with
          | Deposit => q
          | Borrow => if q =? 0 then 0 else q + 1
          end ∧ has_type U128 bal.
Proof.
  intros Hd Hc Hok q. unfold get_bank_balance in Hok.
  apply bind_ok in Hok as (e & He & Hok).
  apply int_pow_precision in He as [? Hp]; [|done]. rewrite Hp in Hok.
  apply bind_ok in Hok as (y & Hy & Hok). apply bind_ok in Hok as (z & Hz & Hok).
  apply cmul_ok in Hy as [-> ?]. apply cdiv_ok in Hz as (? & -> & ?).
  change (int_quot _ _ _) with q in *.
  assert (0 < cumulative_interest bank t) by lia.
  split_and!; try done; destruct t, (Z.eqb_spec q 0) as [Hq|Hq];
    rewrite ?(proj2 (Z.eqb_eq q 0) Hq), ?(proj2 (Z.eqb_neq q 0) Hq) in Hok;
    cbn in Hok; inv_ok; done.
Qed.

(** The part of a bank's totals that a balance makes. *)
Definition balance_part {B} `{BankBalance B} (t : BankBalanceType) (b : B) : Z :=
  if bool_decide (balance_type b = t) then balance b else 0.

(** The total of a bank that sums the balances of a type. *)
Definition bank_total (bank : Bank) (t : BankBalanceType) : Z :=
  match t with
  | Deposit => bank.(Bank.deposit_balance)
  | Borrow => bank.(Bank.borrow_balance)
  end.

(** Two banks differ at most in their totals. *)
Definition same_but_totals (bank bank' : Bank) : Prop :=
  bank' = bank <| Bank.deposit_balance := bank'.(Bank.deposit_balance) |>
               <| Bank.borrow_balance := bank'.(Bank.borrow_balance) |>.

Lemma same_but_totals_trans b1 b2 b3 :
  same_but_totals b1 b2 → same_but_totals b2 b3 → same_but_totals b1 b3.
Proof. unfold same_but_totals. intros H1 H2. rewrite H2 at 1. rewrite H1. done. Qed.

Lemma same_but_totals_amount b1 b2 bal t :
  same_but_totals b1 b2 → get_token_amount bal b2 t = get_token_amount bal b1 t.
Proof. intros ->. by destruct t. Qed.

Lemma increase_bank_balance_ok delta bank bank' t :
  increase_bank_balance delta bank t = Ok bank' →
  same_but_totals bank bank'
  ∧ ∀ t', bank_total bank' t' = bank_total bank t' + if bool_decide (t' = t) then delta else 0.
Proof.
  destruct t; simpl; intros; inv_ok; (split; [by destruct bank|]);
    intros []; simpl; lia.
Qed.

Lemma decrease_bank_balance_ok delta bank bank' t :
  decrease_bank_balance delta bank t = Ok bank' →
  same_but_totals bank bank'
  ∧ ∀ t', bank_total bank' t' = bank_total bank t' - if bool_decide (t' = t) then delta else 0.
Proof.
  destruct t; simpl; intros; inv_ok; (split; [by destruct bank|]);
    intros []; simpl; lia.
Qed.

(** A token amount is at least the balance it comes from, so no balance of a
    well-formed bank is worth nothing. *)
Lemma get_token_amount_ge bal bank t x :
  bank_wf bank → 0 ≤ bal → get_token_amount bal bank t = Ok x → bal ≤ x.
Proof.
  intros Hwf Hb Hx. apply get_token_amount_ok in Hx as (Hd & _ & -> & _);
    [|destruct Hwf; lia].
  pose proof (token_precision_wf bank Hwf Hd).
  pose proof (cumulative_interest_wf bank t Hwf).
  apply Z.div_le_lower_bound; nia.
Qed.

(** ** Properties *)

Section Conservation.
Context {B : Type} `{BankBalanceLaws B}.

(** What one step of an update preserves: the difference between each total of
    the bank and the balance's part of it, and everything else of the bank. *)
Definition conserves (bank bank' : Bank) (b b' : B) : Prop :=
  same_but_totals bank bank'
  ∧ ∀ t, bank_total bank' t - balance_part t b' = bank_total bank t - balance_part t b.

Lemma conserves_trans bank1 bank2 bank3 (b1 b2 b3 : B) :
  conserves bank1 bank2 b1 b2 → conserves bank2 bank3 b2 b3 →
  conserves bank1 bank3 b1 b3.
Proof.
  intros [? Ha] [? Hb]. split; [by eapply same_but_totals_trans|].
  intros t. by rewrite Hb, Ha.
Qed.

Lemma increase_both_conserves x bank bank' (b b' : B) :
  increase_both x (balance_type b) bank b = Ok (bank', b') →
  conserves bank bank' b b'.
Proof.
  intros Hok. unfold increase_both in Hok. inv_ok.
  apply increase_balance_ok in Hx0 as [Hb Ht].
  apply increase_bank_balance_ok in Hx1 as [? Htot].
  split; [done|]. intros t. rewrite Htot. unfold balance_part. rewrite Hb, Ht.
  destruct (decide (t = balance_type b)) as [->|].
  - rewrite !bool_decide_true by done. lia.
  - rewrite !bool_decide_false by congruence. lia.
Qed.

Lemma decrease_conserves d bank bank' (b b' : B) :
  decrease_bank_balance d bank (balance_type b) = Ok bank' →
  decrease_balance b d = Ok b' → conserves bank bank' b b'.
Proof.
  intros Hbk Hbal. apply decrease_balance_ok in Hbal as [Hb Ht].
  apply decrease_bank_balance_ok in Hbk as [? Htot].
  split; [done|]. intros t. rewrite Htot. unfold balance_part. rewrite Hb, Ht.
  destruct (decide (t = balance_type b)) as [->|].
  - rewrite !bool_decide_true by done. lia.
  - rewrite !bool_decide_false by congruence. lia.
Qed.

(** Reducing an existing balance leaves an amount only once the balance is zero. *)
Lemma reduce_existing_ok x bank bank' (b b' : B) x' :
  bank_wf bank → 0 ≤ balance b →
  reduce_existing x bank b = Ok (x', bank', b') →
  conserves bank bank' b b' ∧ balance_type b' = balance_type b
  ∧ (0 < x' → balance b' = 0).
Proof.
  intros Hwf Hb Hok. unfold reduce_existing in Hok.
  apply bind_ok in Hok as (cur & Hcur & Hok).
  pose proof (get_token_amount_ge _ _ _ _ Hwf Hb Hcur).
  destruct (Z.eqb_spec cur 0) as [->|]; cbn [negb] in Hok.
  - inv_ok. split_and!; [split; [by destruct bank'|done]|done|lia].
  - inv_ok;
      (split_and!; [by eapply decrease_conserves
                   |by eapply decrease_balance_ok
                   |match goal with
                    | Hd : decrease_balance _ _ = Ok _ |- _ =>
                        apply decrease_balance_ok in Hd as [-> _]
                    end; lia]).
Qed.

Lemma update_balance_type_conserves bank (b b' : B) t :
  balance b = 0 → update_balance_type b t = Ok b' → conserves bank bank b b'.
Proof.
  intros Hb Hok. apply update_balance_type_ok in Hok as [Hb' Ht].
  split; [by destruct bank|]. intros t'. unfold balance_part. rewrite Hb', Hb.
  by repeat case_bool_decide.
Qed.

(** Updating a balance moves the totals of the bank by exactly the change of that
    balance's deposit and borrow parts, and changes nothing else of the bank. *)
Theorem update_bank_balances_conserves x d bank bank' (b b' : B) :
  bank_wf bank → 0 ≤ balance b →
  update_bank_balances x d bank b = Ok (bank', b') →
  conserves bank bank' b b'.
Proof.
  intros Hwf Hb Hok. unfold update_bank_balances in Hok.
  apply bind_ok in Hok as ([bank1 b1] & Hstep & Hend).
  assert (bank1 = bank' ∧ b1 = b') as [-> ->] by (clear Hstep; destruct d; inv_ok; done).
  clear Hend. case_bool_decide as Hd.
  - subst d. by eapply increase_both_conserves.
  - apply bind_ok in Hstep as ([[x1 bank2] b2] & Hred & Hrest).
    apply reduce_existing_ok in Hred as (Hc & Ht & Hz); [|done..].
    inv_ok; [|done]. bool_prop.
    eapply conserves_trans; [done|].
    pose proof (update_balance_type_ok _ _ _ Hx) as [_ <-].
    eapply conserves_trans;
      [eapply update_balance_type_conserves; [by apply Hz|eassumption]
      |by eapply increase_both_conserves].
Qed.
End Conservation.

Lemma get_bank_balance_nonneg x bank t bal : get_bank_balance x bank t = Ok bal → 0 ≤ bal.
Proof. unfold get_bank_balance. intros Hok. inv_ok; by apply (has_type_nonneg U128). Qed.

Lemma pool_withdrawal x bank bank' (pool pool' : PNLPool) :
  bank_wf bank → 0 ≤ pool.(PNLPool.balance) →
  update_bank_balances x Borrow bank pool = Ok (bank', pool') →
  pool'.(PNLPool.balance) - pool.(PNLPool.balance)
    = bank.(Bank.deposit_balance) - bank'.(Bank.deposit_balance)
  ∧ bank'.(Bank.borrow_balance) = bank.(Bank.borrow_balance)
  ∧ same_but_totals bank bank' ∧ pool.(PNLPool.balance) ≤ pool'.(PNLPool.balance).
Proof.
  intros Hwf Hb Hok. unfold update_bank_balances, reduce_existing in Hok.
  cbn [balance_type balance PNLPool_BankBalance decrease_balance update_balance_type
       decrease_bank_balance] in Hok.
  rewrite bool_decide_false in Hok by done.
  inv_ok; simpl; (split; [lia|split; [done|split]]); 
    first [by match goal with |- same_but_totals ?b _ => destruct b end
          |by match goal with H : get_bank_balance _ _ _ = _ |- _ =>
             apply get_bank_balance_nonneg in H; lia end
          |lia].
Qed.

(** [PNLPool] does not satisfy the laws: its [decrease_balance] adds, so that a
    withdrawal from the pool shrinks the bank's deposits and grows the pool by
    the same amount. *)
Theorem pnl_pool_withdrawal_grows x bank bank' (pool pool' : PNLPool) :
  bank_wf bank → 0 ≤ pool.(PNLPool.balance) →
  update_bank_balances x Borrow bank pool = Ok (bank', pool') →
  pool'.(PNLPool.balance) - pool.(PNLPool.balance)
    = bank.(Bank.deposit_balance) - bank'.(Bank.deposit_balance)
  ∧ bank'.(Bank.borrow_balance) = bank.(Bank.borrow_balance).
Proof.
  intros Hwf Hb Hok. by apply pool_withdrawal in Hok as (? & ? & _ & _).
Qed.

(** ** Rounding *)

Lemma bank_typed_interest bank t : Bank.typed bank → 0 ≤ cumulative_interest bank t.
Proof. intros []. destruct t; simpl; int_lia. Qed.

(** C30. A token amount that goes through a balance comes back rounded: a deposit is
    credited at most its amount and loses at most the worth of one balance unit,
    and a borrow is debited at least its amount, unless the amount is worth less
    than one balance unit, in which case nothing is debited. *)
Theorem token_amount_round_trip x bank t bal y :
  Bank.typed bank → has_type U128 x →
  get_bank_balance x bank t = Ok bal → get_token_amount bal bank t = Ok y →
  match t with
  | Deposit =>
      y ≤ x < y + 1 + (cumulative_interest bank t / token_precision bank + 1)
  | Borrow =>
      x ≤ y ∨ (bal = 0 ∧ y = 0 ∧ x * token_precision bank < cumulative_interest bank t)
  end.
Proof.
  intros Hty Hx Hbal Hy.
  pose proof (Bank.decimals_ty _ Hty) as Hdec. unfold has_type in Hdec; simpl in Hdec.
  apply get_bank_balance_ok in Hbal as (Hd & Hc & _ & -> & _);
    [|lia|by apply bank_typed_interest].
  apply get_token_amount_ok in Hy as (_ & _ & -> & _); [|lia].
  pose proof (token_precision_pos bank Hd) as Hp.
  set (C := cumulative_interest bank t) in *. set (P := token_precision bank) in *.
  pose proof (Z.div_mod (x * P) C ltac:(lia)) as Hq.
  pose proof (Z.mod_pos_bound (x * P) C Hc).
  set (q := x * P / C) in *.
  destruct t.
  - pose proof (Z.div_mod (q * C) P ltac:(lia)). pose proof (Z.mod_pos_bound (q * C) P Hp).
    pose proof (Z.div_mod C P ltac:(lia)). pose proof (Z.mod_pos_bound C P Hp). nia.
  - destruct (Z.eqb_spec q 0) as [Hq0|Hq0].
    + right. split_and!; [done|by rewrite Z.div_0_l by lia|nia].
    + left. apply Z.div_le_lower_bound; [done|]. nia.
Qed.

(** A withdrawal that is worth less than one unit of the deposit balance debits
    nothing: neither the user's balance nor the bank changes. *)
Theorem small_withdrawal_is_free x bank bank' (b b' : UserBankBalance) :
  Bank.typed bank → has_type U128 x →
  b.(UserBankBalance.balance_type) = Deposit →
  x * token_precision bank < bank.(Bank.cumulative_deposit_interest) →
  (∀ cur, get_token_amount b.(UserBankBalance.balance) bank Deposit = Ok cur → x < cur) →
  update_bank_balances x Borrow bank b = Ok (bank', b') →
  bank' = bank ∧ b' = b.
Proof.
  intros Hty Hx Ht Hsmall Hcur Hok.
  pose proof (Bank.decimals_ty _ Hty) as Hdec. unfold has_type in Hdec; simpl in Hdec.
  unfold update_bank_balances, reduce_existing in Hok.
  cbn [balance_type balance UserBankBalance_BankBalance] in Hok. rewrite Ht in Hok.
  rewrite bool_decide_false in Hok by done.
  apply bind_ok in Hok as ([bank1 b1] & Hstep & Hend).
  assert (bank1 = bank' ∧ b1 = b') as [-> ->] by (clear Hstep; inv_ok; done). clear Hend.
  apply bind_ok in Hstep as ([[x1 bank2] b2] & Hred & Hend).
  apply bind_ok in Hred as (cur & Hc & Hred). specialize (Hcur _ Hc).
  assert (0 ≤ x) by int_lia.
  destruct (Z.eqb_spec cur 0); [lia|]. destruct (Z.ltb_spec x cur); [|lia].
  cbn [negb] in Hred. apply bind_ok in Hred as ([xd bd] & Hd & Hred).
  apply bind_ok in Hd as (d & Hbal & Heq). apply Ok_inj in Heq. simplify_eq.
  apply get_bank_balance_ok in Hbal as (Hdec' & Hc0 & _ & -> & _);
    [|lia|by apply bank_typed_interest].
  pose proof (token_precision_pos bank Hdec').
  rewrite Z.div_small in * by (simpl; nia).
  cbn [decrease_bank_balance decrease_balance UserBankBalance_BankBalance] in Hred.
  inv_ok; bool_prop; [lia|].
  rewrite !Z.sub_0_r. by destruct bank, b.
Qed.

(** After a borrow the deposits are worth at least the borrows. *)
Theorem borrow_keeps_bank_solvent {B} `{BankBalance B} x bank bank' (b b' : B) :
  update_bank_balances x Borrow bank b = Ok (bank', b') →
  ∃ deposits borrows,
    get_token_amount bank'.(Bank.deposit_balance) bank' Deposit = Ok deposits
    ∧ get_token_amount bank'.(Bank.borrow_balance) bank' Borrow = Ok borrows
    ∧ borrows ≤ deposits.
Proof.
  intros Hok. unfold update_bank_balances, validate_deposits in Hok.
  apply bind_ok in Hok as ([bank1 b1] & _ & Hok).
  apply bind_ok in Hok as ([] & Hv & Hok).
  apply bind_ok in Hv as (dep & Hdep & Hv). apply bind_ok in Hv as (bor & Hbor & Hv).
  inv_ok. bool_prop. eauto.
Qed.

(** ** Interest *)

Lemma calculate_utilization_ok d b u :
  0 ≤ d → 0 ≤ b → calculate_utilization d b = Ok u →
  0 ≤ u ∧ u * d ≤ b * BANK_UTILIZATION_PRECISION.
Proof.
  intros Hd Hb Hok. unfold calculate_utilization in Hok.
  apply bind_ok in Hok as (x & Hx & Hok). apply cmul_ok in Hx as [-> ?].
  unfold checked_div in Hok. destruct (Z.eqb_spec d 0) as [->|].
  - unfold BANK_UTILIZATION_PRECISION in *.
    destruct (Z.eqb_spec b 0); simpl in Hok; inv_ok; lia.
  - assert (Z.div (b * BANK_UTILIZATION_PRECISION) d * d
            ≤ b * BANK_UTILIZATION_PRECISION) by (apply mul_div_le'; lia).
    unfold checked in Hok. destruct (in_range _ _) eqn:Hr in Hok.
    + simpl in Hok. inv_ok. apply in_range_true in Hr. int_lia.
    + simpl in Hok. inv_ok.
      apply not_true_iff_false in Hr. destruct Hr. apply in_range_true.
      apply u128_div_in; [done|lia].
Qed.

Lemma calculate_borrow_rate_ok bank u r :
  calculate_borrow_rate bank u = Ok r → has_type U128 r.
Proof. unfold calculate_borrow_rate. intros. inv_ok; done. Qed.

(** The interest of a period in closed form: both sides scale with the same
    rate, the deposits' share of it with the utilization. *)
Lemma calculate_accumulated_interest_ok bank now i :
  Bank.typed bank → calculate_accumulated_interest bank now = Ok i →
  ∃ deposits borrows u,
    get_token_amount bank.(Bank.deposit_balance) bank Deposit = Ok deposits
    ∧ get_token_amount bank.(Bank.borrow_balance) bank Borrow = Ok borrows
    ∧ calculate_utilization deposits borrows = Ok u
    ∧ ((u = 0 ∧ i = InterestAccumulated.mk 0 0)
       ∨ ∃ rate, 0 ≤ rate
         ∧ i.(InterestAccumulated.borrow_interest)
           = bank.(Bank.cumulative_borrow_interest) * rate
             / ONE_YEAR / BANK_INTEREST_PRECISION + 1
         ∧ i.(InterestAccumulated.deposit_interest)
           = bank.(Bank.cumulative_deposit_interest)
             * (rate * u / BANK_UTILIZATION_PRECISION)
             / ONE_YEAR / BANK_INTEREST_PRECISION).
Proof.
  intros Hty Hok. unfold calculate_accumulated_interest in Hok.
  apply bind_ok in Hok as (d & Hd & Hok). apply bind_ok in Hok as (b & Hb & Hok).
  apply bind_ok in Hok as (u & Hu & Hok).
  exists d, b, u. split_and!; [done..|].
  destruct (Z.eqb_spec u 0) as [->|]; [left; by inv_ok|right].
  apply bind_ok in Hok as (r & Hr & Hok). apply calculate_borrow_rate_ok in Hr.
  apply bind_ok in Hok as (t & Ht & Hok). apply bind_ok in Hok as (dt & Hdt & Hok).
  inv_ok. exists (r * (now - bank.(Bank.last_updated))). split_and!; [int_lia|done..].
Qed.

(** The floors of one side's interest. *)
Lemma interest_bounds c r :
  0 ≤ c * r →
  let i := c * r / ONE_YEAR / BANK_INTEREST_PRECISION in
  i * (ONE_YEAR * BANK_INTEREST_PRECISION) ≤ c * r
  ∧ c * r < (i + 1) * (ONE_YEAR * BANK_INTEREST_PRECISION).
Proof.
  intros Hcr i. unfold i. rewrite Z.div_div by done.
  set (k := ONE_YEAR * BANK_INTEREST_PRECISION). assert (0 < k) by done.
  pose proof (Z.div_mod (c * r) k ltac:(lia)).
  pose proof (Z.mod_pos_bound (c * r) k ltac:(lia)). nia.
Qed.

(** The chain of the bounds below, multiplied through by [Y * U]. *)
Lemma interest_chain P cD cB D b R r u m bi di Y U d :
  0 < P → 0 < Y → 0 < U → 0 ≤ cD → 0 ≤ cB → 0 ≤ D → 0 ≤ R → 0 ≤ r → 0 ≤ u → 0 ≤ d → 0 ≤ b →
  0 ≤ m → m * U ≤ r * u → u * d ≤ b * U → D * cD < (d + 1) * P → b * P ≤ R * cB →
  di * Y ≤ cD * m → cB * r ≤ bi * Y →
  D * di * d ≤ R * bi * (d + 1).
Proof.
  intros. apply (Zmult_le_reg_r _ _ (Y * U)); [nia|].
  assert (di * Y * U ≤ cD * (r * u)) as K1 by nia.
  assert (D * d * (di * Y * U) ≤ D * d * (cD * (r * u))) as K2
    by (apply Z.mul_le_mono_nonneg_l; nia).
  assert (D * cD * (r * (u * d)) ≤ (d + 1) * P * (r * (b * U))) as K3.
  { apply Z.mul_le_mono_nonneg; try nia. }
  assert ((d + 1) * (r * U) * (b * P) ≤ (d + 1) * (r * U) * (R * cB)) as K4
    by (apply Z.mul_le_mono_nonneg_l; nia).
  assert ((d + 1) * U * R * (cB * r) ≤ (d + 1) * U * R * (bi * Y)) as K5.
  { apply Z.mul_le_mono_nonneg_l; [|lia]. repeat apply Z.mul_nonneg_nonneg; lia. }
  nia.
Qed.

(** C29. The interest of the depositors is paid by the borrowers: what the deposits
    gain is at most what the borrows owe more, up to the rounding of the deposits
    to a whole token. *)
Theorem interest_covered_by_borrows bank now i :
  Bank.typed bank → calculate_accumulated_interest bank now = Ok i →
  ∃ deposits,
    get_token_amount bank.(Bank.deposit_balance) bank Deposit = Ok deposits
    ∧ bank.(Bank.deposit_balance) * i.(InterestAccumulated.deposit_interest) * deposits
      ≤ bank.(Bank.borrow_balance) * i.(InterestAccumulated.borrow_interest)
        * (deposits + 1).
Proof.
  intros Hty Hok.
  destruct (calculate_accumulated_interest_ok _ _ _ Hty Hok)
    as (d & b & u & Hd & Hb & Hu & Hi).
  exists d. split; [done|].
  destruct Hi as [[_ ->]|(r & Hr & Hbi & Hdi)]; [simpl; lia|].
  pose proof (Bank.decimals_ty _ Hty) as Hdec. unfold has_type in Hdec; simpl in Hdec.
  pose proof (Bank.deposit_balance_ty _ Hty) as HD. pose proof (Bank.borrow_balance_ty _ Hty) as HB.
  pose proof (bank_typed_interest _ Deposit Hty) as HcD.
  pose proof (bank_typed_interest _ Borrow Hty) as HcB.
  apply get_token_amount_ok in Hd as (Hd16 & _ & Hd & Hdt); [|lia].
  apply get_token_amount_ok in Hb as (_ & _ & Hb & Hbt); [|lia].
  pose proof (token_precision_pos bank Hd16) as Hp.
  unfold has_type in HD, HB, Hdt, Hbt. cbn [int_min int_max] in HD, HB, Hdt, Hbt.
  apply calculate_utilization_ok in Hu as [Hu0 Hu]; [|lia..].
  cbn [cumulative_interest] in *.
  set (P := token_precision bank) in *.
  set (cD := bank.(Bank.cumulative_deposit_interest)) in *.
  set (cB := bank.(Bank.cumulative_borrow_interest)) in *.
  set (D := bank.(Bank.deposit_balance)) in *. set (R := bank.(Bank.borrow_balance)) in *.
  set (bi := i.(InterestAccumulated.borrow_interest)) in *.
  set (di := i.(InterestAccumulated.deposit_interest)) in *.
  destruct (interest_bounds cB r) as [_ HbU]; [nia|]. rewrite <-Hbi in HbU.
  set (m := r * u / BANK_UTILIZATION_PRECISION) in *.
  assert (m * BANK_UTILIZATION_PRECISION ≤ r * u) as Hm by (by apply mul_div_le').
  assert (0 ≤ m) by (apply Z.div_pos; [nia|done]).
  destruct (interest_bounds cD m) as [HdU _]; [nia|]. rewrite <-Hdi in HdU.
  assert (D * cD < (d + 1) * P) as HdP.
  { rewrite Hd. pose proof (Z.div_mod (D * cD) P ltac:(lia)).
    pose proof (Z.mod_pos_bound (D * cD) P Hp). nia. }
  assert (b * P ≤ R * cB) as HbP by (rewrite Hb; by apply mul_div_le').
  apply (interest_chain P cD cB D b R r u m bi di (ONE_YEAR * BANK_INTEREST_PRECISION)
    BANK_UTILIZATION_PRECISION); lia || done.
Qed.

(** Accruing interest either changes nothing or raises both cumulative rates and
    stamps the bank with the current time; a well-formed bank stays well-formed and
    its totals stay. *)
Theorem update_bank_cumulative_interest_ok bank bank' now :
  Bank.typed bank → bank_wf bank →
  update_bank_cumulative_interest bank now = Ok bank' →
  bank_wf bank' ∧ Bank.typed bank'
  ∧ (bank' = bank
     ∨ bank.(Bank.cumulative_deposit_interest) < bank'.(Bank.cumulative_deposit_interest)
       ∧ bank.(Bank.cumulative_borrow_interest) < bank'.(Bank.cumulative_borrow_interest)
       ∧ bank.(Bank.last_updated) ≤ now ∧ bank'.(Bank.last_updated) = now
       ∧ ∀ t, bank_total bank' t = bank_total bank t).
Proof.
  intros Hty Hwf Hok. unfold update_bank_cumulative_interest in Hok.
  apply bind_ok in Hok as (i & Hi & Hok).
  destruct (_ && _) eqn:Hpos; [|inv_ok; eauto]. bool_prop.
  assert (bank.(Bank.last_updated) ≤ now) as Ht.
  { unfold calculate_accumulated_interest in Hi. inv_ok.
    - simpl in *. lia.
    - unfold_int. lia. }
  apply bind_ok in Hok as (d & Hd & Hok). apply cadd_ok in Hd as [-> Hd].
  apply bind_ok in Hok as (b & Hb & Hok). apply cadd_ok in Hb as [-> Hb].
  apply bind_ok in Hok as (t & Htt & Hok). inv_ok.
  split_and!.
  - destruct Hwf. split; simpl; lia.
  - destruct Hty. split; simpl; done.
  - right. simpl. split_and!; try lia. by intros [].
Qed.

(** The two parts of a withdrawal are covered by the two vaults, and they add up to
    the amount unless both vaults together hold less. *)
Theorem calculate_withdrawal_amounts_spec amount collateral insurance :
  has_type U64 amount → has_type U64 collateral → has_type U64 insurance →
  ∃ a b, calculate_withdrawal_amounts amount collateral insurance = Ok (a, b)
    ∧ 0 ≤ a ≤ collateral ∧ 0 ≤ b ≤ insurance
    ∧ a + b = Z.min amount (collateral + insurance)
    ∧ (amount ≤ collateral → b = 0).
Proof.
  intros Ha Hc Hi. unfold calculate_withdrawal_amounts, csub, math, checked_sub.
  unfold has_type in Ha, Hc, Hi. cbn [int_min int_max] in Ha, Hc, Hi.
  destruct (Z.leb_spec amount collateral).
  { eexists _, _. split; [done|]. lia. }
  rewrite checked_in by int_lia. cbn [ok_or bind].
  destruct (Z.ltb_spec (amount - collateral) insurance);
    (eexists _, _; split; [done|]; lia).
Qed.

(** ** Witnesses *)

(** A quote asset bank whose deposits have earned half of their value. *)
Definition example_bank : Bank := {|
  Bank.bank_index := 0; Bank.pubkey := 1; Bank.oracle := 0;
  Bank.oracle_source := QuoteAsset; Bank.mint := 2; Bank.vault := 3;
  Bank.vault_authority := 4; Bank.vault_authority_nonce := 255; Bank.decimals := 6;
  Bank.optimal_utilization := 700000; Bank.optimal_borrow_rate := 100000;
  Bank.max_borrow_rate := 1000000; Bank.deposit_balance := 1000000000;
  Bank.borrow_balance := 400000000; Bank.cumulative_deposit_interest := 15000000000;
  Bank.cumulative_borrow_interest := 20000000000; Bank.last_updated := 1000;
  Bank.initial_asset_weight := 100; Bank.maintenance_asset_weight := 100;
  Bank.initial_liability_weight := 100; Bank.maintenance_liability_weight := 100;
|}.

Lemma example_bank_typed : Bank.typed example_bank.
Proof. split; split; vm_compute; discriminate. Qed.

Lemma example_bank_wf : bank_wf example_bank.
Proof. split; vm_compute; discriminate. Qed.

Definition example_deposit : UserBankBalance := UserBankBalance.mk 0 Deposit 2000000.

Lemma update_bank_balances_conserves_witness :
  ∃ bank' b',
    update_bank_balances 9000000 Borrow example_bank example_deposit = Ok (bank', b')
    ∧ conserves example_bank bank' example_deposit b'.
Proof.
  eexists _, _. split; [vm_compute; reflexivity|].
  apply (update_bank_balances_conserves 9000000 Borrow).
  - apply example_bank_wf.
  - vm_compute. discriminate.
  - vm_compute. reflexivity.
Defined.

Lemma pnl_pool_withdrawal_grows_witness :
  ∃ bank' pool',
    update_bank_balances 3000000 Borrow example_bank (PNLPool.mk 50000000)
      = Ok (bank', pool')
    ∧ PNLPool.balance pool' - 50000000
      = Bank.deposit_balance example_bank - Bank.deposit_balance bank'
    ∧ Bank.deposit_balance bank' = 998000000.
Proof.
  eexists _, _. split; [vm_compute; reflexivity|]. split; [|reflexivity].
  apply (pnl_pool_withdrawal_grows 3000000 example_bank _ (PNLPool.mk 50000000)).
  - apply example_bank_wf.
  - vm_compute. discriminate.
  - vm_compute. reflexivity.
Defined.

Lemma token_amount_round_trip_witness :
  1000001 ≤ 1000002 ∨
  (500001 = 0 ∧ 1000002 = 0
   ∧ 1000001 * token_precision example_bank < 20000000000).
Proof.
  apply (token_amount_round_trip 1000001 example_bank Borrow 500001 1000002).
  - apply example_bank_typed.
  - split; vm_compute; discriminate.
  - vm_compute. reflexivity.
  - vm_compute. reflexivity.
Defined.

Lemma small_withdrawal_is_free_witness :
  update_bank_balances 1 Borrow example_bank example_deposit
    = Ok (example_bank, example_deposit).
Proof.
  assert (∃ r, update_bank_balances 1 Borrow example_bank example_deposit = Ok r)
    as [[bank' b'] Hr] by (eexists; vm_compute; reflexivity).
  rewrite Hr.
  destruct (small_withdrawal_is_free 1 example_bank bank' example_deposit b')
    as [-> ->]; [apply example_bank_typed|split; vm_compute; discriminate
                |reflexivity|vm_compute; reflexivity| |exact Hr|reflexivity].
  intros cur Hcur. vm_compute in Hcur. injection Hcur as <-. reflexivity.
Defined.

Lemma borrow_keeps_bank_solvent_witness :
  ∃ bank' (b' : UserBankBalance),
    update_bank_balances 9000000 Borrow example_bank example_deposit = Ok (bank', b')
    ∧ ∃ deposits borrows,
      get_token_amount bank'.(Bank.deposit_balance) bank' Deposit = Ok deposits
      ∧ get_token_amount bank'.(Bank.borrow_balance) bank' Borrow = Ok borrows
      ∧ borrows ≤ deposits.
Proof.
  eexists _, _. split; [vm_compute; reflexivity|].
  apply (borrow_keeps_bank_solvent 9000000 example_bank _ example_deposit
           (UserBankBalance.mk 0 Borrow 3000001)).
  vm_compute. reflexivity.
Defined.

Lemma interest_covered_by_borrows_witness :
  ∃ i, calculate_accumulated_interest example_bank 31537000 = Ok i
    ∧ ∃ deposits,
      get_token_amount 1000000000 example_bank Deposit = Ok deposits
      ∧ 1000000000 * i.(InterestAccumulated.deposit_interest) * deposits
        ≤ 400000000 * i.(InterestAccumulated.borrow_interest) * (deposits + 1).
Proof.
  eexists. split; [vm_compute; reflexivity|].
  apply (interest_covered_by_borrows example_bank 31537000).
  - apply example_bank_typed.
  - vm_compute. reflexivity.
Defined.

Lemma update_bank_cumulative_interest_ok_witness :
  ∃ bank', update_bank_cumulative_interest example_bank 31537000 = Ok bank'
    ∧ bank_wf bank'.
Proof.
  eexists. split; [vm_compute; reflexivity|].
  apply (update_bank_cumulative_interest_ok example_bank _ 31537000).
  - apply example_bank_typed.
  - apply example_bank_wf.
  - vm_compute. reflexivity.
Defined.

Lemma calculate_withdrawal_amounts_spec_witness :
  ∃ a b, calculate_withdrawal_amounts 100 70 50 = Ok (a, b)
    ∧ 0 ≤ a ≤ 70 ∧ 0 ≤ b ≤ 50 ∧ a + b = Z.min 100 (70 + 50) ∧ (100 ≤ 70 → b = 0).
Proof.
  apply (calculate_withdrawal_amounts_spec 100 70 50); split; vm_compute; discriminate.
Defined.
