(* ===== verification/Twap.v ===== *)
(** * Time weighted averages and oracle checks (math/amm.rs)

    The mark and oracle averages of a market, its rolling sums, the
    normalisation of an oracle price toward the mark price, the spread between
    both, and the checks of an oracle price. *)

From stdpp Require Import base numbers.
From S2P Require Import Prelude Constants Bn State Value AmmMath.
Local Open Scope Z_scope.

(** ** Definitions *)

(** The seconds since a time stamp, at least one. *)
Definition time_since (ts now : Z) : result Z :=
  let? d := csub I64 now ts in
  cast_to_i128 (Z.max 1 d).

(** The seconds of the funding period that are left, at least one. *)
Definition time_from_start (funding_period since_last : Z) : result Z :=
  let? p := cast_to_i128 funding_period in
  let? d := csub I128 p since_last in
  Ok (Z.max 1 d).

Definition calculate_weighted_average (data1 data2 weight1 weight2 : Z) : result Z :=
  let? denominator := cadd I128 weight1 weight2 in
  let? prev_twap_99 := cmul I128 data1 weight1 in
  let? latest_price_01 := cmul I128 data2 weight2 in
  let? sum := cadd I128 prev_twap_99 latest_price_01 in
  cdiv I128 sum denominator.

Definition calculate_new_twap (amm : AMM) (now current_price last_twap : Z) : result Z :=
  let? since_last := time_since amm.(AMM.last_mark_price_twap_ts) now in
  let? from_start := time_from_start amm.(AMM.funding_period) since_last in
  let? current_price := cast I128 current_price in
  let? last_twap := cast I128 last_twap in
  let? avg := calculate_weighted_average current_price last_twap since_last from_start in
  cast U128 avg.

Definition calculate_rolling_sum (data1 data2 weight1_numer weight1_denom : Z)
    : result Z :=
  let? d := csub I128 weight1_denom weight1_numer in
  let? w := cast_to_u64 (Z.max 0 d) in
  let? x := cmul U64 data1 w in
  let? denom := cast_to_u64 weight1_denom in
  let? prev_twap_99 := cdiv U64 x denom in
  cadd U64 prev_twap_99 data2.

Definition update_amm_mark_std (amm : AMM) (now price_change : Z) : result (AMM * bool) :=
  let? since_last := time_since amm.(AMM.last_mark_price_twap_ts) now in
  let? price_change := cast_to_u64 price_change in
  let? s := calculate_rolling_sum amm.(AMM.mark_std) price_change since_last
              ONE_HOUR_I128 in
  Ok (amm <| AMM.mark_std := s |>, true).

(** The rolling counts are truncated to 16 bits. *)
Definition update_amm_long_short_intensity (amm : AMM) (now quote_asset_amount : Z)
    (direction : PositionDirection) : result (AMM * bool) :=
  let? since_last := time_since amm.(AMM.last_mark_price_twap_ts) now in
  let? ' (long_quote_amount, short_quote_amount) :=
    match direction with
    | Long => let? q := cast_to_u64 quote_asset_amount in Ok (q, 0)
    | Short => let? q := cast_to_u64 quote_asset_amount in Ok (0, q)
    end in
  let count (q : Z) := if q =? 0 then 0 else 1 in
  let? lc := calculate_rolling_sum amm.(AMM.long_intensity_count)
               (count long_quote_amount) since_last ONE_HOUR_I128 in
  let amm := amm <| AMM.long_intensity_count := wrap U16 lc |> in
  let? lv := calculate_rolling_sum amm.(AMM.long_intensity_volume)
               long_quote_amount since_last ONE_HOUR_I128 in
  let amm := amm <| AMM.long_intensity_volume := lv |> in
  let? sc := calculate_rolling_sum amm.(AMM.short_intensity_count)
               (count short_quote_amount) since_last ONE_HOUR_I128 in
  let amm := amm <| AMM.short_intensity_count := wrap U16 sc |> in
  let? sv := calculate_rolling_sum amm.(AMM.short_intensity_volume)
               short_quote_amount since_last ONE_HOUR_I128 in
  let amm := amm <| AMM.short_intensity_volume := sv |> in
  Ok (amm, true).

(** [is_oracle_price_too_volatile] of [is_oracle_valid] *)
Definition is_oracle_price_too_volatile (amm : AMM) (oracle_price : Z)
    (guard_rails : ValidityGuardRails) : result bool :=
  let twap := amm.(AMM.last_oracle_price_twap) in
  let ratio := guard_rails.(ValidityGuardRails.too_volatile_ratio) in
  let? a := cdiv I128 oracle_price (Z.max 1 twap) in
  if ratio <? a then Ok true
  else
    let? b := cdiv I128 twap (Z.max 1 oracle_price) in
    Ok (ratio <? b).

Definition is_oracle_valid (amm : AMM) (oracle_price_data : OraclePriceData)
    (valid_oracle_guard_rails : ValidityGuardRails) : result bool :=
  let oracle_price := oracle_price_data.(OraclePriceData.price) in
  let oracle_conf := oracle_price_data.(OraclePriceData.confidence) in
  let oracle_delay := oracle_price_data.(OraclePriceData.delay) in
  let is_oracle_price_nonpositive := oracle_price <=? 0 in
  let? too_volatile :=
    is_oracle_price_too_volatile amm oracle_price valid_oracle_guard_rails in
  let? p := cast_to_u128 oracle_price in
  let? conf_denom_of_price := cdiv U128 p (Z.max 1 oracle_conf) in
  let is_conf_too_large := conf_denom_of_price <?
    valid_oracle_guard_rails.(ValidityGuardRails.confidence_interval_max_size) in
  let is_stale :=
    valid_oracle_guard_rails.(ValidityGuardRails.slots_before_stale) <? oracle_delay in
  Ok (negb (is_stale
            || negb oracle_price_data.(OraclePriceData.has_sufficient_number_of_data_points)
            || is_oracle_price_nonpositive || too_volatile || is_conf_too_large)).

(** The bound of both divergence checks. *)
Definition max_divergence (guard_rails : PriceDivergenceGuardRails) : result Z :=
  let? x := cmul U128
    guard_rails.(PriceDivergenceGuardRails.mark_oracle_divergence_numerator)
    BID_ASK_SPREAD_PRECISION in
  cdiv U128 x guard_rails.(PriceDivergenceGuardRails.mark_oracle_divergence_denominator).

Definition is_oracle_mark_too_divergent (price_spread_pct : Z)
    (oracle_guard_rails : PriceDivergenceGuardRails) : result bool :=
  let? m := max_divergence oracle_guard_rails in
  Ok (m <? unsigned_abs price_spread_pct).

Definition use_oracle_price_for_margin_calculation (price_spread_pct : Z)
    (oracle_guard_rails : PriceDivergenceGuardRails) : result bool :=
  let? m := max_divergence oracle_guard_rails in
  let? m := cdiv U128 m 3 in
  Ok (m <? unsigned_abs price_spread_pct).

Definition calculate_mark_twap_spread_pct (amm : AMM) (mark_price : Z) : result Z :=
  let? mark_price := cast_to_i128 mark_price in
  let? mark_twap := cast_to_i128 amm.(AMM.last_mark_price_twap) in
  let? price_spread := csub I128 mark_price mark_twap in
  let? x := cmul I128 price_spread BID_ASK_SPREAD_PRECISION_I128 in
  cdiv I128 x mark_twap.

Definition calculate_new_oracle_price_twap (amm : AMM) (now oracle_price : Z) : result Z :=
  let? since_last := time_since amm.(AMM.last_oracle_price_twap_ts) now in
  let? from_start := time_from_start amm.(AMM.funding_period) since_last in
  let capped_last_oracle_price :=
    if 0 <? amm.(AMM.last_oracle_price) then amm.(AMM.last_oracle_price)
    else oracle_price in
  let? capped_last_oracle_price_10bp := cdiv I128 capped_last_oracle_price 1000 in
  let? hi := cadd I128 capped_last_oracle_price capped_last_oracle_price_10bp in
  let? lo := csub I128 capped_last_oracle_price capped_last_oracle_price_10bp in
  let interpolated_oracle_price := Z.min hi (Z.max lo oracle_price) in
  let? interpolated_oracle_price :=
    if amm.(AMM.last_oracle_price_twap_ts) <? amm.(AMM.last_mark_price_twap_ts) then
      let? d := csub I64 amm.(AMM.last_mark_price_twap_ts)
                  amm.(AMM.last_oracle_price_twap_ts) in
      let? since_last_valid := cast_to_i128 d in
      let? from_start_valid := time_from_start amm.(AMM.funding_period) since_last_valid in
      let? mark_twap := cast_to_i128 amm.(AMM.last_mark_price_twap) in
      calculate_weighted_average mark_twap interpolated_oracle_price since_last_valid
        from_start_valid
    else Ok interpolated_oracle_price in
  calculate_weighted_average interpolated_oracle_price amm.(AMM.last_oracle_price_twap)
    since_last from_start.

Section Definitions.
Context `{BnLib}.

Definition calculate_oracle_mark_spread (amm : AMM) (oracle_price_data : OraclePriceData)
    (precomputed_mark_price : option Z) : result (Z * Z) :=
  let? m := mark_price_or amm precomputed_mark_price in
  let? mark_price := cast_to_i128 m in
  let oracle_price := oracle_price_data.(OraclePriceData.price) in
  let? price_spread := csub I128 mark_price oracle_price in
  Ok (oracle_price, price_spread).

Definition calculate_oracle_mark_spread_pct (amm : AMM)
    (oracle_price_data : OraclePriceData) (precomputed_mark_price : option Z) : result Z :=
  let? mark_price := mark_price_or amm precomputed_mark_price in
  let? ' (_, price_spread) :=
    calculate_oracle_mark_spread amm oracle_price_data (Some mark_price) in
  let? x := cmul I128 price_spread BID_ASK_SPREAD_PRECISION_I128 in
  let? m := cast_to_i128 mark_price in
  cdiv I128 x m.

Definition normalise_oracle_price (amm : AMM) (oracle_price : OraclePriceData)
    (precomputed_mark_price : option Z) : result Z :=
  let oracle_conf := oracle_price.(OraclePriceData.confidence) in
  let oracle_price := oracle_price.(OraclePriceData.price) in
  let? m := mark_price_or amm precomputed_mark_price in
  let? mark_price := cast_to_i128 m in
  let? mark_price_2p5_bps := cdiv I128 mark_price 4000 in
  let? conf_int := cast_to_i128 oracle_conf in
  if oracle_price <? mark_price then
    let? a := csub I128 mark_price mark_price_2p5_bps in
    let? b := cadd I128 oracle_price conf_int in
    Ok (Z.min (Z.max a oracle_price) b)
  else
    let? a := cadd I128 mark_price mark_price_2p5_bps in
    let? b := csub I128 oracle_price conf_int in
    Ok (Z.max (Z.min a oracle_price) b).

Definition update_mark_twap (amm : AMM) (now : Z) (precomputed_mark_price : option Z)
    : result (AMM * Z) :=
  let? mark_price := mark_price_or amm precomputed_mark_price in
  let? ' (bid_price, ask_price) := bid_ask_price amm mark_price in
  let? mark_twap := calculate_new_twap amm now mark_price amm.(AMM.last_mark_price_twap) in
  let amm := amm <| AMM.last_mark_price_twap := mark_twap |> in
  let? bid_twap := calculate_new_twap amm now bid_price amm.(AMM.last_bid_price_twap) in
  let amm := amm <| AMM.last_bid_price_twap := bid_twap |> in
  let? ask_twap := calculate_new_twap amm now ask_price amm.(AMM.last_ask_price_twap) in
  let amm := amm <| AMM.last_ask_price_twap := ask_twap |> in
  let amm := amm <| AMM.last_mark_price_twap_ts := now |> in
  let? mid := cadd U128 bid_twap ask_twap in
  Ok (amm, int_quot U128 mid 2).

(** The oracle price that enters the average: at most a third of itself away from
    the last average. *)
Definition capped_oracle_update_price (amm : AMM) (oracle_price : Z) : result Z :=
  let? new_oracle_price_spread := csub I128 oracle_price amm.(AMM.last_oracle_price_twap) in
  let? oracle_price_33pct := cdiv I128 oracle_price 3 in
  if unsigned_abs oracle_price_33pct <? unsigned_abs new_oracle_price_spread then
    if amm.(AMM.last_oracle_price_twap) <? oracle_price
    then cadd I128 amm.(AMM.last_oracle_price_twap) oracle_price_33pct
    else csub I128 amm.(AMM.last_oracle_price_twap) oracle_price_33pct
  else Ok oracle_price.

Definition update_oracle_price_twap (amm : AMM) (now : Z)
    (oracle_price_data : OraclePriceData) (precomputed_mark_price : option Z)
    : result (AMM * Z) :=
  let? oracle_price :=
    normalise_oracle_price amm oracle_price_data precomputed_mark_price in
  let? capped := capped_oracle_update_price amm oracle_price in
  if (0 <? capped) && (0 <? oracle_price) then
    let? oracle_price_twap := calculate_new_oracle_price_twap amm now capped in
    let amm := amm <| AMM.last_oracle_normalised_price := capped |> in
    let amm := amm <| AMM.last_oracle_price := oracle_price_data.(OraclePriceData.price) |> in
    let amm := amm <| AMM.last_oracle_conf :=
                        wrap U64 oracle_price_data.(OraclePriceData.confidence) |> in
    let amm := amm <| AMM.last_oracle_delay := oracle_price_data.(OraclePriceData.delay) |> in
    let? pct := calculate_oracle_mark_spread_pct amm oracle_price_data
                  precomputed_mark_price in
    let amm := amm <| AMM.last_oracle_mark_spread_pct := pct |> in
    let amm := amm <| AMM.last_oracle_price_twap := oracle_price_twap |> in
    let amm := amm <| AMM.last_oracle_price_twap_ts := now |> in
    Ok (amm, oracle_price_twap)
  else Ok (amm, amm.(AMM.last_oracle_price_twap)).
End Definitions.

(** ** Properties *)

Lemma time_since_ok ts now s :
  time_since ts now = Ok s → s = Z.max 1 (now - ts) ∧ has_type I128 s.
Proof. unfold time_since. intros. inv_ok. done. Qed.

Lemma time_from_start_ok p s f :
  time_from_start p s = Ok f → f = Z.max 1 (p - s).
Proof. unfold time_from_start. intros. by inv_ok. Qed.

Lemma quot_between a b num den :
  0 < den → a * den ≤ num ≤ b * den → a ≤ Z.quot num den ≤ b.
Proof.
  intros Hd [Ha Hb].
  rewrite <-(Z.quot_mul a den), <-(Z.quot_mul b den) by lia.
  split; by apply Z.quot_le_mono.
Qed.

(** A weighted average with nonnegative weights lies between its two data. *)
Theorem weighted_average_between d1 d2 w1 w2 avg :
  0 ≤ w1 → 0 ≤ w2 →
  calculate_weighted_average d1 d2 w1 w2 = Ok avg →
  Z.min d1 d2 ≤ avg ≤ Z.max d1 d2.
Proof.
  intros H1 H2 Hok. unfold calculate_weighted_average in Hok. inv_ok.
  unfold int_quot; cbn [is_signed]. apply quot_between; [lia|].
  destruct (Z.le_ge_cases d1 d2); [rewrite Z.min_l, Z.max_r|rewrite Z.min_r, Z.max_l];
    nia || lia.
Qed.

(** The average moves toward the current price and never past it. *)
Lemma calculate_new_twap_between amm now price last twap :
  calculate_new_twap amm now price last = Ok twap →
  Z.min price last ≤ twap ≤ Z.max price last ∧ has_type U128 twap.
Proof.
  intros Hok. unfold calculate_new_twap in Hok.
  apply bind_ok in Hok as (s & Hs & Hok). apply time_since_ok in Hs as [Hs _].
  apply bind_ok in Hok as (f & Hf & Hok). apply time_from_start_ok in Hf.
  inv_ok. split; [|done]. eapply weighted_average_between; [..|done]; lia.
Qed.

(** A rolling sum forgets the share of the window that has passed; nothing is
    left after a whole window. *)
Lemma calculate_rolling_sum_ok d1 d2 n d r :
  calculate_rolling_sum d1 d2 n d = Ok r →
  r = d1 * Z.max 0 (d - n) / d + d2 ∧ 0 < d ∧ has_type U64 r.
Proof.
  intros Hok. unfold calculate_rolling_sum in Hok. inv_ok.
  unfold int_quot in *; cbn [is_signed] in *.
  assert (0 < d) by int_lia. done.
Qed.

Lemma rolling_share_bounds x n d :
  0 ≤ x → 0 ≤ n → 0 < d → 0 ≤ x * Z.max 0 (d - n) / d ≤ x.
Proof.
  intros. split; [apply Z.div_pos; nia|].
  apply Z.div_le_upper_bound; nia.
Qed.

Lemma calculate_rolling_sum_bounds d1 d2 n d r :
  0 ≤ d1 → 0 ≤ n → calculate_rolling_sum d1 d2 n d = Ok r → d2 ≤ r ≤ d1 + d2.
Proof.
  intros ?? Hr. apply calculate_rolling_sum_ok in Hr as (-> & ? & _).
  pose proof (rolling_share_bounds d1 n d). lia.
Qed.

(** The truncation of a rolling count to 16 bits loses nothing: at least one
    second passes, which takes a full counter below its maximum before the trade
    is counted. *)
Lemma rolling_count_fits c one n r :
  has_type U16 c → 0 ≤ one ≤ 1 → 1 ≤ n →
  calculate_rolling_sum c one n ONE_HOUR_I128 = Ok r → has_type U16 r.
Proof.
  intros Hc Hone Hn Hr. apply calculate_rolling_sum_ok in Hr as (-> & _ & _).
  unfold has_type in *. cbn [int_min int_max] in *. unfold ONE_HOUR_I128.
  assert (0 ≤ c * Z.max 0 (3600 - n) / 3600 ≤ 65534); [|lia].
  split; [apply Z.div_pos; nia|].
  assert (c * Z.max 0 (3600 - n) / 3600 < 65535); [|lia].
  apply Z.div_lt_upper_bound; nia.
Qed.

(** A trade adds its volume and one to the rolling sums of its side and nothing
    to the other side's; the sums never exceed what they held plus the trade, and
    the 16-bit counters never wrap. *)
Theorem update_amm_long_short_intensity_ok amm amm' now q dir b :
  AMM.typed amm →
  update_amm_long_short_intensity amm now q dir = Ok (amm', b) →
  let long := match dir with Long => q | Short => 0 end in
  let short := match dir with Long => 0 | Short => q end in
  (long ≤ amm'.(AMM.long_intensity_volume) ≤ amm.(AMM.long_intensity_volume) + long)
  ∧ (short ≤ amm'.(AMM.short_intensity_volume) ≤ amm.(AMM.short_intensity_volume) + short)
  ∧ (Z.min 1 long ≤ amm'.(AMM.long_intensity_count)
     ≤ amm.(AMM.long_intensity_count) + Z.min 1 long)
  ∧ (Z.min 1 short ≤ amm'.(AMM.short_intensity_count)
     ≤ amm.(AMM.short_intensity_count) + Z.min 1 short).
Proof.
  intros Hty Hok long short. unfold update_amm_long_short_intensity in Hok.
  apply bind_ok in Hok as (s & Hs & Hok). apply time_since_ok in Hs as [Hs _].
  apply bind_ok in Hok as ([l sh] & Hls & Hok).
  assert (l = long ∧ sh = short ∧ 0 ≤ long ∧ 0 ≤ short) as (-> & -> & Hl0 & Hs0).
  { subst long short. destruct dir; inv_ok; split_and!; try done; int_lia. }
  clear Hls. cbv zeta in Hok.
  assert (∀ x, 0 ≤ x → (if x =? 0 then 0 else 1) = Z.min 1 x) as Hcount.
  { intros x Hx. destruct (Z.eqb_spec x 0); lia. }
  rewrite !Hcount in Hok by done.
  apply bind_ok in Hok as (lc & Hlc & Hok). apply bind_ok in Hok as (lv & Hlv & Hok).
  apply bind_ok in Hok as (sc & Hsc & Hok). apply bind_ok in Hok as (sv & Hsv & Hok).
  inv_ok. cbn. destruct Hty.
  assert (1 ≤ Z.max 1 (now - AMM.last_mark_price_twap_ts amm)) by lia.
  rewrite !wrap_in by (eapply rolling_count_fits; [|..|done]; simpl; done || lia).
  cbn in Hlv, Hsv, Hlc, Hsc.
  apply calculate_rolling_sum_bounds in Hlv; [|int_lia|lia].
  apply calculate_rolling_sum_bounds in Hsv; [|int_lia|lia].
  apply calculate_rolling_sum_bounds in Hlc; [|int_lia|lia].
  apply calculate_rolling_sum_bounds in Hsc; [|int_lia|lia].
  lia.
Qed.

(** *** Oracle prices *)

(** Truncated division as [lia] needs it. *)
Lemma quot_abs_le a b : 0 < b → Z.abs (Z.quot a b) ≤ Z.abs a.
Proof.
  intros Hb. rewrite <-Z.quot_abs by lia. rewrite (Z.abs_eq b) by lia.
  rewrite Z.quot_div_nonneg by lia. pose proof (div_nonneg_le (Z.abs a) b). lia.
Qed.

(** A quotient by a positive denominator is in range. *)
Lemma cdiv_max_one a b :
  has_type I128 a → cdiv I128 a (Z.max 1 b) = Ok (Z.quot a (Z.max 1 b)).
Proof.
  intros Ht. apply cdiv_ok. split; [lia|]. split; [done|].
  unfold has_type in *. unfold int_quot. cbn [is_signed int_min int_max] in *.
  destruct (decide (a = int_min I128)) as [->|].
  - pose proof (quot_between (int_min I128) 0 (int_min I128) (Z.max 1 b)).
    cbn [int_min] in *. lia.
  - pose proof (quot_abs_le a (Z.max 1 b)). cbn [int_min] in *. lia.
Qed.

(** The two tests of volatility, of which the second runs only if the first fails. *)
Lemma too_volatile_spec {A} (k : bool → result A) price twap ratio :
  has_type I128 twap →
  (let? v := if ratio <? Z.quot price (Z.max 1 twap) then Ok true
             else (let? b := cdiv I128 twap (Z.max 1 price) in Ok (ratio <? b)) in k v)
  = k (bool_decide (¬ (Z.quot price (Z.max 1 twap) ≤ ratio
                       ∧ Z.quot twap (Z.max 1 price) ≤ ratio))).
Proof.
  intros Htw. rewrite cdiv_max_one by done. cbn [bind].
  destruct (Z.ltb_spec ratio (Z.quot price (Z.max 1 twap))); cbn [bind].
  - by rewrite bool_decide_true by lia.
  - f_equal. apply eq_iff_eq_true. rewrite Z.ltb_lt, bool_decide_eq_true. lia.
Qed.

(** An oracle price is usable exactly when it is positive, within the volatility
    ratio of its average on both sides, confident, fresh and backed by enough
    data; a negative price is an error of the conversion, not an unusable price. *)
Theorem is_oracle_valid_spec amm o g :
  AMM.typed amm → OraclePriceData.typed o → ValidityGuardRails.typed g →
  let price := o.(OraclePriceData.price) in
  let twap := amm.(AMM.last_oracle_price_twap) in
  let ratio := g.(ValidityGuardRails.too_volatile_ratio) in
  is_oracle_valid amm o g =
    if price <? 0 then Err CastingFailure
    else Ok (bool_decide (
      0 < price
      ∧ Z.quot price (Z.max 1 twap) ≤ ratio ∧ Z.quot twap (Z.max 1 price) ≤ ratio
      ∧ g.(ValidityGuardRails.confidence_interval_max_size)
        ≤ price / Z.max 1 o.(OraclePriceData.confidence)
      ∧ o.(OraclePriceData.delay) ≤ g.(ValidityGuardRails.slots_before_stale)
      ∧ o.(OraclePriceData.has_sufficient_number_of_data_points) = true)).
Proof.
  intros Ha Ho Hg price twap ratio.
  pose proof (AMM.last_oracle_price_twap_ty _ Ha) as Htw.
  pose proof (OraclePriceData.price_ty _ Ho) as Hpr.
  pose proof (OraclePriceData.confidence_ty _ Ho) as Hc.
  fold twap in Htw. fold price in Hpr.
  unfold is_oracle_valid, is_oracle_price_too_volatile. fold price twap ratio.
  rewrite cdiv_max_one by done. cbn [bind]. rewrite too_volatile_spec by done.
  destruct (Z.ltb_spec price 0).
  - unfold cast_to_u128, cast, checked. unfold in_range. cbn [int_min].
    by rewrite (proj2 (Z.leb_gt 0 price)) by done.
  - unfold cast_to_u128. rewrite cast_in by int_lia. cbn [bind].
    assert (cdiv U128 price (Z.max 1 (OraclePriceData.confidence o))
            = Ok (price / Z.max 1 (OraclePriceData.confidence o))) as ->.
    { apply cdiv_ok. split; [lia|]. split; [done|].
      unfold int_quot; cbn [is_signed]. apply u128_div_in; int_lia. }
    cbn [bind]. f_equal. apply eq_iff_eq_true.
    rewrite negb_true_iff, !orb_false_iff, !Z.ltb_ge, bool_decide_eq_false,
      bool_decide_eq_true, Z.leb_gt.
    destruct (OraclePriceData.has_sufficient_number_of_data_points o); simpl; split;
      intuition (lia || done || tauto).
Qed.

(** The normalised oracle price stays within the confidence interval of the
    oracle price, and on the way from the oracle price to the mark price. *)
Theorem normalise_oracle_price_bounds `{BnLib} amm o mark p :
  OraclePriceData.typed o → 0 ≤ mark →
  normalise_oracle_price amm o (Some mark) = Ok p →
  let price := o.(OraclePriceData.price) in
  Z.abs (p - price) ≤ o.(OraclePriceData.confidence)
  ∧ Z.min price mark ≤ p ≤ Z.max price mark.
Proof.
  intros Hty Hm Hok price. subst price. unfold normalise_oracle_price in Hok.
  pose proof (OraclePriceData.confidence_ty _ Hty). cbn [mark_price_or] in Hok.
  assert (0 ≤ Z.quot mark 4000) by (apply Z.quot_pos; lia).
  inv_ok; unfold int_quot in *; cbn [is_signed] in *;
    unfold has_type in *; cbn [int_min int_max] in *; bool_prop; lia.
Qed.

(** The update price is within a third of the new price of the last average. *)
Lemma capped_oracle_update_price_ok amm p c :
  capped_oracle_update_price amm p = Ok c →
  Z.abs (c - amm.(AMM.last_oracle_price_twap)) ≤ Z.abs (Z.quot p 3)
  ∧ (c = p ∨ Z.abs (Z.quot p 3) < Z.abs (p - amm.(AMM.last_oracle_price_twap))).
Proof.
  unfold capped_oracle_update_price, unsigned_abs. intros.
  inv_ok; unfold int_quot in *; cbn [is_signed] in *; bool_prop; lia.
Qed.

(** A nudge of the last oracle price toward the new one, by at most a thousandth. *)
Lemma oracle_nudge_between last p :
  0 < last → 0 < p →
  let n := Z.min (last + Z.quot last 1000) (Z.max (last - Z.quot last 1000) p) in
  0 < n ∧ Z.min last p ≤ n ≤ Z.max last p.
Proof.
  intros Hl Hp n. assert (0 ≤ Z.quot last 1000 < last); [|lia].
  rewrite Z.quot_div_nonneg by lia. split; [apply Z.div_pos; lia|].
  apply Z.div_lt; lia.
Qed.

(** The new oracle average lies between the smallest and the largest of the update
    price, the last oracle price, the mark average and the old oracle average; it
    stays positive. *)
Theorem calculate_new_oracle_price_twap_bounds amm now p t :
  AMM.typed amm → 0 < p →
  calculate_new_oracle_price_twap amm now p = Ok t →
  let last := if 0 <? amm.(AMM.last_oracle_price) then amm.(AMM.last_oracle_price) else p in
  let twap := amm.(AMM.last_oracle_price_twap) in
  let mark := amm.(AMM.last_mark_price_twap) in
  Z.min (Z.min p last) (Z.min mark twap) ≤ t ≤ Z.max (Z.max p last) (Z.max mark twap)
  ∧ (amm.(AMM.last_mark_price_twap_ts) ≤ amm.(AMM.last_oracle_price_twap_ts) →
     Z.min (Z.min p last) twap ≤ t ≤ Z.max (Z.max p last) twap).
Proof.
  intros Hty Hp Hok last twap mark. unfold calculate_new_oracle_price_twap in Hok.
  apply bind_ok in Hok as (s & Hs & Hok). apply time_since_ok in Hs as [Hs _].
  apply bind_ok in Hok as (f & Hf & Hok). apply time_from_start_ok in Hf.
  cbv zeta in Hok. fold last in Hok.
  apply bind_ok in Hok as (d & Hd & Hok). apply cdiv_ok in Hd as (_ & -> & _).
  apply bind_ok in Hok as (hi & Hhi & Hok). apply cadd_ok in Hhi as [-> _].
  apply bind_ok in Hok as (lo & Hlo & Hok). apply csub_ok in Hlo as [-> _].
  assert (0 < last) as Hlast by (unfold last; destruct (Z.ltb_spec 0 (AMM.last_oracle_price amm)); lia).
  destruct (oracle_nudge_between last p Hlast Hp) as [_ Hn].
  unfold int_quot in Hok; cbn [is_signed] in Hok.
  set (n := Z.min _ _) in *. clearbody n. apply bind_ok in Hok as (i & Hi & Hok).
  assert (Z.min i twap ≤ t ≤ Z.max i twap) as Ht
    by (eapply weighted_average_between; [..|exact Hok]; lia).
  destruct (Z.ltb_spec (AMM.last_oracle_price_twap_ts amm) (AMM.last_mark_price_twap_ts amm)).
  - apply bind_ok in Hi as (x & Hx & Hi). apply csub_ok in Hx as [-> _].
    apply bind_ok in Hi as (v & Hv & Hi). apply cast_ok in Hv as [-> _].
    apply bind_ok in Hi as (g & Hg & Hi). apply time_from_start_ok in Hg.
    apply bind_ok in Hi as (m & Hm & Hi). apply cast_ok in Hm as [-> _].
    assert (Z.min mark n ≤ i ≤ Z.max mark n)
      by (eapply weighted_average_between; [..|exact Hi]; lia).
    clearbody last twap mark. split; [clear - Hn Ht H0; lia|lia].
  - apply Ok_inj in Hi as <-. clearbody last twap mark. clear - Hn Ht.
    split; [|intros _]; lia.
Qed.

(** The mark average moves between its old value and the mark price, and the mid
    average that is returned is the mean of the new bid and ask averages. *)
Theorem update_mark_twap_ok `{BnLib} amm now mark amm' mid :
  update_mark_twap amm now (Some mark) = Ok (amm', mid) →
  Z.min mark amm.(AMM.last_mark_price_twap) ≤ amm'.(AMM.last_mark_price_twap)
    ≤ Z.max mark amm.(AMM.last_mark_price_twap)
  ∧ amm'.(AMM.last_mark_price_twap_ts) = now
  ∧ mid = (amm'.(AMM.last_bid_price_twap) + amm'.(AMM.last_ask_price_twap)) / 2.
Proof.
  intros Hok. unfold update_mark_twap in Hok. cbn [mark_price_or bind] in Hok.
  apply bind_ok in Hok as ([bid ask] & Hba & Hok).
  apply bind_ok in Hok as (m & Hm & Hok). apply calculate_new_twap_between in Hm as [Hm _].
  inv_ok. cbn. done.
Qed.
