(* ===== verification/Oracle.v ===== *)
(** * Oracles (state/oracle.rs, the oracle methods of [AMM] in state/market.rs,
      math/oracle.rs)

    The Pyth and Switchboard accounts are read by their clients, which are not
    part of the repository: the class [OracleAccounts] is what the code reads of
    an account.  Scaling, delay and confidence are the program's own. *)

From stdpp Require Import base numbers.
From S2P Require Import Prelude Constants Bn State Value AmmMath Twap.
Local Open Scope Z_scope.

(** ** Accounts *)

(** The fields of [pyth_client::Price] that the code reads. *)
Module PythPrice.
Record PythPrice := mk {
  agg_price : Z;
  agg_conf : Z;
  expo : Z;
  valid_slot : Z;
  twap_val : Z;
}.
Record typed (p : PythPrice) : Prop := {
  agg_price_ty : has_type I64 p.(agg_price);
  agg_conf_ty : has_type U64 p.(agg_conf);
  expo_ty : has_type I32 p.(expo);
  valid_slot_ty : has_type U64 p.(valid_slot);
  twap_val_ty : has_type I64 p.(twap_val);
}.
End PythPrice.
Abbreviation PythPrice := PythPrice.PythPrice.

Module SwitchboardDecimal.
Record SwitchboardDecimal := mk {
  mantissa : Z;
  scale : Z;
}.
End SwitchboardDecimal.
Abbreviation SwitchboardDecimal := SwitchboardDecimal.SwitchboardDecimal.

(** The fields of [AggregatorAccountData] that the code reads. *)
Module Aggregator.
Record Aggregator := mk {
  result : SwitchboardDecimal;
  std_deviation : SwitchboardDecimal;
  round_open_slot : Z;
  num_success : Z;
  min_oracle_results : Z;
}.
End Aggregator.
Abbreviation Aggregator := Aggregator.Aggregator.

(** [load_pyth] is [try_borrow_data] followed by [pyth_client::cast],
    [load_aggregator] is [AggregatorAccountData::new]. *)
Class OracleAccounts := {
  AccountInfo : Type;
  account_key : AccountInfo → Pubkey;
  load_pyth : AccountInfo → result PythPrice;
  load_aggregator : AccountInfo → result Aggregator;
}.

(** The accounts of the concrete examples: a key and the contents. *)
#[export] Instance example_accounts : OracleAccounts := {|
  AccountInfo := Pubkey * (option PythPrice * option Aggregator);
  account_key a := a.1;
  load_pyth a := ok_or a.2.1 MathError;
  load_aggregator a := ok_or a.2.2 MathError;
|}.

(** ** Definitions *)

(** The factor and the divisor that scale a price of [expo] decimals to the mark
    price precision; the sign of the exponent is not read. *)
Definition oracle_scale (expo : Z) : result (Z * Z) :=
  let oracle_precision := int_pow U128 10 (unsigned_abs expo) in
  if MARK_PRICE_PRECISION <? oracle_precision then
    let? oracle_scale_div := cdiv U128 oracle_precision MARK_PRICE_PRECISION in
    Ok (1, oracle_scale_div)
  else
    let? oracle_scale_mult := cdiv U128 MARK_PRICE_PRECISION oracle_precision in
    Ok (oracle_scale_mult, 1).

(** A signed price scaled by [oracle_scale]. *)
Definition scale_price (price : Z) (scale : Z * Z) : result Z :=
  let? m := cast I128 scale.1 in
  let? x := cmul I128 price m in
  let? d := cast I128 scale.2 in
  cdiv I128 x d.

Definition convert_switchboard_decimal (switchboard_decimal : SwitchboardDecimal)
    : result Z :=
  let switchboard_precision :=
    int_pow U128 10 switchboard_decimal.(SwitchboardDecimal.scale) in
  let mantissa := switchboard_decimal.(SwitchboardDecimal.mantissa) in
  if MARK_PRICE_PRECISION <? switchboard_precision then
    let? d := op_div U128 switchboard_precision MARK_PRICE_PRECISION in
    cdiv I128 mantissa (wrap I128 d)
  else
    let? m := op_div U128 MARK_PRICE_PRECISION switchboard_precision in
    cmul I128 mantissa (wrap I128 m).

Section Accounts.
Context `{OracleAccounts}.

Definition get_pyth_price (price_oracle : AccountInfo) (clock_slot : Z)
    : result OraclePriceData :=
  let? price_data := or_err (load_pyth price_oracle) UnableToLoadOracle in
  let? oracle_price := cast_to_i128 price_data.(PythPrice.agg_price) in
  let? oracle_conf := cast_to_u128 price_data.(PythPrice.agg_conf) in
  let? scale := oracle_scale price_data.(PythPrice.expo) in
  let? oracle_price_scaled := scale_price oracle_price scale in
  let? c := cmul U128 oracle_conf scale.1 in
  let? oracle_conf_scaled := cdiv U128 c scale.2 in
  let? slot := cast_to_i64 clock_slot in
  let? valid_slot := cast I64 price_data.(PythPrice.valid_slot) in
  let? oracle_delay := csub I64 slot valid_slot in
  Ok {| OraclePriceData.price := oracle_price_scaled;
        OraclePriceData.confidence := oracle_conf_scaled;
        OraclePriceData.delay := oracle_delay;
        OraclePriceData.has_sufficient_number_of_data_points := true |}.

Definition get_switchboard_price (price_oracle : AccountInfo) (clock_slot : Z)
    : result OraclePriceData :=
  let? aggregator_data := or_err (load_aggregator price_oracle) UnableToLoadOracle in
  let? price := convert_switchboard_decimal aggregator_data.(Aggregator.result) in
  let? confidence :=
    convert_switchboard_decimal aggregator_data.(Aggregator.std_deviation) in
  let? confidence :=
    if confidence <? 0 then Ok (int_max U128)
    else
      let? price_10bps := cdiv U128 (unsigned_abs price) 1000 in
      Ok (Z.max (unsigned_abs confidence) price_10bps) in
  let? slot := cast_to_i64 clock_slot in
  let? round_open_slot := cast I64 aggregator_data.(Aggregator.round_open_slot) in
  let? delay := csub I64 slot round_open_slot in
  Ok {| OraclePriceData.price := price;
        OraclePriceData.confidence := confidence;
        OraclePriceData.delay := delay;
        OraclePriceData.has_sufficient_number_of_data_points :=
          aggregator_data.(Aggregator.min_oracle_results)
          <=? aggregator_data.(Aggregator.num_success) |}.

Definition get_oracle_price (oracle_source : OracleSource) (price_oracle : AccountInfo)
    (clock_slot : Z) : result OraclePriceData :=
  match oracle_source with
  | Pyth => get_pyth_price price_oracle clock_slot
  | Switchboard => get_switchboard_price price_oracle clock_slot
  | QuoteAsset =>
      Ok {| OraclePriceData.price := MARK_PRICE_PRECISION_I128;
            OraclePriceData.confidence := 1;
            OraclePriceData.delay := 0;
            OraclePriceData.has_sufficient_number_of_data_points := true |}
  end.

(** [AMM::get_oracle_price]: the methods of [AMM] repeat the two functions above,
    and a market has no quote asset oracle. *)
Definition amm_get_oracle_price (amm : AMM) (price_oracle : AccountInfo)
    (clock_slot : Z) : result OraclePriceData :=
  match amm.(AMM.oracle_source) with
  | Pyth => get_pyth_price price_oracle clock_slot
  | Switchboard => get_switchboard_price price_oracle clock_slot
  | QuoteAsset => Panic
  end.

Definition get_pyth_twap (price_oracle : AccountInfo) : result Z :=
  let? price_data := or_err (load_pyth price_oracle) UnableToLoadOracle in
  let? oracle_twap := cast_to_i128 price_data.(PythPrice.twap_val) in
  let? scale := oracle_scale price_data.(PythPrice.expo) in
  scale_price oracle_twap scale.

Definition get_oracle_twap (amm : AMM) (price_oracle : AccountInfo) : result (option Z) :=
  match amm.(AMM.oracle_source) with
  | Pyth => let? t := get_pyth_twap price_oracle in Ok (Some t)
  | Switchboard => Ok None
  | QuoteAsset => Panic
  end.
End Accounts.

(** *** math/oracle.rs *)

Module OracleStatus.
Record OracleStatus := mk {
  price_data : OraclePriceData;
  oracle_mark_spread_pct : Z;
  is_valid : bool;
  mark_too_divergent : bool;
}.
End OracleStatus.
Abbreviation OracleStatus := OracleStatus.OracleStatus.

Section Status.
Context `{BnLib} `{OracleAccounts}.

Definition get_oracle_status (amm : AMM) (oracle_account_info : AccountInfo)
    (clock_slot : Z) (guard_rails : OracleGuardRails) (precomputed_mark_price : option Z)
    : result OracleStatus :=
  let? oracle_price_data := amm_get_oracle_price amm oracle_account_info clock_slot in
  let? oracle_is_valid := is_oracle_valid amm oracle_price_data
    guard_rails.(OracleGuardRails.validity) in
  let? oracle_mark_spread_pct :=
    calculate_oracle_mark_spread_pct amm oracle_price_data precomputed_mark_price in
  let? too_divergent := is_oracle_mark_too_divergent oracle_mark_spread_pct
    guard_rails.(OracleGuardRails.price_divergence) in
  Ok {| OracleStatus.price_data := oracle_price_data;
        OracleStatus.oracle_mark_spread_pct := oracle_mark_spread_pct;
        OracleStatus.is_valid := oracle_is_valid;
        OracleStatus.mark_too_divergent := too_divergent |}.

Definition block_operation (amm : AMM) (oracle_account_info : AccountInfo)
    (clock_slot : Z) (guard_rails : OracleGuardRails) (precomputed_mark_price : option Z)
    : result (bool * OraclePriceData) :=
  let? status := get_oracle_status amm oracle_account_info clock_slot guard_rails
    precomputed_mark_price in
  let block := negb status.(OracleStatus.is_valid)
               || status.(OracleStatus.mark_too_divergent) in
  Ok (block, status.(OracleStatus.price_data)).
End Status.
