(* ===== verification/PositionMath.v ===== *)
(** * Valuation of positions (math/position.rs) *)

From stdpp Require Import base numbers.
From S2P Require Import Prelude Constants Bn State Value AmmMath.
Local Open Scope Z_scope.

(** ** Definitions *)

Definition direction_to_close_position (base_asset_amount : Z) : PositionDirection :=
  if 0 <? base_asset_amount then Short else Long.

Definition swap_direction_to_close_position (base_asset_amount : Z) : SwapDirection :=
  if 0 <=? base_asset_amount then Add else Remove.

(** [AMM_RESERVE_PRECISION * PRICE_TO_QUOTE_PRECISION_RATIO] *)
Definition BASE_VALUE_PRECISION : Z :=
  Eval vm_compute in AMM_RESERVE_PRECISION * PRICE_TO_QUOTE_PRECISION_RATIO.

Definition calculate_base_asset_value_and_pnl_with_oracle_price
    (market_position : MarketPosition) (oracle_price : Z) : result (Z * Z) :=
  let base_asset_amount := market_position.(MarketPosition.base_asset_amount) in
  if base_asset_amount =? 0 then Ok (0, 0)
  else
    let swap_direction := swap_direction_to_close_position base_asset_amount in
    let oracle_price := if 0 <? oracle_price then unsigned_abs oracle_price else 0 in
    let? x := cmul U128 (unsigned_abs base_asset_amount) oracle_price in
    let? base_asset_value := cdiv U128 x BASE_VALUE_PRECISION in
    let? pnl := calculate_pnl base_asset_value
      market_position.(MarketPosition.quote_asset_amount) swap_direction in
    Ok (base_asset_value, pnl).

Section Definitions.
Context `{BnLib}.

Definition _calculate_base_asset_value_and_pnl (base_asset_amount quote_asset_amount : Z)
    (amm : AMM) : result (Z * Z) :=
  if base_asset_amount =? 0 then Ok (0, 0)
  else
    let swap_direction := swap_direction_to_close_position base_asset_amount in
    let? ' (new_quote_asset_reserve, _) :=
      calculate_swap_output (unsigned_abs base_asset_amount) amm.(AMM.base_asset_reserve)
        swap_direction amm.(AMM.sqrt_k) in
    let? base_asset_value :=
      calculate_quote_asset_amount_swapped amm.(AMM.quote_asset_reserve)
        new_quote_asset_reserve swap_direction amm.(AMM.peg_multiplier) in
    let? pnl := calculate_pnl base_asset_value quote_asset_amount swap_direction in
    Ok (base_asset_value, pnl).

Definition calculate_base_asset_value_and_pnl (market_position : MarketPosition)
    (amm : AMM) : result (Z * Z) :=
  _calculate_base_asset_value_and_pnl market_position.(MarketPosition.base_asset_amount)
    market_position.(MarketPosition.quote_asset_amount) amm.
End Definitions.

(** ** Properties *)

(** The profit of a position is its value minus its cost for a long, the reverse
    for a short. *)
Definition position_pnl (base_asset_amount value quote_asset_amount : Z) : Z :=
  if 0 <=? base_asset_amount then value - quote_asset_amount
  else quote_asset_amount - value.

Lemma calculate_pnl_position base value quote p :
  calculate_pnl value quote (swap_direction_to_close_position base) = Ok p →
  p = position_pnl base value quote ∧ has_type I128 p.
Proof.
  intros Hp. apply calculate_pnl_ok in Hp as [-> ?].
  unfold position_pnl, swap_direction_to_close_position in *.
  by destruct (0 <=? base).
Qed.

(** The value of a position at an oracle price: amount times price in quote
    precision, a nonpositive price counting as zero. *)
Theorem value_with_oracle_price_ok p price v pnl :
  calculate_base_asset_value_and_pnl_with_oracle_price p price = Ok (v, pnl) →
  let base := p.(MarketPosition.base_asset_amount) in
  v = Z.abs base * Z.max 0 price / BASE_VALUE_PRECISION
  ∧ (base = 0 ∧ pnl = 0
     ∨ base ≠ 0 ∧ pnl = position_pnl base v p.(MarketPosition.quote_asset_amount)).
Proof.
  intros Hok base. unfold calculate_base_asset_value_and_pnl_with_oracle_price in Hok.
  fold base in Hok. destruct (Z.eqb_spec base 0) as [Hz|Hb].
  { inv_ok. rewrite Hz. split; [done|]. by left. }
  apply bind_ok in Hok as (x & Hx & Hok). apply cmul_ok in Hx as [-> _].
  apply bind_ok in Hok as (v' & Hv & Hok). apply cdiv_ok in Hv as (_ & -> & _).
  apply bind_ok in Hok as (p' & Hp & Hok). apply calculate_pnl_position in Hp as [-> _].
  apply Ok_inj in Hok. simplify_eq. unfold int_quot, unsigned_abs in *; cbn [is_signed] in *.
  assert ((if 0 <? price then Z.abs price else 0) = Z.max 0 price) as ->
    by (destruct (Z.ltb_spec 0 price); lia).
  split; [done|]. by right.
Qed.

Section Properties.
Context `{BnLaws}.

(** What closing a position on the curve is worth. *)
Lemma base_asset_value_ok base quote amm v pnl :
  AMM.typed amm → has_type I128 base →
  _calculate_base_asset_value_and_pnl base quote amm = Ok (v, pnl) →
  (base = 0 ∧ v = 0 ∧ pnl = 0)
  ∨ base ≠ 0 ∧ pnl = position_pnl base v quote ∧ has_type U128 v
    ∧ 0 < amm.(AMM.base_asset_reserve) + base
    ∧ let q := amm.(AMM.sqrt_k) * amm.(AMM.sqrt_k) / (amm.(AMM.base_asset_reserve) + base) in
      if 0 <? base then
        q ≤ amm.(AMM.quote_asset_reserve)
        ∧ v = (amm.(AMM.quote_asset_reserve) - q) * amm.(AMM.peg_multiplier)
              / AMM_TIMES_PEG_TO_QUOTE_PRECISION_RATIO
      else
        amm.(AMM.quote_asset_reserve) ≤ q
        ∧ v = (q - amm.(AMM.quote_asset_reserve)) * amm.(AMM.peg_multiplier)
              / AMM_TIMES_PEG_TO_QUOTE_PRECISION_RATIO + 1.
Proof.
  intros Hty Hb Hok. unfold _calculate_base_asset_value_and_pnl in Hok.
  destruct (Z.eqb_spec base 0) as [->|Hne]; [left; by inv_ok|right].
  apply bind_ok in Hok as ([q n] & Hswap & Hok).
  assert (has_type U128 (unsigned_abs base)) by (unfold unsigned_abs; int_lia).
  destruct Hty. apply calculate_swap_output_ok in Hswap as (-> & Hn & _ & -> & _); [|done..].
  apply bind_ok in Hok as (v' & Hv & Hok).
  apply calculate_quote_asset_amount_swapped_ok in Hv as [Hv Hvt].
  apply bind_ok in Hok as (p & Hp & Hok). apply calculate_pnl_position in Hp as [-> _].
  apply Ok_inj in Hok. simplify_eq.
  unfold swap_direction_to_close_position, new_input, unsigned_abs in *.
  destruct (Z.leb_spec 0 base), (Z.ltb_spec 0 base); try lia.
  - rewrite Z.abs_eq in * by lia. done.
  - rewrite Z.abs_neq in * by lia. rewrite Z.sub_opp_r in *. done.
Qed.
End Properties.
