(* ===== verification/CurveMath.v ===== *)
(** * Curve updates: changing k (math/amm.rs)

    The budgeted scale of k, its cost, and the update of the reserves. *)

From stdpp Require Import base numbers.
From S2P Require Import Prelude Constants Bn State Value AmmMath PositionMath.
Local Open Scope Z_scope.

(** ** Definitions *)

Module UpdateKResult.
Record UpdateKResult := mk {
  sqrt_k : Z;
  base_asset_reserve : Z;
  quote_asset_reserve : Z;
}.
End UpdateKResult.
Abbreviation UpdateKResult := UpdateKResult.UpdateKResult.

(** The upper and lower bounds of the scale, out of [K_BPS_UPDATE_SCALE]; the
    operators of the source do not overflow on an intensity of at most 100. *)
Definition k_pct_upper_bound (curve_update_intensity : Z) : Z :=
  K_BPS_UPDATE_SCALE + Z.quot (K_BPS_INCREASE_MAX * curve_update_intensity) 100.
Definition k_pct_lower_bound (curve_update_intensity : Z) : Z :=
  K_BPS_UPDATE_SCALE - Z.quot (K_BPS_DECREASE_MAX * curve_update_intensity) 100.

(** The last step of [calculate_budgeted_k_scale]: the scale within its bounds. *)
Definition clamp_k_scale (curve_update_intensity numerator denominator : Z)
    : result (Z * Z) :=
  if denominator <? numerator then
    let bound := k_pct_upper_bound curve_update_intensity in
    let? x := cmul I128 numerator 1000 in
    let? current_pct_change := cdiv I128 x denominator in
    let? y := cmul I128 bound 1000 in
    let? maximum_pct_change := cdiv I128 y K_BPS_UPDATE_SCALE in
    if maximum_pct_change <? current_pct_change then Ok (bound, K_BPS_UPDATE_SCALE)
    else Ok (numerator, denominator)
  else
    let bound := k_pct_lower_bound curve_update_intensity in
    let? x := cmul I128 numerator 1000 in
    let? current_pct_change := cdiv I128 x denominator in
    let? y := cmul I128 bound 1000 in
    let? maximum_pct_change := cdiv I128 y K_BPS_UPDATE_SCALE in
    if current_pct_change <? maximum_pct_change then Ok (bound, K_BPS_UPDATE_SCALE)
    else Ok (numerator, denominator).

(** [abs] of [i128] wraps on the minimum. *)
Definition calculate_budgeted_k_scale (market : Market) (budget mark_price : Z)
    : result (Z * Z) :=
  let amm := market.(Market.amm) in
  let? curve_update_intensity :=
    cast_to_i128 (Z.min amm.(AMM.curve_update_intensity) 100) in
  if curve_update_intensity =? 0 then Ok (1, 1)
  else
    let? mark_price := cast_to_i128 mark_price in
    let? mark_div_budget := cdiv I128 mark_price budget in
    let net_position := amm.(AMM.net_base_asset_amount) in
    let? one_div_net_position :=
      cdiv I128 MARK_PRICE_TIMES_AMM_TO_QUOTE_PRECISION_RATIO_I128 net_position in
    let? base_asset_reserve := cast_to_i128 amm.(AMM.base_asset_reserve) in
    let? n := cadd I128 mark_div_budget one_div_net_position in
    let? d := cdiv I128 MARK_PRICE_TIMES_AMM_TO_QUOTE_PRECISION_RATIO_I128
                base_asset_reserve in
    let? numerator := cadd I128 n d in
    let? m := csub I128 mark_div_budget one_div_net_position in
    let? x := cmul I128 base_asset_reserve one_div_net_position in
    let? x := cdiv I128 x net_position in
    let? denominator := csub I128 m x in
    let '(numerator, denominator) :=
      if (numerator <? 0) && (denominator <? 0)
      then (wrap I128 (Z.abs numerator), wrap I128 (Z.abs denominator))
      else (numerator, denominator) in
    let? ' () := rust_assert ((0 <? numerator) && (0 <? denominator)) in
    let? ' (numerator, denominator) :=
      clamp_k_scale curve_update_intensity numerator denominator in
    let? numerator := cast_to_u128 numerator in
    let? denominator := cast_to_u128 denominator in
    Ok (numerator, denominator).

Section Definitions.
Context `{BnLib}.

Definition get_update_k_result (market : Market) (new_sqrt_k : Z) : result UpdateKResult :=
  let amm := market.(Market.amm) in
  let sqrt_k_ratio_precision := bn_from U192 100000000 in
  let old_sqrt_k := bn_from U192 amm.(AMM.sqrt_k) in
  let? x := bn_mul U192 new_sqrt_k sqrt_k_ratio_precision in
  let? sqrt_k_ratio := bn_div U192 x old_sqrt_k in
  if sqrt_k_ratio <? bn_from U192 97500000 then Err InvalidUpdateK
  else
    let? sqrt_k := unwrap_result (try_to_u128 U192 new_sqrt_k) in
    let? x := bn_mul U192 (bn_from U192 amm.(AMM.base_asset_reserve)) sqrt_k_ratio in
    let? x := bn_div U192 x sqrt_k_ratio_precision in
    let? base_asset_reserve := try_to_u128 U192 x in
    let invariant_sqrt_u192 := bn_from U192 sqrt_k in
    let? invariant := bn_mul U192 invariant_sqrt_u192 invariant_sqrt_u192 in
    let? x := bn_div U192 invariant (bn_from U192 base_asset_reserve) in
    let? quote_asset_reserve := try_to_u128 U192 x in
    Ok (UpdateKResult.mk sqrt_k base_asset_reserve quote_asset_reserve).

(** The first three assignments of [update_k]. *)
Definition set_k (market : Market) (r : UpdateKResult) : Market :=
  market <| Market.amm := market.(Market.amm)
    <| AMM.sqrt_k := r.(UpdateKResult.sqrt_k) |>
    <| AMM.base_asset_reserve := r.(UpdateKResult.base_asset_reserve) |>
    <| AMM.quote_asset_reserve := r.(UpdateKResult.quote_asset_reserve) |> |>.

(** [update_k] writes the new curve before it can fail, and one of its callers
    ignores its error: the market comes back in both cases. *)
Definition update_k (market : Market) (update_k_result : UpdateKResult)
    : Market * result () :=
  let market := set_k market update_k_result in
  let amm := market.(Market.amm) in
  match calculate_swap_output (unsigned_abs amm.(AMM.net_base_asset_amount))
          amm.(AMM.base_asset_reserve) (net_position_swap_direction amm)
          amm.(AMM.sqrt_k) with
  | Ok (new_terminal_quote_reserve, _) =>
      (market <| Market.amm := amm
         <| AMM.terminal_quote_asset_reserve := new_terminal_quote_reserve |> |>, Ok ())
  | Err e => (market, Err e)
  | Panic => (market, Panic)
  end.

Definition adjust_k_cost (market : Market) (update_k_result : UpdateKResult) : result Z :=
  let amm := market.(Market.amm) in
  let? ' (current_net_market_value, _) :=
    _calculate_base_asset_value_and_pnl amm.(AMM.net_base_asset_amount) 0 amm in
  let '(market_clone, r) := update_k market update_k_result in
  let? ' () := r in
  let amm := market_clone.(Market.amm) in
  let? ' (_, cost) :=
    _calculate_base_asset_value_and_pnl amm.(AMM.net_base_asset_amount)
      current_net_market_value amm in
  Ok cost.
End Definitions.

(** ** Properties *)

Lemma k_bounds_intensity i :
  0 ≤ i ≤ 100 →
  K_BPS_UPDATE_SCALE ≤ k_pct_upper_bound i ≤ 1001000
  ∧ 978000 ≤ k_pct_lower_bound i ≤ K_BPS_UPDATE_SCALE.
Proof.
  intros Hi. unfold k_pct_upper_bound, k_pct_lower_bound. unfold_consts.
  rewrite !Z.quot_div_nonneg by lia.
  assert (1000 * i / 100 = 10 * i) as ->
    by (replace (1000 * i) with (10 * i * 100) by lia; by rewrite Z.div_mul).
  assert (22000 * i / 100 = 220 * i) as ->
    by (replace (22000 * i) with (220 * i * 100) by lia; by rewrite Z.div_mul).
  lia.
Qed.

(** The clamp compares per mille: a scale that is kept differs from its bound by
    less than one per mille. *)
Lemma clamp_k_scale_ok i n d n' d' :
  0 ≤ i ≤ 100 → 0 < n → 0 < d →
  clamp_k_scale i n d = Ok (n', d') →
  0 < n' ∧ 0 < d'
  ∧ (d < n → d' ≤ n' ∧ n' * 1000 < (k_pct_upper_bound i / 1000 + 1) * d')
  ∧ (n ≤ d → n' ≤ d' ∧ k_pct_lower_bound i / 1000 * d' ≤ n' * 1000).
Proof.
  intros Hi Hn Hd Hok. unfold clamp_k_scale in Hok.
  destruct (k_bounds_intensity i Hi) as [Hu Hl].
  set (u := k_pct_upper_bound i) in *. set (l := k_pct_lower_bound i) in *.
  clearbody u l. revert Hu Hl Hok. unfold K_BPS_UPDATE_SCALE. intros Hu Hl Hok.
  assert (∀ b, int_quot I128 (b * 1000) 1000000 = Z.quot (b * 1000) 1000000) as Hq by done.
  assert (∀ b, 0 ≤ b → Z.quot (b * 1000) 1000000 = b / 1000) as Hb.
  { intros b ?. rewrite Z.quot_div_nonneg by lia.
    change 1000000 with (1000 * 1000). by rewrite Z.div_mul_cancel_r. }
  assert (int_quot I128 (n * 1000) d = n * 1000 / d) as Hc
    by (unfold int_quot; cbn [is_signed]; apply Z.quot_div_nonneg; lia).
  assert (∀ b, b = b / 1000 * 1000 + b mod 1000 ∧ 0 ≤ b mod 1000 < 1000) as Hbm.
  { intros b. split; [pose proof (Z.div_mod b 1000); lia|by apply Z.mod_pos_bound]. }
  pose proof (Hbm u). pose proof (Hbm l).
  pose proof (Z.div_mod (n * 1000) d ltac:(lia)).
  pose proof (Z.mod_pos_bound (n * 1000) d Hd).
  destruct (Z.ltb_spec d n); inv_ok; rewrite ?Hq, ?Hb, ?Hc in * by lia; bool_prop;
    (split_and!; [lia|lia|intros; try lia..]); (split; [lia|nia]).
Qed.

(** C38. A budgeted change of k scales it by a positive factor between 0.978 and 1.002;
    without curve update intensity it does not change k. *)
Theorem calculate_budgeted_k_scale_bounds market budget mark_price n d :
  Market.typed market →
  calculate_budgeted_k_scale market budget mark_price = Ok (n, d) →
  0 < n ∧ 0 < d ∧ 978 * d ≤ 1000 * n ∧ 1000 * n < 1002 * d
  ∧ (market.(Market.amm).(AMM.curve_update_intensity) = 0 → n = d).
Proof.
  intros Hty Hok. unfold calculate_budgeted_k_scale in Hok. cbv zeta in Hok.
  pose proof (AMM.curve_update_intensity_ty _ (Market.amm_ty _ Hty)) as Hi.
  unfold has_type in Hi; cbn [int_min int_max] in Hi.
  apply bind_ok in Hok as (i & Hcast & Hok). apply cast_ok in Hcast as [-> _].
  destruct (Z.eqb_spec (Z.min (AMM.curve_update_intensity (Market.amm market)) 100) 0).
  { inv_ok. lia. }
  set (i := Z.min _ 100) in *. assert (0 ≤ i ≤ 100) as Hi100 by lia.
  do 11 (apply bind_ok in Hok as (? & _ & Hok)).
  destruct (if (_ <? 0) && _ then _ else _) as [nu de] in Hok.
  apply bind_ok in Hok as ([] & Hassert & Hok).
  apply bind_ok in Hok as ([n1 d1] & Hclamp & Hok). inv_ok. bool_prop.
  apply clamp_k_scale_ok in Hclamp as (? & ? & Hup & Hlow); [|done..].
  destruct (k_bounds_intensity i Hi100) as [Hu Hl]. unfold K_BPS_UPDATE_SCALE in *.
  assert (1000 ≤ k_pct_upper_bound i / 1000 ≤ 1001)
    by (split; [apply Z.div_le_lower_bound|apply Z.lt_succ_r, Z.div_lt_upper_bound]; lia).
  assert (978 ≤ k_pct_lower_bound i / 1000 ≤ 1000)
    by (split; [apply Z.div_le_lower_bound|apply Z.lt_succ_r, Z.div_lt_upper_bound]; lia).
  destruct (Z.lt_ge_cases de nu); [destruct Hup|destruct Hlow]; try done; split_and!;
    try done; nia.
Qed.

(** When the market is net long and the budget for raising k is large, the denominator
    of the scale is not positive and the function does not return: a large budget is not
    met by the bound on the scale but by the failure of the assertion. *)
Theorem large_k_budget_fails market budget mark_price :
  let amm := market.(Market.amm) in
  let inverse := MARK_PRICE_TIMES_AMM_TO_QUOTE_PRECISION_RATIO_I128
                 / amm.(AMM.net_base_asset_amount) in
  0 < amm.(AMM.curve_update_intensity) → 0 < budget → 0 ≤ mark_price →
  0 < amm.(AMM.net_base_asset_amount) → 0 ≤ amm.(AMM.base_asset_reserve) →
  mark_price / budget
    ≤ inverse + amm.(AMM.base_asset_reserve) * inverse / amm.(AMM.net_base_asset_amount) →
  is_ok (calculate_budgeted_k_scale market budget mark_price) = false.
Proof.
  cbv zeta. intros Hi Hb Hm Hn Hbase Hle.
  destruct (calculate_budgeted_k_scale market budget mark_price) as [r| |] eqn:Hok;
    [exfalso|done..].
  unfold calculate_budgeted_k_scale in Hok. cbv zeta in Hok.
  apply bind_ok in Hok as (i & Hcast & Hok). apply cast_ok in Hcast as [-> _].
  destruct (Z.eqb_spec (Z.min (AMM.curve_update_intensity (Market.amm market)) 100) 0); [lia|].
  set (amm := Market.amm market) in *. set (net := AMM.net_base_asset_amount amm) in *.
  set (C := MARK_PRICE_TIMES_AMM_TO_QUOTE_PRECISION_RATIO_I128) in *.
  assert (0 < C) as HC by (subst C; vm_compute; reflexivity).
  apply bind_ok in Hok as (mp & H & Hok). apply cast_ok in H as [-> _].
  apply bind_ok in Hok as (m & H & Hok). apply cdiv_ok in H as (_ & -> & _).
  apply bind_ok in Hok as (o & H & Hok). apply cdiv_ok in H as (_ & -> & _).
  apply bind_ok in Hok as (base & H & Hok). apply cast_ok in H as [-> _].
  apply bind_ok in Hok as (s & H & Hok). apply cadd_ok in H as [-> _].
  apply bind_ok in Hok as (d & H & Hok). apply cdiv_ok in H as (Hb0 & -> & _).
  apply bind_ok in Hok as (nu & H & Hok). apply cadd_ok in H as [-> _].
  apply bind_ok in Hok as (m' & H & Hok). apply csub_ok in H as [-> _].
  apply bind_ok in Hok as (x & H & Hok). apply cmul_ok in H as [-> _].
  apply bind_ok in Hok as (x & H & Hok). apply cdiv_ok in H as (_ & -> & _).
  apply bind_ok in Hok as (de & H & Hok). apply csub_ok in H as [-> _].
  unfold int_quot in Hok. cbn [is_signed] in Hok.
  assert (0 ≤ C / net) by (apply Z.div_pos; lia).
  rewrite !Z.quot_div_nonneg in Hok by nia.
  assert (0 ≤ mark_price / budget) by (apply Z.div_pos; lia).
  assert (0 ≤ C / AMM.base_asset_reserve amm) by (apply Z.div_pos; lia).
  destruct (Z.ltb_spec (mark_price / budget + C / net + C / AMM.base_asset_reserve amm) 0);
    [lia|]. cbn [andb] in Hok. cbv iota in Hok.
  apply bind_ok in Hok as ([] & Hassert & _). apply rust_assert_ok in Hassert. bool_prop. lia.
Qed.

Section Properties.
Context `{BnLaws}.

(** A new k is at least 97.5% of the old one, the base reserve is scaled in the
    same ratio, and the reserves multiply to the new invariant, rounded down by
    less than one unit of the quote reserve. *)
Theorem get_update_k_result_ok market k r :
  Market.typed market → bn_range U192 k →
  get_update_k_result market k = Ok r →
  let amm := market.(Market.amm) in
  let ratio := k * 100000000 / amm.(AMM.sqrt_k) in
  r.(UpdateKResult.sqrt_k) = k ∧ has_type U128 k
  ∧ 975 * amm.(AMM.sqrt_k) ≤ 1000 * k
  ∧ r.(UpdateKResult.base_asset_reserve)
    = amm.(AMM.base_asset_reserve) * ratio / 100000000
  ∧ 0 < r.(UpdateKResult.base_asset_reserve)
  ∧ (let b := r.(UpdateKResult.base_asset_reserve) in
     let q := r.(UpdateKResult.quote_asset_reserve) in
     b * q ≤ k * k < b * (q + 1)).
Proof.
  intros Hty Hk Hok amm ratio. unfold get_update_k_result in Hok. cbv zeta in Hok.
  fold amm in Hok. pose proof (Market.amm_ty _ Hty) as Hamm. fold amm in Hamm.
  destruct Hamm.
  assert (has_type U128 100000000) by done. assert (has_type U128 97500000) by done.
  rewrite !bn_from_spec in Hok by done.
  apply bind_ok in Hok as (x & Hx & Hok). apply bn_mul_ok in Hx as [-> ?]; [|bn_range_tac..].
  apply bind_ok in Hok as (ra & Hr & Hok).
  apply bn_div_ok in Hr as (Hold & -> & ?); [|bn_range_tac..]. fold ratio in Hok, H1.
  destruct (Z.ltb_spec ratio 97500000) as [|Hratio]; [by inv_ok|].
  apply bind_ok in Hok as (k' & Hk' & Hok). apply (proj1 (unwrap_result_ok _ _)) in Hk'.
  apply try_to_u128_ok in Hk' as [-> Hkt]; [|done].
  inv_bn. cbn. split_and!; try done.
  - assert (ratio * AMM.sqrt_k amm ≤ k * 100000000) by (by apply mul_div_le'). nia.
  - rewrite Z.mul_comm. apply mul_div_le'. lia.
  - set (b := AMM.base_asset_reserve amm * ratio / 100000000) in *.
    pose proof (Z.div_mod (k * k) b ltac:(lia)).
    pose proof (Z.mod_pos_bound (k * k) b ltac:(lia)). lia.
Qed.
End Properties.

(** Once the cost of a new k is known, the update itself cannot fail: the market
    is left with the new curve and its terminal reserve. *)
Theorem update_k_after_cost `{BnLib} market r c :
  adjust_k_cost market r = Ok c →
  ∃ market', update_k market r = (market', Ok ())
    ∧ market'.(Market.amm).(AMM.sqrt_k) = r.(UpdateKResult.sqrt_k)
    ∧ market'.(Market.amm).(AMM.base_asset_reserve) = r.(UpdateKResult.base_asset_reserve)
    ∧ market'.(Market.amm).(AMM.quote_asset_reserve) = r.(UpdateKResult.quote_asset_reserve)
    ∧ ∃ base, calculate_swap_output
        (unsigned_abs market.(Market.amm).(AMM.net_base_asset_amount))
        r.(UpdateKResult.base_asset_reserve)
        (net_position_swap_direction market.(Market.amm)) r.(UpdateKResult.sqrt_k)
      = Ok (market'.(Market.amm).(AMM.terminal_quote_asset_reserve), base).
Proof.
  intros Hok. unfold adjust_k_cost in Hok. cbv zeta in Hok.
  apply bind_ok in Hok as ([v p] & _ & Hok).
  unfold update_k in *. cbv zeta in *. cbn -[calculate_swap_output] in *.
  unfold net_position_swap_direction in *. cbn -[calculate_swap_output] in *.
  destruct (calculate_swap_output _ _ _ _) as [[q b]|e|] eqn:Hswap; [|by inv_ok..].
  eexists. split; [done|]. cbn. split_and!; [done..|]. eauto.
Qed.
