(* ===== verification/Repeg.v ===== *)
(** * Repegging (math/repeg.rs, controller/repeg.rs)

    Moving the peg of a market toward its oracle, the cost of it, and the fee
    pool that pays for it. *)

From stdpp Require Import base numbers.
From S2P Require Import Prelude Constants Bn State Value AmmMath Twap Oracle.
From S2P Require Import PositionMath CurveMath.
Local Open Scope Z_scope.

(** ** Definitions: math/repeg.rs *)

Definition total_fee_lower_bound (market : Market) : result Z :=
  let? x := cmul U128 market.(Market.amm).(AMM.total_fee)
              SHARE_OF_FEES_ALLOCATED_TO_CLEARING_HOUSE_NUMERATOR in
  cdiv U128 x SHARE_OF_FEES_ALLOCATED_TO_CLEARING_HOUSE_DENOMINATOR.

Definition calculate_fee_pool (market : Market) : result Z :=
  let? lower_bound := total_fee_lower_bound market in
  let total := market.(Market.amm).(AMM.total_fee_minus_distributions) in
  if lower_bound <? total then csub U128 total lower_bound else Ok 0.

Definition calculate_expected_excess_funding_payment (market : Market)
    (oracle_price mark_price : Z) : result Z :=
  let amm := market.(Market.amm) in
  let? m := cast_to_i128 mark_price in
  let? oracle_mark_spread := csub I128 m oracle_price in
  let? t := cast_to_i128 amm.(AMM.last_mark_price_twap) in
  let? oracle_mark_twap_spread := csub I128 t amm.(AMM.last_oracle_price_twap) in
  let? expected_excess_funding := csub I128 oracle_mark_spread oracle_mark_twap_spread in
  let? p := cdiv I64 TWENTYFOUR_HOUR (Z.max ONE_HOUR amm.(AMM.funding_period)) in
  let? period_adjustment := cast_to_i128 p in
  let? base_asset_amount :=
    cdiv I128 amm.(AMM.net_base_asset_amount) AMM_TO_QUOTE_PRECISION_RATIO_I128 in
  let? a := cdiv I128 expected_excess_funding period_adjustment in
  let? adjusted_excess_funding := cdiv I128 a MARK_PRICE_PRECISION_I128 in
  cmul I128 base_asset_amount adjusted_excess_funding.

Definition calculate_repeg_pool_budget (market : Market) (mark_price : Z)
    (oracle_price_data : OraclePriceData) : result Z :=
  let? fee_pool := calculate_fee_pool market in
  let? expected_excess_funding_payment := calculate_expected_excess_funding_payment market
    oracle_price_data.(OraclePriceData.price) mark_price in
  let? e := cast_to_u128 (Z.max 0 expected_excess_funding_payment) in
  let? a := cdiv U128 e 10 in
  let? b := cdiv U128 fee_pool 100 in
  Ok (Z.min QUOTE_PRECISION (Z.min a b)).

(** The checks of [calculate_repeg_validity] once its prices are known: the
    direction, the profitability and the price impact. *)
Definition repeg_checks (oracle_price terminal_price_before terminal_price_after
    mark_price_after band_bottom band_top : Z) : bool * bool * bool :=
  if terminal_price_after <? oracle_price then
    (negb (terminal_price_after <? terminal_price_before),
     negb (band_bottom <? terminal_price_after),
     negb (band_top <? mark_price_after))
  else if oracle_price <? terminal_price_after then
    (negb (terminal_price_before <? terminal_price_after),
     negb (terminal_price_after <? band_top),
     negb (mark_price_after <? band_bottom))
  else (true, true, true).

Section Math.
Context `{BnLib}.

Definition calculate_repeg_validity (market : Market) (oracle_price_data : OraclePriceData)
    (oracle_is_valid : bool) (terminal_price_before : Z)
    : result (bool * bool * bool * bool) :=
  let amm := market.(Market.amm) in
  let oracle_conf := oracle_price_data.(OraclePriceData.confidence) in
  let? oracle_price_u128 := cast_to_u128 oracle_price_data.(OraclePriceData.price) in
  let? ' (terminal_price_after, _, _) := calculate_terminal_price_and_reserves market in
  if oracle_is_valid then
    let? mark_price_after := calculate_price amm.(AMM.quote_asset_reserve)
      amm.(AMM.base_asset_reserve) amm.(AMM.peg_multiplier) in
    let? oracle_conf_band_top := cadd U128 oracle_price_u128 oracle_conf in
    let? oracle_conf_band_bottom := csub U128 oracle_price_u128 oracle_conf in
    let '(direction_valid, profitability_valid, price_impact_valid) :=
      repeg_checks oracle_price_u128 terminal_price_before terminal_price_after
        mark_price_after oracle_conf_band_bottom oracle_conf_band_top in
    Ok (true, direction_valid, profitability_valid, price_impact_valid)
  else Ok (false, false, false, false).

Definition calculate_repeg_validity_from_oracle_account `{OracleAccounts}
    (market : Market) (oracle_account_info : AccountInfo) (terminal_price_before clock_slot : Z)
    (oracle_guard_rails : OracleGuardRails) : result (bool * bool * bool * bool) :=
  let amm := market.(Market.amm) in
  let? oracle_price_data := amm_get_oracle_price amm oracle_account_info clock_slot in
  let? oracle_is_valid := is_oracle_valid amm oracle_price_data
    oracle_guard_rails.(OracleGuardRails.validity) in
  calculate_repeg_validity market oracle_price_data oracle_is_valid terminal_price_before.

Definition calculate_peg_from_target_price (quote_asset_reserve base_asset_reserve
    target_price : Z) : result Z :=
  let? x := bn_mul U192 (bn_from U192 target_price) (bn_from U192 base_asset_reserve) in
  let? x := bn_div U192 x (bn_from U192 quote_asset_reserve) in
  let? x := bn_add U192 x (bn_from U192 (PRICE_TO_PEG_PRECISION_RATIO / 2)) in
  let? x := bn_div U192 x (bn_from U192 PRICE_TO_PEG_PRECISION_RATIO) in
  try_to_u128 U192 x.

(** The weight of the oracle price, out of 100: it falls with the square of the
    delay. *)
Definition oracle_price_weight (delay : Z) : result Z :=
  let? half := cdiv I64 delay 2 in
  let? penalty := cmul I64 delay (Z.max 1 half) in
  let? w := csub I64 100 (Z.max 0 penalty) in
  cast_to_u128 (Z.max 0 w).

Definition calculate_amm_target_price (amm : AMM) (current_price : Z)
    (oracle_price_data : OraclePriceData) : result Z :=
  let? n := normalise_oracle_price amm oracle_price_data (Some current_price) in
  let? oracle_price_normalised := cast_to_u128 n in
  let? weight := oracle_price_weight oracle_price_data.(OraclePriceData.delay) in
  if 0 <? weight then
    let? current_price_weight := csub U128 100 weight in
    let? a := cmul U128 oracle_price_normalised weight in
    let? a := cdiv U128 a 100 in
    let? b := cmul U128 current_price current_price_weight in
    let? b := cdiv U128 b 100 in
    cadd U128 a b
  else Ok current_price.

Definition set_peg (market : Market) (peg : Z) : Market :=
  market <| Market.amm := market.(Market.amm) <| AMM.peg_multiplier := peg |> |>.

Definition adjust_peg_cost (market : Market) (new_peg_candidate : Z)
    : result (Market * Z) :=
  let amm := market.(Market.amm) in
  if negb (new_peg_candidate =? amm.(AMM.peg_multiplier)) then
    let? ' (current_net_market_value, _) :=
      _calculate_base_asset_value_and_pnl amm.(AMM.net_base_asset_amount) 0 amm in
    let market_clone := set_peg market new_peg_candidate in
    let amm := market_clone.(Market.amm) in
    let? ' (_, cost) :=
      _calculate_base_asset_value_and_pnl amm.(AMM.net_base_asset_amount)
        current_net_market_value amm in
    Ok (market_clone, cost)
  else Ok (market, 0).

(** [full_budget_peg] of [calculate_budgeted_peg] *)
Definition calculate_full_budget_peg (amm : AMM) (terminal_quote_reserves budget
    optimal_peg : Z) : result Z :=
  let current_peg := amm.(AMM.peg_multiplier) in
  let delta_peg_positive := terminal_quote_reserves <? amm.(AMM.quote_asset_reserve) in
  let optimal_peg_positive := current_peg <? optimal_peg in
  let use_optimal_peg :=
    (amm.(AMM.quote_asset_reserve) =? terminal_quote_reserves)
    || negb (eqb delta_peg_positive optimal_peg_positive) in
  if use_optimal_peg then Ok optimal_peg
  else
    let? delta_quote_asset_reserves :=
      if delta_peg_positive
      then csub U128 amm.(AMM.quote_asset_reserve) terminal_quote_reserves
      else csub U128 terminal_quote_reserves amm.(AMM.quote_asset_reserve) in
    let? x := cmul U128 budget MARK_PRICE_PRECISION in
    let? d := cdiv U128 delta_quote_asset_reserves AMM_TO_QUOTE_PRECISION_RATIO in
    let? delta_peg_multiplier := cdiv U128 x d in
    let? delta_peg_precision :=
      cdiv U128 delta_peg_multiplier (MARK_PRICE_PRECISION / PEG_PRECISION) in
    if delta_peg_positive then cadd U128 current_peg delta_peg_precision
    else csub U128 current_peg delta_peg_precision.

Definition calculate_budgeted_peg (market : Market) (terminal_quote_reserves budget
    optimal_peg : Z) : result (Z * Z * Market) :=
  let amm := market.(Market.amm) in
  let? curve_update_intensity :=
    cast_to_i128 (Z.min amm.(AMM.curve_update_intensity) 100) in
  let current_peg := amm.(AMM.peg_multiplier) in
  if (optimal_peg =? current_peg) || (curve_update_intensity =? 0) then
    Ok (current_peg, 0, market)
  else
    let? full_budget_peg :=
      calculate_full_budget_peg amm terminal_quote_reserves budget optimal_peg in
    let candidate_peg :=
      if ((optimal_peg <? current_peg) && (full_budget_peg <? optimal_peg))
         || ((current_peg <? optimal_peg) && (optimal_peg <? full_budget_peg))
      then optimal_peg else full_budget_peg in
    let? ' (repegged_market, candidate_cost) := adjust_peg_cost market candidate_peg in
    Ok (candidate_peg, candidate_cost, repegged_market).

Definition calculate_prepeg_market (market : Market) (oracle_price_data : OraclePriceData)
    (fee_budget : Z) : result AMM :=
  let amm := market.(Market.amm) in
  let? mark := mark_price amm in
  let? target_price := calculate_amm_target_price amm mark oracle_price_data in
  let? optimal_peg := calculate_peg_from_target_price amm.(AMM.quote_asset_reserve)
    amm.(AMM.base_asset_reserve) target_price in
  let? ' (_, _, repegged_market) := calculate_budgeted_peg market
    amm.(AMM.terminal_quote_asset_reserve) fee_budget optimal_peg in
  Ok repegged_market.(Market.amm).
End Math.

(** ** Definitions: controller/repeg.rs *)

Definition set_total_fee_minus_distributions (market : Market) (x : Z) : Market :=
  market <| Market.amm := market.(Market.amm)
    <| AMM.total_fee_minus_distributions := x |> |>.

Definition apply_cost_to_market (market : Market) (cost : Z) : result (Market * bool) :=
  let total := market.(Market.amm).(AMM.total_fee_minus_distributions) in
  if 0 <? cost then
    let? new_total_fee_minus_distributions := csub U128 total (unsigned_abs cost) in
    let? lower_bound := total_fee_lower_bound market in
    if lower_bound <? new_total_fee_minus_distributions then
      Ok (set_total_fee_minus_distributions market new_total_fee_minus_distributions, true)
    else Ok (market, false)
  else
    let? x := cadd U128 total (unsigned_abs cost) in
    Ok (set_total_fee_minus_distributions market x, true).

Section Controller.
Context `{BnLib}.

Definition repeg `{OracleAccounts} (market : Market) (price_oracle : AccountInfo)
    (new_peg_candidate clock_slot : Z) (oracle_guard_rails : OracleGuardRails)
    : result (Market * Z) :=
  if new_peg_candidate =? market.(Market.amm).(AMM.peg_multiplier)
  then Err InvalidRepegRedundant
  else
    let? ' (terminal_price_before, _, _) := calculate_terminal_price_and_reserves market in
    let? ' (repegged_market, adjustment_cost) := adjust_peg_cost market new_peg_candidate in
    let? ' (oracle_is_valid, direction_valid, profitability_valid, price_impact_valid) :=
      calculate_repeg_validity_from_oracle_account repegged_market price_oracle
        terminal_price_before clock_slot oracle_guard_rails in
    if negb oracle_is_valid then Err InvalidOracle
    else if negb direction_valid then Err InvalidRepegDirection
    else if negb profitability_valid then Err InvalidRepegProfitability
    else if negb price_impact_valid then Err InvalidRepegProfitability
    else
      let? ' (market, cost_applied) := apply_cost_to_market market adjustment_cost in
      if (cost_applied : bool) then Ok (set_peg market new_peg_candidate, adjustment_cost)
      else Err InvalidRepegProfitability.

(** The new k of a scale. *)
Definition scale_sqrt_k (market : Market) (scale : Z * Z) : result Z :=
  let? x := bn_mul U192 (bn_from U192 market.(Market.amm).(AMM.sqrt_k))
              (bn_from U192 scale.1) in
  bn_div U192 x (bn_from U192 scale.2).

(** The branch of [prepeg] whose optimal peg is over budget: lower k first, then
    repeg with what it saves. *)
Definition prepeg_over_budget (market : Market) (mark_price repeg_budget optimal_peg
    optimal_peg_cost : Z) : result (Market * Z * Z) :=
  let? b := cast_to_i128 repeg_budget in
  let? deficit := csub I128 optimal_peg_cost b in
  let? scale := calculate_budgeted_k_scale market (wrap I128 (- deficit)) mark_price in
  let? new_sqrt_k := scale_sqrt_k market scale in
  let? update_k_result := get_update_k_result market new_sqrt_k in
  let? adjustment_cost := adjust_k_cost market update_k_result in
  let '(market, r) := update_k market update_k_result in
  let? ' () := r in
  let? ' () := rust_assert (adjustment_cost <=? 0) in
  let? budget := cadd U128 repeg_budget (unsigned_abs adjustment_cost) in
  let? ' (new_peg_candidate, prepeg_cost, _) :=
    calculate_budgeted_peg market market.(Market.amm).(AMM.terminal_quote_asset_reserve)
      budget optimal_peg in
  Ok (market, new_peg_candidate, prepeg_cost).

Definition prepeg (market : Market) (mark_price : Z) (oracle_price_data : OraclePriceData)
    (fee_budget : Z) : result (Market * Z) :=
  let amm := market.(Market.amm) in
  let? curve_update_intensity :=
    cast_to_i128 (Z.min amm.(AMM.curve_update_intensity) 100) in
  if curve_update_intensity =? 0 then Ok (market, 0)
  else
    let? target_price := calculate_amm_target_price amm mark_price oracle_price_data in
    let? optimal_peg := calculate_peg_from_target_price amm.(AMM.quote_asset_reserve)
      amm.(AMM.base_asset_reserve) target_price in
    let repeg_budget := fee_budget in
    let? ' (_, optimal_peg_cost) := adjust_peg_cost market optimal_peg in
    let? ' (market, new_peg, prepeg_cost) :=
      if (0 <? optimal_peg_cost) && (repeg_budget <? unsigned_abs optimal_peg_cost)
      then prepeg_over_budget market mark_price repeg_budget optimal_peg optimal_peg_cost
      else Ok (market, optimal_peg, optimal_peg_cost) in
    let? ' (market, cost_applied) := apply_cost_to_market market prepeg_cost in
    Ok (if (cost_applied : bool) then set_peg market new_peg else market, prepeg_cost).
End Controller.

(** ** Properties *)

(** A cost is applied only when the fees that stay are above the lower bound; it
    moves the fees by exactly its amount. *)
Theorem apply_cost_to_market_ok market cost market' applied :
  apply_cost_to_market market cost = Ok (market', applied) →
  let total := market.(Market.amm).(AMM.total_fee_minus_distributions) in
  if applied then
    market' = set_total_fee_minus_distributions market (total - cost)
    ∧ (0 < cost → ∃ lower_bound,
         total_fee_lower_bound market = Ok lower_bound ∧ lower_bound < total - cost)
  else market' = market ∧ 0 < cost.
Proof.
  intros Hok total. unfold apply_cost_to_market in Hok. cbv zeta in Hok. fold total in Hok.
  unfold unsigned_abs in Hok. destruct (Z.ltb_spec 0 cost).
  - rewrite Z.abs_eq in Hok by lia.
    apply bind_ok in Hok as (x & Hx & Hok). apply csub_ok in Hx as [-> _].
    apply bind_ok in Hok as (lb & Hlb & Hok).
    destruct (Z.ltb_spec lb (total - cost)); apply Ok_inj in Hok; simplify_eq; [|done].
    split; [done|]. eauto.
  - rewrite Z.abs_neq in Hok by lia.
    apply bind_ok in Hok as (x & Hx & Hok). apply cadd_ok in Hx as [-> _].
    apply Ok_inj in Hok; simplify_eq. split; [by rewrite Z.add_opp_r|lia].
Qed.

(** The lower bound is half of the fees. *)
Lemma total_fee_lower_bound_ok market lb :
  total_fee_lower_bound market = Ok lb → lb = market.(Market.amm).(AMM.total_fee) / 2.
Proof.
  unfold total_fee_lower_bound. unfold_consts. intros. inv_ok.
  by rewrite Z.mul_1_r.
Qed.

Section Properties.
Context `{BnLaws}.

(** What [adjust_peg_cost] does: it changes the peg of a copy, and the cost is the
    change of the value of the users' net position. *)
Lemma adjust_peg_cost_ok market peg market' cost :
  adjust_peg_cost market peg = Ok (market', cost) →
  market' = set_peg market peg.
Proof.
  intros Hok. unfold adjust_peg_cost in Hok. cbv zeta in Hok.
  destruct (Z.eqb_spec peg (AMM.peg_multiplier (Market.amm market))) as [->|]; inv_ok.
  - destruct market' as [?? ? [] ]; reflexivity.
  - done.
Qed.

Lemma div_mono_peg a p p' : 0 ≤ a → p ≤ p' →
  a * p / AMM_TIMES_PEG_TO_QUOTE_PRECISION_RATIO
  ≤ a * p' / AMM_TIMES_PEG_TO_QUOTE_PRECISION_RATIO.
Proof. intros. apply Z.div_le_mono; [done|]. nia. Qed.

(** Raising the peg costs the protocol when the users are net long and pays it
    when they are net short; lowering the peg does the reverse; a balanced market
    repegs for free. *)
Theorem adjust_peg_cost_sign market peg market' cost :
  Market.typed market → has_type U128 peg →
  adjust_peg_cost market peg = Ok (market', cost) →
  let amm := market.(Market.amm) in
  (amm.(AMM.net_base_asset_amount) = 0 → cost = 0)
  ∧ (0 < amm.(AMM.net_base_asset_amount) →
     (amm.(AMM.peg_multiplier) ≤ peg → 0 ≤ cost) ∧ (peg ≤ amm.(AMM.peg_multiplier) → cost ≤ 0))
  ∧ (amm.(AMM.net_base_asset_amount) < 0 →
     (amm.(AMM.peg_multiplier) ≤ peg → cost ≤ 0) ∧ (peg ≤ amm.(AMM.peg_multiplier) → 0 ≤ cost)).
Proof.
  intros Hty Hpeg Hok amm. pose proof (Market.amm_ty _ Hty) as Hamm. fold amm in Hamm.
  unfold adjust_peg_cost in Hok. cbv zeta in Hok. fold amm in Hok.
  destruct (Z.eqb_spec peg (AMM.peg_multiplier amm)); [inv_ok; lia|]. cbn [negb] in Hok.
  apply bind_ok in Hok as ([v p] & Hv & Hok). apply bind_ok in Hok as ([v' c] & Hv' & Hok).
  apply Ok_inj in Hok; simplify_eq. cbn in Hv'. fold amm in Hv'.
  assert (AMM.typed (amm <| AMM.peg_multiplier := peg |>)) as Hamm'
    by (destruct Hamm; split; cbn; done).
  pose proof (AMM.net_base_asset_amount_ty _ Hamm).
  apply base_asset_value_ok in Hv; [|done..]. apply base_asset_value_ok in Hv'; [|done..].
  cbn in Hv, Hv'. unfold position_pnl in *.
  destruct Hv as [(? & ? & ?)|(Hne & _ & _ & _ & Hv)];
    [destruct Hv' as [(? & ? & ?)|(? & ? & _)]; lia|].
  destruct Hv' as [(? & ? & ?)|(_ & -> & _ & _ & Hv')]; [lia|].
  split; [lia|].
  destruct (Z.ltb_spec 0 (AMM.net_base_asset_amount amm)),
    (Z.leb_spec 0 (AMM.net_base_asset_amount amm)); try lia;
    destruct Hv as [? ->], Hv' as [? ->];
    (split; intros; [|]; try lia); split; intros;
    match goal with
    | |- context [?a * ?p / ?r] =>
        match goal with
        | |- context [a * ?p' / r] =>
            assert_fails (constr_eq p p');
            first [pose proof (div_mono_peg a p p' ltac:(lia) ltac:(lia))
                  |pose proof (div_mono_peg a p' p ltac:(lia) ltac:(lia))]; lia
        end
    end.
Qed.

(** The budgeted peg lies between the current and the optimal peg: a repeg never
    overshoots, whatever its budget, and the market that comes back has that peg
    and nothing else changed. *)
Theorem calculate_budgeted_peg_between market terminal budget optimal peg cost market' :
  Market.typed market → has_type U128 budget → has_type U128 terminal →
  calculate_budgeted_peg market terminal budget optimal = Ok (peg, cost, market') →
  let current := market.(Market.amm).(AMM.peg_multiplier) in
  Z.min current optimal ≤ peg ≤ Z.max current optimal
  ∧ market' = set_peg market peg.
Proof.
  intros Hty Hbud Hterm Hok current. unfold calculate_budgeted_peg in Hok. cbv zeta in Hok.
  fold current in Hok. apply bind_ok in Hok as (i & _ & Hok).
  destruct (Z.eqb_spec optimal current) as [|Hne]; cbn [orb] in Hok;
    [|destruct (i =? 0)].
  1,2: apply Ok_inj in Hok; injection Hok as <- <- <-; (split; [lia|]);
    destruct market as [?? ? [] ]; reflexivity.
  apply bind_ok in Hok as (full & Hfull & Hok).
  apply bind_ok in Hok as ([m c] & Hadj & Hok). apply Ok_inj in Hok; simplify_eq.
  split; [|by eapply adjust_peg_cost_ok]. clear Hadj.
  assert (full = optimal ∨ (current < optimal ∧ current ≤ full)
          ∨ (optimal ≤ current ∧ full ≤ current)) as Hcase.
  { unfold calculate_full_budget_peg in Hfull. cbv zeta in Hfull. fold current in Hfull.
    destruct (_ || _) eqn:Huse; [left; by inv_ok|right].
    apply orb_false_iff in Huse as [_ Hsign]. apply negb_false_iff, eqb_prop in Hsign.
    apply bind_ok in Hfull as (dq & Hdq & Hfull).
    assert (has_type U128 dq) by (clear - Hdq; inv_ok; done). clear Hdq.
    apply bind_ok in Hfull as (x & Hx & Hfull). apply cmul_ok in Hx as [-> Hx].
    apply bind_ok in Hfull as (d & Hd & Hfull). apply cdiv_ok in Hd as (_ & -> & Hd).
    apply bind_ok in Hfull as (dm & Hdm & Hfull). apply cdiv_ok in Hdm as (_ & -> & Hdm).
    apply bind_ok in Hfull as (dp & Hdp & Hfull). apply cdiv_ok in Hdp as (_ & -> & Hdp).
    set (delta := int_quot _ _ (MARK_PRICE_PRECISION / PEG_PRECISION)) in *.
    assert (0 ≤ delta) by (unfold has_type in Hdp; cbn [int_min] in Hdp; lia).
    destruct (Z.ltb_spec terminal (AMM.quote_asset_reserve (Market.amm market)));
      symmetry in Hsign; inv_ok; bool_prop; lia. }
  repeat match goal with
  | |- context [?a <? ?b] => destruct (Z.ltb_spec a b)
  end; cbn [andb orb]; lia.
Qed.

(** The target price of a repeg is an average of the oracle and the mark price,
    rounded down by less than two units. *)
Theorem calculate_amm_target_price_between amm current o target :
  0 ≤ current →
  calculate_amm_target_price amm current o = Ok target →
  ∃ n, normalise_oracle_price amm o (Some current) = Ok n ∧ 0 ≤ n
    ∧ Z.min n current - 1 ≤ target ≤ Z.max n current.
Proof.
  intros Hcur Hok. unfold calculate_amm_target_price in Hok.
  apply bind_ok in Hok as (n & Hn & Hok). apply bind_ok in Hok as (n' & Hn' & Hok).
  apply cast_ok in Hn' as [-> Hn']. exists n. split; [done|].
  assert (0 ≤ n) by int_lia. split; [done|].
  apply bind_ok in Hok as (w & Hw & Hok).
  destruct (Z.ltb_spec 0 w); [|apply Ok_inj in Hok; lia].
  apply bind_ok in Hok as (cw & Hcw & Hok). apply csub_ok in Hcw as [-> Hcw].
  assert (w ≤ 100) by int_lia. clear Hw Hn Hn' Hcw.
  inv_ok. unfold int_quot; cbn [is_signed].
  pose proof (Z.div_mod (n * w) 100). pose proof (Z.mod_pos_bound (n * w) 100).
  pose proof (Z.div_mod (current * (100 - w)) 100).
  pose proof (Z.mod_pos_bound (current * (100 - w)) 100).
  destruct (Z.le_ge_cases n current); [rewrite Z.min_l, Z.max_r by lia|
    rewrite Z.min_r, Z.max_l by lia]; nia.
Qed.

(** The peg of a target price is the exact peg rounded to the nearest unit. *)
Theorem calculate_peg_from_target_price_nearest q b target peg :
  has_type U128 q → has_type U128 b → has_type U128 target →
  calculate_peg_from_target_price q b target = Ok peg →
  0 < q
  ∧ 2 * Z.abs (peg * PRICE_TO_PEG_PRECISION_RATIO - target * b / q)
    ≤ PRICE_TO_PEG_PRECISION_RATIO.
Proof.
  intros Hq Hb Ht Hok. unfold calculate_peg_from_target_price in Hok.
  unfold PRICE_TO_PEG_PRECISION_RATIO in *.
  rewrite !bn_from_spec in Hok by done.
  apply bind_ok in Hok as (x & Hx & Hok). apply bn_mul_ok in Hx as [-> ?]; [|bn_range_tac..].
  apply bind_ok in Hok as (x & Hx & Hok).
  apply bn_div_ok in Hx as (? & -> & ?); [|bn_range_tac..].
  apply bind_ok in Hok as (x & Hx & Hok).
  apply bn_add_ok in Hx as [-> ?]; [|done|by apply u128_bn_range].
  apply bind_ok in Hok as (x & Hx & Hok).
  apply bn_div_ok in Hx as (? & -> & ?); [|done|by apply u128_bn_range].
  apply try_to_u128_ok in Hok as [-> _]; [|done]. split; [done|].
  change (10000000 / 2) with 5000000. set (t := target * b / q) in *.
  pose proof (Z.div_mod (t + 5000000) 10000000 ltac:(lia)).
  pose proof (Z.mod_pos_bound (t + 5000000) 10000000 ltac:(lia)). lia.
Qed.

(** The prices that a valid repeg leaves: either the terminal price is the oracle
    price, or it moved toward the oracle price without entering its confidence band
    and the mark price has not passed the other side of the band. *)
Definition repeg_prices_valid (oracle conf before after mark : Z) : Prop :=
  after = oracle
  ∨ (after < oracle ∧ before ≤ after ≤ oracle - conf ∧ mark ≤ oracle + conf)
  ∨ (oracle < after ∧ oracle + conf ≤ after ≤ before ∧ oracle - conf ≤ mark).

Lemma repeg_checks_valid oracle conf before after mark :
  repeg_checks oracle before after mark (oracle - conf) (oracle + conf) = (true, true, true)
  ↔ repeg_prices_valid oracle conf before after mark.
Proof.
  unfold repeg_checks, repeg_prices_valid.
  repeat match goal with
  | |- context [?a <? ?b] => destruct (Z.ltb_spec a b)
  end; cbn [negb]; split; intros Hv; first [lia | done | simplify_eq; lia].
Qed.

(** A successful repeg used a valid oracle price, moved the terminal price toward
    it as [repeg_prices_valid] says, set the peg, and paid its cost out of the fees
    above the lower bound. *)
Theorem repeg_ok `{OracleAccounts} market acc peg slot rails market' cost :
  repeg market acc peg slot rails = Ok (market', cost) →
  let total := market.(Market.amm).(AMM.total_fee_minus_distributions) in
  peg ≠ market.(Market.amm).(AMM.peg_multiplier)
  ∧ market' = set_peg (set_total_fee_minus_distributions market (total - cost)) peg
  ∧ (0 < cost → ∃ lower_bound,
       total_fee_lower_bound market = Ok lower_bound ∧ lower_bound < total - cost)
  ∧ adjust_peg_cost market peg = Ok (set_peg market peg, cost)
  ∧ ∃ o before b1 b2 after a1 a2 mark,
    amm_get_oracle_price (set_peg market peg).(Market.amm) acc slot = Ok o
    ∧ is_oracle_valid (set_peg market peg).(Market.amm) o
        rails.(OracleGuardRails.validity) = Ok true
    ∧ calculate_terminal_price_and_reserves market = Ok (before, b1, b2)
    ∧ calculate_terminal_price_and_reserves (set_peg market peg) = Ok (after, a1, a2)
    ∧ mark_price (set_peg market peg).(Market.amm) = Ok mark
    ∧ repeg_prices_valid o.(OraclePriceData.price) o.(OraclePriceData.confidence)
        before after mark.
Proof.
  intros Hok total. unfold repeg in Hok.
  destruct (Z.eqb_spec peg (AMM.peg_multiplier (Market.amm market))); [by inv_ok|].
  apply bind_ok in Hok as ([[before b1] b2] & Hbefore & Hok).
  apply bind_ok in Hok as ([m c] & Hadj & Hok).
  pose proof (adjust_peg_cost_ok _ _ _ _ Hadj) as ->.
  apply bind_ok in Hok as ([[[valid d] p] i] & Hval & Hok).
  unfold calculate_repeg_validity_from_oracle_account in Hval.
  apply bind_ok in Hval as (o & Ho & Hval). apply bind_ok in Hval as (v & Hv & Hval).
  unfold calculate_repeg_validity in Hval. cbv zeta in Hval.
  apply bind_ok in Hval as (op & Hop & Hval). apply cast_ok in Hop as [-> _].
  apply bind_ok in Hval as ([[after a1] a2] & Hafter & Hval).
  destruct v; [|apply Ok_inj in Hval; simplify_eq; by simpl in Hok].
  apply bind_ok in Hval as (mark & Hmark & Hval).
  apply bind_ok in Hval as (top & Htop & Hval). apply cadd_ok in Htop as [-> _].
  apply bind_ok in Hval as (bot & Hbot & Hval). apply csub_ok in Hbot as [-> _].
  destruct (repeg_checks _ _ _ _ _ _) as [[d' p'] i'] eqn:Hchecks.
  apply Ok_inj in Hval. simplify_eq.
  destruct d, p, i; simpl in Hok; try discriminate.
  apply repeg_checks_valid in Hchecks.
  apply bind_ok in Hok as ([m' applied] & Hcost & Hok).
  apply apply_cost_to_market_ok in Hcost. destruct applied; [|by inv_ok].
  destruct Hcost as [-> Hlb]. apply Ok_inj in Hok. simplify_eq.
  split_and!; [done..|]. do 8 eexists. split_and!; eassumption || done.
Qed.
End Properties.
