(* ===== verification/AmmController.v ===== *)
(** * Swaps and curve moves (controller/amm.rs) *)

From stdpp Require Import base numbers.
From S2P Require Import Prelude Constants Bn State Value AmmMath Twap.
From S2P Require Import PositionMath CurveMath Repeg.
Local Open Scope Z_scope.

(** ** Definitions *)

Definition opposite (d : SwapDirection) : SwapDirection :=
  match d with Add => Remove | Remove => Add end.

Definition calculate_quote_asset_amount_surplus (quote_asset_reserve_before
    quote_asset_reserve_after : Z) (swap_direction : SwapDirection)
    (peg_multiplier initial_quote_asset_amount : Z) (round_down : bool) : result Z :=
  let? quote_asset_reserve_change :=
    match swap_direction with
    | Add => csub U128 quote_asset_reserve_before quote_asset_reserve_after
    | Remove => csub U128 quote_asset_reserve_after quote_asset_reserve_before
    end in
  let? actual_quote_asset_amount :=
    reserve_to_asset_amount quote_asset_reserve_change peg_multiplier in
  let? actual_quote_asset_amount :=
    if round_down then cadd U128 actual_quote_asset_amount 1
    else Ok actual_quote_asset_amount in
  if initial_quote_asset_amount <? actual_quote_asset_amount
  then csub U128 actual_quote_asset_amount initial_quote_asset_amount
  else csub U128 initial_quote_asset_amount actual_quote_asset_amount.

Definition set_reserves (amm : AMM) (base_asset_reserve quote_asset_reserve : Z) : AMM :=
  amm <| AMM.base_asset_reserve := base_asset_reserve |>
      <| AMM.quote_asset_reserve := quote_asset_reserve |>.

Section Swaps.
Context `{BnLib}.

(** The results are the new base and quote reserves, the signed base amount and
    the surplus. *)
Definition calculate_quote_swap_output_without_spread (amm : AMM) (quote_asset_amount : Z)
    (direction : SwapDirection) : result (Z * Z * Z * Z) :=
  let? quote_asset_reserve_amount :=
    asset_to_reserve_amount quote_asset_amount amm.(AMM.peg_multiplier) in
  if quote_asset_reserve_amount <? amm.(AMM.minimum_quote_asset_trade_size)
  then Err TradeSizeTooSmall
  else
    let? ' (new_base_asset_reserve, new_quote_asset_reserve) :=
      calculate_swap_output quote_asset_reserve_amount amm.(AMM.quote_asset_reserve)
        direction amm.(AMM.sqrt_k) in
    let? i := cast_to_i128 amm.(AMM.base_asset_reserve) in
    let? n := cast I128 new_base_asset_reserve in
    let? base_asset_amount := csub I128 i n in
    Ok (new_base_asset_reserve, new_quote_asset_reserve, base_asset_amount, 0).

Definition calculate_quote_swap_output_with_spread (amm : AMM) (quote_asset_amount : Z)
    (direction : SwapDirection) : result (Z * Z * Z * Z) :=
  let? quote_asset_reserve_amount :=
    asset_to_reserve_amount quote_asset_amount amm.(AMM.peg_multiplier) in
  if quote_asset_reserve_amount <? amm.(AMM.minimum_quote_asset_trade_size)
  then Err TradeSizeTooSmall
  else
    let? ' (base_asset_reserve_with_spread, quote_asset_reserve_with_spread) :=
      calculate_spread_reserves amm
        (match direction with Add => Long | Remove => Short end) in
    let? ' (new_base_asset_reserve_with_spread, _) :=
      calculate_swap_output quote_asset_reserve_amount quote_asset_reserve_with_spread
        direction amm.(AMM.sqrt_k) in
    let? i := cast_to_i128 base_asset_reserve_with_spread in
    let? n := cast I128 new_base_asset_reserve_with_spread in
    let? base_asset_amount_with_spread := csub I128 i n in
    let? ' (new_base_asset_reserve, new_quote_asset_reserve) :=
      calculate_swap_output quote_asset_reserve_amount amm.(AMM.quote_asset_reserve)
        direction amm.(AMM.sqrt_k) in
    let? ' (quote_asset_reserve_if_closed, _) :=
      calculate_swap_output (unsigned_abs base_asset_amount_with_spread)
        new_base_asset_reserve direction amm.(AMM.sqrt_k) in
    let? quote_asset_amount_surplus :=
      calculate_quote_asset_amount_surplus new_quote_asset_reserve
        quote_asset_reserve_if_closed direction amm.(AMM.peg_multiplier)
        quote_asset_amount false in
    Ok (new_base_asset_reserve, new_quote_asset_reserve, base_asset_amount_with_spread,
        quote_asset_amount_surplus).

Definition swap_quote_asset (amm : AMM) (quote_asset_amount : Z)
    (direction : SwapDirection) (now : Z) (precomputed_mark_price : option Z)
    (use_spread : bool) : result (AMM * (Z * Z)) :=
  let? ' (amm, _) := update_mark_twap amm now precomputed_mark_price in
  let? ' (new_base_asset_reserve, new_quote_asset_reserve, base_asset_amount,
          quote_asset_amount_surplus) :=
    if use_spread && (0 <? amm.(AMM.base_spread))
    then calculate_quote_swap_output_with_spread amm quote_asset_amount direction
    else calculate_quote_swap_output_without_spread amm quote_asset_amount direction in
  Ok (set_reserves amm new_base_asset_reserve new_quote_asset_reserve,
      (base_asset_amount, quote_asset_amount_surplus)).

Definition calculate_base_swap_output_without_spread (amm : AMM)
    (base_asset_swap_amount : Z) (direction : SwapDirection) : result (Z * Z * Z * Z) :=
  let? ' (new_quote_asset_reserve, new_base_asset_reserve) :=
    calculate_swap_output base_asset_swap_amount amm.(AMM.base_asset_reserve)
      direction amm.(AMM.sqrt_k) in
  let? quote_asset_amount :=
    calculate_quote_asset_amount_swapped amm.(AMM.quote_asset_reserve)
      new_quote_asset_reserve direction amm.(AMM.peg_multiplier) in
  Ok (new_base_asset_reserve, new_quote_asset_reserve, quote_asset_amount, 0).

Definition calculate_base_swap_output_with_spread (amm : AMM)
    (base_asset_swap_amount : Z) (direction : SwapDirection) : result (Z * Z * Z * Z) :=
  let? ' (base_asset_reserve_with_spread, quote_asset_reserve_with_spread) :=
    calculate_spread_reserves amm
      (match direction with Add => Short | Remove => Long end) in
  let? ' (new_quote_asset_reserve_with_spread, _) :=
    calculate_swap_output base_asset_swap_amount base_asset_reserve_with_spread
      direction amm.(AMM.sqrt_k) in
  let? quote_asset_amount :=
    calculate_quote_asset_amount_swapped quote_asset_reserve_with_spread
      new_quote_asset_reserve_with_spread direction amm.(AMM.peg_multiplier) in
  let? ' (new_quote_asset_reserve, new_base_asset_reserve) :=
    calculate_swap_output base_asset_swap_amount amm.(AMM.base_asset_reserve)
      direction amm.(AMM.sqrt_k) in
  let? quote_asset_amount_surplus :=
    calculate_quote_asset_amount_surplus new_quote_asset_reserve
      amm.(AMM.quote_asset_reserve) (opposite direction) amm.(AMM.peg_multiplier)
      quote_asset_amount (bool_decide (direction = Remove)) in
  Ok (new_base_asset_reserve, new_quote_asset_reserve, quote_asset_amount,
      quote_asset_amount_surplus).

Definition swap_base_asset (amm : AMM) (base_asset_swap_amount : Z)
    (direction : SwapDirection) (now : Z) (precomputed_mark_price : option Z)
    (use_spread : bool) : result (AMM * (Z * Z)) :=
  let? ' (amm, _) := update_mark_twap amm now precomputed_mark_price in
  let? ' (new_base_asset_reserve, new_quote_asset_reserve, quote_asset_amount,
          quote_asset_amount_surplus) :=
    if use_spread && (0 <? amm.(AMM.base_spread))
    then calculate_base_swap_output_with_spread amm base_asset_swap_amount direction
    else calculate_base_swap_output_without_spread amm base_asset_swap_amount direction in
  Ok (set_reserves amm new_base_asset_reserve new_quote_asset_reserve,
      (quote_asset_amount, quote_asset_amount_surplus)).

(** The [budget] of [formulaic_update_k]: [abs] of [i64] wraps on the minimum, which
    a half never is. *)
Definition update_k_budget (net_revenue_since_last_funding funding_imbalance_cost : Z)
    : result Z :=
  if funding_imbalance_cost <? 0 then
    let? h := cdiv I64 funding_imbalance_cost 2 in
    Ok (wrap I64 (Z.abs h))
  else if net_revenue_since_last_funding <? funding_imbalance_cost then
    let? d := csub I64 (Z.max 0 net_revenue_since_last_funding) funding_imbalance_cost in
    cdiv I64 d 2
  else Ok 0.

Definition formulaic_update_k (market : Market) (funding_imbalance_cost mark_price : Z)
    : result Market :=
  let? funding_imbalance_cost_i64 := cast_to_i64 funding_imbalance_cost in
  let? budget := update_k_budget
    market.(Market.amm).(AMM.net_revenue_since_last_funding) funding_imbalance_cost_i64 in
  if negb (budget =? 0) then
    let? b := cast_to_i128 budget in
    let? scale := calculate_budgeted_k_scale market b mark_price in
    let? new_sqrt_k := scale_sqrt_k market scale in
    let? update_k_result := get_update_k_result market new_sqrt_k in
    let? adjustment_cost := adjust_k_cost market update_k_result in
    let? ' (market, cost_applied) := apply_cost_to_market market adjustment_cost in
    if (cost_applied : bool) then
      let '(market, r) := update_k market update_k_result in
      let? ' () := r in
      Ok market
    else Ok market
  else Ok market.

Definition move_price (amm : AMM) (base_asset_reserve quote_asset_reserve : Z)
    : result AMM :=
  let amm := set_reserves amm base_asset_reserve quote_asset_reserve in
  let? k := bn_mul U256 (bn_from U256 base_asset_reserve)
              (bn_from U256 quote_asset_reserve) in
  let? sqrt_k := try_to_u128 U256 (bn_integer_sqrt U256 k) in
  Ok (amm <| AMM.sqrt_k := sqrt_k |>).

Definition move_to_price (amm : AMM) (target_price : Z) : result AMM :=
  let sqrt_k := bn_from U256 amm.(AMM.sqrt_k) in
  let? k := bn_mul U256 sqrt_k sqrt_k in
  let? x := bn_mul U256 k (bn_from U256 amm.(AMM.peg_multiplier)) in
  let? x := bn_mul U256 x (bn_from U256 PRICE_TO_PEG_PRECISION_RATIO) in
  let? new_base_asset_amount_squared := bn_div U256 x (bn_from U256 target_price) in
  let new_base_asset_amount := bn_integer_sqrt U256 new_base_asset_amount_squared in
  let? new_quote_asset_amount := bn_div U256 k new_base_asset_amount in
  let? b := try_to_u128 U256 new_base_asset_amount in
  let? q := try_to_u128 U256 new_quote_asset_amount in
  Ok (set_reserves amm b q).
End Swaps.

(** ** Properties *)

Lemma u128_mul_bn a b : has_type U128 a → has_type U128 b → bn_range U256 (a * b).
Proof.
  unfold has_type, bn_range. cbn [int_min int_max bn_modulus]. intros. split; [nia|].
  assert (a * b ≤ 340282366920938463463374607431768211455 * 340282366920938463463374607431768211455)
    by (apply Z.mul_le_mono_nonneg; lia). lia.
Qed.

(** The mark averages are all that [update_mark_twap] writes. *)
Lemma update_mark_twap_frame `{BnLib} amm now p amm' mid :
  update_mark_twap amm now p = Ok (amm', mid) →
  ∃ mark bid ask,
    amm' = amm <| AMM.last_mark_price_twap := mark |> <| AMM.last_bid_price_twap := bid |>
               <| AMM.last_ask_price_twap := ask |> <| AMM.last_mark_price_twap_ts := now |>
    ∧ has_type U128 mark ∧ has_type U128 bid ∧ has_type U128 ask.
Proof.
  intros Hok. unfold update_mark_twap in Hok.
  apply bind_ok in Hok as (m & _ & Hok). apply bind_ok in Hok as ([b a] & _ & Hok).
  apply bind_ok in Hok as (mt & Hm & Hok). apply calculate_new_twap_between in Hm as [_ ?].
  apply bind_ok in Hok as (bt & Hb & Hok). apply calculate_new_twap_between in Hb as [_ ?].
  apply bind_ok in Hok as (at_ & Ha & Hok). apply calculate_new_twap_between in Ha as [_ ?].
  inv_ok. by exists mt, bt, at_.
Qed.

(** The fields a swap writes: the mark averages and the reserves. *)
Definition swapped (amm amm' : AMM) (now : Z) : Prop :=
  ∃ mark bid ask base quote,
    amm' = set_reserves
      (amm <| AMM.last_mark_price_twap := mark |> <| AMM.last_bid_price_twap := bid |>
           <| AMM.last_ask_price_twap := ask |> <| AMM.last_mark_price_twap_ts := now |>)
      base quote.

Lemma swap_base_asset_frame `{BnLib} amm a d now p spread amm' r :
  swap_base_asset amm a d now p spread = Ok (amm', r) → swapped amm amm' now.
Proof.
  intros Hok. unfold swap_base_asset in Hok.
  apply bind_ok in Hok as ([amm1 mid] & Htwap & Hok).
  apply update_mark_twap_frame in Htwap as (? & ? & ? & -> & _).
  apply bind_ok in Hok as ([[[b q] v] s] & _ & Hok). apply Ok_inj in Hok; simplify_eq.
  by do 5 eexists.
Qed.

Lemma swap_quote_asset_frame `{BnLib} amm a d now p spread amm' r :
  swap_quote_asset amm a d now p spread = Ok (amm', r) → swapped amm amm' now.
Proof.
  intros Hok. unfold swap_quote_asset in Hok.
  apply bind_ok in Hok as ([amm1 mid] & Htwap & Hok).
  apply update_mark_twap_frame in Htwap as (? & ? & ? & -> & _).
  apply bind_ok in Hok as ([[[b q] v] s] & _ & Hok). apply Ok_inj in Hok; simplify_eq.
  by do 5 eexists.
Qed.

Section Properties.
Context `{BnLaws}.

(** Setting the reserves always succeeds, and [sqrt_k] is the integer square root
    of their product. *)
Theorem move_price_total amm b q :
  has_type U128 b → has_type U128 q →
  ∃ amm', move_price amm b q = Ok amm'
    ∧ amm' = (set_reserves amm b q) <| AMM.sqrt_k := amm'.(AMM.sqrt_k) |>
    ∧ let s := amm'.(AMM.sqrt_k) in s * s ≤ b * q < (s + 1) * (s + 1).
Proof.
  intros Hb Hq. unfold move_price. rewrite !bn_from_spec by done.
  pose proof (u128_mul_bn b q Hb Hq) as Hk.
  assert (bn_mul U256 b q = Ok (b * q)) as ->
    by (apply bn_mul_ok; [by apply u128_bn_range..|done]).
  cbn [bind]. rewrite bn_integer_sqrt_spec by done.
  pose proof (Z.sqrt_spec (b * q) ltac:(apply Hk)) as Hs. cbv zeta in Hs.
  pose proof (Z.sqrt_nonneg (b * q)).
  assert (try_to_u128 U256 (Z.sqrt (b * q)) = Ok (Z.sqrt (b * q))) as ->.
  { apply try_to_u128_ok; [by apply bn_sqrt_range|]. split; [done|].
    unfold has_type in *. cbn [int_min int_max] in *. split; [done|]. nia. }
  cbn [bind]. eexists. split; [done|]. split; [by destruct amm|]. simpl. lia.
Qed.

(** The quote amount that a base swap moves on the curve itself. *)
Definition curve_quote_amount (amm : AMM) (direction : SwapDirection) (new_quote : Z) : Z :=
  let q := amm.(AMM.quote_asset_reserve) in
  match direction with
  | Add => (q - new_quote) * amm.(AMM.peg_multiplier) / AMM_TIMES_PEG_TO_QUOTE_PRECISION_RATIO
  | Remove =>
      (new_quote - q) * amm.(AMM.peg_multiplier) / AMM_TIMES_PEG_TO_QUOTE_PRECISION_RATIO + 1
  end.

Lemma surplus_ok before after d peg v (round : bool) sur :
  calculate_quote_asset_amount_surplus before after d peg v round = Ok sur →
  sur = Z.abs ((match d with Add => before - after | Remove => after - before end) * peg
               / AMM_TIMES_PEG_TO_QUOTE_PRECISION_RATIO + (if round then 1 else 0) - v)
  ∧ match d with Add => after ≤ before | Remove => before ≤ after end.
Proof.
  intros Hok. unfold calculate_quote_asset_amount_surplus in Hok.
  apply bind_ok in Hok as (c & Hc & Hok).
  apply bind_ok in Hok as (r & Hr & Hok). apply reserve_to_asset_amount_ok in Hr as [_ ->].
  assert (c = match d with Add => before - after | Remove => after - before end
          ∧ 0 ≤ c) as [-> Hpos] by (clear - Hc; destruct d; inv_ok; (split; [done|int_lia])).
  clear Hc. apply bind_ok in Hok as (x & Hx & Hok).
  assert (x = match d with Add => before - after | Remove => after - before end * peg
              / AMM_TIMES_PEG_TO_QUOTE_PRECISION_RATIO + (if round then 1 else 0)) as ->
    by (clear - Hx; destruct round; inv_ok; lia).
  clear Hx. split; [|destruct d; lia]. inv_ok; bool_prop; lia.
Qed.

Lemma base_swap_without_spread_ok amm a d b q v sur :
  has_type U128 amm.(AMM.base_asset_reserve) → has_type U128 amm.(AMM.sqrt_k) →
  has_type U128 a →
  calculate_base_swap_output_without_spread amm a d = Ok (b, q, v, sur) →
  b = new_input d amm.(AMM.base_asset_reserve) a ∧ 0 < b ∧ has_type U128 b
  ∧ q = amm.(AMM.sqrt_k) * amm.(AMM.sqrt_k) / b ∧ has_type U128 q
  ∧ v = curve_quote_amount amm d q ∧ sur = 0.
Proof.
  intros ?? Ha Hok. unfold calculate_base_swap_output_without_spread in Hok.
  apply bind_ok in Hok as ([q' b'] & Hs & Hok).
  apply calculate_swap_output_ok in Hs as (-> & ? & ? & -> & ? & _); [|done..].
  apply bind_ok in Hok as (v' & Hv & Hok).
  apply calculate_quote_asset_amount_swapped_ok in Hv as [Hv _].
  apply Ok_inj in Hok; simplify_eq. split_and!; try done. by destruct d, Hv.
Qed.

Lemma base_swap_with_spread_ok amm a d b q v sur :
  has_type U128 amm.(AMM.base_asset_reserve) → has_type U128 amm.(AMM.sqrt_k) →
  has_type U128 a →
  calculate_base_swap_output_with_spread amm a d = Ok (b, q, v, sur) →
  b = new_input d amm.(AMM.base_asset_reserve) a ∧ 0 < b ∧ has_type U128 b
  ∧ q = amm.(AMM.sqrt_k) * amm.(AMM.sqrt_k) / b ∧ has_type U128 q
  ∧ sur = Z.abs (v - curve_quote_amount amm d q).
Proof.
  intros ?? Ha Hok. unfold calculate_base_swap_output_with_spread in Hok.
  apply bind_ok in Hok as ([bs qs] & _ & Hok). apply bind_ok in Hok as ([nq x] & _ & Hok).
  apply bind_ok in Hok as (v' & _ & Hok). apply bind_ok in Hok as ([q' b'] & Hs & Hok).
  apply calculate_swap_output_ok in Hs as (-> & ? & ? & -> & ? & _); [|done..].
  apply bind_ok in Hok as (s & Hs & Hok). apply surplus_ok in Hs as [-> _].
  apply Ok_inj in Hok; simplify_eq. split_and!; try done. unfold curve_quote_amount.
  destruct d; cbn [opposite]; rewrite ?bool_decide_true, ?bool_decide_false by done; lia.
Qed.

(** A base swap moves the base reserve by its amount and leaves the quote reserve
    that the invariant gives; the spread changes what the user pays, never the
    reserves, and the surplus is exactly what the user's amount differs from the
    curve's. *)
Theorem swap_base_asset_ok amm a d now p spread amm' v sur :
  AMM.typed amm → has_type U128 a →
  swap_base_asset amm a d now p spread = Ok (amm', (v, sur)) →
  amm'.(AMM.base_asset_reserve) = new_input d amm.(AMM.base_asset_reserve) a
  ∧ 0 < amm'.(AMM.base_asset_reserve)
  ∧ amm'.(AMM.quote_asset_reserve)
    = amm.(AMM.sqrt_k) * amm.(AMM.sqrt_k) / amm'.(AMM.base_asset_reserve)
  ∧ sur = Z.abs (v - curve_quote_amount amm d amm'.(AMM.quote_asset_reserve))
  ∧ (spread && (0 <? amm.(AMM.base_spread)) = false → sur = 0)
  ∧ amm'.(AMM.sqrt_k) = amm.(AMM.sqrt_k)
  ∧ amm'.(AMM.peg_multiplier) = amm.(AMM.peg_multiplier) ∧ has_type U128 (amm'.(AMM.base_asset_reserve))
  ∧ has_type U128 (amm'.(AMM.quote_asset_reserve)).
Proof.
  intros Hty Ha Hok. unfold swap_base_asset in Hok.
  apply bind_ok in Hok as ([amm1 mid] & Htwap & Hok).
  apply update_mark_twap_frame in Htwap as (? & ? & ? & Hf & _).
  pose proof (AMM.base_asset_reserve_ty _ Hty). pose proof (AMM.sqrt_k_ty _ Hty).
  assert (amm1.(AMM.base_asset_reserve) = amm.(AMM.base_asset_reserve)
          ∧ amm1.(AMM.quote_asset_reserve) = amm.(AMM.quote_asset_reserve)
          ∧ amm1.(AMM.sqrt_k) = amm.(AMM.sqrt_k) ∧ amm1.(AMM.base_spread) = amm.(AMM.base_spread)
          ∧ amm1.(AMM.peg_multiplier) = amm.(AMM.peg_multiplier))
    as (Eb & Eq & Ek & Es & Ep) by (rewrite Hf; done).
  apply bind_ok in Hok as ([[[b q] v'] s] & Hs & Hok). apply Ok_inj in Hok; simplify_eq.
  unfold curve_quote_amount. rewrite <-Eb, <-Eq, <-Ek, <-Es, <-Ep in *. cbn.
  destruct (spread && _).
  - apply base_swap_with_spread_ok in Hs as (-> & ? & ? & -> & ? & ->); [|done..].
    by split_and!.
  - apply base_swap_without_spread_ok in Hs as (-> & ? & ? & -> & ? & -> & ->); [|done..].
    split_and!; try done. by rewrite Z.sub_diag.
Qed.

(** C27. Swapping an amount and swapping it back on the curve restores the base reserve
    and never pays the trader: what comes back is less than what was paid, provided
    the quote reserve was not above the invariant to begin with. *)
Theorem base_swap_round_trip_loses amm a d amm1 amm2 v1 v2 s1 s2 now1 now2 p1 p2 :
  AMM.typed amm → AMM.typed amm1 → has_type U128 a →
  amm.(AMM.base_asset_reserve) * amm.(AMM.quote_asset_reserve)
    ≤ amm.(AMM.sqrt_k) * amm.(AMM.sqrt_k) →
  swap_base_asset amm a d now1 p1 false = Ok (amm1, (v1, s1)) →
  swap_base_asset amm1 a (opposite d) now2 p2 false = Ok (amm2, (v2, s2)) →
  amm2.(AMM.base_asset_reserve) = amm.(AMM.base_asset_reserve)
  ∧ match d with Remove => v2 < v1 | Add => v1 < v2 end.
Proof.
  intros Hty Hty1 Ha Hk Hs1 Hs2.
  apply swap_base_asset_ok in Hs1 as (Hb1 & Hp1 & Hq1 & Hv1 & Hz1 & Hk1 & Hm1 & _); [|done..].
  apply swap_base_asset_ok in Hs2 as (Hb2 & Hp2 & Hq2 & Hv2 & Hz2 & _ & _ & _); [|done..].
  rewrite Hz1 in Hv1 by done. rewrite Hz2 in Hv2 by done. clear Hz1 Hz2.
  assert (amm2.(AMM.base_asset_reserve) = amm.(AMM.base_asset_reserve)) as Hbase
    by (rewrite Hb2, Hb1; destruct d; simpl; lia).
  split; [done|]. rewrite Hbase in *. rewrite Hk1 in Hq2.
  pose proof (AMM.quote_asset_reserve_ty _ Hty) as Hq0.
  assert (amm.(AMM.quote_asset_reserve) ≤ amm2.(AMM.quote_asset_reserve)) as Hle
    by (rewrite Hq2; apply Z.div_le_lower_bound; lia).
  pose proof (AMM.peg_multiplier_ty _ Hty) as Hpeg. unfold has_type in Hpeg.
  cbn [int_min] in Hpeg. unfold curve_quote_amount in *. rewrite Hm1 in Hv2.
  clear Hq1 Hq2 Hb1 Hb2. destruct d; cbn [opposite] in *.
  - assert (v1 = (AMM.quote_asset_reserve amm - AMM.quote_asset_reserve amm1)
                 * AMM.peg_multiplier amm / AMM_TIMES_PEG_TO_QUOTE_PRECISION_RATIO) as -> by lia.
    assert (v2 = (AMM.quote_asset_reserve amm2 - AMM.quote_asset_reserve amm1)
                 * AMM.peg_multiplier amm / AMM_TIMES_PEG_TO_QUOTE_PRECISION_RATIO + 1) as -> by lia.
    apply Z.lt_succ_r. apply Z.div_le_mono; [done|]. nia.
  - assert (v1 = (AMM.quote_asset_reserve amm1 - AMM.quote_asset_reserve amm)
                 * AMM.peg_multiplier amm / AMM_TIMES_PEG_TO_QUOTE_PRECISION_RATIO + 1) as -> by lia.
    assert (v2 = (AMM.quote_asset_reserve amm1 - AMM.quote_asset_reserve amm2)
                 * AMM.peg_multiplier amm / AMM_TIMES_PEG_TO_QUOTE_PRECISION_RATIO) as -> by lia.
    apply Z.lt_succ_r. apply Z.div_le_mono; [done|]. nia.
Qed.

(** The budget of a change of k is half of the imbalance, with the sign of the
    change it pays for; it is zero when the revenue of the period covers the cost. *)
Theorem update_k_budget_ok revenue cost b :
  has_type I64 revenue → has_type I64 cost →
  update_k_budget revenue cost = Ok b →
  (cost < 0 → 0 ≤ b ≤ - cost ∧ - cost ≤ 2 * b + 1)
  ∧ (0 ≤ cost → cost ≤ revenue → b = 0)
  ∧ (0 ≤ cost → revenue < cost → - cost ≤ b ≤ 0 ∧ cost - Z.max 0 revenue ≤ - 2 * b + 1).
Proof.
  intros Hr Hc Hok. unfold update_k_budget in Hok.
  pose proof (Z.quot_rem' cost 2). pose proof (Z.rem_bound_abs cost 2 ltac:(lia)).
  destruct (Z.ltb_spec cost 0).
  - inv_ok. unfold int_quot in *; cbn [is_signed] in *. rewrite wrap_in.
    + lia.
    + unfold has_type in *. cbn [int_min int_max] in *. lia.
  - destruct (Z.ltb_spec revenue cost); [|inv_ok; lia].
    apply bind_ok in Hok as (d & Hd & Hok). apply csub_ok in Hd as [-> _].
    apply cdiv_ok in Hok as (_ & -> & _). unfold int_quot; cbn [is_signed].
    pose proof (Z.quot_rem' (Z.max 0 revenue - cost) 2).
    pose proof (Z.rem_bound_abs (Z.max 0 revenue - cost) 2 ltac:(lia)).
    pose proof (Z.rem_sign_mul (Z.max 0 revenue - cost) 2 ltac:(lia)). lia.
Qed.
End Properties.
