(* ===== verification/OrdersMath.v ===== *)
(** * Order sizes and prices (math/orders.rs)

    How much of an order the market can execute at its limit or trigger price,
    and the arithmetic of maker and reduce-only orders.  What the user can execute
    depends on the margin system and is in Orders.v. *)

From stdpp Require Import base numbers.
From S2P Require Import Prelude Constants Bn State Value AmmMath.
Local Open Scope Z_scope.

(** ** Definitions *)

(** [MARK_PRICE_PRECISION * AMM_TO_QUOTE_PRECISION_RATIO] *)
Definition limit_price_satisfied (limit_price quote_asset_amount base_asset_amount : Z)
    (direction : PositionDirection) : result bool :=
  let? x := cmul U128 quote_asset_amount
              (MARK_PRICE_PRECISION * AMM_TO_QUOTE_PRECISION_RATIO) in
  let? price := op_div U128 x base_asset_amount in
  match direction with
  | Long => if limit_price <? price then Ok false else Ok true
  | Short => if price <? limit_price then Ok false else Ok true
  end.

Definition calculate_quote_asset_amount_for_maker_order (base_asset_amount limit_price : Z)
    (swap_direction : SwapDirection) : result Z :=
  let? x := cmul U128 base_asset_amount limit_price in
  let? quote_asset_amount := op_div U128 x MARK_PRICE_TIMES_AMM_TO_QUOTE_PRECISION_RATIO in
  if bool_decide (swap_direction = Remove) then cadd U128 quote_asset_amount 1
  else Ok quote_asset_amount.

Definition calculate_base_asset_amount_for_reduce_only_order
    (proposed_base_asset_amount : Z) (order_direction : PositionDirection)
    (existing_position : Z) : Z :=
  if (bool_decide (order_direction = Long) && (0 <=? existing_position))
     || (bool_decide (order_direction = Short) && (existing_position <=? 0))
  then 0
  else Z.min proposed_base_asset_amount (unsigned_abs existing_position).

Section Definitions.
Context `{BnLib}.

Definition calculate_base_asset_amount_to_trade_for_limit (order : Order) (market : Market)
    (valid_oracle_price : option Z) : result Z :=
  let? base_asset_amount_to_fill :=
    csub U128 order.(Order.base_asset_amount) order.(Order.base_asset_amount_filled) in
  let? limit_price := get_limit_price order valid_oracle_price in
  let? ' (max_trade_base_asset_amount, max_trade_direction) :=
    calculate_max_base_asset_amount_to_trade market.(Market.amm) limit_price
      order.(Order.direction) (negb order.(Order.post_only)) in
  if bool_decide (max_trade_direction ≠ order.(Order.direction))
     || (max_trade_base_asset_amount =? 0)
  then Ok 0
  else Ok (Z.min base_asset_amount_to_fill max_trade_base_asset_amount).

(** Whether the trigger condition fails on the mark price or on the oracle price
    with its one percent of buffer. *)
Definition trigger_blocked (order : Order) (mark_price : Z)
    (valid_oracle_price : option Z) : result bool :=
  let trigger_price := order.(Order.trigger_price) in
  match order.(Order.trigger_condition) with
  | Above =>
      if mark_price <=? trigger_price then Ok true
      else match valid_oracle_price with
           | Some oracle_price =>
               let? x := cmul I128 oracle_price 101 in
               let? oracle_price_101pct := cdiv I128 x 100 in
               let? o := cast_to_u128 oracle_price_101pct in
               Ok (o <=? trigger_price)
           | None => Ok false
           end
  | Below =>
      if trigger_price <=? mark_price then Ok true
      else match valid_oracle_price with
           | Some oracle_price =>
               let? x := cmul I128 oracle_price 99 in
               let? oracle_price_99pct := cdiv I128 x 100 in
               let? o := cast_to_u128 oracle_price_99pct in
               Ok (trigger_price <=? o)
           | None => Ok false
           end
  end.

Definition calculate_base_asset_amount_to_trade_for_trigger_market (order : Order)
    (market : Market) (precomputed_mark_price valid_oracle_price : option Z) : result Z :=
  let? mark_price := mark_price_or market.(Market.amm) precomputed_mark_price in
  let? blocked := trigger_blocked order mark_price valid_oracle_price in
  if (blocked : bool) then Ok 0
  else csub U128 order.(Order.base_asset_amount) order.(Order.base_asset_amount_filled).

Definition calculate_base_asset_amount_to_trade_for_trigger_limit (order : Order)
    (market : Market) (precomputed_mark_price valid_oracle_price : option Z) : result Z :=
  if order.(Order.base_asset_amount_filled) =? 0 then
    let? base_asset_amount := calculate_base_asset_amount_to_trade_for_trigger_market
      order market precomputed_mark_price valid_oracle_price in
    if base_asset_amount =? 0 then Ok 0
    else calculate_base_asset_amount_to_trade_for_limit order market None
  else calculate_base_asset_amount_to_trade_for_limit order market None.

Definition calculate_base_asset_amount_market_can_execute (order : Order)
    (market : Market) (precomputed_mark_price valid_oracle_price : option Z) : result Z :=
  match order.(Order.order_type) with
  | OrderType.Limit =>
      calculate_base_asset_amount_to_trade_for_limit order market valid_oracle_price
  | OrderType.TriggerMarket =>
      calculate_base_asset_amount_to_trade_for_trigger_market order market
        precomputed_mark_price valid_oracle_price
  | OrderType.TriggerLimit =>
      calculate_base_asset_amount_to_trade_for_trigger_limit order market
        precomputed_mark_price valid_oracle_price
  | OrderType.Market => Err InvalidOrder
  end.
End Definitions.

(** ** Properties *)

(** A reduce-only size never exceeds the position and is zero when the order would
    grow it: filling it moves the position toward zero and not past it. *)
Theorem reduce_only_amount_reduces proposed direction position :
  0 ≤ proposed →
  let amount :=
    calculate_base_asset_amount_for_reduce_only_order proposed direction position in
  let after := match direction with Long => position + amount | Short => position - amount end in
  0 ≤ amount ≤ proposed ∧ Z.abs after = Z.abs position - amount ∧ 0 ≤ after * position.
Proof.
  intros Hp amount after. subst amount after.
  unfold calculate_base_asset_amount_for_reduce_only_order, unsigned_abs.
  destruct direction; repeat case_bool_decide; try done; cbn [andb orb];
    repeat match goal with |- context [?a <=? ?b] => destruct (Z.leb_spec a b) end;
    cbn [orb]; (split; [lia|]); (split; [lia|]); nia.
Qed.

(** A limit price is satisfied exactly when the rounded price of the fill is on its
    side. *)
Theorem limit_price_satisfied_ok limit q b d r :
  has_type U128 b → limit_price_satisfied limit q b d = Ok r →
  0 < b
  ∧ r = match d with
        | Long => q * 100000000000000000 / b <=? limit
        | Short => limit <=? q * 100000000000000000 / b
        end.
Proof.
  intros Hb Hok. unfold limit_price_satisfied in Hok.
  apply bind_ok in Hok as (x & Hx & Hok). apply cmul_ok in Hx as [-> Hx].
  apply bind_ok in Hok as (p & Hp & Hok). apply op_div_ok in Hp as [Hb0 ->].
  assert (0 < b) by int_lia. split; [done|].
  change (MARK_PRICE_PRECISION * AMM_TO_QUOTE_PRECISION_RATIO) with 100000000000000000 in *.
  unfold int_quot in Hok. cbn [is_signed] in Hok. rewrite u128_div_wrap in Hok by done.
  destruct d; inv_ok; bool_prop; symmetry; (apply Z.leb_le || apply Z.leb_gt); lia.
Qed.

Lemma maker_quote_ok b p d q :
  calculate_quote_asset_amount_for_maker_order b p d = Ok q →
  q = b * p / MARK_PRICE_TIMES_AMM_TO_QUOTE_PRECISION_RATIO
      + (match d with Remove => 1 | Add => 0 end) ∧ has_type U128 q.
Proof.
  intros Hok. unfold calculate_quote_asset_amount_for_maker_order in Hok.
  apply bind_ok in Hok as (x & Hx & Hok). apply cmul_ok in Hx as [-> Hx].
  apply bind_ok in Hok as (y & Hy & Hok). apply op_div_ok in Hy as [_ ->].
  unfold int_quot in Hok. cbn [is_signed] in Hok.
  assert (0 < MARK_PRICE_TIMES_AMM_TO_QUOTE_PRECISION_RATIO) by done.
  rewrite u128_div_wrap in Hok by done.
  destruct d; rewrite ?bool_decide_true, ?bool_decide_false in Hok by done; inv_ok;
    rewrite ?Z.add_0_r; (split; [done|]); [by apply u128_div_in|done].
Qed.

Section Properties.
Context `{BnLib}.

Lemma to_trade_for_limit_nonneg o market v a :
  calculate_base_asset_amount_to_trade_for_limit o market v = Ok a → 0 ≤ a.
Proof.
  unfold calculate_base_asset_amount_to_trade_for_limit. intros Hok.
  apply bind_ok in Hok as (f & Hf & Hok). apply csub_ok in Hf as [-> Hf].
  apply bind_ok in Hok as (p & _ & Hok). apply bind_ok in Hok as ([mx d] & Hmax & Hok).
  assert (0 ≤ mx) as Hmx.
  { unfold calculate_max_base_asset_amount_to_trade in Hmax. cbv zeta in Hmax.
    do 7 (apply bind_ok in Hmax as (? & _ & Hmax)).
    destruct (_ <? _); apply bind_ok in Hmax as (y & Hy & Hmax);
      apply csub_ok in Hy as [-> Hy]; apply Ok_inj in Hmax; simplify_eq;
      by eapply (has_type_nonneg U128). }
  apply (has_type_nonneg U128) in Hf; [|done]. destruct (_ || _); inv_ok; lia.
Qed.

Lemma market_can_execute_nonneg o market mark v a :
  calculate_base_asset_amount_market_can_execute o market mark v = Ok a → 0 ≤ a.
Proof.
  unfold calculate_base_asset_amount_market_can_execute. intros Hok.
  assert (∀ b, calculate_base_asset_amount_to_trade_for_trigger_market o market mark v = Ok b →
    0 ≤ b) as Htrigger.
  { intros b Hb. unfold calculate_base_asset_amount_to_trade_for_trigger_market in Hb.
    inv_ok; [done|]. by eapply (has_type_nonneg U128). }
  destruct (Order.order_type o); [done|by eapply to_trade_for_limit_nonneg|by apply Htrigger|].
  unfold calculate_base_asset_amount_to_trade_for_trigger_limit in Hok.
  destruct (_ =? 0); [|by eapply to_trade_for_limit_nonneg].
  apply bind_ok in Hok as (b & _ & Hok).
  destruct (b =? 0); [by apply Ok_inj in Hok as <-|by eapply to_trade_for_limit_nonneg].
Qed.

(** Whatever its type, an order is never executed beyond the amount it has left. *)
Theorem market_can_execute_at_most_unfilled order market p o amount :
  calculate_base_asset_amount_market_can_execute order market p o = Ok amount →
  order.(Order.base_asset_amount_filled) ≤ order.(Order.base_asset_amount) →
  amount ≤ order.(Order.base_asset_amount) - order.(Order.base_asset_amount_filled).
Proof.
  intros Hok Hf.
  assert (∀ v a, calculate_base_asset_amount_to_trade_for_limit order market v = Ok a →
    a ≤ order.(Order.base_asset_amount) - order.(Order.base_asset_amount_filled)) as Hlimit.
  { clear. intros v a Ha. unfold calculate_base_asset_amount_to_trade_for_limit in Ha.
    apply bind_ok in Ha as (f & Hf & Ha). apply csub_ok in Hf as [-> Hf].
    assert (0 ≤ Order.base_asset_amount order - Order.base_asset_amount_filled order)
      by (by eapply has_type_nonneg; [|done]).
    inv_ok; lia. }
  unfold calculate_base_asset_amount_market_can_execute in Hok.
  destruct (Order.order_type order); [by inv_ok|by eapply Hlimit|..].
  - unfold calculate_base_asset_amount_to_trade_for_trigger_market in Hok. inv_ok; lia.
  - unfold calculate_base_asset_amount_to_trade_for_trigger_limit in Hok.
    destruct (_ =? 0); [|by eapply Hlimit].
    apply bind_ok in Hok as (a & _ & Hok). destruct (a =? 0); [inv_ok; lia|by eapply Hlimit].
Qed.

(** A trigger order that executes met its condition on the mark price and, within
    one percent, on a valid oracle price. *)
Theorem trigger_condition_met order mark oracle :
  0 ≤ order.(Order.trigger_price) →
  trigger_blocked order mark oracle = Ok false →
  match order.(Order.trigger_condition) with
  | Above => order.(Order.trigger_price) < mark
             ∧ ∀ o, oracle = Some o → order.(Order.trigger_price) * 100 < o * 101
  | Below => mark < order.(Order.trigger_price)
             ∧ ∀ o, oracle = Some o → o * 99 < order.(Order.trigger_price) * 100
  end.
Proof.
  intros Ht Hok. unfold trigger_blocked in Hok.
  destruct (Order.trigger_condition order), oracle as [o|]; inv_ok; bool_prop;
    (split; [done|]); intros ? [=<-];
    unfold int_quot in *; cbn [is_signed] in *.
  - pose proof (Z.quot_rem' (o * 101) 100). pose proof (Z.rem_bound_abs (o * 101) 100).
    pose proof (Z.rem_sign_mul (o * 101) 100). nia.
  - pose proof (Z.quot_rem' (o * 99) 100). pose proof (Z.rem_bound_abs (o * 99) 100). lia.
Qed.
End Properties.
