(* ===== verification/Position.v ===== *)
(** * Positions (controller/position.rs)

    Opening, increasing, reducing and closing a position against the curve.  A
    market and a position that the code updates through [&mut] are passed and
    returned; an index beyond the five positions of a user panics. *)

From stdpp Require Import base numbers list.
From S2P Require Import Prelude Constants Bn State Value AmmMath Twap PositionMath.
From S2P Require Import CurveMath Repeg AmmController OrdersMath.
Local Open Scope Z_scope.

(** ** Definitions *)

(** [iter().position(p)] *)
Definition iter_position {A} (p : A → bool) (l : list A) : option nat :=
  fst <$> list_find (λ x, p x = true) l.

Definition add_new_position (user_positions : list MarketPosition) (market_index : Z)
    : result (list MarketPosition * nat) :=
  let? new_position_index :=
    ok_or (iter_position is_available user_positions) MaxNumberOfPositions in
  let new_market_position :=
    MarketPosition_default <| MarketPosition.market_index := market_index |> in
  Ok (<[new_position_index := new_market_position]> user_positions, new_position_index).

Definition get_position_index (user_positions : list MarketPosition) (market_index : Z)
    : result nat :=
  match iter_position (λ p, is_for p market_index) user_positions with
  | Some position_index => Ok position_index
  | None => Err UserHasNoPositionInMarket
  end.

(** [market.open_interest] goes up for a position that was empty, which also takes
    the current cumulative funding rate of its side. *)
Definition open_if_new (direction : PositionDirection) (market : Market)
    (market_position : MarketPosition) : result (Market * MarketPosition) :=
  if market_position.(MarketPosition.base_asset_amount) =? 0 then
    let rate := match direction with
                | Long => market.(Market.amm).(AMM.cumulative_funding_rate_long)
                | Short => market.(Market.amm).(AMM.cumulative_funding_rate_short)
                end in
    let market_position :=
      market_position <| MarketPosition.last_cumulative_funding_rate := rate |> in
    let? x := cadd U128 market.(Market.open_interest) 1 in
    Ok (market <| Market.open_interest := x |>, market_position)
  else Ok (market, market_position).

(** The update of the net position and of the long or short total, by the sign of
    the position after the trade. *)
Definition add_base_asset_amount (market : Market) (position_after base_asset_amount : Z)
    : result Market :=
  let? n := cadd I128 market.(Market.amm).(AMM.net_base_asset_amount) base_asset_amount in
  let market := market <| Market.amm := market.(Market.amm)
                          <| AMM.net_base_asset_amount := n |> |> in
  if 0 <? position_after then
    let? x := cadd I128 market.(Market.base_asset_amount_long) base_asset_amount in
    Ok (market <| Market.base_asset_amount_long := x |>)
  else
    let? x := cadd I128 market.(Market.base_asset_amount_short) base_asset_amount in
    Ok (market <| Market.base_asset_amount_short := x |>).

(** The quote total of the side, which only the increases maintain. *)
Definition add_quote_asset_amount (market : Market) (position_after quote_asset_amount : Z)
    : result Market :=
  let amm := market.(Market.amm) in
  if 0 <? position_after then
    let? x := cadd U128 amm.(AMM.quote_asset_amount_long) quote_asset_amount in
    Ok (market <| Market.amm := amm <| AMM.quote_asset_amount_long := x |> |>)
  else
    let? x := cadd U128 amm.(AMM.quote_asset_amount_short) quote_asset_amount in
    Ok (market <| Market.amm := amm <| AMM.quote_asset_amount_short := x |> |>).

(** The private [calculate_quote_asset_amount_surplus] of controller/position.rs: a
    maker's fill at its limit price. *)
Definition maker_quote_asset_amount_surplus (swap_direction : SwapDirection)
    (quote_asset_swapped base_asset_amount limit_price : Z) : result (Z * Z) :=
  let? quote_asset_amount := calculate_quote_asset_amount_for_maker_order
    base_asset_amount limit_price swap_direction in
  let? quote_asset_amount_surplus :=
    match swap_direction with
    | Remove => csub U128 quote_asset_amount quote_asset_swapped
    | Add => csub U128 quote_asset_swapped quote_asset_amount
    end in
  Ok (quote_asset_amount, quote_asset_amount_surplus).

(** [match maker_limit_price]: the quote amount and surplus of a maker's fill are at
    its limit price. *)
Definition quote_amount_at_limit (maker_limit_price : option Z)
    (swap_direction : SwapDirection) (quote_asset_swapped surplus base_asset_amount : Z)
    : result (Z * Z) :=
  match maker_limit_price with
  | Some limit_price => maker_quote_asset_amount_surplus swap_direction
      quote_asset_swapped base_asset_amount limit_price
  | None => Ok (quote_asset_swapped, surplus)
  end.

(** The signed base amount of a trade. *)
Definition signed_base_asset_amount (direction : PositionDirection) (base_asset_amount : Z)
    : result Z :=
  let? b := cast_to_i128 base_asset_amount in
  Ok (match direction with Long => b | Short => - b end).

(** The swap direction of a trade given in quote and in base. *)
Definition quote_swap_direction (direction : PositionDirection) : SwapDirection :=
  match direction with Long => Add | Short => Remove end.
Definition base_swap_direction (direction : PositionDirection) : SwapDirection :=
  match direction with Long => Remove | Short => Add end.

(** The cost of the closed part of a position, at its average entry price. *)
Definition initial_quote_asset_amount_closed (quote_asset_amount base_before base_after : Z)
    : result Z :=
  let? d := csub I128 base_before base_after in
  let base_asset_amount_change := wrap I128 (Z.abs d) in
  let? x := cmul U128 quote_asset_amount (unsigned_abs base_asset_amount_change) in
  cdiv U128 x (unsigned_abs base_before).

(** [open_interest.checked_sub(cast(base_asset_amount == 0)?)] *)
Definition close_open_interest (market : Market) (position_after : Z) : result Market :=
  let? x := csub U128 market.(Market.open_interest)
              (if position_after =? 0 then 1 else 0) in
  Ok (market <| Market.open_interest := x |>).

(** What both updates of a position return: whether the trade may increase risk,
    whether it only reduced, the base and quote amounts, the surplus and the
    profit. *)
Module PositionUpdate.
Record PositionUpdate := mk {
  potentially_risk_increasing : bool;
  reduce_only : bool;
  base_asset_amount : Z;
  quote_asset_amount : Z;
  quote_asset_amount_surplus : Z;
  pnl : Z;
}.
End PositionUpdate.
Abbreviation PositionUpdate := PositionUpdate.PositionUpdate.

Section Definitions.
Context `{BnLib}.

Definition increase (direction : PositionDirection) (quote_asset_amount : Z)
    (market : Market) (market_position : MarketPosition) (now : Z)
    (precomputed_mark_price : option Z) : result (Market * MarketPosition * (Z * Z)) :=
  if quote_asset_amount =? 0 then Ok (market, market_position, (0, 0))
  else
    let? ' (market, market_position) := open_if_new direction market market_position in
    let? q := cadd U128 market_position.(MarketPosition.quote_asset_amount)
                quote_asset_amount in
    let market_position := market_position <| MarketPosition.quote_asset_amount := q |> in
    let? ' (amm, (base_asset_acquired, quote_asset_amount_surplus)) :=
      swap_quote_asset market.(Market.amm) quote_asset_amount
        (quote_swap_direction direction) now precomputed_mark_price true in
    let market := market <| Market.amm := amm |> in
    let? b := cadd I128 market_position.(MarketPosition.base_asset_amount)
                base_asset_acquired in
    let market_position := market_position <| MarketPosition.base_asset_amount := b |> in
    let? market := add_base_asset_amount market b base_asset_acquired in
    let? market := add_quote_asset_amount market b quote_asset_amount in
    Ok (market, market_position, (base_asset_acquired, quote_asset_amount_surplus)).

Definition increase_with_base_asset_amount (direction : PositionDirection)
    (base_asset_amount : Z) (market : Market) (market_position : MarketPosition) (now : Z)
    (maker_limit_price precomputed_mark_price : option Z)
    : result (Market * MarketPosition * (Z * Z)) :=
  if base_asset_amount =? 0 then Ok (market, market_position, (0, 0))
  else
    let? ' (market, market_position) := open_if_new direction market market_position in
    let swap_direction := base_swap_direction direction in
    let? ' (amm, (quote_asset_swapped, surplus)) :=
      swap_base_asset market.(Market.amm) base_asset_amount swap_direction now
        precomputed_mark_price true in
    let market := market <| Market.amm := amm |> in
    let? ' (quote_asset_amount, quote_asset_amount_surplus) :=
      quote_amount_at_limit maker_limit_price swap_direction quote_asset_swapped surplus
        base_asset_amount in
    let? q := cadd U128 market_position.(MarketPosition.quote_asset_amount)
                quote_asset_amount in
    let market_position := market_position <| MarketPosition.quote_asset_amount := q |> in
    let? base_asset_amount := signed_base_asset_amount direction base_asset_amount in
    let? b := cadd I128 market_position.(MarketPosition.base_asset_amount)
                base_asset_amount in
    let market_position := market_position <| MarketPosition.base_asset_amount := b |> in
    let? market := add_base_asset_amount market b base_asset_amount in
    let? market := add_quote_asset_amount market b quote_asset_amount in
    Ok (market, market_position, (quote_asset_amount, quote_asset_amount_surplus)).

Definition reduce (direction : PositionDirection) (quote_asset_swap_amount : Z)
    (market : Market) (market_position : MarketPosition) (now : Z)
    (precomputed_mark_price : option Z) (use_spread : bool)
    : result (Market * MarketPosition * (Z * Z * Z)) :=
  let? ' (amm, (base_asset_swapped, quote_asset_amount_surplus)) :=
    swap_quote_asset market.(Market.amm) quote_asset_swap_amount
      (quote_swap_direction direction) now precomputed_mark_price use_spread in
  let market := market <| Market.amm := amm |> in
  let base_before := market_position.(MarketPosition.base_asset_amount) in
  let? b := cadd I128 base_before base_asset_swapped in
  let market_position := market_position <| MarketPosition.base_asset_amount := b |> in
  let? market := close_open_interest market b in
  let? market := add_base_asset_amount market b base_asset_swapped in
  let? closed := initial_quote_asset_amount_closed
    market_position.(MarketPosition.quote_asset_amount) base_before b in
  let? q := csub U128 market_position.(MarketPosition.quote_asset_amount) closed in
  let market_position := market_position <| MarketPosition.quote_asset_amount := q |> in
  let? s := cast_to_i128 quote_asset_swap_amount in
  let? c := cast_to_i128 closed in
  let? pnl := if 0 <? b then csub I128 s c else csub I128 c s in
  Ok (market, market_position, (base_asset_swapped, quote_asset_amount_surplus, pnl)).

Definition reduce_with_base_asset_amount (direction : PositionDirection)
    (base_asset_amount : Z) (market : Market) (market_position : MarketPosition) (now : Z)
    (maker_limit_price precomputed_mark_price : option Z)
    : result (Market * MarketPosition * (Z * Z * Z)) :=
  let swap_direction := base_swap_direction direction in
  let? ' (amm, (quote_asset_swapped, surplus)) :=
    swap_base_asset market.(Market.amm) base_asset_amount swap_direction now
      precomputed_mark_price (bool_decide (maker_limit_price = None)) in
  let market := market <| Market.amm := amm |> in
  let? ' (quote_asset_amount, quote_asset_amount_surplus) :=
    quote_amount_at_limit maker_limit_price swap_direction quote_asset_swapped surplus
      base_asset_amount in
  let? base_asset_amount := signed_base_asset_amount direction base_asset_amount in
  let base_before := market_position.(MarketPosition.base_asset_amount) in
  let? b := cadd I128 base_before base_asset_amount in
  let market_position := market_position <| MarketPosition.base_asset_amount := b |> in
  let? market := close_open_interest market b in
  let? market := add_base_asset_amount market b base_asset_amount in
  let? closed := initial_quote_asset_amount_closed
    market_position.(MarketPosition.quote_asset_amount) base_before b in
  let? q := csub U128 market_position.(MarketPosition.quote_asset_amount) closed in
  let market_position := market_position <| MarketPosition.quote_asset_amount := q |> in
  let? s := cast_to_i128 quote_asset_amount in
  let? c := cast_to_i128 closed in
  let? pnl := match direction with
              | Short => csub I128 s c
              | Long => csub I128 c s
              end in
  Ok (market, market_position, (quote_asset_amount, quote_asset_amount_surplus, pnl)).

Definition close (market : Market) (market_position : MarketPosition) (now : Z)
    (maker_limit_price precomputed_mark_price : option Z) (use_spread : bool)
    : result (Market * MarketPosition * (Z * Z * Z * Z)) :=
  let base_asset_amount := market_position.(MarketPosition.base_asset_amount) in
  if base_asset_amount =? 0 then Ok (market, market_position, (0, 0, 0, 0))
  else
    let swap_direction := if 0 <? base_asset_amount then Add else Remove in
    let? ' (amm, (quote_asset_swapped, surplus)) :=
      swap_base_asset market.(Market.amm) (unsigned_abs base_asset_amount) swap_direction
        now precomputed_mark_price
        (use_spread && bool_decide (maker_limit_price = None)) in
    let market := market <| Market.amm := amm |> in
    let? ' (quote_asset_amount, quote_asset_amount_surplus) :=
      quote_amount_at_limit maker_limit_price swap_direction quote_asset_swapped surplus
        (unsigned_abs base_asset_amount) in
    let? pnl := calculate_pnl quote_asset_amount
      market_position.(MarketPosition.quote_asset_amount) swap_direction in
    let market_position :=
      market_position <| MarketPosition.last_cumulative_funding_rate := 0 |>
                      <| MarketPosition.last_funding_rate_ts := 0 |> in
    let? oi := csub U128 market.(Market.open_interest) 1 in
    let market := market <| Market.open_interest := oi |> in
    let market_position := market_position <| MarketPosition.quote_asset_amount := 0 |> in
    let? n := csub I128 market.(Market.amm).(AMM.net_base_asset_amount) base_asset_amount in
    let market := market <| Market.amm := market.(Market.amm)
                            <| AMM.net_base_asset_amount := n |> |> in
    let? market :=
      if 0 <? base_asset_amount then
        let? x := csub I128 market.(Market.base_asset_amount_long) base_asset_amount in
        Ok (market <| Market.base_asset_amount_long := x |>)
      else
        let? x := csub I128 market.(Market.base_asset_amount_short) base_asset_amount in
        Ok (market <| Market.base_asset_amount_short := x |>) in
    let market_position := market_position <| MarketPosition.base_asset_amount := 0 |> in
    Ok (market, market_position,
        (quote_asset_amount, base_asset_amount, quote_asset_amount_surplus, pnl)).

(** A trade increases a position that is empty or of its own direction. *)
Definition increases_position (existing_base_asset_amount : Z)
    (direction : PositionDirection) : bool :=
  (existing_base_asset_amount =? 0)
  || ((0 <? existing_base_asset_amount) && bool_decide (direction = Long))
  || ((existing_base_asset_amount <? 0) && bool_decide (direction = Short)).

(** The body of [update_position_with_base_asset_amount] on the position itself. *)
Definition trade_base_asset_amount (base_asset_amount : Z) (direction : PositionDirection)
    (market : Market) (market_position : MarketPosition) (mark_price_before now : Z)
    (maker_limit_price : option Z) : result (Market * MarketPosition * PositionUpdate) :=
  let existing := market_position.(MarketPosition.base_asset_amount) in
  if increases_position existing direction then
    let? ' (market, market_position, (quote, surplus)) :=
      increase_with_base_asset_amount direction base_asset_amount market market_position
        now maker_limit_price (Some mark_price_before) in
    Ok (market, market_position,
        PositionUpdate.mk true false base_asset_amount quote surplus 0)
  else if base_asset_amount <? unsigned_abs existing then
    let? ' (market, market_position, (quote, surplus, pnl)) :=
      reduce_with_base_asset_amount direction base_asset_amount market market_position
        now maker_limit_price (Some mark_price_before) in
    Ok (market, market_position,
        PositionUpdate.mk false true base_asset_amount quote surplus pnl)
  else
    let? base_asset_amount_after_close :=
      csub U128 base_asset_amount (unsigned_abs existing) in
    let potentially_risk_increasing :=
      negb (base_asset_amount_after_close <? unsigned_abs existing) in
    let? ' (market, market_position, (quote_closed, _, surplus_closed, pnl)) :=
      close market market_position now maker_limit_price None true in
    let? ' (market, market_position, (quote_opened, surplus_opened)) :=
      increase_with_base_asset_amount direction base_asset_amount_after_close market
        market_position now maker_limit_price (Some mark_price_before) in
    let reduce_only := quote_opened =? 0 in
    let? quote := cadd U128 quote_closed quote_opened in
    let? surplus := cadd U128 surplus_closed surplus_opened in
    Ok (market, market_position,
        PositionUpdate.mk potentially_risk_increasing reduce_only base_asset_amount quote
          surplus pnl).

(** The body of [update_position_with_quote_asset_amount] on the position itself. *)
Definition trade_quote_asset_amount (quote_asset_amount : Z) (direction : PositionDirection)
    (market : Market) (market_position : MarketPosition) (mark_price_before now : Z)
    : result (Market * MarketPosition * PositionUpdate) :=
  let existing := market_position.(MarketPosition.base_asset_amount) in
  if increases_position existing direction then
    let? ' (market, market_position, (base, surplus)) :=
      increase direction quote_asset_amount market market_position now
        (Some mark_price_before) in
    Ok (market, market_position,
        PositionUpdate.mk true false (unsigned_abs base) quote_asset_amount surplus 0)
  else
    let? ' (base_asset_value, _) :=
      calculate_base_asset_value_and_pnl market_position market.(Market.amm) in
    let? round := should_round_trade market.(Market.amm) quote_asset_amount
      base_asset_value in
    let quote_asset_amount := if (round : bool) then base_asset_value else quote_asset_amount in
    if quote_asset_amount <? base_asset_value then
      let? ' (market, market_position, (base, surplus, pnl)) :=
        reduce direction quote_asset_amount market market_position now
          (Some mark_price_before) true in
      Ok (market, market_position,
          PositionUpdate.mk false true (unsigned_abs base) quote_asset_amount surplus pnl)
    else
      let? quote_asset_amount_after_close :=
        csub U128 quote_asset_amount base_asset_value in
      let potentially_risk_increasing :=
        negb (quote_asset_amount_after_close <? base_asset_value) in
      let? ' (market, market_position, (_, base_closed, surplus_closed, pnl)) :=
        close market market_position now None (Some mark_price_before) true in
      let? ' (market, market_position, (base_opened, surplus_opened)) :=
        increase direction quote_asset_amount_after_close market market_position now
          (Some mark_price_before) in
      let reduce_only := unsigned_abs base_opened =? 0 in
      let? base := cadd U128 (unsigned_abs base_closed) (unsigned_abs base_opened) in
      let? surplus := cadd U128 surplus_closed surplus_opened in
      Ok (market, market_position,
          PositionUpdate.mk potentially_risk_increasing reduce_only base
            quote_asset_amount surplus pnl).

(** [user.positions[position_index]] and its update. *)
Definition set_position (user : User) (position_index : nat) (p : MarketPosition) : User :=
  user <| User.positions := <[position_index := p]> user.(User.positions) |>.

Definition update_position_with_base_asset_amount (base_asset_amount : Z)
    (direction : PositionDirection) (market : Market) (user : User) (position_index : nat)
    (mark_price_before now : Z) (maker_limit_price : option Z)
    : result (Market * User * PositionUpdate) :=
  let? market_position := unwrap (user.(User.positions) !! position_index) in
  let? ' (market, market_position, update) :=
    trade_base_asset_amount base_asset_amount direction market market_position
      mark_price_before now maker_limit_price in
  Ok (market, set_position user position_index market_position, update).

Definition update_position_with_quote_asset_amount (quote_asset_amount : Z)
    (direction : PositionDirection) (market : Market) (user : User) (position_index : nat)
    (mark_price_before now : Z) : result (Market * User * PositionUpdate) :=
  let? market_position := unwrap (user.(User.positions) !! position_index) in
  let? ' (market, market_position, update) :=
    trade_quote_asset_amount quote_asset_amount direction market market_position
      mark_price_before now in
  Ok (market, set_position user position_index market_position, update).
End Definitions.

(** ** Properties *)

(** *** Slots *)

Lemma iter_position_some {A} (p : A → bool) l i :
  iter_position p l = Some i ↔
  ∃ x, l !! i = Some x ∧ p x = true ∧ ∀ j y, l !! j = Some y → (j < i)%nat → p y = false.
Proof.
  unfold iter_position. rewrite fmap_Some. split.
  - intros ([i' x] & Hf & ->). apply list_find_Some in Hf as (Hl & Hp & Hmin).
    exists x. split_and!; [done..|]. intros j y Hy Hj.
    apply not_true_iff_false. eauto.
  - intros (x & Hl & Hp & Hmin). exists (i, x). split; [|done].
    apply list_find_Some. split_and!; [done..|]. intros j y Hy Hj.
    rewrite (Hmin j y); done.
Qed.

(** A new position takes the first slot that is not in use, and the user's other
    positions stay; with every slot in use there is none. *)
Theorem add_new_position_spec ps i :
  match add_new_position ps i with
  | Ok (ps', n) =>
      (∃ p, ps !! n = Some p ∧ is_available p = true)
      ∧ (∀ m p, ps !! m = Some p → (m < n)%nat → is_available p = false)
      ∧ ps' !! n = Some (MarketPosition_default <| MarketPosition.market_index := i |>)
      ∧ (∀ m, m ≠ n → ps' !! m = ps !! m) ∧ length ps' = length ps
  | Err e => e = MaxNumberOfPositions ∧ Forall (λ p, is_available p = false) ps
  | Panic => False
  end.
Proof.
  unfold add_new_position.
  destruct (iter_position is_available ps) as [n|] eqn:Hn; cbn [ok_or bind].
  - apply iter_position_some in Hn as (p & Hp & Ha & Hmin). split_and!; [eauto|done|..].
    + apply list_lookup_insert_eq. by eapply lookup_lt_Some.
    + intros m Hm. by apply list_lookup_insert_ne.
    + apply length_insert.
  - split; [done|]. unfold iter_position in Hn. apply fmap_None, list_find_None in Hn.
    eapply Forall_impl; [done|]. intros p Hp. by apply not_true_iff_false.
Qed.

(** *** Totals of a market *)

(** The market's totals move with one position: the long and short totals, the net
    position and the number of open positions change by the position's own change
    of side, size and existence. *)
Record tracks (market market' : Market) (base base' : Z) : Prop := {
  tracks_long : market'.(Market.base_asset_amount_long) - Z.max 0 base'
    = market.(Market.base_asset_amount_long) - Z.max 0 base;
  tracks_short : market'.(Market.base_asset_amount_short) - Z.min 0 base'
    = market.(Market.base_asset_amount_short) - Z.min 0 base;
  tracks_net : market'.(Market.amm).(AMM.net_base_asset_amount) - base'
    = market.(Market.amm).(AMM.net_base_asset_amount) - base;
  tracks_open : market'.(Market.open_interest) - (if base' =? 0 then 0 else 1)
    = market.(Market.open_interest) - (if base =? 0 then 0 else 1);
}.

Lemma tracks_refl market base : tracks market market base base.
Proof. done. Qed.

Lemma tracks_trans m1 m2 m3 b1 b2 b3 :
  tracks m1 m2 b1 b2 → tracks m2 m3 b2 b3 → tracks m1 m3 b1 b3.
Proof. intros [] []. split; lia. Qed.

#[export] Hint Resolve tracks_refl : drift.

(** The totals that [tracks] reads, over a swap. *)
Lemma swapped_totals amm amm' now :
  swapped amm amm' now →
  amm'.(AMM.net_base_asset_amount) = amm.(AMM.net_base_asset_amount)
  ∧ amm'.(AMM.quote_asset_amount_long) = amm.(AMM.quote_asset_amount_long)
  ∧ amm'.(AMM.quote_asset_amount_short) = amm.(AMM.quote_asset_amount_short).
Proof. by intros (?&?&?&?&?&->). Qed.

(** The totals after a change [x] of a position that keeps its side. *)
Lemma add_base_asset_amount_ok market b x market' :
  (0 < b + x → 0 ≤ b) → (b + x ≤ 0 → b ≤ 0) →
  add_base_asset_amount market (b + x) x = Ok market' →
  market'.(Market.base_asset_amount_long) - Z.max 0 (b + x)
    = market.(Market.base_asset_amount_long) - Z.max 0 b
  ∧ market'.(Market.base_asset_amount_short) - Z.min 0 (b + x)
    = market.(Market.base_asset_amount_short) - Z.min 0 b
  ∧ market'.(Market.amm).(AMM.net_base_asset_amount)
    = market.(Market.amm).(AMM.net_base_asset_amount) + x
  ∧ market'.(Market.open_interest) = market.(Market.open_interest)
  ∧ market'.(Market.amm).(AMM.quote_asset_amount_long)
    = market.(Market.amm).(AMM.quote_asset_amount_long)
  ∧ market'.(Market.amm).(AMM.quote_asset_amount_short)
    = market.(Market.amm).(AMM.quote_asset_amount_short).
Proof.
  intros Hpos Hneg Hok. unfold add_base_asset_amount in Hok.
  apply bind_ok in Hok as (n & Hn & Hok). apply cadd_ok in Hn as [-> _].
  destruct (Z.ltb_spec 0 (b + x)); inv_ok; cbn; lia.
Qed.

Lemma add_quote_asset_amount_ok market b q market' :
  add_quote_asset_amount market b q = Ok market' →
  market'.(Market.base_asset_amount_long) = market.(Market.base_asset_amount_long)
  ∧ market'.(Market.base_asset_amount_short) = market.(Market.base_asset_amount_short)
  ∧ market'.(Market.amm).(AMM.net_base_asset_amount)
    = market.(Market.amm).(AMM.net_base_asset_amount)
  ∧ market'.(Market.open_interest) = market.(Market.open_interest).
Proof. unfold add_quote_asset_amount. intros. inv_ok; done. Qed.

Lemma open_if_new_ok d market p market' p' :
  open_if_new d market p = Ok (market', p') →
  market'.(Market.base_asset_amount_long) = market.(Market.base_asset_amount_long)
  ∧ market'.(Market.base_asset_amount_short) = market.(Market.base_asset_amount_short)
  ∧ market'.(Market.amm) = market.(Market.amm)
  ∧ market'.(Market.open_interest)
    = market.(Market.open_interest)
      + (if p.(MarketPosition.base_asset_amount) =? 0 then 1 else 0)
  ∧ p'.(MarketPosition.base_asset_amount) = p.(MarketPosition.base_asset_amount)
  ∧ p'.(MarketPosition.quote_asset_amount) = p.(MarketPosition.quote_asset_amount).
Proof.
  unfold open_if_new. intros Hok.
  destruct (Z.eqb_spec (MarketPosition.base_asset_amount p) 0); inv_ok; cbn;
    split_and!; try done; lia.
Qed.

Lemma signed_base_asset_amount_ok d x b :
  signed_base_asset_amount d x = Ok b →
  b = match d with Long => x | Short => - x end ∧ x ≤ int_max I128.
Proof.
  unfold signed_base_asset_amount. intros. inv_ok. unfold has_type in *.
  split; [done|]. lia.
Qed.

Lemma increases_position_true b d :
  increases_position b d = true ↔ match d with Long => 0 ≤ b | Short => b ≤ 0 end.
Proof.
  unfold increases_position.
  destruct (Z.eqb_spec b 0), (Z.ltb_spec 0 b), (Z.ltb_spec b 0), d;
    repeat case_bool_decide; simpl; split; intros; try done; lia.
Qed.

Section Properties.
Context `{BnLib}.

(** An increase changes the position by the signed amount; the caller's choice of
    direction keeps the side. *)
Lemma increase_with_base_ok d x m p now limit mark m' p' r :
  0 ≤ x → increases_position p.(MarketPosition.base_asset_amount) d = true →
  increase_with_base_asset_amount d x m p now limit mark = Ok (m', p', r) →
  let b := p.(MarketPosition.base_asset_amount) in
  let b' := p'.(MarketPosition.base_asset_amount) in
  b' = b + (match d with Long => x | Short => - x end) ∧ tracks m m' b b'.
Proof.
  intros Hx Hd Hok b b'. subst b'. apply increases_position_true in Hd.
  fold b in Hd. unfold increase_with_base_asset_amount in Hok.
  destruct (Z.eqb_spec x 0) as [->|Hx0].
  { apply Ok_inj in Hok; simplify_eq. split; [destruct d; lia|apply tracks_refl]. }
  apply bind_ok in Hok as ([m1 p1] & Hopen & Hok).
  apply open_if_new_ok in Hopen as (Hl & Hs & Ha & Ho & Hb & Hq). fold b in Hb, Ho.
  apply bind_ok in Hok as ([amm [qs sur]] & Hswap & Hok).
  apply swap_base_asset_frame, swapped_totals in Hswap as (Hn & _).
  apply bind_ok in Hok as ([qa sur'] & _ & Hok).
  apply bind_ok in Hok as (q & _ & Hok).
  apply bind_ok in Hok as (sb & Hsb & Hok). apply signed_base_asset_amount_ok in Hsb as [Hsb _].
  apply bind_ok in Hok as (nb & Hnb & Hok). apply cadd_ok in Hnb as [-> _].
  cbn in Hok. rewrite Hb in Hok.
  apply bind_ok in Hok as (m2 & Hm2 & Hok).
  apply add_base_asset_amount_ok in Hm2 as (Hl2 & Hs2 & Hn2 & Ho2 & _);
    [|subst sb; destruct d; lia..].
  apply bind_ok in Hok as (m3 & Hm3 & Hok).
  apply add_quote_asset_amount_ok in Hm3 as (Hl3 & Hs3 & Hn3 & Ho3).
  apply Ok_inj in Hok; injection Hok as <- <- <-. cbn in *. rewrite Ha in Hn.
  subst sb. split; [done|]. split; try lia.
  rewrite Ho3, Ho2, Ho.
  destruct (Z.eqb_spec b 0), (Z.eqb_spec (b + match d with Long => x | Short => - x end) 0);
    destruct d; lia.
Qed.

(** A reduction that is smaller than the position keeps its side. *)
Lemma reduce_with_base_ok d x m p now limit mark m' p' r :
  let b := p.(MarketPosition.base_asset_amount) in
  0 ≤ x < Z.abs b → increases_position b d = false →
  reduce_with_base_asset_amount d x m p now limit mark = Ok (m', p', r) →
  let b' := p'.(MarketPosition.base_asset_amount) in
  b' = b + (match d with Long => x | Short => - x end) ∧ tracks m m' b b'
  ∧ m'.(Market.amm).(AMM.quote_asset_amount_long) = m.(Market.amm).(AMM.quote_asset_amount_long)
  ∧ m'.(Market.amm).(AMM.quote_asset_amount_short) = m.(Market.amm).(AMM.quote_asset_amount_short).
Proof.
  intros b Hx Hd Hok b'. subst b'. apply not_true_iff_false in Hd.
  rewrite increases_position_true in Hd. unfold reduce_with_base_asset_amount in Hok.
  apply bind_ok in Hok as ([amm [qs sur]] & Hswap & Hok).
  apply swap_base_asset_frame, swapped_totals in Hswap as (Hn & Hql & Hqs).
  apply bind_ok in Hok as ([qa sur'] & _ & Hok).
  apply bind_ok in Hok as (sb & Hsb & Hok). apply signed_base_asset_amount_ok in Hsb as [Hsb _].
  cbn in Hok. fold b in Hok.
  apply bind_ok in Hok as (nb & Hnb & Hok). apply cadd_ok in Hnb as [-> _].
  apply bind_ok in Hok as (m1 & Hm1 & Hok).
  unfold close_open_interest in Hm1. apply bind_ok in Hm1 as (oi & Hoi & Hm1).
  apply csub_ok in Hoi as [-> _]. apply Ok_inj in Hm1; subst m1.
  apply bind_ok in Hok as (m2 & Hm2 & Hok).
  apply add_base_asset_amount_ok in Hm2 as (Hl2 & Hs2 & Hn2 & Ho2 & Hql2 & Hqs2);
    [|subst sb; destruct d; lia..].
  apply bind_ok in Hok as (cl & _ & Hok). apply bind_ok in Hok as (q & _ & Hok).
  apply bind_ok in Hok as (s & _ & Hok). apply bind_ok in Hok as (c & _ & Hok).
  apply bind_ok in Hok as (pnl & _ & Hok). apply Ok_inj in Hok; injection Hok as <- <- <-.
  cbn in *. subst sb. split; [done|]. split; [|split; congruence]. split; try lia.
  rewrite Ho2.
  destruct (Z.eqb_spec b 0), (Z.eqb_spec (b + match d with Long => x | Short => - x end) 0);
    destruct d; lia.
Qed.

(** Closing empties the position and takes it out of the totals. *)
Lemma close_ok m p now limit mark spread m' p' r :
  close m p now limit mark spread = Ok (m', p', r) →
  let b := p.(MarketPosition.base_asset_amount) in
  p'.(MarketPosition.base_asset_amount) = 0 ∧ tracks m m' b 0 ∧ r.1.1.2 = b
  ∧ (b ≠ 0 → p'.(MarketPosition.quote_asset_amount) = 0
       ∧ p'.(MarketPosition.last_cumulative_funding_rate) = 0)
  ∧ m'.(Market.amm).(AMM.quote_asset_amount_long) = m.(Market.amm).(AMM.quote_asset_amount_long)
  ∧ m'.(Market.amm).(AMM.quote_asset_amount_short) = m.(Market.amm).(AMM.quote_asset_amount_short).
Proof.
  intros Hok b. unfold close in Hok. fold b in Hok. cbv zeta in Hok.
  destruct (Z.eqb_spec b 0) as [Hb|Hb].
  { apply Ok_inj in Hok; simplify_eq. rewrite Hb. done. }
  apply bind_ok in Hok as ([amm [qs sur]] & Hswap & Hok).
  apply swap_base_asset_frame, swapped_totals in Hswap as (Hn & Hql & Hqs).
  apply bind_ok in Hok as ([qa sur'] & _ & Hok).
  apply bind_ok in Hok as (pnl & _ & Hok). cbn in Hok.
  apply bind_ok in Hok as (oi & Hoi & Hok). apply csub_ok in Hoi as [-> _].
  apply bind_ok in Hok as (n & Hnn & Hok). apply csub_ok in Hnn as [-> _].
  apply bind_ok in Hok as (m1 & Hm1 & Hok). apply Ok_inj in Hok; injection Hok as <- <- <-.
  destruct (Z.ltb_spec 0 b); apply bind_ok in Hm1 as (x & Hx & Hm1);
    apply csub_ok in Hx as [-> _]; apply Ok_inj in Hm1 as <-; cbn in *; (split; [done|]);
    (split; [split; cbn; try lia; destruct (Z.eqb_spec b 0); lia|done]).
Qed.

Lemma trade_base_tracks x d m p mark now limit m' p' u :
  0 ≤ x →
  trade_base_asset_amount x d m p mark now limit = Ok (m', p', u) →
  p'.(MarketPosition.base_asset_amount)
    = p.(MarketPosition.base_asset_amount) + (match d with Long => x | Short => - x end)
  ∧ tracks m m' p.(MarketPosition.base_asset_amount) p'.(MarketPosition.base_asset_amount).
Proof.
  intros Hx Ht. unfold trade_base_asset_amount in Ht.
  set (b := MarketPosition.base_asset_amount p) in *. cbv zeta in Ht.
  destruct (increases_position b d) eqn:Hinc.
  - apply bind_ok in Ht as ([[m2 p2] [q s]] & Hi & Ht). apply Ok_inj in Ht; simplify_eq.
    apply increase_with_base_ok in Hi as [??]; done.
  - destruct (Z.ltb_spec x (unsigned_abs b)).
    + apply bind_ok in Ht as ([[m2 p2] [[q s] pnl]] & Hr & Ht).
      apply Ok_inj in Ht; simplify_eq.
      apply reduce_with_base_ok in Hr as (? & ? & _); unfold unsigned_abs in *; done || lia.
    + apply bind_ok in Ht as (after & Hafter & Ht). apply csub_ok in Hafter as [-> _].
      apply bind_ok in Ht as ([[m2 p2] [[[qc bc] sc] pnl]] & Hc & Ht).
      apply close_ok in Hc as (Hz & Htr & _ & _).
      apply bind_ok in Ht as ([[m3 p3] [qo so]] & Hi & Ht).
      apply increase_with_base_ok in Hi as [Hb Htr']; unfold unsigned_abs in *;
        [|lia|rewrite Hz; by destruct d].
      inv_ok. rewrite Hz in *. apply not_true_iff_false in Hinc.
      rewrite increases_position_true in Hinc.
      split; [destruct d; lia|by eapply tracks_trans].
Qed.

(** A trade in base units changes the position by exactly its signed amount and the
    market's totals by exactly what the position changes, on every branch:
    opening, increasing, reducing, closing and reversing. *)
Theorem update_position_with_base_asset_amount_tracks x d m user i mark now limit m' user' u :
  0 ≤ x →
  update_position_with_base_asset_amount x d m user i mark now limit = Ok (m', user', u) →
  ∃ p p', user.(User.positions) !! i = Some p ∧ user' = set_position user i p'
    ∧ p'.(MarketPosition.base_asset_amount)
      = p.(MarketPosition.base_asset_amount) + (match d with Long => x | Short => - x end)
    ∧ tracks m m' p.(MarketPosition.base_asset_amount) p'.(MarketPosition.base_asset_amount).
Proof.
  intros Hx Hok. unfold update_position_with_base_asset_amount in Hok.
  apply bind_ok in Hok as (p & Hp & Hok). apply unwrap_ok in Hp.
  apply bind_ok in Hok as ([[m1 p1] u1] & Ht & Hok). apply Ok_inj in Hok; simplify_eq.
  exists p, p1. split; [done|]. split; [done|]. by eapply trade_base_tracks.
Qed.

(** A trade is flagged as risk increasing exactly when the position does not get
    smaller. *)
Theorem trade_base_asset_amount_risk x d m p mark now limit m' p' u :
  0 < x →
  trade_base_asset_amount x d m p mark now limit = Ok (m', p', u) →
  u.(PositionUpdate.potentially_risk_increasing) =
    bool_decide (Z.abs p.(MarketPosition.base_asset_amount)
                 ≤ Z.abs p'.(MarketPosition.base_asset_amount)).
Proof.
  intros Hx Ht. unfold trade_base_asset_amount in Ht. cbv zeta in Ht.
  destruct (increases_position _ d) eqn:Hinc.
  - apply bind_ok in Ht as ([[m2 p2] [q s]] & Hi & Ht). apply Ok_inj in Ht; simplify_eq.
    apply increase_with_base_ok in Hi as [-> _]; [|lia|done].
    apply increases_position_true in Hinc. symmetry. apply bool_decide_eq_true.
    destruct d; lia.
  - pose proof Hinc as Hs. apply not_true_iff_false in Hs.
    rewrite increases_position_true in Hs. unfold unsigned_abs in Ht.
    destruct (Z.ltb_spec x (Z.abs (MarketPosition.base_asset_amount p))).
    + apply bind_ok in Ht as ([[m2 p2] [[q s] pnl]] & Hr & Ht).
      apply Ok_inj in Ht; simplify_eq.
      apply reduce_with_base_ok in Hr as (-> & _); [|lia|done].
      symmetry. apply bool_decide_eq_false. destruct d; lia.
    + apply bind_ok in Ht as (after & Hafter & Ht). apply csub_ok in Hafter as [-> _].
      apply bind_ok in Ht as ([[m2 p2] [[[qc bc] sc] pnl]] & Hc & Ht).
      apply close_ok in Hc as (Hz & _).
      apply bind_ok in Ht as ([[m3 p3] [qo so]] & Hi & Ht).
      apply increase_with_base_ok in Hi as [Hb _]; [|lia|rewrite Hz; by destruct d].
      inv_ok. cbn. rewrite Hb, Hz. apply eq_iff_eq_true.
      rewrite negb_true_iff, Z.ltb_ge, bool_decide_eq_true. destruct d; lia.
Qed.

(** Reducing and closing take the position out of the base totals but leave the
    quote totals as they are: the market's cost basis only ever grows. *)
Theorem reductions_keep_quote_totals x d m p mark now limit m' p' u :
  0 ≤ x ≤ Z.abs p.(MarketPosition.base_asset_amount) →
  increases_position p.(MarketPosition.base_asset_amount) d = false →
  trade_base_asset_amount x d m p mark now limit = Ok (m', p', u) →
  m'.(Market.amm).(AMM.quote_asset_amount_long) = m.(Market.amm).(AMM.quote_asset_amount_long)
  ∧ m'.(Market.amm).(AMM.quote_asset_amount_short) = m.(Market.amm).(AMM.quote_asset_amount_short)
  ∧ m'.(Market.amm).(AMM.net_base_asset_amount)
    = m.(Market.amm).(AMM.net_base_asset_amount) + (match d with Long => x | Short => - x end).
Proof.
  intros Hx Hinc Ht. unfold trade_base_asset_amount in Ht. rewrite Hinc in Ht.
  cbv zeta in Ht. unfold unsigned_abs in Ht.
  pose proof Hinc as Hs. apply not_true_iff_false in Hs.
  rewrite increases_position_true in Hs.
  destruct (Z.ltb_spec x (Z.abs (MarketPosition.base_asset_amount p))).
  - apply bind_ok in Ht as ([[m2 p2] [[q s] pnl]] & Hr & Ht).
    apply Ok_inj in Ht; simplify_eq.
    apply reduce_with_base_ok in Hr as (Hb & [] & -> & ->); [|lia|done].
    split_and!; [done..|lia].
  - apply bind_ok in Ht as (after & Hafter & Ht). apply csub_ok in Hafter as [-> _].
    apply bind_ok in Ht as ([[m2 p2] [[[qc bc] sc] pnl]] & Hc & Ht).
    apply close_ok in Hc as (_ & [] & _ & _ & Hl & Hsh).
    apply bind_ok in Ht as ([[m3 p3] [qo so]] & Hi & Ht).
    replace (x - Z.abs (MarketPosition.base_asset_amount p)) with 0 in Hi by lia.
    unfold increase_with_base_asset_amount in Hi. cbn in Hi. apply Ok_inj in Hi.
    inv_ok. split_and!; [done..|destruct d; lia].
Qed.

(** *** Trades given in quote *)

(** An increase by a quote amount: the position moves by what the curve gives. *)
Lemma increase_ok d q m p now mark m' p' base s :
  let b := p.(MarketPosition.base_asset_amount) in
  increase d q m p now mark = Ok (m', p', (base, s)) →
  let b' := p'.(MarketPosition.base_asset_amount) in
  b' = b + base ∧ (q = 0 → base = 0)
  ∧ ((0 < b' → 0 ≤ b) → (b' ≤ 0 → b ≤ 0) → (b = 0 → q ≠ 0 → b' ≠ 0) → (b ≠ 0 → b' ≠ 0) →
     tracks m m' b b').
Proof.
  intros b Hok b'. subst b'. unfold increase in Hok.
  destruct (Z.eqb_spec q 0) as [->|Hq0].
  { apply Ok_inj in Hok; injection Hok as <- <- <- <-. split_and!; [lia|done|].
    intros _ _ _ _. apply tracks_refl. }
  apply bind_ok in Hok as ([m1 p1] & Hopen & Hok).
  apply open_if_new_ok in Hopen as (Hl & Hs & Ha & Ho & Hb & Hq). fold b in Hb, Ho.
  apply bind_ok in Hok as (qq & _ & Hok).
  apply bind_ok in Hok as ([amm [ba sur]] & Hswap & Hok).
  apply swap_quote_asset_frame, swapped_totals in Hswap as (Hn & _).
  apply bind_ok in Hok as (nb & Hnb & Hok). apply cadd_ok in Hnb as [-> _].
  cbn in Hok. rewrite Hb in Hok.
  apply bind_ok in Hok as (m2 & Hm2 & Hok). apply bind_ok in Hok as (m3 & Hm3 & Hok).
  apply Ok_inj in Hok; injection Hok as <- <- <- <-. cbn. split; [done|]. split; [done|].
  intros Hpos Hneg Hnew Hold.
  apply add_base_asset_amount_ok in Hm2 as (Hl2 & Hs2 & Hn2 & Ho2 & _); [|lia..].
  apply add_quote_asset_amount_ok in Hm3 as (Hl3 & Hs3 & Hn3 & Ho3).
  cbn in *. rewrite Ha in Hn. split; try lia. rewrite Ho3, Ho2, Ho.
  destruct (Z.eqb_spec b 0), (Z.eqb_spec (b + ba) 0); naive_solver lia.
Qed.
(** *** The identity of a position *)

(** A trade never changes the market, the open orders or the unsettled profit of the
    position it is on. *)
Definition same_slot (p p' : MarketPosition) : Prop :=
  p'.(MarketPosition.market_index) = p.(MarketPosition.market_index)
  ∧ p'.(MarketPosition.open_orders) = p.(MarketPosition.open_orders)
  ∧ p'.(MarketPosition.unsettled_pnl) = p.(MarketPosition.unsettled_pnl).

Lemma same_slot_trans p1 p2 p3 : same_slot p1 p2 → same_slot p2 p3 → same_slot p1 p3.
Proof. unfold same_slot. intuition congruence. Qed.

Lemma open_if_new_slot d m p m' p' : open_if_new d m p = Ok (m', p') → same_slot p p'.
Proof. unfold open_if_new. intros. inv_ok; done. Qed.

Lemma increase_slot d q m p now mark m' p' r :
  increase d q m p now mark = Ok (m', p', r) → same_slot p p'.
Proof.
  unfold increase. intros Hok. destruct (q =? 0); [skip_steps Hok; done|].
  apply bind_ok in Hok as ([m1 p1] & Ho & Hok). apply open_if_new_slot in Ho.
  eapply same_slot_trans; [done|]. skip_steps Hok. done.
Qed.

Lemma increase_with_base_slot d q m p now limit mark m' p' r :
  increase_with_base_asset_amount d q m p now limit mark = Ok (m', p', r) → same_slot p p'.
Proof.
  unfold increase_with_base_asset_amount. intros Hok. destruct (q =? 0); [skip_steps Hok; done|].
  apply bind_ok in Hok as ([m1 p1] & Ho & Hok). apply open_if_new_slot in Ho.
  eapply same_slot_trans; [done|]. skip_steps Hok. done.
Qed.

Lemma reduce_slot d q m p now mark s m' p' r :
  reduce d q m p now mark s = Ok (m', p', r) → same_slot p p'.
Proof. unfold reduce. intros Hok. skip_steps Hok; done. Qed.

Lemma reduce_with_base_slot d q m p now limit mark m' p' r :
  reduce_with_base_asset_amount d q m p now limit mark = Ok (m', p', r) → same_slot p p'.
Proof. unfold reduce_with_base_asset_amount. intros Hok. skip_steps Hok; done. Qed.

Lemma close_slot m p now limit mark s m' p' r :
  close m p now limit mark s = Ok (m', p', r) → same_slot p p'.
Proof. unfold close. intros Hok. cbv zeta in Hok. skip_steps Hok; done. Qed.

#[local] Hint Resolve increase_slot increase_with_base_slot reduce_slot
  reduce_with_base_slot close_slot same_slot_trans : drift.

Lemma trade_base_asset_amount_slot x d m p mark now limit m' p' u :
  trade_base_asset_amount x d m p mark now limit = Ok (m', p', u) → same_slot p p'.
Proof.
  unfold trade_base_asset_amount. cbv zeta. intros Ht.
  destruct (increases_position _ d); [|destruct (x <? _)]; inv_ok; eauto with drift.
Qed.

Lemma trade_quote_asset_amount_slot x d m p mark now m' p' u :
  trade_quote_asset_amount x d m p mark now = Ok (m', p', u) → same_slot p p'.
Proof.
  unfold trade_quote_asset_amount. cbv zeta. intros Ht.
  destruct (increases_position _ d); [inv_ok; eauto with drift|].
  apply bind_ok in Ht as ([bv u0] & _ & Ht). apply bind_ok in Ht as (round & _ & Ht).
  destruct (_ <? _); inv_ok; eauto with drift.
Qed.

(** A trade that the code takes for a reduction is one: the position gets smaller by
    the whole amount, or what it opens on the other side has no cost. *)
Lemma reduce_only_trade_inv x d m p mark now limit m' p' u :
  0 ≤ x →
  trade_base_asset_amount x d m p mark now limit = Ok (m', p', u) →
  u.(PositionUpdate.reduce_only) = true →
  increases_position p.(MarketPosition.base_asset_amount) d = false
  ∧ (Z.abs p'.(MarketPosition.base_asset_amount)
       = Z.abs p.(MarketPosition.base_asset_amount) - x
     ∨ Z.abs p.(MarketPosition.base_asset_amount) < x
       ∧ p'.(MarketPosition.quote_asset_amount) = 0).
Proof.
  intros Hx Ht Hr. unfold trade_base_asset_amount in Ht. cbv zeta in Ht.
  destruct (increases_position _ d) eqn:Hinc; [inv_ok; done|]. split; [done|].
  pose proof Hinc as Hs. apply not_true_iff_false in Hs.
  rewrite increases_position_true in Hs. unfold unsigned_abs in Ht.
  destruct (Z.ltb_spec x (Z.abs (MarketPosition.base_asset_amount p))).
  - apply bind_ok in Ht as ([[m2 p2] [[q s] pnl]] & Hred & Ht).
    apply Ok_inj in Ht; simplify_eq.
    apply reduce_with_base_ok in Hred as (-> & _); [|lia|done]. left. destruct d; lia.
  - apply bind_ok in Ht as (after & Hafter & Ht). apply csub_ok in Hafter as [-> _].
    apply bind_ok in Ht as ([[m2 p2] [[[qc bc] sc] pnl]] & Hc & Ht).
    apply close_ok in Hc as (Hz & _ & _ & Hq & _).
    apply bind_ok in Ht as ([[m3 p3] [qo so]] & Hi & Ht).
    pose proof Hi as Hi'.
    apply increase_with_base_ok in Hi as [Hb _]; [|lia|rewrite Hz; by destruct d].
    inv_ok. cbn in Hr. apply Z.eqb_eq in Hr. subst qo.
    destruct (decide (x = Z.abs (MarketPosition.base_asset_amount p))) as [->|Hne].
    { left. rewrite Hb, Hz. destruct d; lia. }
    right. split; [lia|]. destruct Hq as [Hq _]; [destruct d; lia|].
    unfold increase_with_base_asset_amount in Hi'.
    destruct (Z.eqb_spec (x - Z.abs (MarketPosition.base_asset_amount p)) 0); [lia|].
    apply bind_ok in Hi' as ([m4 p4] & Ho & Hi').
    apply open_if_new_ok in Ho as (_ & _ & _ & _ & _ & Hq4).
    apply bind_ok in Hi' as ([amm [qs sur]] & _ & Hi').
    apply bind_ok in Hi' as ([qa sur'] & _ & Hi').
    apply bind_ok in Hi' as (q & Hqq & Hi'). apply cadd_ok in Hqq as [-> _].
    skip_steps Hi'. cbn. lia.
Qed.
End Properties.
