(* ===== verification/Maps.v ===== *)
(** * Market, bank and oracle maps (state/market_map.rs, state/bank_map.rs,
      state/oracle_map.rs)

    The accounts of an instruction, by market index, bank index and oracle key.
    An account's data is in a [RefCell]: while it is mutably borrowed every other
    borrow fails.  A mutable borrow takes the data out of its cell and leaves
    [MutBorrowed] behind; dropping it puts the data back.  The oracle map caches
    the prices it has read.

    The [load] functions, which fill the maps from the instruction's account list,
    are in Loading.v. *)

From stdpp Require Import base numbers gmap.
From S2P Require Import Prelude Constants State Bn Value AmmMath Twap Oracle.
Local Open Scope Z_scope.

(** ** Definitions *)

(** An [AccountLoader]: its data, unless a [RefMut] holds it. *)
Inductive loader (A : Type) :=
| Loaded (a : A)
| MutBorrowed.
Arguments Loaded {A} a.
Arguments MutBorrowed {A}.

Abbreviation MarketMap := (gmap Z (loader Market)).
Abbreviation BankMap := (gmap Z (loader Bank)).

Definition load_cell {A} (m : gmap Z (loader A)) (i : Z) (not_found unable : ErrorCode)
    : result A :=
  match m !! i with
  | Some (Loaded a) => Ok a
  | Some MutBorrowed => Err unable
  | None => Err not_found
  end.

(** A mutable borrow: the data, and the map without it. *)
Definition load_cell_mut {A} (m : gmap Z (loader A)) (i : Z)
    (not_found unable : ErrorCode) : result (A * gmap Z (loader A)) :=
  let? a := load_cell m i not_found unable in
  Ok (a, <[i := MutBorrowed]> m).

(** The end of a mutable borrow. *)
Definition drop_mut {A} (m : gmap Z (loader A)) (i : Z) (a : A) : gmap Z (loader A) :=
  <[i := Loaded a]> m.

(** A number of every account that is not borrowed, summed over a map. *)
Definition cell_value {A} (f : A → Z) (c : loader A) : Z :=
  match c with Loaded a => f a | MutBorrowed => 0 end.
Definition cell_sum {A} (f : A → Z) (m : gmap Z (loader A)) : Z :=
  map_fold (λ _ c x, cell_value f c + x) 0 m.

(** The part of every account that [f] shows. *)
Definition cell_map {A B} (f : A → B) (c : loader A) : loader B :=
  match c with Loaded a => Loaded (f a) | MutBorrowed => MutBorrowed end.
Definition view {A B} (f : A → B) (m : gmap Z (loader A)) : gmap Z (loader B) :=
  cell_map f <$> m.

Definition market_get_ref (m : MarketMap) (market_index : Z) : result Market :=
  load_cell m market_index MarketNotFound UnableToLoadMarketAccount.
Definition market_get_ref_mut (m : MarketMap) (market_index : Z)
    : result (Market * MarketMap) :=
  load_cell_mut m market_index MarketNotFound UnableToLoadMarketAccount.
Definition bank_get_ref (m : BankMap) (bank_index : Z) : result Bank :=
  load_cell m bank_index BankNotFound UnableToLoadBankAccount.
Definition bank_get_ref_mut (m : BankMap) (bank_index : Z) : result (Bank * BankMap) :=
  load_cell_mut m bank_index BankNotFound UnableToLoadBankAccount.
Definition get_quote_asset_bank (m : BankMap) : result Bank :=
  bank_get_ref m QUOTE_ASSET_BANK_INDEX.
Definition get_quote_asset_bank_mut (m : BankMap) : result (Bank * BankMap) :=
  bank_get_ref_mut m QUOTE_ASSET_BANK_INDEX.

(** *** The oracle map *)

Module OracleMap.
Record OracleMap `{OracleAccounts} := mk {
  oracles : gmap Pubkey (AccountInfo * OracleSource);
  price_data : gmap Pubkey OraclePriceData;
  slot : Z;
  quote_asset_price_data : OraclePriceData;
}.
#[export] Instance OracleMap_eta `{OracleAccounts} : Eta OracleMap := λ r,
  mk _ r.(oracles) r.(price_data) r.(slot) r.(quote_asset_price_data).
End OracleMap.
Abbreviation OracleMap := OracleMap.OracleMap.
Export (hints) OracleMap.

(** The price of the quote asset, which the map holds from the start. *)
Definition quote_asset_price : OraclePriceData :=
  OraclePriceData.mk MARK_PRICE_PRECISION_I128 1 0 true.

Section Oracles.
Context `{OracleAccounts}.

Definition oracle_map_contains (m : OracleMap) (pubkey : Pubkey) : bool :=
  bool_decide (is_Some (m.(OracleMap.oracles) !! pubkey)) || (pubkey =? Pubkey_default).

Definition get_account_info (m : OracleMap) (pubkey : Pubkey) : result AccountInfo :=
  let? a := ok_or (m.(OracleMap.oracles) !! pubkey) OracleNotFound in
  Ok a.1.

Definition get_price_data (m : OracleMap) (pubkey : Pubkey)
    : result (OracleMap * OraclePriceData) :=
  if pubkey =? Pubkey_default then Ok (m, m.(OracleMap.quote_asset_price_data))
  else
    match m.(OracleMap.price_data) !! pubkey with
    | Some price_data => Ok (m, price_data)
    | None =>
        let? ' (account_info, oracle_source) :=
          ok_or (m.(OracleMap.oracles) !! pubkey) OracleNotFound in
        let? price_data := get_oracle_price oracle_source account_info m.(OracleMap.slot) in
        Ok (m <| OracleMap.price_data :=
                   <[pubkey := price_data]> m.(OracleMap.price_data) |>, price_data)
    end.
End Oracles.

(** ** Properties *)

Lemma load_cell_ok {A} (m : gmap Z (loader A)) i nf un a :
  load_cell m i nf un = Ok a ↔ m !! i = Some (Loaded a).
Proof. unfold load_cell. destruct (m !! i) as [[]|]; naive_solver. Qed.

Lemma load_cell_mut_ok {A} (m : gmap Z (loader A)) i nf un a m' :
  load_cell_mut m i nf un = Ok (a, m') ↔ m !! i = Some (Loaded a) ∧ m' = <[i := MutBorrowed]> m.
Proof.
  unfold load_cell_mut. rewrite bind_ok. setoid_rewrite load_cell_ok. naive_solver.
Qed.

(** Dropping a borrow leaves the map with the new data. *)
Lemma drop_borrowed {A} (m : gmap Z (loader A)) i a :
  drop_mut (<[i := MutBorrowed]> m) i a = <[i := Loaded a]> m.
Proof. apply insert_insert_eq. Qed.

(** While a cell is mutably borrowed no other borrow of it succeeds, every other
    cell is as before, and dropping the borrow makes the new data visible. *)
Theorem load_cell_mut_exclusive {A} (m : gmap Z (loader A)) i nf un a m' :
  load_cell_mut m i nf un = Ok (a, m') →
  load_cell m i nf un = Ok a
  ∧ (∀ nf' un', load_cell m' i nf' un' = Err un' ∧ load_cell_mut m' i nf' un' = Err un')
  ∧ (∀ j nf' un', j ≠ i → load_cell m' j nf' un' = load_cell m j nf' un')
  ∧ (∀ b nf' un', load_cell (drop_mut m' i b) i nf' un' = Ok b
       ∧ ∀ j, j ≠ i → load_cell (drop_mut m' i b) j nf' un' = load_cell m j nf' un').
Proof.
  intros Hok. unfold load_cell_mut in *. apply bind_ok in Hok as (x & Hx & Hok).
  apply Ok_inj in Hok; simplify_eq. split; [done|]. unfold load_cell, drop_mut.
  split_and!.
  - intros. by rewrite lookup_insert_eq.
  - intros. by rewrite lookup_insert_ne.
  - intros. rewrite lookup_insert_eq. split; [done|]. intros j Hj.
    by rewrite !lookup_insert_ne.
Qed.

Lemma cell_sum_insert {A} (f : A → Z) m k c c' :
  m !! k = Some c → cell_sum f (<[k:=c']> m) = cell_sum f m - cell_value f c + cell_value f c'.
Proof.
  intros Hk. unfold cell_sum.
  rewrite <-(insert_delete_id m k c) at 2 by done. rewrite <-(insert_delete_eq m k c').
  rewrite !map_fold_insert_L; try apply lookup_delete_eq; intros; lia.
Qed.

Lemma cell_sum_new {A} (f : A → Z) m k c :
  m !! k = None → cell_sum f (<[k:=c]> m) = cell_sum f m + cell_value f c.
Proof.
  intros Hk. unfold cell_sum. rewrite map_fold_insert_L; [lia|intros; lia|done].
Qed.

(** A borrow that ends with data that shows the same shows the same. *)
Lemma view_drop {A B} (f : A → B) m m' k a a' :
  m !! k = Some (Loaded a) → view f m' = view f (<[k:=MutBorrowed]> m) → f a' = f a →
  view f (drop_mut m' k a') = view f m.
Proof.
  intros Hk Hm Ha. unfold view, drop_mut in *. rewrite !fmap_insert in *. rewrite Hm.
  rewrite insert_insert_eq. cbn. apply insert_id. by rewrite lookup_fmap, Hk; cbn; rewrite Ha.
Qed.

Lemma view_put {A B} (f : A → B) m k a a' :
  m !! k = Some (Loaded a) → f a' = f a → view f (<[k:=Loaded a']> m) = view f m.
Proof. intros Hk Ha. rewrite <-drop_borrowed. by eapply view_drop. Qed.

(** What a part of an account shows, the account shows. *)
Lemma view_part {A B C} (g : B → C) (f : A → B) m m' :
  view f m' = view f m → view (λ a, g (f a)) m' = view (λ a, g (f a)) m.
Proof.
  assert (∀ m, view (λ a, g (f a)) m = view g (view f m)) as Hcomp.
  { intros n. unfold view. rewrite <-map_fmap_compose. apply map_fmap_ext. by intros ? [] _. }
  intros Hv. by rewrite !Hcomp, Hv.
Qed.

Lemma view_lookup {A B} (f : A → B) m m' k a' :
  view f m' = view f m → m' !! k = Some (Loaded a') →
  ∃ a, m !! k = Some (Loaded a) ∧ f a' = f a.
Proof.
  intros Hv Hk. apply (f_equal (.!! k)) in Hv. unfold view in Hv.
  rewrite !lookup_fmap, Hk in Hv. destruct (m !! k) as [[a|]|]; cbn in Hv; try done.
  exists a. split; [done|congruence].
Qed.

Lemma view_none {A B} (f : A → B) m m' k :
  view f m' = view f m → m' !! k = None ↔ m !! k = None.
Proof.
  intros Hv. apply (f_equal (.!! k)) in Hv. unfold view in Hv. rewrite !lookup_fmap in Hv.
  destruct (m !! k), (m' !! k); cbn in Hv; naive_solver.
Qed.

Lemma cell_sum_view {A B} (g : B → Z) (f : A → B) m :
  cell_sum (λ a, g (f a)) m = cell_sum g (view f m).
Proof.
  induction m as [|k c m Hk IH] using map_ind; [done|].
  unfold view. rewrite fmap_insert. fold (view f m).
  rewrite !cell_sum_new, IH by (done || by unfold view; rewrite lookup_fmap, Hk).
  by destruct c.
Qed.

#[export] Instance load_cell_frame {A} (m : gmap Z (loader A)) i nf un :
  Frame (load_cell m i nf un) (λ a, m !! i = Some (Loaded a)).
Proof. intros a Hok. by apply load_cell_ok in Hok. Qed.
#[export] Instance load_cell_mut_frame {A} (m : gmap Z (loader A)) i nf un :
  Frame (load_cell_mut m i nf un)
    (λ r, m !! i = Some (Loaded r.1) ∧ r.2 = <[i := MutBorrowed]> m).
Proof. intros [a m'] Hok. by apply load_cell_mut_ok in Hok. Qed.
#[export] Instance market_get_ref_mut_frame m i :
  Frame (market_get_ref_mut m i) (λ r, m !! i = Some (Loaded r.1) ∧ r.2 = <[i := MutBorrowed]> m).
Proof. apply load_cell_mut_frame. Qed.
#[export] Instance market_get_ref_frame m i :
  Frame (market_get_ref m i) (λ r, m !! i = Some (Loaded r)).
Proof. apply load_cell_frame. Qed.

Section OracleProperties.
Context `{OracleAccounts}.

(** What the map stands for: the price of a key, read from its account. *)
Definition oracle_price_of (m : OracleMap) (pubkey : Pubkey) : result OraclePriceData :=
  if pubkey =? Pubkey_default then Ok m.(OracleMap.quote_asset_price_data)
  else
    let? a := ok_or (m.(OracleMap.oracles) !! pubkey) OracleNotFound in
    get_oracle_price a.2 a.1 m.(OracleMap.slot).

(** Every cached price is what reading its account gives. *)
Definition cache_ok (m : OracleMap) : Prop :=
  ∀ k d, m.(OracleMap.price_data) !! k = Some d →
    ∃ a, m.(OracleMap.oracles) !! k = Some a
         ∧ get_oracle_price a.2 a.1 m.(OracleMap.slot) = Ok d.

(** The cache is invisible: a lookup gives the price of the account, keeps the
    cache sound and does not change the price of any key. *)
Theorem get_price_data_refines m k :
  cache_ok m →
  match get_price_data m k with
  | Ok (m', d) => oracle_price_of m k = Ok d ∧ cache_ok m'
                  ∧ ∀ k', oracle_price_of m' k' = oracle_price_of m k'
  | Err e => oracle_price_of m k = Err e
  | Panic => oracle_price_of m k = Panic
  end.
Proof.
  intros Hc. unfold get_price_data, oracle_price_of.
  destruct (Z.eqb_spec k Pubkey_default); [done|].
  destruct (OracleMap.price_data m !! k) as [d|] eqn:Hd.
  - destruct (Hc _ _ Hd) as (a & Ha & Hp). rewrite Ha. done.
  - destruct (OracleMap.oracles m !! k) as [[acc src]|] eqn:Hk; [|done]. cbn.
    destruct (get_oracle_price src acc (OracleMap.slot m)) as [d|e|] eqn:Hp; [|done..].
    cbn. split_and!; [done| |done]. intros k' d'. cbn.
    destruct (decide (k' = k)) as [->|].
    + rewrite lookup_insert_eq. intros [= <-]. rewrite Hk. eauto.
    + rewrite lookup_insert_ne by done. apply Hc.
Qed.
End OracleProperties.
