(* ===== verification/Funding.v ===== *)
(** * Funding (math/funding.rs, controller/funding.rs)

    The funding payment of a position, the rates of the two sides when the fee
    pool pays for their imbalance, the settlement of a user's positions and the
    hourly update of a market.  EventFunding adds the records that the code
    emits. *)

From stdpp Require Import base numbers list gmap.
From S2P Require Import Prelude Constants Bn State Value AmmMath Twap Oracle Maps.
From S2P Require Import PositionMath CurveMath Repeg.
Local Open Scope Z_scope.

(** ** Definitions: math/funding.rs *)

Definition calculate_funding_rate_from_pnl_limit (pnl_limit base_asset_amount : Z)
    : result Z :=
  if base_asset_amount =? 0 then Ok 0
  else
    let? pnl_limit_biased :=
      if pnl_limit <? 0 then cadd I128 pnl_limit 1 else Ok pnl_limit in
    let? x := cmul I128 pnl_limit_biased QUOTE_TO_BASE_AMT_FUNDING_PRECISION in
    cdiv I128 x base_asset_amount.

Section Math.
Context `{BnLib}.

Definition _calculate_funding_payment (funding_rate_delta base_asset_amount : Z)
    : result Z :=
  let funding_rate_delta_sign := if 0 <? funding_rate_delta then 1 else -1 in
  let? x := bn_mul U192 (bn_from U192 (unsigned_abs funding_rate_delta))
              (bn_from U192 (unsigned_abs base_asset_amount)) in
  let? x := bn_div U192 x (bn_from U192 MARK_PRICE_PRECISION) in
  let? x := bn_div U192 x (bn_from U192 FUNDING_PAYMENT_PRECISION) in
  let? x := try_to_u128 U192 x in
  let? funding_rate_payment_magnitude := cast_to_i128 x in
  let funding_rate_payment_sign := if 0 <? base_asset_amount then -1 else 1 in
  let? y := cmul I128 funding_rate_payment_magnitude funding_rate_payment_sign in
  cmul I128 y funding_rate_delta_sign.

Definition calculate_funding_payment (amm_cumulative_funding_rate : Z)
    (market_position : MarketPosition) : result Z :=
  let? funding_rate_delta := csub I128 amm_cumulative_funding_rate
    market_position.(MarketPosition.last_cumulative_funding_rate) in
  _calculate_funding_payment funding_rate_delta
    market_position.(MarketPosition.base_asset_amount).

Definition calculate_funding_payment_in_quote_precision (funding_rate_delta
    base_asset_amount : Z) : result Z :=
  let? funding_payment := _calculate_funding_payment funding_rate_delta base_asset_amount in
  let? p := cast_to_i128 AMM_TO_QUOTE_PRECISION_RATIO in
  cdiv I128 funding_payment p.

(** [funding_rate_pnl_limit] of [calculate_capped_funding_rate]: two thirds of the fees
    above the lower bound, as a negative number. *)
Definition funding_rate_pnl_limit (market : Market) : result Z :=
  let amm := market.(Market.amm) in
  let? lower_bound := total_fee_lower_bound market in
  if lower_bound <? amm.(AMM.total_fee_minus_distributions) then
    let? d := csub U128 amm.(AMM.total_fee_minus_distributions) lower_bound in
    let? d := cmul U128 d 2 in
    let? d := cdiv U128 d 3 in
    let? d := cast_to_i128 d in
    Ok (- d)
  else Ok 0.

Definition calculate_capped_funding_rate (market : Market) (uncapped_funding_pnl
    funding_rate : Z) : result (Z * Z) :=
  let? limit := funding_rate_pnl_limit market in
  let capped_funding_pnl := Z.max uncapped_funding_pnl limit in
  let? capped_funding_rate :=
    if uncapped_funding_pnl <? limit then
      let? funding_payment_from_users :=
        if 0 <? funding_rate
        then calculate_funding_payment_in_quote_precision funding_rate
               market.(Market.base_asset_amount_long)
        else calculate_funding_payment_in_quote_precision funding_rate
               market.(Market.base_asset_amount_short) in
      let? limit := csub I128 limit (wrap I128 (Z.abs funding_payment_from_users)) in
      if funding_rate <? 0
      then calculate_funding_rate_from_pnl_limit limit market.(Market.base_asset_amount_long)
      else calculate_funding_rate_from_pnl_limit limit market.(Market.base_asset_amount_short)
    else Ok funding_rate in
  Ok (capped_funding_rate, capped_funding_pnl).

Definition calculate_funding_rate_long_short (market : Market) (funding_rate : Z)
    : result (Market * (Z * Z)) :=
  let amm := market.(Market.amm) in
  let? payment := calculate_funding_payment_in_quote_precision funding_rate
    amm.(AMM.net_base_asset_amount) in
  let uncapped_funding_pnl := wrap I128 (- payment) in
  if 0 <=? uncapped_funding_pnl then
    let? x := cadd U128 amm.(AMM.total_fee_minus_distributions)
                (unsigned_abs uncapped_funding_pnl) in
    Ok (set_total_fee_minus_distributions market x, (funding_rate, funding_rate))
  else
    let? ' (capped_funding_rate, capped_funding_pnl) :=
      calculate_capped_funding_rate market uncapped_funding_pnl funding_rate in
    let? new_total_fee_minus_distributions :=
      csub U128 amm.(AMM.total_fee_minus_distributions) (unsigned_abs capped_funding_pnl) in
    let? ' () :=
      if negb (capped_funding_pnl =? 0) then
        let? lower_bound := total_fee_lower_bound market in
        if new_total_fee_minus_distributions <? lower_bound
        then Err InvalidFundingProfitability else Ok ()
      else Ok () in
    let market :=
      set_total_fee_minus_distributions market new_total_fee_minus_distributions in
    let funding_rate_long :=
      if funding_rate <? 0 then capped_funding_rate else funding_rate in
    let funding_rate_short :=
      if 0 <? funding_rate then capped_funding_rate else funding_rate in
    Ok (market, (funding_rate_long, funding_rate_short)).
End Math.

(** ** Definitions: controller/funding.rs *)

(** The seconds to wait after the last update, so that updates fall on multiples of
    the period; [rem_euclid] by a positive period is [mod]. *)
Definition calculate_next_update_wait (last_funding_rate_ts funding_period : Z) : result Z :=
  if 1 <? funding_period then
    let last_update_delay := last_funding_rate_ts mod funding_period in
    if negb (last_update_delay =? 0) then
      let? max_delay_for_next_period := cdiv I64 funding_period 3 in
      let? two_funding_periods := cmul I64 funding_period 2 in
      let? next_update_wait :=
        if max_delay_for_next_period <? last_update_delay
        then csub I64 two_funding_periods last_update_delay
        else csub I64 funding_period last_update_delay in
      if two_funding_periods <? next_update_wait
      then csub I64 next_update_wait funding_period
      else Ok next_update_wait
    else Ok funding_period
  else Ok funding_period.

(** The funding rate of the averages: their spread, clamped to a 33rd of the oracle
    average, over the periods of a day. *)
Definition calculate_funding_rate (mid_price_twap oracle_price_twap funding_period : Z)
    : result Z :=
  let? x := cmul I128 24 ONE_HOUR_I128 in
  let? period_adjustment := cdiv I128 x (Z.max ONE_HOUR_I128 funding_period) in
  let? mid := cast_to_i128 mid_price_twap in
  let? price_spread := csub I128 mid oracle_price_twap in
  let? max_price_spread := cdiv I128 oracle_price_twap 33 in
  let clamped_price_spread :=
    Z.max (wrap I128 (- max_price_spread)) (Z.min price_spread max_price_spread) in
  let? y := cmul I128 clamped_price_spread FUNDING_PAYMENT_PRECISION in
  cdiv I128 y period_adjustment.

Section Controller.
Context `{BnLib}.

(** The loop body of [settle_funding_payment]. *)
Definition settle_position_funding (market_map : MarketMap)
    (market_position : MarketPosition) : result MarketPosition :=
  if market_position.(MarketPosition.base_asset_amount) =? 0 then Ok market_position
  else
    let? market := market_get_ref market_map market_position.(MarketPosition.market_index) in
    let amm := market.(Market.amm) in
    let amm_cumulative_funding_rate :=
      if 0 <? market_position.(MarketPosition.base_asset_amount)
      then amm.(AMM.cumulative_funding_rate_long)
      else amm.(AMM.cumulative_funding_rate_short) in
    if negb (amm_cumulative_funding_rate
             =? market_position.(MarketPosition.last_cumulative_funding_rate)) then
      let? x := calculate_funding_payment amm_cumulative_funding_rate market_position in
      let? market_funding_payment := cdiv I128 x AMM_TO_QUOTE_PRECISION_RATIO_I128 in
      let? u := cadd I128 market_position.(MarketPosition.unsettled_pnl)
                  market_funding_payment in
      Ok (market_position
            <| MarketPosition.last_cumulative_funding_rate := amm_cumulative_funding_rate |>
            <| MarketPosition.last_funding_rate_ts := amm.(AMM.last_funding_rate_ts) |>
            <| MarketPosition.unsettled_pnl := u |>)
    else Ok market_position.

(** A loop over a list that fails with its first failure. *)
Fixpoint map_result {A B} (f : A → result B) (l : list A) : result (list B) :=
  match l with
  | [] => Ok []
  | x :: l => let? y := f x in let? ys := map_result f l in Ok (y :: ys)
  end.

Definition settle_funding_payment (user : User) (market_map : MarketMap) : result User :=
  let? positions := map_result (settle_position_funding market_map) user.(User.positions) in
  Ok (user <| User.positions := positions |>).

Definition update_funding_rate `{OracleAccounts} (market : Market)
    (price_oracle : AccountInfo) (now clock_slot : Z) (guard_rails : OracleGuardRails)
    (funding_paused : bool) (precomputed_mark_price : option Z) : result Market :=
  let amm := market.(Market.amm) in
  let? time_since_last_update := csub I64 now amm.(AMM.last_funding_rate_ts) in
  let? ' (block_funding_rate_update, oracle_price_data) :=
    block_operation amm price_oracle clock_slot guard_rails precomputed_mark_price in
  let? next_update_wait :=
    calculate_next_update_wait amm.(AMM.last_funding_rate_ts) amm.(AMM.funding_period) in
  if negb funding_paused && negb block_funding_rate_update
     && (next_update_wait <=? time_since_last_update) then
    let? ' (amm, oracle_price_twap) :=
      update_oracle_price_twap amm now oracle_price_data precomputed_mark_price in
    let? ' (amm, mid_price_twap) := update_mark_twap amm now None in
    let market := market <| Market.amm := amm |> in
    let? funding_rate :=
      calculate_funding_rate mid_price_twap oracle_price_twap amm.(AMM.funding_period) in
    let? ' (market, (funding_rate_long, funding_rate_short)) :=
      calculate_funding_rate_long_short market funding_rate in
    let amm := market.(Market.amm) in
    let? l := cadd I128 amm.(AMM.cumulative_funding_rate_long) funding_rate_long in
    let? s := cadd I128 amm.(AMM.cumulative_funding_rate_short) funding_rate_short in
    let '(_, next_id) := get_then_update_id market.(Market.next_funding_rate_record_id) in
    Ok (market <| Market.amm := amm <| AMM.cumulative_funding_rate_long := l |>
                                    <| AMM.cumulative_funding_rate_short := s |>
                                    <| AMM.last_funding_rate := funding_rate |>
                                    <| AMM.last_funding_rate_ts := now |> |>
               <| Market.next_funding_rate_record_id := next_id |>)
  else Ok market.
End Controller.

(** ** Properties *)

Section NextUpdate.
Context (ts period : Z) (Hperiod : 1 < period).

(** The wait until the multiple of the period that the next update falls on. *)
Let wait := (if period / 3 <? ts mod period then 2 else 1) * period - ts mod period.

Lemma next_update_wait_exact w :
  calculate_next_update_wait ts period = Ok w → w = wait.
Proof.
  intros Hok. unfold calculate_next_update_wait in Hok. subst wait.
  rewrite (proj2 (Z.ltb_lt 1 period)) in Hok by done.
  pose proof (Z.mod_pos_bound ts period ltac:(lia)) as Hm.
  pose proof (Z.div_pos period 3 ltac:(lia) ltac:(lia)).
  destruct (Z.eqb_spec (ts mod period) 0) as [Hd|Hd]; cbn [negb] in Hok.
  { apply Ok_inj in Hok as <-. rewrite Hd, (proj2 (Z.ltb_ge _ _)) by done. lia. }
  apply bind_ok in Hok as (m3 & Hm3 & Hok). apply cdiv_ok in Hm3 as (_ & -> & _).
  apply bind_ok in Hok as (m2 & Hm2 & Hok). apply cmul_ok in Hm2 as [-> _].
  unfold int_quot in Hok; cbn [is_signed] in Hok. rewrite Z.quot_div_nonneg in Hok by lia.
  apply bind_ok in Hok as (x & Hx & Hok).
  destruct (period / 3 <? ts mod period); apply csub_ok in Hx as [-> _];
    (match type of Hok with context [?a <? ?b] => destruct (Z.ltb_spec a b) end; [lia|]);
    apply Ok_inj in Hok as <-; lia.
Qed.

Lemma next_update_wait_total :
  has_type I64 (period * 2) → calculate_next_update_wait ts period = Ok wait.
Proof.
  intros Hty. unfold calculate_next_update_wait. subst wait.
  rewrite (proj2 (Z.ltb_lt 1 period)) by done.
  pose proof (Z.mod_pos_bound ts period ltac:(lia)) as Hm.
  pose proof (Z.div_pos period 3 ltac:(lia) ltac:(lia)).
  assert (period / 3 ≤ period) by (apply Z.div_le_upper_bound; lia).
  assert (∀ z, 0 ≤ z ≤ period * 2 → has_type I64 z) as Hin.
  { revert Hty. unfold has_type. cbn [int_min int_max]. lia. }
  destruct (Z.eqb_spec (ts mod period) 0) as [Hd|Hd]; cbn [negb].
  { rewrite Hd, (proj2 (Z.ltb_ge _ _)) by done. f_equal. lia. }
  assert (cdiv I64 period 3 = Ok (period / 3)) as ->.
  { apply cdiv_ok. unfold int_quot; cbn [is_signed]. rewrite Z.quot_div_nonneg by lia.
    split; [done|]. split; [done|]. apply Hin. lia. }
  cbn [bind]. rewrite cmul_in by done. cbn [bind].
  destruct (period / 3 <? ts mod period); rewrite csub_in by (apply Hin; lia);
    cbn [bind]; (rewrite (proj2 (Z.ltb_ge _ _)) by lia); f_equal; lia.
Qed.
End NextUpdate.

(** C35. The next update falls on the next multiple of the period or, when the last one
    came more than a third of a period late, on the one after it: the wait is what is left
    until then, whenever twice the period fits the timestamp.  That is never more than two
    periods, so that the further period which the code takes off a longer wait is never
    taken off, and the two updates are two thirds to five thirds of a period apart. *)
Theorem next_update_wait_on_period ts period :
  1 < period →
  let late := ts mod period in
  let wait := (if period / 3 <? late then 2 else 1) * period - late in
  (has_type I64 (period * 2) → calculate_next_update_wait ts period = Ok wait)
  ∧ (∀ w, calculate_next_update_wait ts period = Ok w → w = wait)
  ∧ wait ≤ 2 * period
  ∧ (ts + wait) mod period = 0
  ∧ period - period / 3 ≤ wait < 2 * period - period / 3.
Proof.
  intros Hp late wait.
  pose proof (Z.mod_pos_bound ts period ltac:(lia)) as Hm.
  pose proof (Z.div_mod ts period ltac:(lia)) as Hdm. fold late in Hm, Hdm.
  assert (3 * (period / 3) ≤ period < 3 * (period / 3) + 3) as H3.
  { pose proof (Z.div_mod period 3 ltac:(lia)).
    pose proof (Z.mod_pos_bound period 3 ltac:(lia)). lia. }
  split_and!.
  - intros Hty. by apply next_update_wait_total.
  - intros w. by apply next_update_wait_exact.
  - subst wait. destruct (_ <? _); lia.
  - subst wait. destruct (_ <? _).
    + replace (ts + (2 * period - late)) with ((ts / period + 2) * period) by lia.
      by apply Z.mod_mul; lia.
    + replace (ts + (1 * period - late)) with ((ts / period + 1) * period) by lia.
      by apply Z.mod_mul; lia.
  - subst wait. destruct (Z.ltb_spec (period / 3) late); lia.
  - subst wait. destruct (Z.ltb_spec (period / 3) late); lia.
Qed.

(** The clamped spread bounds the rate: with a positive oracle average it is at most
    a 33rd of the average, in funding precision, per period of the day. *)
Theorem calculate_funding_rate_bounds mid oracle period r :
  0 ≤ oracle → calculate_funding_rate mid oracle period = Ok r →
  Z.abs r ≤ oracle / 33 * FUNDING_PAYMENT_PRECISION
  ∧ (mid = oracle → r = 0) ∧ (oracle ≤ mid → 0 ≤ r) ∧ (mid ≤ oracle → r ≤ 0).
Proof.
  intros Ho Hok. unfold calculate_funding_rate in Hok.
  apply bind_ok in Hok as (x & Hx & Hok). apply cmul_ok in Hx as [-> _].
  apply bind_ok in Hok as (adj & Hadj & Hok). apply cdiv_ok in Hadj as (_ & -> & _).
  set (adj := int_quot _ _ _) in *. assert (0 ≤ adj) as Hadj.
  { unfold adj, int_quot, ONE_HOUR_I128. cbn [is_signed]. apply Z.quot_pos; lia. }
  apply bind_ok in Hok as (m & Hm & Hok). apply cast_ok in Hm as [-> _].
  apply bind_ok in Hok as (sp & Hsp & Hok). apply csub_ok in Hsp as [-> _].
  apply bind_ok in Hok as (mx & Hmx & Hok). apply cdiv_ok in Hmx as (_ & -> & Hmx).
  apply bind_ok in Hok as (y & Hy & Hok). apply cmul_ok in Hy as [-> _].
  apply cdiv_ok in Hok as (Hne & -> & _).
  unfold int_quot in *; cbn [is_signed] in *. rewrite (Z.quot_div_nonneg oracle 33) in * by lia.
  assert (0 ≤ oracle / 33) by (apply Z.div_pos; lia).
  rewrite wrap_in by (unfold has_type in *; cbn [int_min int_max] in *; lia).
  set (c := Z.max _ _). set (mx := oracle / 33) in *.
  assert (Z.abs c ≤ mx) by lia. unfold FUNDING_PAYMENT_PRECISION in *.
  pose proof (quot_abs_le (c * 10000) adj ltac:(lia)).
  split_and!; [lia|..]; intros.
  - assert (c = 0) as -> by lia. by apply Z.quot_0_l.
  - apply Z.quot_pos; lia.
  - assert (0 ≤ Z.quot (- (c * 10000)) adj) by (apply Z.quot_pos; lia).
    rewrite Z.quot_opp_l in * by lia. lia.
Qed.

Section Properties.
Context `{BnLaws}.

(** The payment of a position: its size times the change of the rate, rounded toward
    zero; a long pays when the rate rises, a short receives. *)
Theorem funding_payment_ok delta base x :
  has_type I128 delta → has_type I128 base →
  _calculate_funding_payment delta base = Ok x →
  let magnitude := Z.abs delta * Z.abs base / (MARK_PRICE_PRECISION * FUNDING_PAYMENT_PRECISION) in
  x = (if 0 <? base then - magnitude else magnitude) * (if 0 <? delta then 1 else -1)
  ∧ 0 ≤ magnitude.
Proof.
  intros Hd Hb Hok magnitude. unfold _calculate_funding_payment, unsigned_abs in Hok.
  assert (has_type U128 (Z.abs delta)) by int_lia.
  assert (has_type U128 (Z.abs base)) by int_lia.
  unfold MARK_PRICE_PRECISION, FUNDING_PAYMENT_PRECISION in *.
  rewrite !bn_from_spec in Hok by done.
  apply bind_ok in Hok as (y & Hy & Hok). apply bn_mul_ok in Hy as [-> ?]; [|bn_range_tac..].
  apply bind_ok in Hok as (y & Hy & Hok).
  apply bn_div_ok in Hy as (_ & -> & ?); [|done|by apply u128_bn_range].
  apply bind_ok in Hok as (y & Hy & Hok).
  apply bn_div_ok in Hy as (_ & -> & ?); [|done|by apply u128_bn_range].
  apply bind_ok in Hok as (y & Hy & Hok). apply try_to_u128_ok in Hy as [-> ?]; [|done].
  rewrite Z.div_div in * by lia. change (10000000000 * 10000) with 100000000000000 in *.
  fold magnitude in Hok |- *.
  assert (0 ≤ magnitude) by (apply Z.div_pos; lia).
  clearbody magnitude. inv_ok. split; [|done].
  destruct (0 <? base), (0 <? delta); lia.
Qed.

(** A position that has been settled is settled: settling again against the same
    market changes nothing. *)
Theorem settle_position_funding_idempotent mm p p' :
  settle_position_funding mm p = Ok p' → settle_position_funding mm p' = Ok p'.
Proof.
  intros Hok. unfold settle_position_funding in *.
  destruct (Z.eqb_spec (MarketPosition.base_asset_amount p) 0) as [Hz|Hz].
  { apply Ok_inj in Hok as <-. by rewrite (proj2 (Z.eqb_eq _ _) Hz). }
  apply bind_ok in Hok as (m & Hm & Hok).
  destruct (negb _) eqn:Hne.
  - apply bind_ok in Hok as (x & _ & Hok). apply bind_ok in Hok as (y & _ & Hok).
    apply bind_ok in Hok as (u & _ & Hok). apply Ok_inj in Hok as <-. cbn.
    rewrite (proj2 (Z.eqb_neq _ _) Hz), Hm. cbn. by rewrite Z.eqb_refl.
  - apply Ok_inj in Hok as <-. rewrite (proj2 (Z.eqb_neq _ _) Hz), Hm. cbn. by rewrite Hne.
Qed.

Lemma map_result_idempotent {A} (f : A → result A) l l' :
  (∀ a b, f a = Ok b → f b = Ok b) → map_result f l = Ok l' → map_result f l' = Ok l'.
Proof.
  intros Hf. revert l'. induction l as [|a l IH]; intros l' Hok; cbn in Hok.
  { by apply Ok_inj in Hok as <-. }
  apply bind_ok in Hok as (b & Hb & Hok). apply bind_ok in Hok as (bs & Hbs & Hok).
  apply Ok_inj in Hok as <-. cbn. by rewrite (Hf _ _ Hb), (IH _ Hbs).
Qed.

(** Settling the funding of a user twice is settling it once. *)
Theorem settle_funding_payment_idempotent user mm user' :
  settle_funding_payment user mm = Ok user' → settle_funding_payment user' mm = Ok user'.
Proof.
  intros Hok. unfold settle_funding_payment in *.
  apply bind_ok in Hok as (ps & Hps & Hok). apply Ok_inj in Hok as <-. cbn.
  rewrite (map_result_idempotent _ _ _ (settle_position_funding_idempotent mm) Hps). done.
Qed.

Lemma funding_rate_pnl_limit_ok market limit :
  Market.typed market → funding_rate_pnl_limit market = Ok limit →
  let total := market.(Market.amm).(AMM.total_fee_minus_distributions) in
  ∃ lb, total_fee_lower_bound market = Ok lb
    ∧ limit = - (Z.max 0 (total - lb) * 2 / 3) ∧ limit ≤ 0.
Proof.
  intros Hty Hok total. unfold funding_rate_pnl_limit in Hok. cbv zeta in Hok. fold total in Hok.
  apply bind_ok in Hok as (lb & Hlb & Hok). exists lb. split; [done|].
  destruct (Z.ltb_spec lb total).
  - apply bind_ok in Hok as (d & Hd & Hok). apply csub_ok in Hd as [-> _].
    apply bind_ok in Hok as (d & Hd & Hok). apply cmul_ok in Hd as [-> _].
    apply bind_ok in Hok as (d & Hd & Hok). apply cdiv_ok in Hd as (_ & -> & _).
    apply bind_ok in Hok as (d & Hd & Hok). apply cast_ok in Hd as [-> _].
    apply Ok_inj in Hok as <-. unfold int_quot; cbn [is_signed].
    rewrite Z.max_r by lia. split; [done|].
    assert (0 ≤ (total - lb) * 2 / 3) by (apply Z.div_pos; lia). lia.
  - apply Ok_inj in Hok as <-. rewrite Z.max_l by lia. done.
Qed.

(** The imbalance of a funding period: when the net position of the users owes
    funding the fees take it; otherwise the fees pay at most two thirds of what they
    hold above the lower bound, and stay above it.  The side that pays always pays
    the full rate. *)
Theorem calculate_funding_rate_long_short_ok market rate market' l s :
  Market.typed market →
  calculate_funding_rate_long_short market rate = Ok (market', (l, s)) →
  let total := market.(Market.amm).(AMM.total_fee_minus_distributions) in
  let total' := market'.(Market.amm).(AMM.total_fee_minus_distributions) in
  ∃ payment,
    calculate_funding_payment_in_quote_precision rate
      market.(Market.amm).(AMM.net_base_asset_amount) = Ok payment
    ∧ market' = set_total_fee_minus_distributions market total'
    ∧ (if 0 <=? wrap I128 (- payment) then
         total' = total + wrap I128 (- payment) ∧ l = rate ∧ s = rate
       else
         ∃ lb, total_fee_lower_bound market = Ok lb
           ∧ total - total' = Z.min (- wrap I128 (- payment)) (Z.max 0 (total - lb) * 2 / 3)
           ∧ Z.min total lb ≤ total' ≤ total
           ∧ (0 < rate → l = rate) ∧ (rate < 0 → s = rate)).
Proof.
  intros Hty Hok total total'. subst total'. unfold calculate_funding_rate_long_short in Hok.
  cbv zeta in Hok. fold total in Hok.
  apply bind_ok in Hok as (payment & Hpay & Hok). exists payment. split; [done|].
  set (pnl := wrap I128 (- payment)) in *. unfold unsigned_abs in Hok.
  destruct (Z.leb_spec 0 pnl).
  - rewrite Z.abs_eq in Hok by done. apply bind_ok in Hok as (x & Hx & Hok).
    apply cadd_ok in Hx as [-> _]. apply Ok_inj in Hok; injection Hok as <- <- <-. done.
  - apply bind_ok in Hok as ([cr cp] & Hcap & Hok).
    unfold calculate_capped_funding_rate in Hcap.
    apply bind_ok in Hcap as (limit & Hlimit & Hcap).
    apply funding_rate_pnl_limit_ok in Hlimit as (lb & Hlb & Hlimit & Hneg); [|done].
    fold total in Hlimit.
    assert (cp = Z.max pnl limit) as ->.
    { apply bind_ok in Hcap as (? & _ & Hcap). by apply Ok_inj in Hcap; injection Hcap. }
    clear Hcap. rewrite Z.abs_neq in Hok by lia.
    apply bind_ok in Hok as (x & Hx & Hok). apply csub_ok in Hx as [-> Hx].
    apply bind_ok in Hok as ([] & _ & Hok). apply Ok_inj in Hok; injection Hok as <- <- <-.
    cbn. split; [done|]. exists lb. split; [done|].
    assert (0 ≤ Z.max 0 (total - lb) * 2 / 3 ≤ Z.max 0 (total - lb)) as Hthirds.
    { split; [apply Z.div_pos; lia|]. apply Z.div_le_upper_bound; lia. }
    split; [lia|]. split; [lia|].
    split; intros; [by rewrite (proj2 (Z.ltb_ge rate 0)) by lia
                   |by rewrite (proj2 (Z.ltb_ge 0 rate)) by lia].
Qed.
End Properties.
