(* ===== verification/FundingProps.v ===== *)
(** * What funding moves between the sides

    The rates of an update, applied to all the positions of either side: what the two
    sides are credited together is covered by what leaves the market's fees. *)

From stdpp Require Import base numbers list gmap.
From S2P Require Import Prelude Constants Bn State Value AmmMath Twap Oracle Maps.
From S2P Require Import PositionMath CurveMath Repeg Funding.
Local Open Scope Z_scope.

(** ** The size of a payment *)

(** What a base amount pays or is paid at a rate, in quote precision. *)
Definition payment_size (rate base : Z) : Z :=
  Z.abs rate * Z.abs base / QUOTE_TO_BASE_AMT_FUNDING_PRECISION.

Lemma payment_size_nonneg rate base : 0 ≤ payment_size rate base.
Proof. unfold payment_size. apply Z.div_pos; [lia|done]. Qed.

Lemma payment_size_0 rate : payment_size rate 0 = 0.
Proof. unfold payment_size. by rewrite Z.mul_0_r. Qed.

(** A base amount in two parts pays what the parts pay, but for one unit of rounding. *)
Lemma payment_size_add rate a b :
  payment_size rate (Z.abs a) + payment_size rate (Z.abs b)
    ≤ payment_size rate (Z.abs a + Z.abs b)
  ≤ payment_size rate (Z.abs a) + payment_size rate (Z.abs b) + 1.
Proof.
  unfold payment_size. rewrite !Z.abs_idemp, (Z.abs_eq (Z.abs a + Z.abs b)) by lia.
  rewrite Z.mul_add_distr_l. set (x := Z.abs rate * Z.abs a). set (y := Z.abs rate * Z.abs b).
  set (k := QUOTE_TO_BASE_AMT_FUNDING_PRECISION). assert (0 < k) by done. clearbody k.
  pose proof (Z.div_mod x k ltac:(lia)). pose proof (Z.mod_pos_bound x k ltac:(lia)).
  pose proof (Z.div_mod y k ltac:(lia)). pose proof (Z.mod_pos_bound y k ltac:(lia)).
  split.
  - apply Z.div_le_lower_bound; lia.
  - apply Z.lt_succ_r. apply Z.div_lt_upper_bound; lia.
Qed.

Lemma payment_size_abs rate base : payment_size rate (Z.abs base) = payment_size rate base.
Proof. unfold payment_size. by rewrite Z.abs_idemp. Qed.

(** The sides of a market, long and short, and its net position. *)
Lemma payment_size_sides rate long short :
  0 ≤ long → short ≤ 0 →
  if 0 <? long + short
  then payment_size rate short + payment_size rate (long + short) ≤ payment_size rate long
       ≤ payment_size rate short + payment_size rate (long + short) + 1
  else payment_size rate long + payment_size rate (long + short) ≤ payment_size rate short
       ≤ payment_size rate long + payment_size rate (long + short) + 1.
Proof.
  intros Hl Hs. destruct (Z.ltb_spec 0 (long + short)).
  - pose proof (payment_size_add rate short (long + short)) as Hadd.
    replace (Z.abs short + Z.abs (long + short)) with (Z.abs long) in Hadd by lia.
    by rewrite !payment_size_abs in Hadd.
  - pose proof (payment_size_add rate long (long + short)) as Hadd.
    replace (Z.abs long + Z.abs (long + short)) with (Z.abs short) in Hadd by lia.
    by rewrite !payment_size_abs in Hadd.
Qed.

Section Properties.
Context `{BnLaws}.

Lemma funding_payment_typed rate base y :
  _calculate_funding_payment rate base = Ok y → has_type I128 y.
Proof.
  intros Hok. unfold _calculate_funding_payment in Hok. cbv zeta in Hok.
  do 6 (apply bind_ok in Hok as (? & _ & Hok)). by apply cmul_ok in Hok as [-> Hty].
Qed.

(** A payment in quote precision: a long pays at a positive rate, a short is paid. *)
Lemma quote_payment_ok rate base x :
  has_type I128 rate → has_type I128 base →
  calculate_funding_payment_in_quote_precision rate base = Ok x →
  x = (if 0 <? base then -1 else 1) * (if 0 <? rate then 1 else -1) * payment_size rate base
  ∧ has_type I128 (- x).
Proof.
  intros Hr Hb Hok. unfold calculate_funding_payment_in_quote_precision in Hok.
  apply bind_ok in Hok as (y & Hy & Hok). pose proof (funding_payment_typed _ _ _ Hy) as Hyty.
  apply funding_payment_ok in Hy as [-> Hm]; [|done..].
  apply bind_ok in Hok as (k & Hk & Hok). apply cast_ok in Hk as [-> _].
  apply cdiv_ok in Hok as (_ & -> & _). unfold int_quot; cbn [is_signed].
  set (m := Z.abs rate * Z.abs base / (MARK_PRICE_PRECISION * FUNDING_PAYMENT_PRECISION)) in *.
  assert (payment_size rate base = Z.quot m AMM_TO_QUOTE_PRECISION_RATIO) as ->.
  { unfold payment_size, m. rewrite Z.quot_div_nonneg by done. by rewrite Z.div_div. }
  clearbody m. unfold AMM_TO_QUOTE_PRECISION_RATIO.
  assert (Z.quot (- m) 10000000 = - Z.quot m 10000000) as Hopp by (by apply Z.quot_opp_l).
  assert (0 ≤ Z.quot m 10000000 ≤ int_max I128) as Hq.
  { rewrite Z.quot_div_nonneg by done. split; [by apply Z.div_pos|].
    apply Z.div_le_upper_bound; [done|]. revert Hyty.
    destruct (0 <? base), (0 <? rate); unfold_int; lia. }
  unfold_int. destruct (0 <? base), (0 <? rate);
    [replace (- m * 1) with (- m) by lia|replace (- m * -1) with m by lia
    |rewrite Z.mul_1_r|replace (m * -1) with (- m) by lia]; rewrite ?Hopp; lia.
Qed.
(** ** One rate for both sides *)

(** What the sides are credited together at one rate is the payment of the net position,
    but for one unit. *)
Lemma one_rate_covered rate long short pl ps p :
  has_type I128 rate → has_type I128 long → has_type I128 short →
  has_type I128 (long + short) → 0 ≤ long → short ≤ 0 →
  calculate_funding_payment_in_quote_precision rate long = Ok pl →
  calculate_funding_payment_in_quote_precision rate short = Ok ps →
  calculate_funding_payment_in_quote_precision rate (long + short) = Ok p →
  p - 1 ≤ pl + ps ≤ p + 1.
Proof.
  intros Hr Hl Hs Hn Hl0 Hs0 Hpl Hps Hp.
  apply quote_payment_ok in Hpl as [-> _]; [|done..].
  apply quote_payment_ok in Hps as [-> _]; [|done..].
  apply quote_payment_ok in Hp as [-> _]; [|done..].
  pose proof (payment_size_sides rate long short Hl0 Hs0) as Hsides.
  rewrite (proj2 (Z.ltb_ge 0 short)) by done.
  destruct (Z.ltb_spec 0 long).
  - destruct (0 <? long + short), (0 <? rate); lia.
  - assert (long = 0) as -> by lia. rewrite payment_size_0 in *.
    rewrite (proj2 (Z.ltb_ge 0 (0 + short))) in * by lia. destruct (0 <? rate); lia.
Qed.

(** ** The capped rate *)

(** The rate that a limit gives a side pays it at most the limit, and in the direction of
    the limit. *)
Lemma rate_from_limit_covered limit base r :
  limit ≤ 0 → calculate_funding_rate_from_pnl_limit limit base = Ok r →
  payment_size r base ≤ - limit
  ∧ has_type I128 r ∧ (0 < base → r ≤ 0) ∧ (base < 0 → 0 ≤ r).
Proof.
  intros Hlim Hok. unfold calculate_funding_rate_from_pnl_limit in Hok.
  destruct (Z.eqb_spec base 0) as [->|Hb].
  { apply Ok_inj in Hok as <-. rewrite payment_size_0. split_and!; [lia|done|lia..]. }
  apply bind_ok in Hok as (x & Hx & Hok). apply bind_ok in Hok as (y & Hy & Hok).
  apply cmul_ok in Hy as [-> _]. apply cdiv_ok in Hok as (_ & -> & Hty).
  unfold int_quot in *; cbn [is_signed] in *. set (k := QUOTE_TO_BASE_AMT_FUNDING_PRECISION).
  assert (0 < k) by done.
  assert (x ≤ 0 ∧ - x ≤ - limit) as [Hx0 Hxl].
  { destruct (Z.ltb_spec limit 0); [apply cadd_ok in Hx as [-> _]|apply Ok_inj in Hx as <-]; lia. }
  split; [|split; [done|split; intros]].
  - unfold payment_size. fold k. rewrite <-Z.quot_abs by done.
    rewrite Z.quot_div_nonneg by lia. apply Z.div_le_upper_bound; [done|].
    pose proof (Z.mul_div_le (Z.abs (x * k)) (Z.abs base) ltac:(lia)). nia.
  - assert (0 ≤ Z.quot (- (x * k)) base) by (apply Z.quot_pos; nia).
    rewrite Z.quot_opp_l in * by done. lia.
  - assert (0 ≤ Z.quot (- (x * k)) (- base)) by (apply Z.quot_pos; nia).
    rewrite Z.quot_opp_opp in * by done. lia.
Qed.
Lemma capped_funding_rate_ok market pnl rate cr cp :
  Market.typed market → calculate_capped_funding_rate market pnl rate = Ok (cr, cp) →
  ∃ limit, limit ≤ 0 ∧ cp = Z.max pnl limit
    ∧ (limit ≤ pnl ∧ cr = rate
       ∨ pnl < limit ∧ ∃ paid limit',
           calculate_funding_payment_in_quote_precision rate
             (if 0 <? rate then market.(Market.base_asset_amount_long)
              else market.(Market.base_asset_amount_short)) = Ok paid
           ∧ limit' = limit - wrap I128 (Z.abs paid)
           ∧ calculate_funding_rate_from_pnl_limit limit'
               (if rate <? 0 then market.(Market.base_asset_amount_long)
                else market.(Market.base_asset_amount_short)) = Ok cr).
Proof.
  intros Hty Hok. unfold calculate_capped_funding_rate in Hok.
  apply bind_ok in Hok as (limit & Hlimit & Hok). exists limit.
  apply funding_rate_pnl_limit_ok in Hlimit as (_ & _ & _ & Hneg); [|done].
  cbv zeta in Hok. apply bind_ok in Hok as (cr1 & Hcr & Hok).
  apply Ok_inj in Hok; injection Hok as <- <-. split; [done|]. split; [done|].
  destruct (Z.ltb_spec pnl limit); [right|left; by apply Ok_inj in Hcr as <-].
  split; [done|]. apply bind_ok in Hcr as (paid & Hpaid & Hcr).
  apply bind_ok in Hcr as (limit' & Hl & Hcr). apply csub_ok in Hl as [-> _].
  exists paid, (limit - wrap I128 (Z.abs paid)).
  split; [by destruct (0 <? rate)|]. split; [done|]. by destruct (rate <? 0).
Qed.

(** ** The rates of an update *)

Section Update.
Context (market : Market) (rate : Z).
Let long := market.(Market.base_asset_amount_long).
Let short := market.(Market.base_asset_amount_short).
Context (Htyped : Market.typed market) (Hrate : has_type I128 rate).
Context (Hlong : 0 ≤ long) (Hshort : short ≤ 0).
Context (Hnet : market.(Market.amm).(AMM.net_base_asset_amount) = long + short).

(** The side that receives at the capped rate gets at most what the fees pay and what the
    other side pays. *)
Lemma capped_rate_covered pnl cr cp l s pl ps :
  rate ≠ 0 → pnl < 0 → calculate_capped_funding_rate market pnl rate = Ok (cr, cp) →
  pnl < cp →
  l = (if rate <? 0 then cr else rate) → s = (if 0 <? rate then cr else rate) →
  calculate_funding_payment_in_quote_precision l long = Ok pl →
  calculate_funding_payment_in_quote_precision s short = Ok ps →
  cp ≤ 0 ∧ pl + ps ≤ - cp.
Proof.
  intros Hne Hpnl Hcap Hlt -> -> Hpl Hps.
  apply capped_funding_rate_ok in Hcap as (limit & Hlim & -> & [[? _]|[Hpl' Hcap]]); [lia| |done].
  destruct Hcap as (paid & limit' & Hpaid & -> & Hrl). fold long short in Hpaid, Hrl.
  rewrite Z.max_r by lia. split; [done|].
  assert (has_type I128 long ∧ has_type I128 short) as [Hlty Hsty] by (by destruct Htyped).
  assert (has_type I128 paid) as Hpty.
  { unfold calculate_funding_payment_in_quote_precision in Hpaid.
    apply bind_ok in Hpaid as (? & _ & Hpaid). apply bind_ok in Hpaid as (? & _ & Hpaid).
    by apply cdiv_ok in Hpaid as (_ & -> & ?). }
  assert (has_type I128 (- paid)) as Hpty2 by
    (by eapply quote_payment_ok; [exact Hrate| |exact Hpaid]; destruct (0 <? rate)).
  rewrite wrap_in in Hrl by (unfold_int; lia).
  apply rate_from_limit_covered in Hrl as (Hsize & Hcr & _ & _); [|lia].
  pose proof (payment_size_nonneg rate long). pose proof (payment_size_nonneg rate short).
  pose proof (payment_size_nonneg cr long). pose proof (payment_size_nonneg cr short).
  destruct (Z.ltb_spec rate 0), (Z.ltb_spec 0 rate); try lia.
  - rewrite Hps in Hpaid. injection Hpaid as ->.
    apply quote_payment_ok in Hps as [-> _]; [|done..].
    apply quote_payment_ok in Hpl as [-> _]; [|done..].
    rewrite (proj2 (Z.ltb_ge 0 short)), (proj2 (Z.ltb_ge 0 rate)) in * by lia.
    destruct (0 <? long), (0 <? cr); lia.
  - rewrite Hpl in Hpaid. injection Hpaid as ->.
    apply quote_payment_ok in Hps as [-> _]; [|done..].
    apply quote_payment_ok in Hpl as [-> _]; [|done..].
    rewrite (proj2 (Z.ltb_ge 0 short)), (proj2 (Z.ltb_lt 0 rate)) in * by lia.
    assert (long = 0 → payment_size rate long = 0) as Hzero by (intros ->; apply payment_size_0).
    destruct (Z.ltb_spec 0 long), (0 <? cr); lia.
Qed.
(** The fees have what leaves the two sides, or pay what they get. *)
Lemma sides_covered market' l s pl ps :
  calculate_funding_rate_long_short market rate = Ok (market', (l, s)) →
  calculate_funding_payment_in_quote_precision l long = Ok pl →
  calculate_funding_payment_in_quote_precision s short = Ok ps →
  let paid := market.(Market.amm).(AMM.total_fee_minus_distributions)
              - market'.(Market.amm).(AMM.total_fee_minus_distributions) in
  pl + ps ≤ paid + 1 ∧ (l = rate → s = rate → paid ≤ pl + ps + 1).
Proof.
  intros Hok Hpl Hps paid. subst paid.
  unfold calculate_funding_rate_long_short in Hok. cbv zeta in Hok.
  rewrite Hnet in Hok. apply bind_ok in Hok as (p & Hp & Hok).
  assert (has_type I128 long ∧ has_type I128 short) as [Hlty Hsty] by (by destruct Htyped).
  assert (has_type I128 (long + short)) as Hnty
    by (rewrite <-Hnet; by destruct Htyped as [? ? ? ? ? ? ? ? ? ? [] ?]).
  assert (calculate_funding_payment_in_quote_precision rate long = Ok pl →
    calculate_funding_payment_in_quote_precision rate short = Ok ps → p - 1 ≤ pl + ps ≤ p + 1) as Hsame
    by (intros Hl1 Hs1; by apply (one_rate_covered rate long short pl ps p)).
  assert (has_type I128 (- p)) as Hpty by (by eapply quote_payment_ok; [exact Hrate| |exact Hp]).
  rewrite wrap_in in Hok by done. unfold unsigned_abs in Hok. destruct (Z.leb_spec 0 (- p)).
  { apply bind_ok in Hok as (x & Hx & Hok). apply cadd_ok in Hx as [-> _].
    apply Ok_inj in Hok; injection Hok as <- <- <-. cbn. specialize (Hsame Hpl Hps). lia. }
  apply bind_ok in Hok as ([cr cp] & Hcap & Hok).
  apply bind_ok in Hok as (x & Hx & Hok). apply csub_ok in Hx as [-> _].
  apply bind_ok in Hok as ([] & _ & Hok). apply Ok_inj in Hok; injection Hok as <- <- <-. cbn.
  destruct (decide (rate = 0)) as [Hr0|Hr0].
  { apply quote_payment_ok in Hp as [-> _]; [|done..]. subst rate.
    change (payment_size 0 (long + short)) with 0 in *. lia. }
  destruct (Z.lt_ge_cases (- p) cp) as [Hlt|Hge].
  - destruct (capped_rate_covered (- p) cr cp _ _ pl ps Hr0 ltac:(lia) Hcap Hlt eq_refl eq_refl
      Hpl Hps). split; [lia|]. intros Hl1 Hs1. rewrite Hl1 in Hpl. rewrite Hs1 in Hps.
    specialize (Hsame Hpl Hps). lia.
  - apply capped_funding_rate_ok in Hcap as (limit & Hlim & -> & [[? ->]|[? _]]); [|lia|done].
    assert (p - 1 ≤ pl + ps ≤ p + 1) by (apply Hsame; [by destruct (rate <? 0)|by destruct (0 <? rate)]).
    lia.
Qed.

(** C19. Funding is not created: in a market whose net position is the sum of its long and
    short totals, as it is in every market of the exchange, the rates of an update, applied
    to these totals, credit the two sides together at most what leaves the market's fees,
    but for one unit of rounding; what the sides are charged together is the most that the
    fees gain.  When neither side is capped the two amounts are the same, but for one unit.
    What the fees pay is at most two thirds of what they hold above their lower bound, and
    nothing but the fees changes in the market; the side that pays does so at the full
    rate. *)
Theorem funding_is_covered market' l s pl ps :
  calculate_funding_rate_long_short market rate = Ok (market', (l, s)) →
  calculate_funding_payment_in_quote_precision l long = Ok pl →
  calculate_funding_payment_in_quote_precision s short = Ok ps →
  let total := market.(Market.amm).(AMM.total_fee_minus_distributions) in
  let total' := market'.(Market.amm).(AMM.total_fee_minus_distributions) in
  market' = set_total_fee_minus_distributions market total'
  ∧ pl + ps ≤ total - total' + 1
  ∧ (l = rate → s = rate → total - total' ≤ pl + ps + 1)
  ∧ (∀ lb, total_fee_lower_bound market = Ok lb →
       total - total' ≤ Z.max 0 (total - lb) * 2 / 3)
  ∧ (0 < rate → l = rate) ∧ (rate < 0 → s = rate).
Proof.
  intros Hok Hpl Hps total total'.
  destruct (sides_covered _ _ _ _ _ Hok Hpl Hps) as [Hcov Hsame].
  apply calculate_funding_rate_long_short_ok in Hok as (p & Hp & Hm & Hok); [|done].
  split; [exact Hm|]. split; [exact Hcov|]. split; [exact Hsame|].
  destruct (Z.leb_spec 0 (wrap I128 (- p))).
  - destruct Hok as (Ht & -> & ->). split; [|done]. intros lb _.
    pose proof (Z.div_pos (Z.max 0 (total - lb) * 2) 3 ltac:(lia) ltac:(lia)).
    subst total total'. lia.
  - destruct Hok as (lb' & Hlb' & Ht & _ & Hl & Hs). split; [|done].
    intros lb Hlb. assert (lb = lb') as -> by congruence. subst total total'. lia.
Qed.
End Update.
End Properties.
