(* ===== verification/Fees.v ===== *)
(** * Fees (math/fees.rs)

    The split of a trade's fee between the user, the market, the filler and the
    referrer.  A discount token account is its amount, and a referrer account
    counts only for being there.  [Roots::nth_root] of the [num_integer] crate is
    the class [Roots]. *)

From stdpp Require Import base numbers.
From S2P Require Import Prelude Constants State Value.
Local Open Scope Z_scope.

(** ** Definitions *)

Class Roots := nth_root : Z → Z → Z.

(** The documented behaviour of [nth_root] on [u128]: the floor of the real root. *)
Class RootsLaws `{Roots} : Prop := {
  nth_root_spec n x :
    0 < n → has_type U128 x →
    0 ≤ nth_root n x ∧ (nth_root n x) ^ n ≤ x < (nth_root n x + 1) ^ n;
}.

(** The instance of the concrete examples: a binary search. *)
Fixpoint search_root (n x : Z) (fuel : nat) (lo hi : Z) : Z :=
  match fuel with
  | O => lo
  | S fuel =>
      if hi - lo <=? 1 then lo
      else
        let mid := (lo + hi) / 2 in
        if mid ^ n <=? x then search_root n x fuel mid hi else search_root n x fuel lo mid
  end.
Definition floor_root (n x : Z) : Z := search_root n x 130 0 (x + 1).
#[export] Instance example_roots : Roots := floor_root.

Definition belongs_to_tier (tier : DiscountTokenTier) (discount_token_amount : Z) : bool :=
  tier.(DiscountTokenTier.minimum_balance) <=? discount_token_amount.

Definition calculate_token_discount_for_tier (fee : Z) (tier : DiscountTokenTier)
    : option Z :=
  match checked_mul U128 fee tier.(DiscountTokenTier.discount_numerator) with
  | Some x => checked_div U128 x tier.(DiscountTokenTier.discount_denominator)
  | None => None
  end.

Definition try_to_calculate_token_discount_for_tier (fee : Z) (tier : DiscountTokenTier)
    (discount_token_amount : Z) : option Z :=
  if belongs_to_tier tier discount_token_amount
  then calculate_token_discount_for_tier fee tier else None.

Definition calculate_token_discount (fee : Z) (fee_structure : FeeStructure)
    (discount_token : option Z) : Z :=
  match discount_token with
  | None => 0
  | Some amount =>
      let tiers := fee_structure.(FeeStructure.discount_token_tiers) in
      let try tier := try_to_calculate_token_discount_for_tier fee tier amount in
      match try tiers.(DiscountTokenTiers.first_tier) with
      | Some discount => discount
      | None =>
      match try tiers.(DiscountTokenTiers.second_tier) with
      | Some discount => discount
      | None =>
      match try tiers.(DiscountTokenTiers.third_tier) with
      | Some discount => discount
      | None =>
      match try tiers.(DiscountTokenTiers.fourth_tier) with
      | Some discount => discount
      | None => 0
      end end end end
  end.

Definition calculate_referral_reward_and_referee_discount (fee : Z)
    (fee_structure : FeeStructure) (has_referrer : bool) : result (Z * Z) :=
  if negb has_referrer then Ok (0, 0)
  else
    let r := fee_structure.(FeeStructure.referral_discount) in
    let? x := cmul U128 fee r.(ReferralDiscount.referrer_reward_numerator) in
    let? referrer_reward := cdiv U128 x r.(ReferralDiscount.referrer_reward_denominator) in
    let? y := cmul U128 fee r.(ReferralDiscount.referee_discount_numerator) in
    let? referee_discount :=
      cdiv U128 y r.(ReferralDiscount.referee_discount_denominator) in
    Ok (referrer_reward, referee_discount).

(** The result: user fee, fee to the market, token discount, referrer reward and
    referee discount. *)
Definition calculate_fee_for_trade (quote_asset_amount : Z) (fee_structure : FeeStructure)
    (discount_token : option Z) (has_referrer : bool) (quote_asset_amount_surplus : Z)
    : result (Z * Z * Z * Z * Z) :=
  let? x := cmul U128 quote_asset_amount fee_structure.(FeeStructure.fee_numerator) in
  let? fee := cdiv U128 x fee_structure.(FeeStructure.fee_denominator) in
  let token_discount := calculate_token_discount fee fee_structure discount_token in
  let? ' (referrer_reward, referee_discount) :=
    calculate_referral_reward_and_referee_discount fee fee_structure has_referrer in
  let? user_fee := csub U128 fee token_discount in
  let? user_fee := csub U128 user_fee referee_discount in
  let? fee_to_market := csub U128 user_fee referrer_reward in
  let? fee_to_market := cadd U128 fee_to_market quote_asset_amount_surplus in
  Ok (user_fee, fee_to_market, token_discount, referrer_reward, referee_discount).

Definition calculate_order_fee_tier (fee_structure : FeeStructure)
    (discount_token : option Z) : result OrderDiscountTier :=
  match discount_token with
  | None => Ok OrderDiscountTier.None
  | Some amount =>
      let tiers := fee_structure.(FeeStructure.discount_token_tiers) in
      if belongs_to_tier tiers.(DiscountTokenTiers.first_tier) amount
      then Ok OrderDiscountTier.First
      else if belongs_to_tier tiers.(DiscountTokenTiers.second_tier) amount
      then Ok OrderDiscountTier.Second
      else if belongs_to_tier tiers.(DiscountTokenTiers.third_tier) amount
      then Ok OrderDiscountTier.Third
      else if belongs_to_tier tiers.(DiscountTokenTiers.fourth_tier) amount
      then Ok OrderDiscountTier.Fourth
      else Ok OrderDiscountTier.None
  end.

Definition calculate_token_discount_for_limit_order (fee : Z) (fee_structure : FeeStructure)
    (order_discount_tier : OrderDiscountTier) : result Z :=
  let tiers := fee_structure.(FeeStructure.discount_token_tiers) in
  let for_tier tier := math (calculate_token_discount_for_tier fee tier) in
  match order_discount_tier with
  | OrderDiscountTier.None => Ok 0
  | OrderDiscountTier.First => for_tier tiers.(DiscountTokenTiers.first_tier)
  | OrderDiscountTier.Second => for_tier tiers.(DiscountTokenTiers.second_tier)
  | OrderDiscountTier.Third => for_tier tiers.(DiscountTokenTiers.third_tier)
  | OrderDiscountTier.Fourth => for_tier tiers.(DiscountTokenTiers.fourth_tier)
  end.

Section Rewards.
Context `{Roots}.

Definition calculate_filler_reward (fee order_ts now : Z)
    (filler_reward_structure : OrderFillerRewardStructure) : result Z :=
  let? x := cmul U128 fee
    filler_reward_structure.(OrderFillerRewardStructure.reward_numerator) in
  let? size_filler_reward := cdiv U128 x
    filler_reward_structure.(OrderFillerRewardStructure.reward_denominator) in
  let min_time_filler_reward :=
    filler_reward_structure.(OrderFillerRewardStructure.time_based_reward_lower_bound) in
  let? d := csub I64 now order_ts in
  let? d := cast_to_u128 d in
  let time_since_order := Z.max 1 d in
  let? y := cmul U128 time_since_order 100000000 in
  let? y := cmul U128 (nth_root 4 y) min_time_filler_reward in
  let? time_filler_reward := cdiv U128 y 100 in
  Ok (Z.min size_filler_reward time_filler_reward).

(** The result: user fee (negative for a rebate), fee to the market, token discount,
    filler reward, referrer reward and referee discount. *)
Definition calculate_fee_for_order (quote_asset_amount : Z) (fee_structure : FeeStructure)
    (filler_reward_structure : OrderFillerRewardStructure)
    (order_fee_tier : OrderDiscountTier) (order_ts now : Z)
    (has_referrer filler_is_user : bool) (quote_asset_amount_surplus : Z)
    (is_post_only : bool) : result (Z * Z * Z * Z * Z * Z) :=
  if is_post_only then
    let fee := quote_asset_amount_surplus in
    let? filler_reward :=
      if filler_is_user then Ok 0
      else calculate_filler_reward fee order_ts now filler_reward_structure in
    let? fee_minus_filler_reward := csub U128 fee filler_reward in
    let rebate := Z.min fee_minus_filler_reward (int_quot U128 quote_asset_amount 2000) in
    let? fee_to_market := csub U128 fee_minus_filler_reward rebate in
    let? r := cast_to_i128 rebate in
    Ok (- r, fee_to_market, 0, filler_reward, 0, 0)
  else
    let? x := cmul U128 quote_asset_amount fee_structure.(FeeStructure.fee_numerator) in
    let? fee := cdiv U128 x fee_structure.(FeeStructure.fee_denominator) in
    let? token_discount :=
      calculate_token_discount_for_limit_order fee fee_structure order_fee_tier in
    let? ' (referrer_reward, referee_discount) :=
      calculate_referral_reward_and_referee_discount fee fee_structure has_referrer in
    let? user_fee := csub U128 fee referee_discount in
    let? user_fee := csub U128 user_fee token_discount in
    let? filler_reward :=
      if filler_is_user then Ok 0
      else calculate_filler_reward user_fee order_ts now filler_reward_structure in
    let? m := csub U128 user_fee filler_reward in
    let? m := csub U128 m referrer_reward in
    let? fee_to_market := cadd U128 m quote_asset_amount_surplus in
    let? u := cast_to_i128 user_fee in
    Ok (u, fee_to_market, token_discount, filler_reward, referrer_reward, referee_discount).
End Rewards.

(** ** Properties *)

Section Properties.
Context `{Roots}.

(** What a fill pays and earns on the curve is what it gives out. *)
Lemma fee_for_order_conserved quote fs frs tier ts now referrer same surplus post u m td fr rr rd :
  calculate_fee_for_order quote fs frs tier ts now referrer same surplus post
    = Ok (u, m, td, fr, rr, rd) →
  u + surplus = m + fr + rr ∧ (same = true → fr = 0) ∧ (referrer = false → rr = 0).
Proof.
  intros Hok. unfold calculate_fee_for_order in Hok. destruct post.
  - inv_ok; split_and!; try done; lia.
  - apply bind_ok in Hok as (x & _ & Hok). apply bind_ok in Hok as (fee & _ & Hok).
    apply bind_ok in Hok as (d & _ & Hok). apply bind_ok in Hok as ([r1 r2] & Hr & Hok).
    apply bind_ok in Hok as (u1 & _ & Hok). apply bind_ok in Hok as (u2 & _ & Hok).
    apply bind_ok in Hok as (f & Hf & Hok).
    apply bind_ok in Hok as (m1 & Hm1 & Hok). apply csub_ok in Hm1 as [-> _].
    apply bind_ok in Hok as (m2 & Hm2 & Hok). apply csub_ok in Hm2 as [-> _].
    apply bind_ok in Hok as (m3 & Hm3 & Hok). apply cadd_ok in Hm3 as [-> _].
    apply bind_ok in Hok as (u' & Hu' & Hok). apply cast_ok in Hu' as [-> _].
    apply Ok_inj in Hok; injection Hok as <- <- <- <- <- <-.
    split; [lia|]. split; [intros ->; by inv_ok|].
    intros ->. unfold calculate_referral_reward_and_referee_discount in Hr. cbn in Hr.
    by inv_ok.
Qed.

(** Every unit of a taker's fee and of the spread surplus goes to exactly one of the
    market, the filler and the referrer, and the discounts are what the fee of the
    fee structure is short of. *)
Theorem taker_fee_conserved quote fs frs tier ts now referrer same surplus u m td fr rr rd :
  calculate_fee_for_order quote fs frs tier ts now referrer same surplus false
    = Ok (u, m, td, fr, rr, rd) →
  u + surplus = m + fr + rr
  ∧ u + td + rd = quote * fs.(FeeStructure.fee_numerator) / fs.(FeeStructure.fee_denominator)
  ∧ 0 ≤ u ∧ (same = true → fr = 0) ∧ (referrer = false → rr = 0 ∧ rd = 0).
Proof.
  intros Hok. unfold calculate_fee_for_order in Hok.
  apply bind_ok in Hok as (x & Hx & Hok). apply cmul_ok in Hx as [-> _].
  apply bind_ok in Hok as (fee & Hfee & Hok). apply cdiv_ok in Hfee as (_ & -> & _).
  apply bind_ok in Hok as (d & Hd & Hok).
  apply bind_ok in Hok as ([r1 r2] & Hr & Hok).
  apply bind_ok in Hok as (u1 & Hu1 & Hok). apply csub_ok in Hu1 as [-> _].
  apply bind_ok in Hok as (u2 & Hu2 & Hok). apply csub_ok in Hu2 as [-> Hu2].
  apply bind_ok in Hok as (f & Hf & Hok).
  apply bind_ok in Hok as (m1 & Hm1 & Hok). apply csub_ok in Hm1 as [-> _].
  apply bind_ok in Hok as (m2 & Hm2 & Hok). apply csub_ok in Hm2 as [-> _].
  apply bind_ok in Hok as (m3 & Hm3 & Hok). apply cadd_ok in Hm3 as [-> _].
  apply bind_ok in Hok as (u' & Hu' & Hok). apply cast_ok in Hu' as [-> _].
  apply Ok_inj in Hok; injection Hok as <- <- <- <- <- <-.
  unfold int_quot in *; cbn [is_signed] in *.
  split; [lia|]. split; [lia|]. split; [by eapply (has_type_nonneg U128)|].
  split; [intros ->; by inv_ok|].
  intros ->. unfold calculate_referral_reward_and_referee_discount in Hr. cbn in Hr.
  by inv_ok.
Qed.

(** A maker's fill is paid for by its surplus alone: the filler's reward, the rebate
    of at most five basis points of the trade and the market's part add up to it. *)
Theorem maker_rebate_from_surplus quote fs frs tier ts now referrer same surplus u m td fr rr rd :
  0 ≤ quote → 
  calculate_fee_for_order quote fs frs tier ts now referrer same surplus true
    = Ok (u, m, td, fr, rr, rd) →
  m + fr - u = surplus ∧ - (quote / 2000) ≤ u ≤ 0 ∧ 0 ≤ m
  ∧ (0 < m → u = - (quote / 2000)) ∧ td = 0 ∧ rr = 0 ∧ rd = 0.
Proof.
  intros Hq Hok. unfold calculate_fee_for_order in Hok.
  apply bind_ok in Hok as (f & Hf & Hok).
  apply bind_ok in Hok as (x & Hx & Hok). apply csub_ok in Hx as [-> Hx].
  apply bind_ok in Hok as (y & Hy & Hok). apply csub_ok in Hy as [-> Hy].
  apply bind_ok in Hok as (r & Hr & Hok). apply cast_ok in Hr as [-> _].
  apply Ok_inj in Hok; injection Hok as <- <- <- <- <- <-.
  unfold int_quot in *; cbn [is_signed] in *.
  pose proof (Z.div_pos quote 2000 Hq ltac:(lia)).
  unfold has_type in *. cbn [int_min int_max] in *. lia.
Qed.

(** The fee of a trade outside an order is split in the same way. *)
Theorem trade_fee_conserved quote fs token referrer surplus u m td rr rd :
  calculate_fee_for_trade quote fs token referrer surplus = Ok (u, m, td, rr, rd) →
  u + surplus = m + rr
  ∧ u + td + rd = quote * fs.(FeeStructure.fee_numerator) / fs.(FeeStructure.fee_denominator)
  ∧ 0 ≤ u ∧ (token = None → td = 0) ∧ (referrer = false → rr = 0).
Proof.
  intros Hok. unfold calculate_fee_for_trade in Hok.
  apply bind_ok in Hok as (x & Hx & Hok). apply cmul_ok in Hx as [-> _].
  apply bind_ok in Hok as (fee & Hfee & Hok). apply cdiv_ok in Hfee as (_ & -> & _).
  apply bind_ok in Hok as ([r1 r2] & Hr & Hok).
  apply bind_ok in Hok as (u1 & Hu1 & Hok). apply csub_ok in Hu1 as [-> _].
  apply bind_ok in Hok as (u2 & Hu2 & Hok). apply csub_ok in Hu2 as [-> Hu2].
  apply bind_ok in Hok as (m1 & Hm1 & Hok). apply csub_ok in Hm1 as [-> _].
  apply bind_ok in Hok as (m2 & Hm2 & Hok). apply cadd_ok in Hm2 as [-> _].
  apply Ok_inj in Hok; injection Hok as <- <- <- <- <-.
  unfold int_quot in *; cbn [is_signed] in *.
  split; [lia|]. split; [lia|]. split; [by eapply (has_type_nonneg U128)|].
  split; [by intros ->|]. intros ->. apply Ok_inj in Hr. by injection Hr as <- <-.
Qed.

(** The reward of a filler is at most the share of the fee that the reward structure
    gives, and at most the time based bound; it is positive work for any order that
    is not from the future. *)
Theorem filler_reward_bounds `{!RootsLaws} fee ts now frs r :
  0 ≤ fee → OrderFillerRewardStructure.typed frs →
  calculate_filler_reward fee ts now frs = Ok r →
  ts ≤ now
  ∧ r ≤ fee * frs.(OrderFillerRewardStructure.reward_numerator)
        / frs.(OrderFillerRewardStructure.reward_denominator)
  ∧ (frs.(OrderFillerRewardStructure.time_based_reward_lower_bound)
     ≤ fee * frs.(OrderFillerRewardStructure.reward_numerator)
        / frs.(OrderFillerRewardStructure.reward_denominator) →
     frs.(OrderFillerRewardStructure.time_based_reward_lower_bound) ≤ r).
Proof.
  intros Hfee Hty Hok. unfold calculate_filler_reward in Hok.
  pose proof (OrderFillerRewardStructure.time_based_reward_lower_bound_ty _ Hty) as Hlb.
  apply bind_ok in Hok as (x & Hx & Hok). apply cmul_ok in Hx as [-> _].
  apply bind_ok in Hok as (s & Hs & Hok). apply cdiv_ok in Hs as (_ & -> & _).
  apply bind_ok in Hok as (d & Hd & Hok). apply csub_ok in Hd as [-> _].
  apply bind_ok in Hok as (d & Hd & Hok). apply cast_ok in Hd as [-> Hd].
  apply bind_ok in Hok as (y & Hy & Hok). apply cmul_ok in Hy as [-> Hy].
  apply bind_ok in Hok as (y & Hy' & Hok). apply cmul_ok in Hy' as [-> Hy'].
  apply bind_ok in Hok as (t & Ht & Hok). apply cdiv_ok in Ht as (_ & -> & _).
  apply Ok_inj in Hok as <-. unfold int_quot in *; cbn [is_signed] in *.
  set (b := OrderFillerRewardStructure.time_based_reward_lower_bound frs) in *.
  destruct (nth_root_spec 4 (Z.max 1 (now - ts) * 100000000) ltac:(lia) Hy) as (Hr0 & _ & Hr).
  set (root := nth_root 4 _) in *. split; [int_lia|]. split; [lia|]. intros Hle.
  apply Z.min_glb; [done|].
  assert (100 ≤ root).
  { destruct (Z.le_gt_cases 100 root) as [|Hlt]; [done|exfalso].
    assert ((root + 1) ^ 4 ≤ 100 ^ 4) by (apply Z.pow_le_mono_l; lia). lia. }
  assert (0 ≤ b) by int_lia. apply Z.div_le_lower_bound; [lia|]. nia.
Qed.
End Properties.
