(* ===== verification/Margin.v ===== *)
(** * Margin (math/margin.rs, margin_validation.rs)

    Margin requirement and collateral of a user, liquidation status and free
    collateral.  The loops over a user's balances and positions are folds that
    fail with their first failure.  The oracle map's cache is threaded through;
    the lookup is an argument of the margin loops, so that they can be compared
    with the same loops without a cache. *)

From stdpp Require Import base numbers list gmap sorting.
From S2P Require Import Prelude Constants Bn State Value AmmMath Twap Oracle Maps.
From S2P Require Import PositionMath CurveMath Repeg BankBalance.
Local Open Scope Z_scope.

(** ** Definitions *)

(** A loop over a list with an accumulator that fails with its first failure. *)
Fixpoint fold_result {A B} (f : B → A → result B) (acc : B) (l : list A) : result B :=
  match l with
  | [] => Ok acc
  | x :: l => let? acc := f acc x in fold_result f acc l
  end.

Definition validate_margin (margin_ratio_initial margin_ratio_partial
    margin_ratio_maintenance : Z) : result () :=
  let contains r := (MINIMUM_MARGIN_RATIO <=? r) && (r <=? MAXIMUM_MARGIN_RATIO) in
  if negb (contains margin_ratio_initial) then Err InvalidMarginRatio
  else if margin_ratio_initial <? margin_ratio_partial then Err InvalidMarginRatio
  else if negb (contains margin_ratio_partial) then Err InvalidMarginRatio
  else if margin_ratio_partial <? margin_ratio_maintenance then Err InvalidMarginRatio
  else if negb (contains margin_ratio_maintenance) then Err InvalidMarginRatio
  else Ok ().

(** [value * weight / BANK_WEIGHT_PRECISION] added to a sum. *)
Definition add_weighted (sum value weight : Z) : result Z :=
  let? x := cmul U128 value weight in
  let? x := cdiv U128 x BANK_WEIGHT_PRECISION in
  cadd U128 sum x.

(** [value * margin_ratio] added to a sum. *)
Definition add_requirement (sum value margin_ratio : Z) : result Z :=
  let? x := cmul U128 value margin_ratio in
  cadd U128 sum x.

(** The collateral after unrealized and unsettled profit and loss. *)
Definition collateral_after_pnl (deposit_value unrealized_pnl unsettled_pnl : Z) : result Z :=
  let? c := calculate_updated_collateral deposit_value unrealized_pnl in
  calculate_updated_collateral c unsettled_pnl.

Section Loops.
Context `{BnLib} `{OracleAccounts}.

(** The lookup of an oracle price: [get_price_data] in the program. *)
Variable lookup_price : OracleMap → Pubkey → result (OracleMap * OraclePriceData).

(** The value of one bank balance of a user. *)
Definition bank_balance_value (bank_map : BankMap) (oracle_map : OracleMap)
    (user_bank_balance : UserBankBalance) : result (OracleMap * Bank * Z) :=
  let? bank := bank_get_ref bank_map user_bank_balance.(UserBankBalance.bank_index) in
  let? ' (oracle_map, oracle_price_data) := lookup_price oracle_map bank.(Bank.oracle) in
  let? balance_value := get_balance_value user_bank_balance bank oracle_price_data in
  Ok (oracle_map, bank, balance_value).

(** The first loop of [calculate_margin_requirement_and_total_collateral]; the
    accumulator is the oracle map, the collateral and the requirement. *)
Definition margin_bank_step (bank_map : BankMap) (margin_type : MarginRequirementType)
    (acc : OracleMap * Z * Z) (user_bank_balance : UserBankBalance)
    : result (OracleMap * Z * Z) :=
  let '(oracle_map, total_collateral, margin_requirement) := acc in
  if user_bank_balance.(UserBankBalance.balance) =? 0 then Ok acc
  else
    let? ' (oracle_map, bank, balance_value) :=
      bank_balance_value bank_map oracle_map user_bank_balance in
    match user_bank_balance.(UserBankBalance.balance_type) with
    | Deposit =>
        let? c := add_weighted total_collateral balance_value
                    (get_asset_weight bank margin_type) in
        Ok (oracle_map, c, margin_requirement)
    | Borrow =>
        let? m := add_weighted margin_requirement balance_value
                    (get_liability_weight bank margin_type) in
        Ok (oracle_map, total_collateral, m)
    end.

(** The second loop; the accumulator is the oracle map, the requirement, the
    unrealized and the unsettled profit. *)
Definition margin_position_step (market_map : MarketMap)
    (margin_type : MarginRequirementType) (acc : OracleMap * Z * Z * Z)
    (market_position : MarketPosition) : result (OracleMap * Z * Z * Z) :=
  let '(oracle_map, perp_margin_requirements, unrealized_pnl, unsettled_pnl) := acc in
  let? unsettled_pnl :=
    cadd I128 unsettled_pnl market_position.(MarketPosition.unsettled_pnl) in
  if market_position.(MarketPosition.base_asset_amount) =? 0 then
    Ok (oracle_map, perp_margin_requirements, unrealized_pnl, unsettled_pnl)
  else
    let? market := market_get_ref market_map market_position.(MarketPosition.market_index) in
    let? ' (oracle_map, oracle_price_data) :=
      lookup_price oracle_map market.(Market.amm).(AMM.oracle) in
    let? prepeg_budget := calculate_fee_pool market in
    let? prepeg_amm := calculate_prepeg_market market oracle_price_data prepeg_budget in
    let? ' (position_base_asset_value, position_unrealized_pnl) :=
      calculate_base_asset_value_and_pnl market_position prepeg_amm in
    let? perp_margin_requirements := add_requirement perp_margin_requirements
      position_base_asset_value (get_margin_ratio market margin_type) in
    let? unrealized_pnl := cadd I128 unrealized_pnl position_unrealized_pnl in
    Ok (oracle_map, perp_margin_requirements, unrealized_pnl, unsettled_pnl).

Definition margin_requirement_and_total_collateral (user : User) (market_map : MarketMap)
    (margin_type : MarginRequirementType) (bank_map : BankMap) (oracle_map : OracleMap)
    : result (OracleMap * (Z * Z)) :=
  let? ' (oracle_map, total_collateral, margin_requirement) :=
    fold_result (margin_bank_step bank_map margin_type) (oracle_map, 0, 0)
      user.(User.bank_balances) in
  let? ' (oracle_map, perp_margin_requirements, unrealized_pnl, unsettled_pnl) :=
    fold_result (margin_position_step market_map margin_type) (oracle_map, 0, 0, 0)
      user.(User.positions) in
  let? p := cdiv U128 perp_margin_requirements MARGIN_PRECISION in
  let? margin_requirement := cadd U128 margin_requirement p in
  let? total_collateral :=
    collateral_after_pnl total_collateral unrealized_pnl unsettled_pnl in
  Ok (oracle_map, (margin_requirement, total_collateral)).

(** The first loop of [calculate_liquidation_status] and of
    [calculate_free_collateral]: a borrow panics. *)
Definition deposit_step (bank_map : BankMap) (margin_type : MarginRequirementType)
    (acc : OracleMap * Z) (user_bank_balance : UserBankBalance) : result (OracleMap * Z) :=
  let '(oracle_map, deposit_value) := acc in
  if user_bank_balance.(UserBankBalance.balance) =? 0 then Ok acc
  else
    let? ' (oracle_map, bank, balance_value) :=
      bank_balance_value bank_map oracle_map user_bank_balance in
    match user_bank_balance.(UserBankBalance.balance_type) with
    | Deposit =>
        let? d := add_weighted deposit_value balance_value
                    (get_asset_weight bank margin_type) in
        Ok (oracle_map, d)
    | Borrow => Panic
    end.
End Loops.

(** *** Data of the liquidation status *)

Module MarketStatus.
Record MarketStatus := mk {
  market_index : Z;
  partial_margin_requirement : Z;
  maintenance_margin_requirement : Z;
  base_asset_value : Z;
  mark_price_before : Z;
  close_position_slippage : option Z;
  oracle_status : OracleStatus;
}.
End MarketStatus.
Abbreviation MarketStatus := MarketStatus.MarketStatus.

Definition OracleStatus_default : OracleStatus :=
  OracleStatus.mk (OraclePriceData.mk 0 0 0 false) 0 false false.
Definition MarketStatus_default : MarketStatus :=
  MarketStatus.mk 0 0 0 0 0 None OracleStatus_default.

Module LiquidationStatus.
Record LiquidationStatus := mk {
  liquidation_type : LiquidationType;
  margin_requirement : Z;
  total_collateral : Z;
  unrealized_pnl : Z;
  adjusted_total_collateral : Z;
  base_asset_value : Z;
  margin_ratio : Z;
  market_statuses : list MarketStatus;
}.
End LiquidationStatus.
Abbreviation LiquidationStatus := LiquidationStatus.LiquidationStatus.

(** [sort_by(|a, b| key(b).cmp(&key(a)))]: a stable sort by a falling key. *)
Section Sort.
Context {A : Type} (key : A → Z).

Fixpoint insert_desc (x : A) (l : list A) : list A :=
  match l with
  | [] => [x]
  | y :: l' => if key y <=? key x then x :: l else y :: insert_desc x l'
  end.

Definition sort_desc (l : list A) : list A := foldr insert_desc [] l.
End Sort.

(** The sums of the position loop of [calculate_liquidation_status]. *)
Module LiquidationSums.
Record LiquidationSums := mk {
  partial_margin_requirement : Z;
  maintenance_margin_requirement : Z;
  base_asset_value : Z;
  unsettled_pnl : Z;
  unrealized_pnl : Z;
  adjusted_unrealized_pnl : Z;
}.
#[export] Instance LiquidationSums_eta : Eta LiquidationSums := λ r,
  mk r.(partial_margin_requirement) r.(maintenance_margin_requirement)
    r.(base_asset_value) r.(unsettled_pnl) r.(unrealized_pnl) r.(adjusted_unrealized_pnl).
End LiquidationSums.
Abbreviation LiquidationSums := LiquidationSums.LiquidationSums.
Export (hints) LiquidationSums.

Definition liquidation_type_of (adjusted_total_collateral partial_margin_requirement
    maintenance_margin_requirement : Z) : LiquidationType :=
  if adjusted_total_collateral <? maintenance_margin_requirement then FULL
  else if adjusted_total_collateral <? partial_margin_requirement then PARTIAL
  else NONE.

Section Functions.
Context `{BnLib} `{OracleAccounts}.

Definition calculate_margin_requirement_and_total_collateral
    : User → MarketMap → MarginRequirementType → BankMap → OracleMap →
      result (OracleMap * (Z * Z)) :=
  margin_requirement_and_total_collateral get_price_data.

Definition meets_initial_margin_requirement (user : User) (market_map : MarketMap)
    (bank_map : BankMap) (oracle_map : OracleMap) : result (OracleMap * bool) :=
  let? ' (oracle_map, (margin_requirement, margin)) :=
    calculate_margin_requirement_and_total_collateral user market_map Initial bank_map
      oracle_map in
  Ok (oracle_map, margin_requirement <=? margin).

Definition meets_partial_margin_requirement (user : User) (market_map : MarketMap)
    (bank_map : BankMap) (oracle_map : OracleMap) : result (OracleMap * bool) :=
  let? ' (oracle_map, (partial_margin_requirement, total_collateral)) :=
    calculate_margin_requirement_and_total_collateral user market_map Partial bank_map
      oracle_map in
  let? partial_margin_requirement :=
    cdiv U128 partial_margin_requirement MARGIN_PRECISION in
  Ok (oracle_map, partial_margin_requirement <=? total_collateral).

(** The base asset value, the profit and the slippage that the liquidation uses for a
    position: the oracle's where it is valid, divergent and better for the user. *)
Definition liquidation_position_value (market : Market) (market_position : MarketPosition)
    (oracle_status : OracleStatus) (mark_price_before amm_value amm_pnl : Z)
    (guard_rails : OracleGuardRails) : result (Z * Z * option Z) :=
  let? use_oracle :=
    if oracle_status.(OracleStatus.is_valid) then
      use_oracle_price_for_margin_calculation
        oracle_status.(OracleStatus.oracle_mark_spread_pct)
        guard_rails.(OracleGuardRails.price_divergence)
    else Ok false in
  if (use_oracle : bool) then
    let? m := cast_to_i128 mark_price_before in
    let? exit_slippage := calculate_slippage amm_value
      (unsigned_abs market_position.(MarketPosition.base_asset_amount)) m in
    let? oracle_exit_price := cadd I128
      oracle_status.(OracleStatus.price_data).(OraclePriceData.price) exit_slippage in
    let? ' (oracle_value, oracle_pnl) :=
      calculate_base_asset_value_and_pnl_with_oracle_price market_position
        oracle_exit_price in
    if amm_pnl <? oracle_pnl then Ok (oracle_value, oracle_pnl, Some exit_slippage)
    else Ok (amm_value, amm_pnl, Some exit_slippage)
  else Ok (amm_value, amm_pnl, None).

(** The body of the position loop of [calculate_liquidation_status]; [i] is the
    position's index. *)
Definition liquidation_position_step (market_map : MarketMap) (oracle_map : OracleMap)
    (guard_rails : OracleGuardRails) (clock_slot : Z)
    (acc : LiquidationSums * list MarketStatus) (ip : nat * MarketPosition)
    : result (LiquidationSums * list MarketStatus) :=
  let '(sums, market_statuses) := acc in
  let '(i, market_position) := ip in
  let? u := cadd I128 sums.(LiquidationSums.unsettled_pnl)
              market_position.(MarketPosition.unsettled_pnl) in
  let sums := sums <| LiquidationSums.unsettled_pnl := u |> in
  if market_position.(MarketPosition.base_asset_amount) =? 0 then Ok (sums, market_statuses)
  else
    let? market := market_get_ref market_map market_position.(MarketPosition.market_index) in
    let amm := market.(Market.amm) in
    let? ' (amm_value, amm_pnl) := calculate_base_asset_value_and_pnl market_position amm in
    let? v := cadd U128 sums.(LiquidationSums.base_asset_value) amm_value in
    let? p := cadd I128 sums.(LiquidationSums.unrealized_pnl) amm_pnl in
    let? oracle_account_info := get_account_info oracle_map amm.(AMM.oracle) in
    let? mark_price_before := mark_price amm in
    let? oracle_status := get_oracle_status amm oracle_account_info clock_slot guard_rails
      (Some mark_price_before) in
    let? ' (value, pnl, close_position_slippage) :=
      liquidation_position_value market market_position oracle_status mark_price_before
        amm_value amm_pnl guard_rails in
    let? a := cadd I128 sums.(LiquidationSums.adjusted_unrealized_pnl) pnl in
    let? market_partial := cmul U128 value market.(Market.margin_ratio_partial) in
    let? partial :=
      cadd U128 sums.(LiquidationSums.partial_margin_requirement) market_partial in
    let? market_maintenance := cmul U128 value market.(Market.margin_ratio_maintenance) in
    let? maintenance :=
      cadd U128 sums.(LiquidationSums.maintenance_margin_requirement) market_maintenance in
    let? sp := op_div U128 market_partial MARGIN_PRECISION in
    let? sm := op_div U128 market_maintenance MARGIN_PRECISION in
    let status := {|
      MarketStatus.market_index := market_position.(MarketPosition.market_index);
      MarketStatus.partial_margin_requirement := sp;
      MarketStatus.maintenance_margin_requirement := sm;
      MarketStatus.base_asset_value := amm_value;
      MarketStatus.mark_price_before := mark_price_before;
      MarketStatus.close_position_slippage := close_position_slippage;
      MarketStatus.oracle_status := oracle_status;
    |} in
    Ok (LiquidationSums.mk partial maintenance v u p a, <[i := status]> market_statuses).

Definition calculate_liquidation_status (user : User) (market_map : MarketMap)
    (bank_map : BankMap) (oracle_map : OracleMap) (guard_rails : OracleGuardRails)
    (clock_slot : Z) : result (OracleMap * LiquidationStatus) :=
  let? ' (oracle_map, deposit_value) :=
    fold_result (deposit_step get_price_data bank_map Maintenance) (oracle_map, 0)
      user.(User.bank_balances) in
  let? ' (sums, market_statuses) :=
    fold_result (liquidation_position_step market_map oracle_map guard_rails clock_slot)
      (LiquidationSums.mk 0 0 0 0 0 0, replicate 5 MarketStatus_default)
      (imap pair user.(User.positions)) in
  let? partial_margin_requirement :=
    cdiv U128 sums.(LiquidationSums.partial_margin_requirement) MARGIN_PRECISION in
  let? maintenance_margin_requirement :=
    cdiv U128 sums.(LiquidationSums.maintenance_margin_requirement) MARGIN_PRECISION in
  let unsettled_pnl := sums.(LiquidationSums.unsettled_pnl) in
  let? total_collateral := collateral_after_pnl deposit_value
    sums.(LiquidationSums.unrealized_pnl) unsettled_pnl in
  let? adjusted_total_collateral := collateral_after_pnl deposit_value
    sums.(LiquidationSums.adjusted_unrealized_pnl) unsettled_pnl in
  let liquidation_type := liquidation_type_of adjusted_total_collateral
    partial_margin_requirement maintenance_margin_requirement in
  let margin_requirement :=
    match liquidation_type with
    | FULL => maintenance_margin_requirement
    | PARTIAL => partial_margin_requirement
    | NONE => partial_margin_requirement
    end in
  let market_statuses :=
    match liquidation_type with
    | FULL => sort_desc MarketStatus.maintenance_margin_requirement market_statuses
    | PARTIAL => sort_desc MarketStatus.partial_margin_requirement market_statuses
    | NONE => market_statuses
    end in
  let base_asset_value := sums.(LiquidationSums.base_asset_value) in
  let? margin_ratio :=
    if base_asset_value =? 0 then Ok (int_max U128)
    else let? x := cmul U128 total_collateral MARGIN_PRECISION in
         cdiv U128 x base_asset_value in
  Ok (oracle_map, {|
    LiquidationStatus.liquidation_type := liquidation_type;
    LiquidationStatus.margin_requirement := margin_requirement;
    LiquidationStatus.total_collateral := total_collateral;
    LiquidationStatus.unrealized_pnl := sums.(LiquidationSums.unrealized_pnl);
    LiquidationStatus.adjusted_total_collateral := adjusted_total_collateral;
    LiquidationStatus.base_asset_value := base_asset_value;
    LiquidationStatus.margin_ratio := margin_ratio;
    LiquidationStatus.market_statuses := market_statuses;
  |}).

(** The position loop of [calculate_free_collateral]; the accumulator is the closed
    value, the requirement, the unrealized and the unsettled profit. *)
Definition free_collateral_position_step (market_map : MarketMap)
    (market_to_close : option Z) (acc : Z * Z * Z * Z) (market_position : MarketPosition)
    : result (Z * Z * Z * Z) :=
  let '(closed_value, initial_margin_requirement, unrealized_pnl, unsettled_pnl) := acc in
  let? unsettled_pnl :=
    cadd I128 unsettled_pnl market_position.(MarketPosition.unsettled_pnl) in
  if market_position.(MarketPosition.base_asset_amount) =? 0 then
    Ok (closed_value, initial_margin_requirement, unrealized_pnl, unsettled_pnl)
  else
    let? market := market_get_ref market_map market_position.(MarketPosition.market_index) in
    let? ' (value, pnl) :=
      calculate_base_asset_value_and_pnl market_position market.(Market.amm) in
    let? ' (closed_value, initial_margin_requirement) :=
      if bool_decide (market_to_close = Some market_position.(MarketPosition.market_index))
      then Ok (value, initial_margin_requirement)
      else
        let? r := add_requirement initial_margin_requirement value
                    market.(Market.margin_ratio_initial) in
        Ok (closed_value, r) in
    let? unrealized_pnl := cadd I128 unrealized_pnl pnl in
    Ok (closed_value, initial_margin_requirement, unrealized_pnl, unsettled_pnl).

Definition calculate_free_collateral (user : User) (market_map : MarketMap)
    (bank_map : BankMap) (oracle_map : OracleMap) (market_to_close : option Z)
    : result (OracleMap * (Z * Z)) :=
  let? ' (oracle_map, deposit_value) :=
    fold_result (deposit_step get_price_data bank_map Initial) (oracle_map, 0)
      user.(User.bank_balances) in
  let? ' (closed_value, initial_margin_requirement, unrealized_pnl, unsettled_pnl) :=
    fold_result (free_collateral_position_step market_map market_to_close) (0, 0, 0, 0)
      user.(User.positions) in
  let? initial_margin_requirement :=
    cdiv U128 initial_margin_requirement MARGIN_PRECISION in
  let? total_collateral :=
    collateral_after_pnl deposit_value unrealized_pnl unsettled_pnl in
  let? free_collateral :=
    if initial_margin_requirement <? total_collateral
    then csub U128 total_collateral initial_margin_requirement
    else Ok 0 in
  Ok (oracle_map, (free_collateral, closed_value)).
End Functions.

(** ** Properties *)

(** *** Margin ratios *)

(** The margin ratios that are accepted: maintenance, partial and initial rise from
    2% to 100%. *)
Theorem validate_margin_spec i p m :
  validate_margin i p m =
    if bool_decide (MINIMUM_MARGIN_RATIO ≤ m ≤ p ∧ p ≤ i ≤ MAXIMUM_MARGIN_RATIO)
    then Ok () else Err InvalidMarginRatio.
Proof.
  unfold validate_margin.
  repeat match goal with
  | |- context [?a <=? ?b] => destruct (Z.leb_spec a b)
  | |- context [?a <? ?b] => destruct (Z.ltb_spec a b)
  end; cbn [negb andb];
    (rewrite bool_decide_true by lia; done) || (rewrite bool_decide_false by lia; done).
Qed.

(** *** Loops *)

Lemma fold_result_rel {A B B'} (R : B → B' → Prop) (f : B → A → result B)
    (g : B' → A → result B') l acc acc' :
  (∀ b b' x, R b b' → result_rel R (f b x) (g b' x)) → R acc acc' →
  result_rel R (fold_result f acc l) (fold_result g acc' l).
Proof.
  intros Hf. revert acc acc'. induction l as [|x l IH]; intros acc acc' Hacc; [done|].
  cbn. eapply result_rel_bind; [by apply Hf|]. intros. by apply IH.
Qed.

(** An invariant of the elements that every successful step establishes. *)
Lemma fold_result_forall {A B} (f : B → A → result B) (P : A → Prop) l acc acc' :
  (∀ b b' x, f b x = Ok b' → P x) → fold_result f acc l = Ok acc' → Forall P l.
Proof.
  intros Hf. revert acc. induction l as [|x l IH]; intros acc Hok; [done|].
  cbn in Hok. apply bind_ok in Hok as (b & Hb & Hok). constructor; eauto.
Qed.

Lemma fold_result_invariant {A B} (f : B → A → result B) (I : B → Prop) l acc acc' :
  (∀ b b' x, I b → f b x = Ok b' → I b') → I acc → fold_result f acc l = Ok acc' → I acc'.
Proof.
  intros Hf. revert acc. induction l as [|x l IH]; intros acc Hi Hok; cbn in Hok.
  { by apply Ok_inj in Hok as <-. }
  apply bind_ok in Hok as (b & Hb & Hok). eauto.
Qed.

(** A margin computation has loaded the bank of every balance. *)
Lemma margin_loads_banks `{BnLib} `{OracleAccounts} user mm t bm om r :
  calculate_margin_requirement_and_total_collateral user mm t bm om = Ok r →
  Forall (λ b, b.(UserBankBalance.balance) ≠ 0 →
               ∃ bank, bm !! b.(UserBankBalance.bank_index) = Some (Loaded bank))
    user.(User.bank_balances).
Proof.
  unfold calculate_margin_requirement_and_total_collateral,
    margin_requirement_and_total_collateral. intros Hok.
  apply bind_ok in Hok as (acc & Hfold & _). eapply fold_result_forall; [|exact Hfold].
  intros [[m c] q] acc' b Hb Hne. unfold margin_bank_step, bank_balance_value in Hb.
  rewrite (proj2 (Z.eqb_neq _ _) Hne) in Hb.
  apply bind_ok in Hb as ([[? ?] ?] & Hv & _). apply bind_ok in Hv as (bank & Hbank & _).
  apply load_cell_ok in Hbank. eauto.
Qed.

(** *** Sorting *)

Section SortProperties.
Context {A : Type} (key : A → Z).

Lemma insert_desc_perm x l : insert_desc key x l ≡ₚ x :: l.
Proof.
  induction l as [|y l IH]; [done|]. cbn. destruct (key y <=? key x); [done|].
  rewrite IH. apply Permutation_swap.
Qed.

Lemma insert_desc_sorted x l :
  StronglySorted (λ a b, key b ≤ key a) l →
  StronglySorted (λ a b, key b ≤ key a) (insert_desc key x l).
Proof.
  induction 1 as [|y l Hl IH Hy]; cbn; [by repeat constructor|].
  destruct (Z.leb_spec (key y) (key x)).
  - repeat (constructor; try done). eapply Forall_impl; [done|]. simpl. lia.
  - constructor; [done|]. rewrite insert_desc_perm. constructor; [lia|done].
Qed.

(** The sort keeps the elements and orders them by falling key. *)
Lemma sort_desc_ok l :
  sort_desc key l ≡ₚ l ∧ StronglySorted (λ a b, key b ≤ key a) (sort_desc key l).
Proof.
  induction l as [|x l [IHp IHs]]; [split; [done|constructor]|]. cbn.
  split; [by rewrite insert_desc_perm, IHp|]. by apply insert_desc_sorted.
Qed.
End SortProperties.

(** *** Collateral *)

Lemma collateral_after_pnl_ok d u s c :
  has_type U128 d → has_type I128 u → has_type I128 s →
  collateral_after_pnl d u s = Ok c →
  c = Z.max 0 (Z.max 0 (d + u) + s) ∧ has_type U128 c.
Proof.
  intros Hd Hu Hs Hok. unfold collateral_after_pnl in Hok.
  apply bind_ok in Hok as (x & Hx & Hok).
  apply calculate_updated_collateral_ok in Hx as [-> Hx]; [|done..].
  by apply calculate_updated_collateral_ok in Hok.
Qed.

Section Properties.
Context `{BnLib} `{OracleAccounts}.

(** The lookup without a cache. *)
Definition lookup_uncached (m : OracleMap) (k : Pubkey) : result (OracleMap * OraclePriceData) :=
  let? d := oracle_price_of m k in Ok (m, d).

(** A sound map and a map with the same prices. *)
Definition same_prices (m m' : OracleMap) : Prop :=
  cache_ok m ∧ ∀ k, oracle_price_of m k = oracle_price_of m' k.

Lemma lookup_same_prices m m' k :
  same_prices m m' →
  result_rel (λ r r', same_prices r.1 r'.1 ∧ r.2 = r'.2)
    (get_price_data m k) (lookup_uncached m' k).
Proof.
  intros [Hc Hp]. pose proof (get_price_data_refines m k Hc) as Hr.
  unfold lookup_uncached. rewrite <-Hp.
  destruct (get_price_data m k) as [[m1 d]|e|].
  - destruct Hr as (-> & Hc' & Hp'). cbn. split; [|done]. split; [done|].
    intros k'. by rewrite Hp'.
  - by rewrite Hr.
  - by rewrite Hr.
Qed.

Lemma bank_value_same_prices bm m m' b :
  same_prices m m' →
  result_rel (λ r r', same_prices r.1.1 r'.1.1 ∧ r.1.2 = r'.1.2 ∧ r.2 = r'.2)
    (bank_balance_value get_price_data bm m b) (bank_balance_value lookup_uncached bm m' b).
Proof.
  intros Hs. unfold bank_balance_value. apply result_rel_same. intros bank _.
  eapply result_rel_bind; [by apply lookup_same_prices|].
  intros [m1 d] [m1' d'] [Hs' Hd]. simpl in Hs', Hd. subst d'.
  apply result_rel_same. intros v _. done.
Qed.

(** C21. The oracle map's cache does not change the margin of a user: the calculation
    agrees with the one that reads every oracle account afresh, errors and panics
    included. *)
Theorem margin_cache_transparent user mm t bm om :
  cache_ok om →
  result_rel (λ r r', same_prices r.1 r'.1 ∧ r.2 = r'.2)
    (calculate_margin_requirement_and_total_collateral user mm t bm om)
    (margin_requirement_and_total_collateral lookup_uncached user mm t bm om).
Proof.
  intros Hc. unfold calculate_margin_requirement_and_total_collateral,
    margin_requirement_and_total_collateral.
  eapply result_rel_bind.
  { apply (fold_result_rel (λ r r', same_prices r.1.1 r'.1.1 ∧ r.1.2 = r'.1.2 ∧ r.2 = r'.2));
      [|done].
    intros [[m c] r] [[m' c'] r'] x (Hs & Hcc & Hrr). simpl in Hs, Hcc, Hrr. subst c' r'.
    unfold margin_bank_step. destruct (_ =? 0); [done|].
    eapply result_rel_bind; [by apply bank_value_same_prices|].
    intros [[m1 b] v] [[m1' b'] v'] (Hs' & Hb & Hv). simpl in Hs', Hb, Hv. subst b' v'.
    destruct (UserBankBalance.balance_type x); apply result_rel_same; intros; done. }
  intros [[m c] r] [[m' c'] r'] (Hs & Hcc & Hrr). simpl in Hs, Hcc, Hrr. subst c' r'.
  eapply result_rel_bind.
  { apply (fold_result_rel (λ r r', same_prices r.1.1.1 r'.1.1.1 ∧ r.1.1.2 = r'.1.1.2
                                    ∧ r.1.2 = r'.1.2 ∧ r.2 = r'.2)); [|done].
    intros [[[m1 q] u] s] [[[m1' q'] u'] s'] x (Hs' & Hq & Hu & Hss).
    simpl in Hs', Hq, Hu, Hss. subst q' u' s'.
    unfold margin_position_step. apply result_rel_same. intros s1 _.
    destruct (_ =? 0); [done|]. apply result_rel_same. intros market _.
    eapply result_rel_bind; [by apply lookup_same_prices|].
    intros [m2 d] [m2' d'] [Hs2 Hd]. simpl in Hs2, Hd. subst d'.
    do 2 (apply result_rel_same; intros ? _). apply result_rel_same. intros [v p] _.
    do 2 (apply result_rel_same; intros ? _). done. }
  intros [[[m1 q] u] s] [[[m1' q'] u'] s'] (Hs' & Hq & Hu & Hss).
  simpl in Hs', Hq, Hu, Hss. subst q' u' s'.
  do 3 (apply result_rel_same; intros ? _). done.
Qed.

(** A balance that the deposit loops accept. *)
Definition not_borrowed (b : UserBankBalance) : Prop :=
  b.(UserBankBalance.balance) = 0 ∨ b.(UserBankBalance.balance_type) = Deposit.

Lemma deposit_step_not_borrowed f bm t acc acc' b :
  deposit_step f bm t acc b = Ok acc' → not_borrowed b.
Proof.
  intros Hok. unfold deposit_step in Hok. destruct acc as [om d].
  destruct (Z.eqb_spec (UserBankBalance.balance b) 0); [by left|right].
  apply bind_ok in Hok as ([[om1 bank] v] & _ & Hok).
  by destruct (UserBankBalance.balance_type b).
Qed.

(** A user with a borrow has no liquidation status and no free collateral: both
    computations abort before they look at any position, so that such a user can be
    neither liquidated nor filled as a taker. *)
Theorem borrower_has_no_liquidation_status user mm bm om rails slot to_close :
  ¬ Forall not_borrowed user.(User.bank_balances) →
  ¬ is_ok (calculate_liquidation_status user mm bm om rails slot)
  ∧ ¬ is_ok (calculate_free_collateral user mm bm om to_close).
Proof.
  intros Hb. split; intros Hok; apply Hb.
  - destruct (calculate_liquidation_status _ _ _ _ _ _) as [r|e|] eqn:Hr; try done.
    unfold calculate_liquidation_status in Hr. apply bind_ok in Hr as (acc & Hacc & _).
    eapply fold_result_forall; [|done]. intros. by eapply deposit_step_not_borrowed.
  - destruct (calculate_free_collateral _ _ _ _ _) as [r|e|] eqn:Hr; try done.
    unfold calculate_free_collateral in Hr. apply bind_ok in Hr as (acc & Hacc & _).
    eapply fold_result_forall; [|done]. intros. by eapply deposit_step_not_borrowed.
Qed.

(** Whoever can be liquidated has less collateral than is required. *)
Lemma liquidation_status_below user mm bm om rails slot om' st :
  calculate_liquidation_status user mm bm om rails slot = Ok (om', st) →
  st.(LiquidationStatus.liquidation_type) ≠ NONE →
  st.(LiquidationStatus.adjusted_total_collateral) < st.(LiquidationStatus.margin_requirement).
Proof.
  intros Hok Hne. unfold calculate_liquidation_status in Hok.
  apply bind_ok in Hok as ([om1 d] & _ & Hok). apply bind_ok in Hok as ([sums sts] & _ & Hok).
  do 5 (apply bind_ok in Hok as (? & _ & Hok)). apply Ok_inj in Hok. simplify_eq. cbn in *.
  unfold liquidation_type_of in *.
  destruct (Z.ltb_spec x2 x0); [done|]. by destruct (Z.ltb_spec x2 x).
Qed.

(** The kind of a liquidation compares the adjusted collateral with the requirement it
    is reported with, and the markets come back in falling order of the requirement
    that the liquidation closes them by. *)
Theorem calculate_liquidation_status_ok user mm bm om rails slot om' st :
  calculate_liquidation_status user mm bm om rails slot = Ok (om', st) →
  let collateral := st.(LiquidationStatus.adjusted_total_collateral) in
  let requirement := st.(LiquidationStatus.margin_requirement) in
  match st.(LiquidationStatus.liquidation_type) with
  | NONE => requirement ≤ collateral
  | PARTIAL => collateral < requirement
      ∧ StronglySorted (λ a b, b.(MarketStatus.partial_margin_requirement)
                                ≤ a.(MarketStatus.partial_margin_requirement))
          st.(LiquidationStatus.market_statuses)
  | FULL => collateral < requirement
      ∧ StronglySorted (λ a b, b.(MarketStatus.maintenance_margin_requirement)
                                ≤ a.(MarketStatus.maintenance_margin_requirement))
          st.(LiquidationStatus.market_statuses)
  end
  ∧ length st.(LiquidationStatus.market_statuses) = 5%nat.
Proof.
  intros Hok collateral requirement. subst collateral requirement.
  unfold calculate_liquidation_status in Hok.
  apply bind_ok in Hok as ([om1 d] & _ & Hok).
  apply bind_ok in Hok as ([sums sts] & Hsts & Hok).
  assert (length sts = 5%nat) as Hlen.
  { apply (fold_result_invariant _ (λ r, length r.2 = 5%nat)) in Hsts; [done| |done].
    intros [s l] [s' l'] [i p] Hl Hstep. unfold liquidation_position_step in Hstep.
    apply bind_ok in Hstep as (? & _ & Hstep).
    destruct (MarketPosition.base_asset_amount p =? 0);
      [apply Ok_inj in Hstep; by simplify_eq|].
    apply bind_ok in Hstep as (? & _ & Hstep). apply bind_ok in Hstep as ([??] & _ & Hstep).
    do 5 (apply bind_ok in Hstep as (? & _ & Hstep)).
    apply bind_ok in Hstep as ([[??]?] & _ & Hstep).
    do 7 (apply bind_ok in Hstep as (? & _ & Hstep)).
    apply Ok_inj in Hstep. simplify_eq. simpl. by rewrite length_insert. }
  apply bind_ok in Hok as (pm & _ & Hok). apply bind_ok in Hok as (mm' & _ & Hok).
  apply bind_ok in Hok as (tc & _ & Hok). apply bind_ok in Hok as (ac & _ & Hok).
  apply bind_ok in Hok as (mr & _ & Hok). apply Ok_inj in Hok. simplify_eq. cbn.
  unfold liquidation_type_of.
  destruct (Z.ltb_spec ac mm'); [|destruct (Z.ltb_spec ac pm)]; cbn.
  - destruct (sort_desc_ok MarketStatus.maintenance_margin_requirement sts) as [Hp Hs].
    apply Permutation_length in Hp. rewrite Hlen in Hp. done.
  - destruct (sort_desc_ok MarketStatus.partial_margin_requirement sts) as [Hp Hs].
    apply Permutation_length in Hp. rewrite Hlen in Hp. done.
  - done.
Qed.
End Properties.
