(* ===== verification/OrderValidation.v ===== *)
(** * Order validation (order_validation.rs)

    What an order must satisfy to be placed, and when a post-only order can be
    cancelled.  [OrderParams] (context.rs) is what a user asks for. *)

From stdpp Require Import base numbers list gmap.
From S2P Require Import Prelude Constants Bn State Value AmmMath Oracle Maps.
From S2P Require Import OrdersMath Position Margin.
Local Open Scope Z_scope.

(** ** Definitions *)

(** context.rs: the instruction's argument; the paddings are left out. *)
Module OrderParams.
Record OrderParams := mk {
  order_type : OrderType;
  direction : PositionDirection;
  user_order_id : Z;
  quote_asset_amount : Z;
  base_asset_amount : Z;
  price : Z;
  market_index : Z;
  reduce_only : bool;
  post_only : bool;
  immediate_or_cancel : bool;
  trigger_price : Z;
  trigger_condition : OrderTriggerCondition;
  position_limit : Z;
  oracle_price_offset : Z;
}.
#[export] Instance OrderParams_eta : Eta OrderParams := λ r,
  mk r.(order_type) r.(direction) r.(user_order_id) r.(quote_asset_amount)
     r.(base_asset_amount) r.(price) r.(market_index) r.(reduce_only) r.(post_only)
     r.(immediate_or_cancel) r.(trigger_price) r.(trigger_condition) r.(position_limit)
     r.(oracle_price_offset).
(** Every field holds a value of its Rust type. *)
Record typed (r : OrderParams) : Prop := {
  user_order_id_ty : has_type U8 r.(user_order_id);
  quote_asset_amount_ty : has_type U128 r.(quote_asset_amount);
  base_asset_amount_ty : has_type U128 r.(base_asset_amount);
  price_ty : has_type U128 r.(price);
  market_index_ty : has_type U64 r.(market_index);
  trigger_price_ty : has_type U128 r.(trigger_price);
  position_limit_ty : has_type U128 r.(position_limit);
  oracle_price_offset_ty : has_type I128 r.(oracle_price_offset);
}.
End OrderParams.
Abbreviation OrderParams := OrderParams.OrderParams.
Export (hints) OrderParams.

(** [if cond { return Err(ErrorCode::InvalidOrder) }] *)
Definition reject_if (cond : bool) : result () := validate (negb cond) InvalidOrder.

Definition validate_base_asset_amount (order : Order) (market : Market) : result () :=
  let? ' () := reject_if (order.(Order.base_asset_amount) =? 0) in
  reject_if (order.(Order.base_asset_amount)
             <? market.(Market.amm).(AMM.minimum_base_asset_trade_size)).

Definition validate_quote_asset_amount (order : Order) (market : Market) : result () :=
  let? ' () := reject_if (order.(Order.quote_asset_amount) =? 0) in
  let? quote_asset_reserve_amount := asset_to_reserve_amount
    order.(Order.quote_asset_amount) market.(Market.amm).(AMM.peg_multiplier) in
  reject_if (quote_asset_reserve_amount
             <? market.(Market.amm).(AMM.minimum_quote_asset_trade_size)).

(** The quote value of an order at a price; a product that overflows counts as the
    largest number. *)
Definition approximate_market_value (price base_asset_amount : Z) : Z :=
  let value := match checked_mul U128 price base_asset_amount with
               | Some v => v
               | None => int_max U128
               end in
  value / AMM_RESERVE_PRECISION / (MARK_PRICE_PRECISION / QUOTE_PRECISION).

Definition validate_market_order (order : Order) (market : Market) : result () :=
  let? ' () := reject_if ((0 <? order.(Order.quote_asset_amount))
                          && (0 <? order.(Order.base_asset_amount))) in
  let? ' () := if 0 <? order.(Order.base_asset_amount)
               then validate_base_asset_amount order market
               else validate_quote_asset_amount order market in
  let? ' () := reject_if (0 <? order.(Order.trigger_price)) in
  let? ' () := reject_if order.(Order.post_only) in
  let? ' () := reject_if (has_oracle_price_offset order) in
  reject_if order.(Order.immediate_or_cancel).

Definition validate_trigger_limit_order (order : Order) (market : Market)
    (order_state : OrderState) : result () :=
  let? ' () := validate_base_asset_amount order market in
  let? ' () := reject_if (order.(Order.price) =? 0) in
  let? ' () := reject_if (order.(Order.trigger_price) =? 0) in
  let? ' () := reject_if (negb (order.(Order.quote_asset_amount) =? 0)) in
  let? ' () := reject_if order.(Order.post_only) in
  let? ' () := reject_if (has_oracle_price_offset order) in
  let? ' () :=
    match order.(Order.trigger_condition) with
    | Above => reject_if (bool_decide (order.(Order.direction) = Long)
                          && (order.(Order.price) <? order.(Order.trigger_price)))
    | Below => reject_if (bool_decide (order.(Order.direction) = Short)
                          && (order.(Order.trigger_price) <? order.(Order.price)))
    end in
  reject_if (approximate_market_value order.(Order.price) order.(Order.base_asset_amount)
             <? order_state.(OrderState.min_order_quote_asset_amount)).

Definition validate_trigger_market_order (order : Order) (market : Market)
    (order_state : OrderState) : result () :=
  let? ' () := validate_base_asset_amount order market in
  let? ' () := reject_if (0 <? order.(Order.price)) in
  let? ' () := reject_if (order.(Order.trigger_price) =? 0) in
  let? ' () := reject_if (negb (order.(Order.quote_asset_amount) =? 0)) in
  let? ' () := reject_if order.(Order.post_only) in
  let? ' () := reject_if (has_oracle_price_offset order) in
  reject_if (approximate_market_value order.(Order.trigger_price)
               order.(Order.base_asset_amount)
             <? order_state.(OrderState.min_order_quote_asset_amount)).

(** The size of an order: a reduce-only order that would leave less than the minimum
    size of the position takes all of it. *)
Definition get_base_asset_amount_for_order (params : OrderParams) (market : Market)
    (position : MarketPosition) : Z :=
  let amount := params.(OrderParams.base_asset_amount) in
  let existing := position.(MarketPosition.base_asset_amount) in
  if negb params.(OrderParams.reduce_only) || (amount =? 0) then amount
  else if bool_decide (params.(OrderParams.direction) = Long) && (0 <=? existing)
  then amount
  else if bool_decide (params.(OrderParams.direction) = Short) && (existing <=? 0)
  then amount
  else
    let current_position_size := unsigned_abs existing in
    let difference :=
      if amount <=? current_position_size then current_position_size - amount
      else amount - current_position_size in
    if difference <=? market.(Market.amm).(AMM.minimum_base_asset_trade_size)
    then current_position_size
    else amount.

Section Definitions.
Context `{BnLib} `{OracleAccounts}.

Definition validate_post_only_order (order : Order) (market : Market)
    (valid_oracle_price : option Z) : result () :=
  let? base_asset_amount_market_can_fill :=
    calculate_base_asset_amount_to_trade_for_limit order market valid_oracle_price in
  reject_if (negb (base_asset_amount_market_can_fill =? 0)).

Definition validate_limit_order (order : Order) (market : Market)
    (order_state : OrderState) (valid_oracle_price : option Z) : result () :=
  let? ' () := validate_base_asset_amount order market in
  let? ' () := reject_if ((order.(Order.price) =? 0)
                          && negb (has_oracle_price_offset order)) in
  let? ' () :=
    if has_oracle_price_offset order then
      if order.(Order.post_only) && (order.(Order.price) =? 0) then Err InvalidOrder
      else if negb order.(Order.post_only) && negb (order.(Order.price) =? 0)
      then Err InvalidOrder
      else Ok ()
    else Ok () in
  let? ' () := reject_if (0 <? order.(Order.trigger_price)) in
  let? ' () := reject_if (negb (order.(Order.quote_asset_amount) =? 0)) in
  let? ' () := if order.(Order.post_only)
               then validate_post_only_order order market valid_oracle_price
               else Ok () in
  let? limit_price := get_limit_price order valid_oracle_price in
  reject_if (approximate_market_value limit_price order.(Order.base_asset_amount)
             <? order_state.(OrderState.min_order_quote_asset_amount)).

Definition validate_order (order : Order) (market : Market) (order_state : OrderState)
    (valid_oracle_price : option Z) : result () :=
  match order.(Order.order_type) with
  | OrderType.Market => validate_market_order order market
  | OrderType.Limit => validate_limit_order order market order_state valid_oracle_price
  | OrderType.TriggerMarket => validate_trigger_market_order order market order_state
  | OrderType.TriggerLimit => validate_trigger_limit_order order market order_state
  end.

Definition check_if_order_can_be_canceled (user : User) (order_index : nat)
    (market_map : MarketMap) (bank_map : BankMap) (oracle_map : OracleMap)
    (valid_oracle_price : option Z) : result (OracleMap * bool) :=
  let? order := unwrap (user.(User.orders) !! order_index) in
  if negb order.(Order.post_only) then Ok (oracle_map, true)
  else
    let? market := market_get_ref market_map order.(Order.market_index) in
    let? base_asset_amount_market_can_fill :=
      calculate_base_asset_amount_to_trade_for_limit order market valid_oracle_price in
    if 0 <? base_asset_amount_market_can_fill then
      let? ' (oracle_map, meets) :=
        meets_initial_margin_requirement user market_map bank_map oracle_map in
      Ok (oracle_map, negb meets)
    else Ok (oracle_map, true).

Definition validate_order_can_be_canceled (user : User) (order_index : nat)
    (market_map : MarketMap) (bank_map : BankMap) (oracle_map : OracleMap)
    (valid_oracle_price : option Z) : result OracleMap :=
  let? ' (oracle_map, is_cancelable) := check_if_order_can_be_canceled user order_index
    market_map bank_map oracle_map valid_oracle_price in
  if (is_cancelable : bool) then Ok oracle_map else Err CantCancelPostOnlyOrder.
End Definitions.

(** ** Properties *)

Lemma reject_if_ok c u : reject_if c = Ok u ↔ c = false.
Proof. unfold reject_if. rewrite validate_ok. by destruct c. Qed.

Lemma seq_ok {A} (m : result ()) (k : result A) r :
  bind m (λ '(), k) = Ok r ↔ m = Ok () ∧ k = Ok r.
Proof. destruct m as [[]| |]; simpl; naive_solver. Qed.

(** The quote value of an order never counts for more than it is. *)
Lemma approximate_market_value_le p b :
  0 ≤ p → 0 ≤ b → approximate_market_value p b * 100000000000000000 ≤ p * b.
Proof.
  intros Hp Hb. unfold approximate_market_value.
  change (MARK_PRICE_PRECISION / QUOTE_PRECISION) with 10000.
  change AMM_RESERVE_PRECISION with 10000000000000. rewrite Z.div_div by lia.
  set (v := match checked_mul U128 p b with Some v => v | None => int_max U128 end).
  assert (0 ≤ v ≤ p * b) as Hv.
  { subst v. unfold checked_mul. rewrite checked_upper by (cbn; nia).
    destruct (Z.ltb_spec (int_max U128) (p * b)); cbn [int_max] in *; nia. }
  change (10000000000000 * 10000) with 100000000000000000.
  pose proof (Z.mul_div_le v 100000000000000000). lia.
Qed.

(** A reduce-only order on the other side of a position either closes it or leaves
    more than the market's minimum size; every other order keeps its size. *)
Theorem get_base_asset_amount_for_order_no_dust params market position :
  0 ≤ params.(OrderParams.base_asset_amount) →
  let amount := params.(OrderParams.base_asset_amount) in
  let size := Z.abs position.(MarketPosition.base_asset_amount) in
  let minimum := market.(Market.amm).(AMM.minimum_base_asset_trade_size) in
  let order_size := get_base_asset_amount_for_order params market position in
  if params.(OrderParams.reduce_only) && negb (amount =? 0)
     && negb (increases_position position.(MarketPosition.base_asset_amount)
                params.(OrderParams.direction))
  then (order_size = size ∨ minimum < Z.abs (size - order_size))
       ∧ (order_size = amount ∨ order_size = size ∧ Z.abs (size - amount) ≤ minimum)
  else order_size = amount.
Proof.
  intros Ha. cbv zeta. unfold get_base_asset_amount_for_order, increases_position, unsigned_abs.
  destruct (OrderParams.reduce_only params); [|done]. cbn [negb andb orb].
  set (b := MarketPosition.base_asset_amount position).
  set (a := OrderParams.base_asset_amount params) in *.
  destruct (Z.eqb_spec a 0) as [|Ha0]; [done|]. cbn [negb].
  destruct (OrderParams.direction params);
    rewrite ?(bool_decide_true (Long = Long)), ?(bool_decide_false (Short = Long)),
      ?(bool_decide_true (Short = Short)), ?(bool_decide_false (Long = Short)) by done;
    cbn [andb]; rewrite ?andb_true_r, ?andb_false_r, ?orb_false_r;
    destruct (Z.eqb_spec b 0), (Z.ltb_spec 0 b), (Z.ltb_spec b 0), (Z.leb_spec 0 b),
      (Z.leb_spec b 0); cbn [negb orb]; try lia; try done;
    destruct (Z.leb_spec a (Z.abs b));
    (match goal with |- context [if ?d <=? ?m then _ else _] => destruct (Z.leb_spec d m) end);
    split; try (left; lia); right; lia.
Qed.

Section Properties.
Context `{BnLib} `{OracleAccounts}.

(** What a placed order satisfies. *)
Definition accepted (o : Order) (market : Market) (order_state : OrderState)
    (valid_oracle_price : option Z) : Prop :=
  let min_base := market.(Market.amm).(AMM.minimum_base_asset_trade_size) in
  let worth p := order_state.(OrderState.min_order_quote_asset_amount)
                 ≤ approximate_market_value p o.(Order.base_asset_amount) in
  match o.(Order.order_type) with
  | OrderType.Market =>
      (o.(Order.quote_asset_amount) = 0 ∧ 0 < o.(Order.base_asset_amount)
         ∧ min_base ≤ o.(Order.base_asset_amount)
       ∨ o.(Order.base_asset_amount) = 0 ∧ 0 < o.(Order.quote_asset_amount)
         ∧ ∃ r, asset_to_reserve_amount o.(Order.quote_asset_amount)
                  market.(Market.amm).(AMM.peg_multiplier) = Ok r
                ∧ market.(Market.amm).(AMM.minimum_quote_asset_trade_size) ≤ r)
      ∧ o.(Order.trigger_price) = 0 ∧ o.(Order.post_only) = false
      ∧ o.(Order.oracle_price_offset) = 0 ∧ o.(Order.immediate_or_cancel) = false
  | OrderType.Limit =>
      0 < o.(Order.base_asset_amount) ∧ min_base ≤ o.(Order.base_asset_amount)
      ∧ (o.(Order.price) = 0 ↔ o.(Order.oracle_price_offset) ≠ 0 ∧ o.(Order.post_only) = false)
      ∧ o.(Order.trigger_price) = 0 ∧ o.(Order.quote_asset_amount) = 0
      ∧ (o.(Order.post_only) = true →
         calculate_base_asset_amount_to_trade_for_limit o market valid_oracle_price = Ok 0)
      ∧ ∃ p, get_limit_price o valid_oracle_price = Ok p ∧ worth p
  | OrderType.TriggerMarket =>
      0 < o.(Order.base_asset_amount) ∧ min_base ≤ o.(Order.base_asset_amount)
      ∧ o.(Order.price) = 0 ∧ 0 < o.(Order.trigger_price) ∧ o.(Order.quote_asset_amount) = 0
      ∧ o.(Order.post_only) = false ∧ o.(Order.oracle_price_offset) = 0
      ∧ worth o.(Order.trigger_price)
  | OrderType.TriggerLimit =>
      0 < o.(Order.base_asset_amount) ∧ min_base ≤ o.(Order.base_asset_amount)
      ∧ 0 < o.(Order.price) ∧ 0 < o.(Order.trigger_price) ∧ o.(Order.quote_asset_amount) = 0
      ∧ o.(Order.post_only) = false ∧ o.(Order.oracle_price_offset) = 0
      ∧ (match o.(Order.trigger_condition), o.(Order.direction) with
         | Above, Long => o.(Order.trigger_price) ≤ o.(Order.price)
         | Below, Short => o.(Order.price) ≤ o.(Order.trigger_price)
         | _, _ => True
         end)
      ∧ worth o.(Order.price)
  end.

Lemma validate_base_asset_amount_ok o market u :
  0 ≤ o.(Order.base_asset_amount) →
  validate_base_asset_amount o market = Ok u ↔
  0 < o.(Order.base_asset_amount)
  ∧ market.(Market.amm).(AMM.minimum_base_asset_trade_size) ≤ o.(Order.base_asset_amount).
Proof.
  intros. unfold validate_base_asset_amount.
  rewrite seq_ok, !reject_if_ok, Z.eqb_neq, Z.ltb_ge. destruct u. lia.
Qed.

Lemma validate_market_order_ok o market s v u :
  Order.typed o → o.(Order.order_type) = OrderType.Market →
  validate_market_order o market = Ok u ↔ accepted o market s v.
Proof.
  intros Ht Hty. unfold validate_market_order, accepted. rewrite Hty.
  pose proof (Order.base_asset_amount_ty _ Ht). pose proof (Order.quote_asset_amount_ty _ Ht).
  pose proof (Order.trigger_price_ty _ Ht).
  rewrite !seq_ok, !reject_if_ok, andb_false_iff, !Z.ltb_ge. unfold has_oracle_price_offset.
  rewrite negb_false_iff, Z.eqb_eq. unfold_int.
  destruct (Z.ltb_spec 0 (Order.base_asset_amount o)).
  - rewrite validate_base_asset_amount_ok by lia. destruct u. split.
    + intros (? & ? & ? & ? & ? & ?). split_and!; [left|..]; auto with lia.
    + intros ([? | ?] & ? & ? & ? & ?); [|lia]. split_and!; auto with lia.
  - unfold validate_quote_asset_amount. rewrite seq_ok, reject_if_ok, Z.eqb_neq, bind_ok.
    setoid_rewrite reject_if_ok. setoid_rewrite Z.ltb_ge. destruct u. split.
    + intros (? & [? ?] & ? & ? & ? & ?). split_and!; [right|..]; auto with lia.
    + intros ([? | (? & ? & ?)] & ? & ? & ? & ?); [lia|]. split_and!; auto with lia.
Qed.

Lemma validate_limit_order_ok o market s v u :
  Order.typed o → o.(Order.order_type) = OrderType.Limit →
  validate_limit_order o market s v = Ok u ↔ accepted o market s v.
Proof.
  intros Ht Hty. unfold validate_limit_order, accepted, validate_post_only_order. rewrite Hty.
  pose proof (Order.base_asset_amount_ty _ Ht). pose proof (Order.price_ty _ Ht).
  pose proof (Order.trigger_price_ty _ Ht). unfold_int.
  rewrite !seq_ok, !reject_if_ok, bind_ok. setoid_rewrite reject_if_ok.
  setoid_rewrite Z.ltb_ge. rewrite validate_base_asset_amount_ok by lia.
  rewrite negb_false_iff, andb_false_iff. unfold has_oracle_price_offset.
  rewrite negb_involutive. rewrite !Z.eqb_eq, Z.eqb_neq.
  assert (∀ m : result Z, (bind m (λ x, reject_if (negb (x =? 0))) = Ok ()) ↔ m = Ok 0) as Hp.
  { intros [x| |]; cbn; [|split; discriminate..].
    rewrite reject_if_ok, negb_false_iff, Z.eqb_eq. naive_solver. }
  destruct (Order.post_only o); rewrite ?Hp; cbn [negb andb];
    destruct (Z.eqb_spec (Order.price o) 0), (Z.eqb_spec (Order.oracle_price_offset o) 0);
    cbn [negb andb]; intuition (discriminate || lia || eauto).
Qed.

Lemma validate_trigger_order_ok o market s v u :
  Order.typed o →
  o.(Order.order_type) = OrderType.TriggerMarket
  ∨ o.(Order.order_type) = OrderType.TriggerLimit →
  validate_order o market s v = Ok u ↔ accepted o market s v.
Proof.
  destruct u; intros Ht [Hty|Hty]; unfold validate_order, accepted; rewrite Hty;
    pose proof (Order.base_asset_amount_ty _ Ht); pose proof (Order.price_ty _ Ht);
    pose proof (Order.trigger_price_ty _ Ht); unfold_int.
  - unfold validate_trigger_market_order. rewrite !seq_ok, !reject_if_ok.
    rewrite validate_base_asset_amount_ok by lia. unfold has_oracle_price_offset.
    rewrite !negb_false_iff, !Z.ltb_ge, !Z.eqb_eq, !Z.eqb_neq. intuition lia.
  - unfold validate_trigger_limit_order. rewrite !seq_ok, !reject_if_ok.
    rewrite validate_base_asset_amount_ok by lia. unfold has_oracle_price_offset.
    rewrite !negb_false_iff, !Z.ltb_ge, !Z.eqb_eq, !Z.eqb_neq.
    destruct (Order.trigger_condition o), (Order.direction o);
      rewrite reject_if_ok; rewrite ?(bool_decide_true (Long = Long)),
        ?(bool_decide_false (Short = Long)), ?(bool_decide_true (Short = Short)),
        ?(bool_decide_false (Long = Short)) by done; cbn [andb];
      rewrite ?Z.ltb_ge; intuition lia.
Qed.

(** C31. An order is valid exactly when its type's conditions hold. *)
Theorem validate_order_accepts o market s v :
  Order.typed o → validate_order o market s v = Ok () ↔ accepted o market s v.
Proof.
  intros Ht. destruct (Order.order_type o) eqn:Hty.
  - rewrite <-validate_market_order_ok by done. unfold validate_order. by rewrite Hty.
  - rewrite <-validate_limit_order_ok by done. unfold validate_order. by rewrite Hty.
  - apply validate_trigger_order_ok; auto.
  - apply validate_trigger_order_ok; auto.
Qed.

(** An order cannot be cancelled exactly when it is post-only, the market would fill
    some of it and its owner meets the initial margin requirement. *)
Theorem check_if_order_can_be_canceled_spec user i mm bm om v om' b order :
  user.(User.orders) !! i = Some order →
  check_if_order_can_be_canceled user i mm bm om v = Ok (om', b) →
  b = false ↔
  order.(Order.post_only) = true
  ∧ ∃ market fill, market_get_ref mm order.(Order.market_index) = Ok market
    ∧ calculate_base_asset_amount_to_trade_for_limit order market v = Ok fill ∧ 0 < fill
    ∧ meets_initial_margin_requirement user mm bm om = Ok (om', true).
Proof.
  intros Hi Hok. unfold check_if_order_can_be_canceled in Hok. rewrite Hi in Hok.
  cbn [unwrap bind] in Hok.
  destruct (Order.post_only order) eqn:Hp; cbn [negb] in Hok.
  2:{ inv_ok. naive_solver. }
  apply bind_ok in Hok as (m & Hm & Hok). apply bind_ok in Hok as (fill & Hf & Hok).
  destruct (Z.ltb_spec 0 fill).
  - apply bind_ok in Hok as ([om1 meets] & Hmeets & Hok). apply Ok_inj in Hok.
    injection Hok as <- <-. rewrite negb_false_iff. split; [intros ->; eauto 10|].
    intros (_ & m' & f' & _ & _ & _ & Heq). congruence.
  - apply Ok_inj in Hok; injection Hok as <- <-. split; [done|].
    intros (_ & m' & f' & Hm' & Hf' & Hpos & _). rewrite Hm in Hm'. simplify_eq.
    rewrite Hf in Hf'. simplify_eq. lia.
Qed.
End Properties.
