(* ===== verification/Orders.v ===== *)
(** * Orders (controller/orders.rs, and the user's side of math/orders.rs)

    Placing, cancelling and filling orders.  The user accounts of an instruction
    are cells by public key, so that a filler or a referrer that is the user itself
    is the same cell.  EventOrders adds the records that the code emits. *)

From stdpp Require Import base numbers list gmap.
From S2P Require Import Prelude Constants Bn State Value AmmMath Twap Oracle Maps.
From S2P Require Import PositionMath CurveMath Repeg AmmController OrdersMath Position.
From S2P Require Import Funding Fees Margin OrderValidation.
Local Open Scope Z_scope.

(** ** Definitions *)

(** What the code reads of Solana's clock. *)
Module Clock.
Record Clock := mk {
  unix_timestamp : Z;
  slot : Z;
}.
(** Every field holds a value of its Rust type. *)
Record typed (r : Clock) : Prop := {
  unix_timestamp_ty : has_type I64 r.(unix_timestamp);
  slot_ty : has_type U64 r.(slot);
}.
End Clock.
Abbreviation Clock := Clock.Clock.

Abbreviation UserMap := (gmap Z (loader User)).

(** [load_mut] (account_loader.rs) *)
Definition load_mut (users : UserMap) (key : Pubkey) : result (User * UserMap) :=
  load_cell_mut users key UnableToLoadAccountLoader UnableToLoadAccountLoader.

(** [user.orders[order_index]] and its update. *)
Definition get_order (user : User) (order_index : nat) : result Order :=
  unwrap (user.(User.orders) !! order_index).
Definition set_order (user : User) (order_index : nat) (o : Order) : User :=
  user <| User.orders := <[order_index := o]> user.(User.orders) |>.
Definition get_position (user : User) (position_index : nat) : result MarketPosition :=
  unwrap (user.(User.positions) !! position_index).

(** [get_position_index(..).or_else(|_| add_new_position(..))] *)
Definition get_or_add_position (user : User) (market_index : Z) : result (User * nat) :=
  match get_position_index user.(User.positions) market_index with
  | Ok i => Ok (user, i)
  | _ =>
      let? ' (positions, i) := add_new_position user.(User.positions) market_index in
      Ok (user <| User.positions := positions |>, i)
  end.

(** [user.positions[i].unsettled_pnl.checked_add(x)] *)
Definition add_unsettled_pnl (user : User) (position_index : nat) (x : Z) : result User :=
  let? p := get_position user position_index in
  let? u := cadd I128 p.(MarketPosition.unsettled_pnl) x in
  Ok (set_position user position_index (p <| MarketPosition.unsettled_pnl := u |>)).

Definition update_order_after_trade (order : Order) (minimum_base_asset_trade_size
    base_asset_amount quote_asset_amount fee : Z) : result Order :=
  let? b := cadd U128 order.(Order.base_asset_amount_filled) base_asset_amount in
  let order := order <| Order.base_asset_amount_filled := b |> in
  let? q := cadd U128 order.(Order.quote_asset_amount_filled) quote_asset_amount in
  let order := order <| Order.quote_asset_amount_filled := q |> in
  let? ' () :=
    if bool_decide (order.(Order.order_type) ≠ OrderType.Market) then
      let? base_asset_amount_to_fill :=
        csub U128 order.(Order.base_asset_amount) order.(Order.base_asset_amount_filled) in
      if (0 <? base_asset_amount_to_fill)
         && (base_asset_amount_to_fill <? minimum_base_asset_trade_size)
      then Err OrderAmountTooSmall
      else Ok ()
    else Ok () in
  let? f := cadd I128 order.(Order.fee) fee in
  Ok (order <| Order.fee := f |>).

(** *** Steps of [fill_order] *)

(** The fee goes to the market's totals. *)
Definition add_market_fee (market : Market) (fee_to_market : Z) : result Market :=
  let amm := market.(Market.amm) in
  let? t := cadd U128 amm.(AMM.total_fee) fee_to_market in
  let? d := cadd U128 amm.(AMM.total_fee_minus_distributions) fee_to_market in
  Ok (market <| Market.amm := amm <| AMM.total_fee := t |>
                                  <| AMM.total_fee_minus_distributions := d |> |>).

(** The user pays the fee (a negative fee is a rebate) and its totals grow. *)
Definition charge_user (user : User) (market_index user_fee token_discount
    referee_discount : Z) : result User :=
  let? position_index := get_position_index user.(User.positions) market_index in
  let? p := get_position user position_index in
  let? u := csub I128 p.(MarketPosition.unsettled_pnl) user_fee in
  let user := set_position user position_index
                (p <| MarketPosition.unsettled_pnl := u |>) in
  let? user :=
    if 0 <? user_fee then
      let? f := cast U64 (unsigned_abs user_fee) in
      let? x := cadd U64 user.(User.total_fee_paid) f in
      Ok (user <| User.total_fee_paid := x |>)
    else
      let? f := cast U64 (unsigned_abs user_fee) in
      let? x := cadd U64 user.(User.total_fee_rebate) f in
      Ok (user <| User.total_fee_rebate := x |>) in
  let? x := cadd U128 user.(User.total_token_discount) token_discount in
  let user := user <| User.total_token_discount := x |> in
  let? x := cadd U128 user.(User.total_referee_discount) referee_discount in
  Ok (user <| User.total_referee_discount := x |>).

Definition pay_filler (users : UserMap) (filler_key : Pubkey) (market_index
    filler_reward : Z) : result UserMap :=
  let? ' (filler, users) := load_mut users filler_key in
  let? ' (filler, position_index) := get_or_add_position filler market_index in
  let? reward := cast I128 filler_reward in
  let? filler := add_unsettled_pnl filler position_index reward in
  Ok (drop_mut users filler_key filler).

Definition reward_referrer (users : UserMap) (referrer_key : Pubkey) (referrer_reward : Z)
    : result UserMap :=
  let? ' (referrer, users) := load_mut users referrer_key in
  let? x := cadd U128 referrer.(User.total_referral_reward) referrer_reward in
  Ok (drop_mut users referrer_key (referrer <| User.total_referral_reward := x |>)).

(** A filled order, and every market order, gives its slot back; the decrement is
    unchecked. *)
Definition release_order (user : User) (order_index : nat) (market_index : Z)
    : result User :=
  let user := set_order user order_index Order_default in
  let? position_index := get_position_index user.(User.positions) market_index in
  let? p := get_position user position_index in
  Ok (set_position user position_index
        (p <| MarketPosition.open_orders :=
                wrap U128 (p.(MarketPosition.open_orders) - 1) |>)).

Definition release_order_if_filled (user : User) (order_index : nat) (market_index : Z)
    : result User :=
  let? order := get_order user order_index in
  if (order.(Order.base_asset_amount) =? order.(Order.base_asset_amount_filled))
     || bool_decide (order.(Order.order_type) = OrderType.Market)
  then release_order user order_index market_index
  else Ok user.

(** A fill fails when it pushes the mark price out of the oracle's band, and when it
    increases risk while it moves the price further out. *)
Definition check_oracle_mark_spread (spread_before spread_after : Z)
    (guard_rails : PriceDivergenceGuardRails) (is_oracle_valid risk_increasing : bool)
    : result () :=
  let? too_divergent_before := is_oracle_mark_too_divergent spread_before guard_rails in
  let? too_divergent_after := is_oracle_mark_too_divergent spread_after guard_rails in
  if too_divergent_after && negb too_divergent_before && is_oracle_valid
  then Err OracleMarkSpreadLimit
  else if too_divergent_after
          && (unsigned_abs spread_before <=? unsigned_abs spread_after)
          && is_oracle_valid && risk_increasing
  then Err OracleMarkSpreadLimit
  else Ok ().

Section Definitions.
Context `{BnLib} `{OracleAccounts} `{Roots}.

(** *** math/orders.rs *)

Definition calculate_available_quote_asset_user_can_execute (user : User)
    (order_index position_index : nat) (market_map : MarketMap) (bank_map : BankMap)
    (oracle_map : OracleMap) : result (OracleMap * Z) :=
  let? market_position := get_position user position_index in
  let existing := market_position.(MarketPosition.base_asset_amount) in
  let market_index := market_position.(MarketPosition.market_index) in
  let? order := get_order user order_index in
  let? market := market_get_ref market_map market_index in
  let? m := cast_to_u128 market.(Market.margin_ratio_initial) in
  let? m := cadd U128 m 1 in
  let? max_leverage := cdiv U128 MARGIN_PRECISION m in
  if increases_position existing order.(Order.direction) then
    let? ' (oracle_map, (free_collateral, _)) :=
      calculate_free_collateral user market_map bank_map oracle_map None in
    let? available := cmul U128 free_collateral max_leverage in
    Ok (oracle_map, available)
  else
    let? ' (oracle_map, (free_collateral, closed_position_base_asset_value)) :=
      calculate_free_collateral user market_map bank_map oracle_map (Some market_index) in
    let? available := cmul U128 free_collateral max_leverage in
    let? available := cadd U128 available closed_position_base_asset_value in
    Ok (oracle_map, available).

(** The base amount that a quote amount buys or sells on the curve, taking one unit
    less than the quote reserve at most. *)
Definition base_asset_amount_for_quote (market : Market) (quote_asset_amount : Z)
    (order_direction : PositionDirection) (order_post_only : bool) : result Z :=
  let amm := market.(Market.amm) in
  let? r := csub U128 amm.(AMM.quote_asset_reserve) 1 in
  let? a := asset_to_reserve_amount quote_asset_amount amm.(AMM.peg_multiplier) in
  let quote_asset_reserve_amount := Z.min r a in
  let? ' (base_asset_reserves_before, quote_asset_reserves_before) :=
    if order_post_only || (amm.(AMM.base_spread) =? 0)
    then Ok (amm.(AMM.base_asset_reserve), amm.(AMM.quote_asset_reserve))
    else calculate_spread_reserves amm order_direction in
  let? ' (base_asset_reserves_after, _) := calculate_swap_output
    quote_asset_reserve_amount quote_asset_reserves_before
    (quote_swap_direction order_direction) amm.(AMM.sqrt_k) in
  let? before := cast_to_i128 base_asset_reserves_before in
  let? after := cast I128 base_asset_reserves_after in
  let? d := csub I128 before after in
  Ok (unsigned_abs d).

Definition calculate_base_asset_amount_user_can_execute (user : User) (order_index : nat)
    (market_map : MarketMap) (bank_map : BankMap) (oracle_map : OracleMap)
    (market_index : Z) : result (OracleMap * Z) :=
  let? position_index := get_position_index user.(User.positions) market_index in
  let? order := get_order user order_index in
  let? ' (oracle_map, quote_asset_amount) :=
    calculate_available_quote_asset_user_can_execute user order_index position_index
      market_map bank_map oracle_map in
  let? ' (market, _) := market_get_ref_mut market_map market_index in
  let? base_asset_amount := base_asset_amount_for_quote market quote_asset_amount
    order.(Order.direction) order.(Order.post_only) in
  if order.(Order.reduce_only) && negb (base_asset_amount =? 0) then
    let? p := get_position user position_index in
    Ok (oracle_map, calculate_base_asset_amount_for_reduce_only_order base_asset_amount
                      order.(Order.direction) p.(MarketPosition.base_asset_amount))
  else Ok (oracle_map, base_asset_amount).

(** *** controller/orders.rs *)

Definition get_valid_oracle_price (oracle : option AccountInfo) (market : Market)
    (order : Order) (validity_guardrails : ValidityGuardRails) (slot : Z)
    : result (option Z) :=
  match oracle with
  | Some oracle =>
      let? oracle_data := amm_get_oracle_price market.(Market.amm) oracle slot in
      let? is_oracle_valid :=
        is_oracle_valid market.(Market.amm) oracle_data validity_guardrails in
      if (is_oracle_valid : bool) then Ok (Some oracle_data.(OraclePriceData.price))
      else if has_oracle_price_offset order then Err InvalidOracle
      else Ok None
  | None => if has_oracle_price_offset order then Err OracleNotFound else Ok None
  end.

(** The order that [place_order] builds. *)
Definition new_order (params : OrderParams) (now order_id user_base_asset_amount
    order_base_asset_amount : Z) (discount_tier : OrderDiscountTier)
    (referrer : option Pubkey) : Order := {|
  Order.status := Open;
  Order.order_type := params.(OrderParams.order_type);
  Order.ts := now;
  Order.order_id := order_id;
  Order.user_order_id := params.(OrderParams.user_order_id);
  Order.market_index := params.(OrderParams.market_index);
  Order.price := params.(OrderParams.price);
  Order.user_base_asset_amount := user_base_asset_amount;
  Order.quote_asset_amount := params.(OrderParams.quote_asset_amount);
  Order.base_asset_amount := order_base_asset_amount;
  Order.base_asset_amount_filled := 0;
  Order.quote_asset_amount_filled := 0;
  Order.fee := 0;
  Order.direction := params.(OrderParams.direction);
  Order.reduce_only := params.(OrderParams.reduce_only);
  Order.post_only := params.(OrderParams.post_only);
  Order.immediate_or_cancel := params.(OrderParams.immediate_or_cancel);
  Order.discount_tier := discount_tier;
  Order.trigger_price := params.(OrderParams.trigger_price);
  Order.trigger_condition := params.(OrderParams.trigger_condition);
  Order.referrer := match referrer with Some key => key | None => Pubkey_default end;
  Order.oracle_price_offset := params.(OrderParams.oracle_price_offset);
|}.

(** [place_order] on the user's data; the increment of [open_orders] is unchecked. *)
Definition place_order_for (state : State) (order_state : OrderState) (user : User)
    (market_map : MarketMap) (discount_token : option Z) (referrer : option Pubkey)
    (clock : Clock) (params : OrderParams) (oracle : option AccountInfo) : result User :=
  let now := clock.(Clock.unix_timestamp) in
  let? user := settle_funding_payment user market_map in
  let? new_order_index :=
    ok_or (iter_position (λ o, bool_decide (o.(Order.status) = Init)) user.(User.orders))
      MaxNumberOfOrders in
  let? discount_tier :=
    calculate_order_fee_tier state.(State.fee_structure) discount_token in
  let? ' () :=
    if 0 <? params.(OrderParams.user_order_id) then
      match iter_position (λ o, o.(Order.user_order_id) =? params.(OrderParams.user_order_id))
              user.(User.orders) with
      | Some _ => Err UserOrderIdAlreadyInUse
      | None => Ok ()
      end
    else Ok () in
  let market_index := params.(OrderParams.market_index) in
  let? market := market_get_ref market_map market_index in
  let? ' (user, position_index) := get_or_add_position user market_index in
  let? market_position := get_position user position_index in
  let market_position := market_position <| MarketPosition.open_orders :=
    wrap U128 (market_position.(MarketPosition.open_orders) + 1) |> in
  let user := set_position user position_index market_position in
  let order_base_asset_amount :=
    get_base_asset_amount_for_order params market market_position in
  let '(order_id, next_order_id) := get_then_update_id user.(User.next_order_id) in
  let user := user <| User.next_order_id := next_order_id |> in
  let order := new_order params now order_id
    market_position.(MarketPosition.base_asset_amount) order_base_asset_amount
    discount_tier referrer in
  let? valid_oracle_price := get_valid_oracle_price oracle market order
    state.(State.oracle_guard_rails).(OracleGuardRails.validity) clock.(Clock.slot) in
  let? ' () := validate_order order market order_state valid_oracle_price in
  Ok (set_order user new_order_index order).

Definition place_order (state : State) (order_state : OrderState) (users : UserMap)
    (user_key : Pubkey) (market_map : MarketMap) (discount_token : option Z)
    (referrer : option Pubkey) (clock : Clock) (params : OrderParams)
    (oracle : option AccountInfo) : result UserMap :=
  let? ' (user, users) := load_mut users user_key in
  let? user := place_order_for state order_state user market_map discount_token referrer
    clock params oracle in
  Ok (drop_mut users user_key user).

Definition cancel_order (state : State) (order_index : nat) (user : User)
    (market_map : MarketMap) (bank_map : BankMap) (oracle_map : OracleMap) (clock : Clock)
    (oracle : option AccountInfo) (best_effort : bool) : result (User * OracleMap) :=
  let? user := settle_funding_payment user market_map in
  let? order := get_order user order_index in
  if bool_decide (order.(Order.status) ≠ Open) then Err OrderNotOpen
  else
    let order_market_index := order.(Order.market_index) in
    let? market := market_get_ref market_map order_market_index in
    let? valid_oracle_price := get_valid_oracle_price oracle market order
      state.(State.oracle_guard_rails).(OracleGuardRails.validity) clock.(Clock.slot) in
    let? ' (oracle_map, is_cancelable) :=
      if best_effort then
        check_if_order_can_be_canceled user order_index market_map bank_map oracle_map
          valid_oracle_price
      else
        let? oracle_map := validate_order_can_be_canceled user order_index market_map
          bank_map oracle_map valid_oracle_price in
        Ok (oracle_map, true) in
    if negb is_cancelable then Ok (user, oracle_map)
    else
      let? position_index := get_position_index user.(User.positions) order_market_index in
      let? p := get_position user position_index in
      let user := set_position user position_index
        (p <| MarketPosition.open_orders :=
                wrap U128 (p.(MarketPosition.open_orders) - 1) |>) in
      Ok (set_order user order_index Order_default, oracle_map).

(** The two [cancel_order_by_*]: the first order with the id, whatever its status. *)
Definition cancel_first_order (matches : Order → bool) (state : State) (users : UserMap)
    (user_key : Pubkey) (market_map : MarketMap) (bank_map : BankMap)
    (oracle_map : OracleMap) (clock : Clock) (oracle : option AccountInfo)
    : result (UserMap * OracleMap) :=
  let? ' (user, users) := load_mut users user_key in
  let? order_index := ok_or (iter_position matches user.(User.orders)) OrderDoesNotExist in
  let? ' (user, oracle_map) := cancel_order state order_index user market_map bank_map
    oracle_map clock oracle false in
  Ok (drop_mut users user_key user, oracle_map).

Definition cancel_order_by_order_id (state : State) (order_id : Z)
    : UserMap → Pubkey → MarketMap → BankMap → OracleMap → Clock → option AccountInfo →
      result (UserMap * OracleMap) :=
  cancel_first_order (λ o, o.(Order.order_id) =? order_id) state.

Definition cancel_order_by_user_order_id (state : State) (user_order_id : Z)
    : UserMap → Pubkey → MarketMap → BankMap → OracleMap → Clock → option AccountInfo →
      result (UserMap * OracleMap) :=
  cancel_first_order (λ o, o.(Order.user_order_id) =? user_order_id) state.

(** What an execution returns: base and quote amounts, whether it may increase risk,
    and the surplus. *)
Record Fill := mk_fill {
  fill_base : Z;
  fill_quote : Z;
  fill_risk_increasing : bool;
  fill_surplus : Z;
}.

Definition no_fill : Fill := mk_fill 0 0 false 0.

Definition execute_market_order (user : User) (order_index : nat) (market_map : MarketMap)
    (market_index mark_price_before now : Z) : result (User * MarketMap * Fill) :=
  let? position_index := get_position_index user.(User.positions) market_index in
  let? ' (market, market_map) := market_get_ref_mut market_map market_index in
  let? order := get_order user order_index in
  let? position := get_position user position_index in
  let base_asset_amount :=
    if order.(Order.reduce_only) then
      calculate_base_asset_amount_for_reduce_only_order order.(Order.base_asset_amount)
        order.(Order.direction) position.(MarketPosition.base_asset_amount)
    else order.(Order.base_asset_amount) in
  let? ' (market, user, update) :=
    if 0 <? order.(Order.base_asset_amount) then
      update_position_with_base_asset_amount base_asset_amount order.(Order.direction)
        market user position_index mark_price_before now None
    else
      update_position_with_quote_asset_amount order.(Order.quote_asset_amount)
        order.(Order.direction) market user position_index mark_price_before now in
  let? user := add_unsettled_pnl user position_index update.(PositionUpdate.pnl) in
  let base_asset_amount := update.(PositionUpdate.base_asset_amount) in
  let quote_asset_amount := update.(PositionUpdate.quote_asset_amount) in
  if base_asset_amount <? market.(Market.amm).(AMM.minimum_base_asset_trade_size)
  then Err TradeSizeTooSmall
  else if negb update.(PositionUpdate.reduce_only) && order.(Order.reduce_only)
  then Err ReduceOnlyOrderIncreasedRisk
  else
    let? satisfied :=
      if 0 <? order.(Order.price) then
        limit_price_satisfied order.(Order.price) quote_asset_amount base_asset_amount
          order.(Order.direction)
      else Ok true in
    if negb satisfied then Err SlippageOutsideLimit
    else
      Ok (user, drop_mut market_map market_index market,
          mk_fill base_asset_amount quote_asset_amount
            update.(PositionUpdate.potentially_risk_increasing)
            update.(PositionUpdate.quote_asset_amount_surplus)).

(** The amount of a non-market fill: what the user and the market can execute, all
    that is left when the rest would be below the minimum size, and nothing below the
    minimum size. *)
Definition non_market_fill_amount (order : Order) (market_can_execute user_can_execute
    minimum_base_asset_trade_size : Z) : result Z :=
  let base_asset_amount := Z.min market_can_execute user_can_execute in
  if base_asset_amount <? minimum_base_asset_trade_size then Ok 0
  else
    let? x := cadd U128 order.(Order.base_asset_amount_filled) base_asset_amount in
    let? base_asset_amount_left_to_fill := csub U128 order.(Order.base_asset_amount) x in
    if (0 <? base_asset_amount_left_to_fill)
       && (base_asset_amount_left_to_fill <? minimum_base_asset_trade_size)
    then cadd U128 base_asset_amount base_asset_amount_left_to_fill
    else Ok base_asset_amount.

Definition execute_non_market_order (user : User) (order_index : nat)
    (market_map : MarketMap) (bank_map : BankMap) (oracle_map : OracleMap)
    (market_index mark_price_before now : Z) (valid_oracle_price : option Z)
    : result (User * MarketMap * OracleMap * Fill) :=
  let? ' (oracle_map, user_can_execute) := calculate_base_asset_amount_user_can_execute
    user order_index market_map bank_map oracle_map market_index in
  if user_can_execute =? 0 then Ok (user, market_map, oracle_map, no_fill)
  else
    let? ' (market, borrowed_map) := market_get_ref_mut market_map market_index in
    let? order := get_order user order_index in
    let? market_can_execute := calculate_base_asset_amount_market_can_execute order market
      (Some mark_price_before) valid_oracle_price in
    if market_can_execute =? 0 then Ok (user, market_map, oracle_map, no_fill)
    else
      let? base_asset_amount := non_market_fill_amount order market_can_execute
        user_can_execute market.(Market.amm).(AMM.minimum_base_asset_trade_size) in
      if base_asset_amount =? 0 then Ok (user, market_map, oracle_map, no_fill)
      else
        let? position_index := get_position_index user.(User.positions) market_index in
        let? maker_limit_price :=
          if order.(Order.post_only) then
            let? p := get_limit_price order valid_oracle_price in Ok (Some p)
          else Ok None in
        let? ' (market, user, update) :=
          update_position_with_base_asset_amount base_asset_amount order.(Order.direction)
            market user position_index mark_price_before now maker_limit_price in
        let? user := add_unsettled_pnl user position_index update.(PositionUpdate.pnl) in
        if negb update.(PositionUpdate.reduce_only) && order.(Order.reduce_only)
        then Err ReduceOnlyOrderIncreasedRisk
        else
          Ok (user, drop_mut borrowed_map market_index market, oracle_map,
              mk_fill base_asset_amount update.(PositionUpdate.quote_asset_amount)
                update.(PositionUpdate.potentially_risk_increasing)
                update.(PositionUpdate.quote_asset_amount_surplus)).

Definition execute_order (user : User) (order_index : nat) (market_map : MarketMap)
    (bank_map : BankMap) (oracle_map : OracleMap) (market_index mark_price_before now : Z)
    (valid_oracle_price : option Z) : result (User * MarketMap * OracleMap * Fill) :=
  let? order := get_order user order_index in
  match order.(Order.order_type) with
  | OrderType.Market =>
      let? ' (user, market_map, fill) := execute_market_order user order_index market_map
        market_index mark_price_before now in
      Ok (user, market_map, oracle_map, fill)
  | _ => execute_non_market_order user order_index market_map bank_map oracle_map
           market_index mark_price_before now valid_oracle_price
  end.

(** The first block of [fill_order]: the market is re-pegged within its fee pool, its
    oracle average and its spreads are updated.  The mark price, its distance to the
    oracle, the oracle's validity and its price are what the fill goes by. *)
Definition prepare_market (state : State) (market : Market) (oracle : AccountInfo)
    (clock : Clock) : result (Market * (Z * Z * bool * Z)) :=
  let? oracle_price_data :=
    amm_get_oracle_price market.(Market.amm) oracle clock.(Clock.slot) in
  let? prepeg_budget := calculate_fee_pool market in
  let? mark_price_prefore := mark_price market.(Market.amm) in
  let? oracle_valid := is_oracle_valid market.(Market.amm) oracle_price_data
    state.(State.oracle_guard_rails).(OracleGuardRails.validity) in
  let? ' (market, _) := prepeg market mark_price_prefore oracle_price_data prepeg_budget in
  let? mark_price_before := mark_price market.(Market.amm) in
  let? oracle_mark_spread_pct_before := calculate_oracle_mark_spread_pct
    market.(Market.amm) oracle_price_data (Some mark_price_before) in
  let? amm :=
    if (oracle_valid : bool) then
      let? ' (amm, _) := update_oracle_price_twap market.(Market.amm)
        clock.(Clock.unix_timestamp) oracle_price_data (Some mark_price_before) in
      Ok amm
    else Ok market.(Market.amm) in
  let? ' (amm, _) := calculate_spreads amm in
  Ok (market <| Market.amm := amm |>,
      (mark_price_before, oracle_mark_spread_pct_before, oracle_valid,
       oracle_price_data.(OraclePriceData.price))).

(** A post-only order may be filled down to the partial margin requirement. *)
Definition meets_fill_requirement (user : User) (market_map : MarketMap)
    (bank_map : BankMap) (oracle_map : OracleMap) (post_only : bool)
    : result (OracleMap * bool) :=
  if post_only then meets_partial_margin_requirement user market_map bank_map oracle_map
  else meets_initial_margin_requirement user market_map bank_map oracle_map.

(** The part of [fill_order] between the execution and the fees: the distance to the
    oracle and the margin requirement. *)
Definition check_fill (state : State) (user : User) (market_map : MarketMap)
    (bank_map : BankMap) (oracle_map : OracleMap) (market_index : Z) (oracle : AccountInfo)
    (slot spread_before : Z) (oracle_valid post_only : bool) (fill : Fill)
    : result OracleMap :=
  let? ' (market, _) := market_get_ref_mut market_map market_index in
  let? mark_price_after := mark_price market.(Market.amm) in
  let? oracle_price_data := amm_get_oracle_price market.(Market.amm) oracle slot in
  let? spread_after := calculate_oracle_mark_spread_pct market.(Market.amm)
    oracle_price_data (Some mark_price_after) in
  let? ' () := check_oracle_mark_spread spread_before spread_after
    state.(State.oracle_guard_rails).(OracleGuardRails.price_divergence) oracle_valid
    fill.(fill_risk_increasing) in
  let? ' (oracle_map, meets_maintenance_requirement) :=
    meets_fill_requirement user market_map bank_map oracle_map post_only in
  if negb meets_maintenance_requirement && fill.(fill_risk_increasing)
  then Err InsufficientCollateral
  else Ok oracle_map.

(** The part of [fill_order] after the checks: fees, rewards and the order itself. *)
Definition settle_fill (state : State) (order_state : OrderState) (users : UserMap)
    (user : User) (user_key filler_key : Pubkey) (referrer : option Pubkey)
    (market_map : MarketMap) (market_index : Z) (order_index : nat) (order : Order)
    (now : Z) (fill : Fill) : result (UserMap * User * MarketMap) :=
  let? ' (user_fee, fee_to_market, token_discount, filler_reward, referrer_reward,
          referee_discount) :=
    calculate_fee_for_order fill.(fill_quote) state.(State.fee_structure)
      order_state.(OrderState.order_filler_reward_structure) order.(Order.discount_tier)
      order.(Order.ts) now (bool_decide (is_Some referrer)) (filler_key =? user_key)
      fill.(fill_surplus) order.(Order.post_only) in
  let? ' (market, borrowed_map) := market_get_ref_mut market_map market_index in
  let? market := add_market_fee market fee_to_market in
  let market_map := drop_mut borrowed_map market_index market in
  let? user := charge_user user market_index user_fee token_discount referee_discount in
  let? users := if filler_key =? user_key then Ok users
                else pay_filler users filler_key market_index filler_reward in
  let? users := match referrer with
                | Some key => reward_referrer users key referrer_reward
                | None => Ok users
                end in
  let? market := market_get_ref market_map market_index in
  let? order := get_order user order_index in
  let? order := update_order_after_trade order
    market.(Market.amm).(AMM.minimum_base_asset_trade_size) fill.(fill_base)
    fill.(fill_quote) user_fee in
  let user := set_order user order_index order in
  let? ' (market, borrowed_map) := market_get_ref_mut market_map market_index in
  let '(_, next_id) := get_then_update_id market.(Market.next_trade_record_id) in
  let market := market <| Market.next_trade_record_id := next_id |> in
  let market_map := drop_mut borrowed_map market_index market in
  let? user := release_order_if_filled user order_index market_index in
  Ok (users, user, market_map).

Definition fill_order (order_id : Z) (state : State) (order_state : OrderState)
    (users : UserMap) (user_key : Pubkey) (market_map : MarketMap) (bank_map : BankMap)
    (oracle_map : OracleMap) (oracle : AccountInfo) (filler_key : Pubkey)
    (referrer : option Pubkey) (clock : Clock)
    : result (UserMap * MarketMap * OracleMap * Z) :=
  let now := clock.(Clock.unix_timestamp) in
  let? ' (user, users) := load_mut users user_key in
  let? user := settle_funding_payment user market_map in
  let? order_index :=
    ok_or (iter_position (λ o, o.(Order.order_id) =? order_id) user.(User.orders))
      OrderDoesNotExist in
  let? order := get_order user order_index in
  if bool_decide (order.(Order.status) ≠ Open) then Err OrderNotOpen
  else
    let market_index := order.(Order.market_index) in
    let? ' (market, borrowed_map) := market_get_ref_mut market_map market_index in
    let? ' (market, (mark_price_before, spread_before, oracle_valid, oracle_price)) :=
      prepare_market state market oracle clock in
    let market_map := drop_mut borrowed_map market_index market in
    let valid_oracle_price := if oracle_valid then Some oracle_price else None in
    let? ' (user, market_map, oracle_map, fill) := execute_order user order_index market_map
      bank_map oracle_map market_index mark_price_before now valid_oracle_price in
    if fill.(fill_base) =? 0
    then Ok (drop_mut users user_key user, market_map, oracle_map, 0)
    else
      let? oracle_map := check_fill state user market_map bank_map oracle_map market_index
        oracle clock.(Clock.slot) spread_before oracle_valid order.(Order.post_only) fill in
      let? ' (users, user, market_map) := settle_fill state order_state users user user_key
        filler_key referrer market_map market_index order_index order now fill in
      let? ' (market, borrowed_map) := market_get_ref_mut market_map market_index in
      let? market := update_funding_rate market oracle now clock.(Clock.slot)
        state.(State.oracle_guard_rails) state.(State.funding_paused)
        (Some mark_price_before) in
      Ok (drop_mut users user_key user, drop_mut borrowed_map market_index market,
          oracle_map, fill.(fill_base)).
End Definitions.

(** ** Properties *)

(** *** Amounts *)

(** After a fill the filled amount has grown by exactly the fill and stays within the
    order, and what is left of a non-market order is nothing or a fillable amount. *)
Lemma update_order_after_trade_inv order minimum b q fee order' :
  update_order_after_trade order minimum b q fee = Ok order' →
  order'.(Order.base_asset_amount_filled) = order.(Order.base_asset_amount_filled) + b
  ∧ order'.(Order.quote_asset_amount_filled) = order.(Order.quote_asset_amount_filled) + q
  ∧ order'.(Order.fee) = order.(Order.fee) + fee
  ∧ (order.(Order.order_type) ≠ OrderType.Market →
     let left := order.(Order.base_asset_amount) - order'.(Order.base_asset_amount_filled) in
     left = 0 ∨ 0 < left ∧ minimum ≤ left)
  ∧ order'.(Order.status) = order.(Order.status)
  ∧ order'.(Order.market_index) = order.(Order.market_index)
  ∧ order'.(Order.order_type) = order.(Order.order_type)
  ∧ order'.(Order.base_asset_amount) = order.(Order.base_asset_amount).
Proof.
  unfold update_order_after_trade. intros Hok. inv_ok; cbn in *; bool_prop.
  - split_and!; try done. intros _. unfold_int. cbn in *. lia.
  - split_and!; try done. intros Hne. case_bool_decide; done.
Qed.

(** A non-market fill takes all that is left or leaves a fillable amount; it never
    exceeds what is left, and exceeds what the user and the market can execute by
    less than the minimum size. *)
Lemma non_market_fill_amount_inv order market_can user_can minimum x :
  non_market_fill_amount order market_can user_can minimum = Ok x →
  let left := order.(Order.base_asset_amount) - order.(Order.base_asset_amount_filled) in
  let available := Z.min market_can user_can in
  if available <? minimum then x = 0
  else available ≤ x ≤ left ∧ (x = left ∨ minimum ≤ left - x)
       ∧ (x = available ∨ x < available + minimum).
Proof.
  unfold non_market_fill_amount. cbv zeta. intros Hok.
  destruct (Z.ltb_spec (Z.min market_can user_can) minimum); [by apply Ok_inj in Hok|].
  inv_ok; bool_prop; unfold_int; cbn in *; lia.
Qed.

(** *** The open orders of a user *)

Definition open_in (i : Z) (o : Order) : bool :=
  bool_decide (o.(Order.status) = Open) && (o.(Order.market_index) =? i).

Fixpoint open_order_count (i : Z) (os : list Order) : Z :=
  match os with
  | [] => 0
  | o :: os => (if open_in i o then 1 else 0) + open_order_count i os
  end.

Lemma open_order_count_bounds i os : 0 ≤ open_order_count i os ≤ Z.of_nat (length os).
Proof. induction os as [|o os IH]; simpl; [done|]. destruct (open_in i o); lia. Qed.

Lemma open_order_count_insert i os n o o' :
  os !! n = Some o →
  open_order_count i (<[n:=o']> os)
  = open_order_count i os - (if open_in i o then 1 else 0) + (if open_in i o' then 1 else 0).
Proof.
  revert n. induction os as [|a os IH]; intros [|n] Hn; simplify_eq/=; [lia|].
  rewrite (IH n) by done. lia.
Qed.

Lemma open_order_count_pos i os n o :
  os !! n = Some o → open_in i o = true → 0 < open_order_count i os.
Proof.
  revert n. induction os as [|a os IH]; intros [|n] Hn Ho; simplify_eq/=.
  - rewrite Ho. pose proof (open_order_count_bounds i os). lia.
  - specialize (IH n Hn Ho). destruct (open_in i a); lia.
Qed.

(** The positions and the orders of a user agree: there is one position for a market
    in use, it counts the open orders of the market, and a market with open orders has
    one. *)
Record orders_wf (u : User) : Prop := {
  wf_unique : ∀ i j k p q,
    u.(User.positions) !! j = Some p → u.(User.positions) !! k = Some q →
    is_for p i = true → is_for q i = true → j = k;
  wf_counted : ∀ i k p,
    u.(User.positions) !! k = Some p → is_for p i = true →
    p.(MarketPosition.open_orders) = open_order_count i u.(User.orders);
  wf_covered : ∀ i, 0 < open_order_count i u.(User.orders) →
    ∃ k p, u.(User.positions) !! k = Some p ∧ is_for p i = true;
  wf_room : (length u.(User.orders) ≤ 32)%nat;
}.

(** The slot [k] is the market's: it is free or the market's own, and no other slot is
    in use for the market. *)
Definition owns (u : User) (i : Z) (k : nat) (p : MarketPosition) : Prop :=
  u.(User.positions) !! k = Some p
  ∧ (is_available p = true ∨ p.(MarketPosition.market_index) = i)
  ∧ ∀ j q, u.(User.positions) !! j = Some q → is_for q i = true → j = k.

Lemma is_for_other p i j : is_for p i = true → is_for p j = true → i = j.
Proof. rewrite !is_for_spec. intros [<- _] [<- _]. done. Qed.

(** Every change of the order system is a change of one market's slot and orders. *)
Lemma orders_wf_update u u' i k p p' :
  orders_wf u → owns u i k p →
  u'.(User.positions) = <[k:=p']> u.(User.positions) →
  p'.(MarketPosition.market_index) = i →
  p'.(MarketPosition.open_orders) = open_order_count i u'.(User.orders) →
  (∀ j, j ≠ i → open_order_count j u'.(User.orders) = open_order_count j u.(User.orders)) →
  length u'.(User.orders) = length u.(User.orders) →
  orders_wf u'.
Proof.
  intros [Hun Hc Hcov Hroom] (Hk & Hfree & Honly) Hps Hi Hoo Hother Hlen.
  assert (k < length (User.positions u))%nat as Hlt by (by eapply lookup_lt_Some).
  assert (∀ j q, j ≠ k → User.positions u !! j = Some q → is_for q i = false) as Hnot.
  { intros j q Hj Hq. destruct (is_for q i) eqn:Hf; [|done]. by eapply Honly in Hf. }
  assert (∀ m, is_for p' m = true → m = i) as Hm.
  { intros m Hf. apply is_for_spec in Hf as [<- _]. done. }
  split; rewrite ?Hps, ?Hlen; [..|done].
  - intros m j j' q q' Hq Hq' Hf Hf'.
    destruct (decide (j = k)) as [->|Hj], (decide (j' = k)) as [->|Hj']; [done|..].
    + rewrite list_lookup_insert_eq in Hq by done.
      rewrite list_lookup_insert_ne in Hq' by done. simplify_eq.
      rewrite (Hm m) in Hf' by done. by rewrite (Hnot j') in Hf'.
    + rewrite list_lookup_insert_eq in Hq' by done.
      rewrite list_lookup_insert_ne in Hq by done. simplify_eq.
      rewrite (Hm m) in Hf by done. by rewrite (Hnot j) in Hf.
    + rewrite list_lookup_insert_ne in Hq, Hq' by done. by eapply Hun.
  - intros m j q Hq Hf. destruct (decide (j = k)) as [->|Hj].
    + rewrite list_lookup_insert_eq in Hq by done. simplify_eq. by rewrite (Hm m) by done.
    + rewrite list_lookup_insert_ne in Hq by done. rewrite Hother; [by eapply Hc|].
      intros ->. by rewrite (Hnot j) in Hf.
  - intros m Hpos. destruct (decide (m = i)) as [->|Hmi].
    + exists k, p'. rewrite list_lookup_insert_eq by done. split; [done|].
      apply is_for_spec. split; [done|]. apply not_true_iff_false.
      rewrite is_available_spec. lia.
    + rewrite Hother in Hpos by done. destruct (Hcov m Hpos) as (j & q & Hq & Hf).
      exists j, q. split; [|done]. rewrite list_lookup_insert_ne; [done|].
      intros <-. simplify_eq. apply is_for_spec in Hf as [Hf1 Hf2].
      destruct Hfree; congruence.
Qed.

(** A change of the market's slot alone. *)
Lemma orders_wf_slot u u' i k p p' :
  orders_wf u → owns u i k p → p.(MarketPosition.open_orders) = open_order_count i u.(User.orders) →
  u'.(User.positions) = <[k:=p']> u.(User.positions) → u'.(User.orders) = u.(User.orders) →
  p'.(MarketPosition.market_index) = i →
  p'.(MarketPosition.open_orders) = p.(MarketPosition.open_orders) →
  orders_wf u'.
Proof.
  intros Hwf Hown Hcount Hps Hos Hi Hoo.
  eapply orders_wf_update; [done|done|done|done|rewrite Hos; congruence|by rewrite Hos..].
Qed.

Lemma get_position_index_ok ps i k :
  get_position_index ps i = Ok k → ∃ p, ps !! k = Some p ∧ is_for p i = true.
Proof.
  unfold get_position_index. destruct (iter_position _ ps) as [k'|] eqn:Hk; [|done].
  intros [= ->]. apply iter_position_some in Hk as (p & Hp & Hf & _). eauto.
Qed.

Lemma get_position_index_err ps i e :
  get_position_index ps i = Err e → ∀ k p, ps !! k = Some p → is_for p i = false.
Proof.
  unfold get_position_index. destruct (iter_position _ ps) as [k'|] eqn:Hk; [done|].
  intros _ k p Hp. unfold iter_position in Hk. apply fmap_None, list_find_None in Hk.
  rewrite Forall_lookup in Hk. apply not_true_iff_false. by eapply Hk.
Qed.

(** The slot that the code finds is the market's, and counts its orders. *)
Lemma get_position_index_owns u i k :
  orders_wf u → get_position_index u.(User.positions) i = Ok k →
  ∃ p, owns u i k p ∧ is_for p i = true ∧ p.(MarketPosition.market_index) = i
       ∧ p.(MarketPosition.open_orders) = open_order_count i u.(User.orders).
Proof.
  intros [Hun Hc _ _] Hk. apply get_position_index_ok in Hk as (p & Hp & Hf).
  pose proof Hf as Hm. apply is_for_spec in Hm as [Hm _].
  exists p. split_and!; [split_and!| | |]; eauto.
Qed.

Lemma get_or_add_position_wf u i u' k :
  orders_wf u → get_or_add_position u i = Ok (u', k) →
  orders_wf u' ∧ u'.(User.orders) = u.(User.orders)
  ∧ u'.(User.next_order_id) = u.(User.next_order_id)
  ∧ ∃ p, owns u' i k p ∧ p.(MarketPosition.market_index) = i
       ∧ p.(MarketPosition.open_orders) = open_order_count i u.(User.orders).
Proof.
  intros Hwf Hok. unfold get_or_add_position in Hok.
  destruct (get_position_index (User.positions u) i) as [k'|e|] eqn:Hk.
  - apply Ok_inj in Hok; simplify_eq. split_and!; [done..|].
    destruct (get_position_index_owns _ _ _ Hwf Hk) as (p & ? & _ & ? & ?). eauto.
  - apply bind_ok in Hok as ([ps n] & Hadd & Hok). apply Ok_inj in Hok; simplify_eq.
    pose proof (add_new_position_spec (User.positions u) i) as Hs. rewrite Hadd in Hs.
    destruct Hs as ((p & Hp & Ha) & _ & Hnew & Hrest & Hlen).
    assert (ps = <[k:=MarketPosition_default <| MarketPosition.market_index := i |>]>
                   (User.positions u)) as ->.
    { unfold add_new_position in Hadd. inv_ok. done. }
    assert (open_order_count i (User.orders u) = 0) as Hzero.
    { destruct (open_order_count_bounds i (User.orders u)) as [Hge _].
      destruct (decide (open_order_count i (User.orders u) = 0)) as [|Hne]; [done|].
      destruct (wf_covered _ Hwf i) as (j & q & Hq & Hf); [lia|].
      by rewrite (get_position_index_err _ _ _ Hk j q) in Hf. }
    assert (∀ j q, User.positions u !! j = Some q → is_for q i = true → j = k) as Hnone.
    { intros j q Hq Hf. by rewrite (get_position_index_err _ _ _ Hk j q) in Hf. }
    split_and!; [|done..|].
    + eapply (orders_wf_update u _ i k p); [done|split_and!; eauto|done|done|done|done|done].
    + exists (MarketPosition_default <| MarketPosition.market_index := i |>).
      split_and!; [split_and!; [done|by right|]|done|done].
      intros j q Hq Hf. cbn in Hq. destruct (decide (j = k)); [done|].
      rewrite list_lookup_insert_ne in Hq by done. eauto.
  - unfold get_position_index in Hk. by destruct (iter_position _ _).
Qed.

Section Properties.
Context `{BnLib} `{OracleAccounts} `{Roots}.

(** Funding changes no slot's market, open orders or availability. *)
Lemma settle_position_funding_slot mm p p' :
  settle_position_funding mm p = Ok p' →
  p'.(MarketPosition.market_index) = p.(MarketPosition.market_index)
  ∧ p'.(MarketPosition.open_orders) = p.(MarketPosition.open_orders)
  ∧ p'.(MarketPosition.base_asset_amount) = p.(MarketPosition.base_asset_amount)
  ∧ (∀ i, is_for p' i = is_for p i).
Proof.
  unfold settle_position_funding. intros Hok.
  destruct (Z.eqb_spec (MarketPosition.base_asset_amount p) 0) as [|Hb];
    [by apply Ok_inj in Hok as <-|].
  assert (∀ q, MarketPosition.base_asset_amount q = MarketPosition.base_asset_amount p →
    MarketPosition.market_index q = MarketPosition.market_index p →
    ∀ i, is_for q i = is_for p i) as Hfor.
  { intros q Hq Hm i. unfold is_for, is_open_position. rewrite Hm, Hq.
    by rewrite (proj2 (Z.eqb_neq (MarketPosition.base_asset_amount p) 0) Hb). }
  inv_ok; cbn; split_and!; try done; by apply Hfor.
Qed.

Lemma map_result_lookup {A B} (f : A → result B) l l' :
  map_result f l = Ok l' → Forall2 (λ x y, f x = Ok y) l l'.
Proof.
  revert l'. induction l as [|x l IH]; intros l' Hok; simpl in Hok.
  - apply Ok_inj in Hok as <-. constructor.
  - inv_ok. constructor; auto.
Qed.

Lemma settle_funding_wf u mm u' :
  settle_funding_payment u mm = Ok u' →
  u'.(User.orders) = u.(User.orders) ∧ u'.(User.next_order_id) = u.(User.next_order_id)
  ∧ (orders_wf u → orders_wf u').
Proof.
  unfold settle_funding_payment. intros Hok. apply bind_ok in Hok as (ps & Hps & Hok).
  apply Ok_inj in Hok as <-. split; [done|]. split; [done|].
  apply map_result_lookup in Hps. rewrite Forall2_lookup in Hps.
  assert (∀ k q, ps !! k = Some q → ∃ p, User.positions u !! k = Some p
    ∧ settle_position_funding mm p = Ok q) as Hback.
  { intros k q Hq. specialize (Hps k). rewrite Hq in Hps. inversion Hps; subst; eauto. }
  assert (∀ k p, User.positions u !! k = Some p → ∃ q, ps !! k = Some q
    ∧ settle_position_funding mm p = Ok q) as Hfwd.
  { intros k p Hp. specialize (Hps k). rewrite Hp in Hps. inversion Hps; subst; eauto. }
  intros [Hun Hc Hcov Hroom]. split; cbn; [..|done].
  - intros i j k p q Hp Hq Hfp Hfq.
    destruct (Hback _ _ Hp) as (p0 & Hp0 & Hs). destruct (Hback _ _ Hq) as (q0 & Hq0 & Hs').
    apply settle_position_funding_slot in Hs as (_ & _ & _ & Hi).
    apply settle_position_funding_slot in Hs' as (_ & _ & _ & Hi').
    rewrite Hi in Hfp. rewrite Hi' in Hfq. by eapply Hun.
  - intros i k p Hp Hf. destruct (Hback _ _ Hp) as (p0 & Hp0 & Hs).
    apply settle_position_funding_slot in Hs as (_ & -> & _ & Hi). rewrite Hi in Hf. eauto.
  - intros i Hi. destruct (Hcov i Hi) as (k & p & Hp & Hf).
    destruct (Hfwd _ _ Hp) as (q & Hq & Hs). exists k, q. split; [done|].
    apply settle_position_funding_slot in Hs as (_ & _ & _ & Hfor). by rewrite Hfor.
Qed.

(** The unchecked counters never wrap: a user has at most 32 orders. *)
Lemma open_orders_no_wrap u i n :
  orders_wf u → 0 ≤ open_order_count i u.(User.orders) + n → n ≤ 1 →
  wrap U128 (open_order_count i u.(User.orders) + n) = open_order_count i u.(User.orders) + n.
Proof.
  intros Hwf Hpos Hn. pose proof (open_order_count_bounds i (User.orders u)).
  pose proof (wf_room _ Hwf). apply wrap_in. unfold has_type. cbn [int_min int_max]. lia.
Qed.

(** An order leaves its slot: the position counts one order less. *)
Lemma orders_wf_remove u i k p n o o' u' :
  orders_wf u → owns u i k p → p.(MarketPosition.market_index) = i →
  p.(MarketPosition.open_orders) = open_order_count i u.(User.orders) →
  u.(User.orders) !! n = Some o → open_in i o = true →
  (∀ j, open_in j o' = false) →
  u'.(User.orders) = <[n:=o']> u.(User.orders) →
  u'.(User.positions) = <[k := p <| MarketPosition.open_orders :=
     wrap U128 (p.(MarketPosition.open_orders) - 1) |>]> u.(User.positions) →
  orders_wf u'.
Proof.
  intros Hwf Hown Hi Hcount Hn Ho Ho' Hos Hps.
  pose proof (open_order_count_pos _ _ _ _ Hn Ho).
  eapply orders_wf_update; [done|done|done|done|..]; rewrite ?Hos.
  - cbn. rewrite Hcount, (open_order_count_insert _ _ _ _ _ Hn), Ho, Ho'.
    change (?x - 1) with (x + -1). rewrite open_orders_no_wrap by (done || lia). lia.
  - intros j Hj. rewrite (open_order_count_insert _ _ _ _ _ Hn), Ho'.
    enough (open_in j o = false) as -> by lia.
    unfold open_in in *. apply andb_true_iff in Ho as [_ Ho]. apply Z.eqb_eq in Ho.
    rewrite Ho. rewrite (proj2 (Z.eqb_neq i j)) by done. apply andb_false_r.
  - by rewrite length_insert.
Qed.

(** A placed order is open, unfilled, valid, in a slot that was free and under the
    user's next id; the market's position counts it. *)
Lemma place_order_for_inv state order_state u mm token referrer clock params oracle u' :
  orders_wf u →
  place_order_for state order_state u mm token referrer clock params oracle = Ok u' →
  orders_wf u'
  ∧ ∃ n old o, u.(User.orders) !! n = Some old ∧ old.(Order.status) = Init
    ∧ u'.(User.orders) = <[n := o]> u.(User.orders)
    ∧ o.(Order.status) = Open ∧ o.(Order.order_id) = u.(User.next_order_id)
    ∧ o.(Order.market_index) = params.(OrderParams.market_index)
    ∧ o.(Order.base_asset_amount_filled) = 0
    ∧ ∃ market v, market_get_ref mm o.(Order.market_index) = Ok market
      ∧ validate_order o market order_state v = Ok ().
Proof.
  intros Hwf Hok. unfold place_order_for in Hok. cbv zeta in Hok.
  apply bind_ok in Hok as (u1 & Hsettle & Hok).
  apply settle_funding_wf in Hsettle as (Hos & Hid & Hwf1). specialize (Hwf1 Hwf).
  apply bind_ok in Hok as (n & Hn & Hok). apply ok_or_ok, iter_position_some in Hn
    as (old & Hold & Hinit & _). apply bool_decide_eq_true in Hinit.
  apply bind_ok in Hok as (tier & _ & Hok). apply bind_ok in Hok as ([] & _ & Hok).
  apply bind_ok in Hok as (market & Hmarket & Hok).
  apply bind_ok in Hok as ([u2 k] & Hadd & Hok).
  apply get_or_add_position_wf in Hadd as (Hwf2 & Hos2 & Hid2 & p & Hown & Hi & Hcount);
    [|done].
  apply bind_ok in Hok as (p' & Hp' & Hok). apply unwrap_ok in Hp'.
  assert (p' = p) as -> by (destruct Hown; congruence).
  cbn in Hok. apply bind_ok in Hok as (v & _ & Hok).
  apply bind_ok in Hok as ([] & Hvalid & Hok). apply Ok_inj in Hok.
  set (o := new_order _ _ _ _ _ _ _) in *. cbn in Hok.
  assert (open_in (Order.market_index o) o = true) as Ho
    by (unfold open_in; cbn; by rewrite Z.eqb_refl).
  assert (∀ j, open_in j old = false) as Hold' by (intros j; unfold open_in; by rewrite Hinit).
  split.
  - rewrite <-Hos2 in *. rewrite Hcount in Hok.
    eapply (orders_wf_update u2 u' _ k p); [done|done|subst u'; done|done|..]; subst u'; cbn.
    + rewrite (open_order_count_insert _ _ _ _ _ Hold), Hold'. cbn in Ho. rewrite Ho.
      rewrite open_orders_no_wrap; [lia|done| |lia].
      pose proof (open_order_count_bounds (OrderParams.market_index params) (User.orders u2)).
      lia.
    + intros j Hj. rewrite (open_order_count_insert _ _ _ _ _ Hold), Hold'.
      enough (open_in j o = false) as -> by lia. unfold open_in; cbn.
      rewrite (proj2 (Z.eqb_neq _ j)) by done. done.
    + apply length_insert.
  - exists n, old, o. rewrite <-Hos, <-Hos2 in *. subst u'. cbn.
    split_and!; try done; [congruence|]. eauto.
Qed.

Lemma Order_default_not_open j : open_in j Order_default = false.
Proof. done. Qed.

(** A cancellation empties the order's slot, or leaves the orders as they are when a
    best-effort cancellation finds a post-only order that must stay. *)
Lemma cancel_order_inv state n u mm bm om clock oracle best_effort u' om' :
  orders_wf u →
  cancel_order state n u mm bm om clock oracle best_effort = Ok (u', om') →
  orders_wf u'
  ∧ ∃ o, u.(User.orders) !! n = Some o ∧ o.(Order.status) = Open
    ∧ (u'.(User.orders) = <[n := Order_default]> u.(User.orders)
       ∨ best_effort = true ∧ o.(Order.post_only) = true ∧ u'.(User.orders) = u.(User.orders)).
Proof.
  intros Hwf Hok. unfold cancel_order in Hok.
  apply bind_ok in Hok as (u1 & Hsettle & Hok).
  apply settle_funding_wf in Hsettle as (Hos & _ & Hwf1). specialize (Hwf1 Hwf).
  apply bind_ok in Hok as (o & Ho & Hok). apply unwrap_ok in Ho.
  destruct (bool_decide (Order.status o ≠ Open)) eqn:Hopen; [done|].
  apply bool_decide_eq_false in Hopen. apply dec_stable in Hopen.
  apply bind_ok in Hok as (m & _ & Hok). apply bind_ok in Hok as (v & _ & Hok).
  apply bind_ok in Hok as ([om1 cancelable] & Hc & Hok).
  destruct cancelable; cbn [negb] in Hok.
  - apply bind_ok in Hok as (k & Hk & Hok).
    apply get_position_index_owns in Hk as (p & Hown & Hf & Hi & Hcount); [|done].
    apply bind_ok in Hok as (p' & Hp' & Hok). apply unwrap_ok in Hp'.
    assert (p' = p) as -> by (destruct Hown; congruence).
    apply Ok_inj in Hok; simplify_eq. split.
    + eapply (orders_wf_remove u1 _ k p n o); [done|done|done|done|done| |
        apply Order_default_not_open|done|done].
      unfold open_in. rewrite Hopen, Z.eqb_refl. done.
    + exists o. rewrite <-Hos. split_and!; auto.
  - apply Ok_inj in Hok; simplify_eq. split; [done|]. exists o. rewrite <-Hos.
    split_and!; [done..|]. right.
    destruct best_effort; [|apply bind_ok in Hc as (? & _ & Hc); apply Ok_inj in Hc; done].
    split; [done|]. split; [|done].
    apply (check_if_order_can_be_canceled_spec _ _ _ _ _ _ _ _ o) in Hc as [Hc _]; [|done].
    by destruct (Hc eq_refl).
Qed.

(** A trade on the market's position: its market and its open orders stay. *)
Definition trades_at (i : Z) (u u' : User) : Prop :=
  u'.(User.orders) = u.(User.orders)
  ∧ ∃ k p p', get_position_index u.(User.positions) i = Ok k
    ∧ u.(User.positions) !! k = Some p ∧ u'.(User.positions) = <[k:=p']> u.(User.positions)
    ∧ p'.(MarketPosition.market_index) = p.(MarketPosition.market_index)
    ∧ p'.(MarketPosition.open_orders) = p.(MarketPosition.open_orders).

Lemma trades_at_wf i u u' : trades_at i u u' → orders_wf u → orders_wf u'.
Proof.
  intros (Hos & k & p & p' & Hk & Hp & Hps & Hm & Hoo) Hwf.
  apply get_position_index_owns in Hk as (q & Hown & Hf & Hi & Hcount); [|done].
  assert (q = p) as -> by (destruct Hown; congruence).
  eapply orders_wf_slot; [done|done|done|done|done|congruence|done].
Qed.

Lemma update_base_trades x d m u k mark now limit m' u' r :
  update_position_with_base_asset_amount x d m u k mark now limit = Ok (m', u', r) →
  ∃ p p', u.(User.positions) !! k = Some p ∧ u' = set_position u k p' ∧ same_slot p p'.
Proof.
  unfold update_position_with_base_asset_amount. intros Hok. inv_ok.
  eexists _, _. split; [done|]. split; [done|]. by eapply trade_base_asset_amount_slot.
Qed.

Lemma update_quote_trades x d m u k mark now m' u' r :
  update_position_with_quote_asset_amount x d m u k mark now = Ok (m', u', r) →
  ∃ p p', u.(User.positions) !! k = Some p ∧ u' = set_position u k p' ∧ same_slot p p'.
Proof.
  unfold update_position_with_quote_asset_amount. intros Hok. inv_ok.
  eexists _, _. split; [done|]. split; [done|]. by eapply trade_quote_asset_amount_slot.
Qed.

(** A trade and then its profit, on the same position. *)
Lemma trade_then_pnl i u k p p' pnl u' :
  get_position_index u.(User.positions) i = Ok k →
  u.(User.positions) !! k = Some p → same_slot p p' →
  add_unsettled_pnl (set_position u k p') k pnl = Ok u' → trades_at i u u'.
Proof.
  intros Hk Hp (Hm & Ho & _) Hok. unfold add_unsettled_pnl, get_position in Hok.
  apply bind_ok in Hok as (q & Hq & Hok). apply unwrap_ok in Hq. cbn in Hq.
  rewrite list_lookup_insert_eq in Hq by (by eapply lookup_lt_Some). simplify_eq.
  apply bind_ok in Hok as (v & _ & Hok). apply Ok_inj in Hok as <-.
  split; [done|]. eexists k, p, _. split_and!; [done|done| | |]; cbn;
    [by rewrite list_insert_insert_eq|done|done].
Qed.

Lemma execute_market_order_trades u n mm i mark now u' mm' fill :
  execute_market_order u n mm i mark now = Ok (u', mm', fill) →
  trades_at i u u' ∧ ∃ m m', mm !! i = Some (Loaded m) ∧ mm' = <[i := Loaded m']> mm.
Proof.
  unfold execute_market_order. intros Hok.
  apply bind_ok in Hok as (k & Hk & Hok). apply bind_ok in Hok as ([m mmb] & Hm & Hok).
  apply bind_ok in Hok as (o & _ & Hok). apply bind_ok in Hok as (pos & _ & Hok).
  apply bind_ok in Hok as ([[m1 u1] upd] & Hupd & Hok).
  assert (∃ p p', User.positions u !! k = Some p ∧ u1 = set_position u k p' ∧ same_slot p p')
    as (p & p' & Hp & -> & Hs).
  { destruct (0 <? _); [by eapply update_base_trades|by eapply update_quote_trades]. }
  apply bind_ok in Hok as (u2 & Hpnl & Hok). split.
  - skip_steps Hok; [done..|]. by eapply trade_then_pnl.
  - apply load_cell_mut_ok in Hm as [Hm ->]. exists m, m1. split; [done|].
    skip_steps Hok; [done..|]. apply drop_borrowed.
Qed.

Lemma user_can_execute_nonneg u n mm bm om i om' a :
  calculate_base_asset_amount_user_can_execute u n mm bm om i = Ok (om', a) → 0 ≤ a.
Proof.
  unfold calculate_base_asset_amount_user_can_execute. intros Hok.
  apply bind_ok in Hok as (k & _ & Hok). apply bind_ok in Hok as (o & _ & Hok).
  apply bind_ok in Hok as ([om1 q] & _ & Hok). apply bind_ok in Hok as ([m mmb] & _ & Hok).
  apply bind_ok in Hok as (b & Hb & Hok).
  assert (0 ≤ b) as Hpos.
  { unfold base_asset_amount_for_quote in Hb. skip_steps Hb; apply Z.abs_nonneg. }
  destruct (_ && _); [|apply Ok_inj in Hok; congruence].
  apply bind_ok in Hok as (p & _ & Hok). apply Ok_inj in Hok; simplify_eq.
  unfold calculate_base_asset_amount_for_reduce_only_order, unsigned_abs.
  destruct (_ || _); lia.
Qed.

(** A non-market execution: nothing happens, or the position moves by the fill in the
    order's direction, and the market's totals by what the position moves.  The fill
    stays within the order, leaves no unfillable rest, and a reduce-only fill
    reduces. *)
Lemma execute_non_market_order_inv u n mm bm om i mark now v u' mm' om' fill o :
  User.orders u !! n = Some o →
  execute_non_market_order u n mm bm om i mark now v = Ok (u', mm', om', fill) →
  (fill = no_fill ∧ u' = u ∧ mm' = mm) ∨
  ∃ k p p' m m',
    get_position_index u.(User.positions) i = Ok k ∧ u.(User.positions) !! k = Some p
    ∧ u'.(User.positions) !! k = Some p'
    ∧ mm !! i = Some (Loaded m) ∧ mm' = <[i := Loaded m']> mm
    ∧ trades_at i u u'
    ∧ tracks m m' p.(MarketPosition.base_asset_amount) p'.(MarketPosition.base_asset_amount)
    ∧ p'.(MarketPosition.base_asset_amount) = p.(MarketPosition.base_asset_amount)
      + (match o.(Order.direction) with Long => fill.(fill_base) | Short => - fill.(fill_base) end)
    ∧ 0 < fill.(fill_base)
    ∧ m.(Market.amm).(AMM.minimum_base_asset_trade_size) ≤ fill.(fill_base)
    ∧ (let left := o.(Order.base_asset_amount) - o.(Order.base_asset_amount_filled)
                   - fill.(fill_base) in
       left = 0 ∨ 0 < left ∧ m.(Market.amm).(AMM.minimum_base_asset_trade_size) ≤ left)
    ∧ (o.(Order.reduce_only) = true →
       increases_position p.(MarketPosition.base_asset_amount) o.(Order.direction) = false
       ∧ (Z.abs p'.(MarketPosition.base_asset_amount)
            = Z.abs p.(MarketPosition.base_asset_amount) - fill.(fill_base)
          ∨ Z.abs p.(MarketPosition.base_asset_amount) < fill.(fill_base)
            ∧ p'.(MarketPosition.quote_asset_amount) = 0)).
Proof.
  intros Hn Hok. unfold execute_non_market_order in Hok.
  apply bind_ok in Hok as ([om1 uc] & Huc & Hok). apply user_can_execute_nonneg in Huc.
  destruct (Z.eqb_spec uc 0); [left; apply Ok_inj in Hok; by simplify_eq|].
  apply bind_ok in Hok as ([m mmb] & Hm & Hok). apply load_cell_mut_ok in Hm as [Hm ->].
  apply bind_ok in Hok as (o' & Ho & Hok). apply unwrap_ok in Ho. simplify_eq.
  apply bind_ok in Hok as (mc & Hmc & Hok). apply market_can_execute_nonneg in Hmc.
  destruct (Z.eqb_spec mc 0); [left; apply Ok_inj in Hok; by simplify_eq|].
  apply bind_ok in Hok as (x & Hx & Hok). apply non_market_fill_amount_inv in Hx.
  destruct (Z.eqb_spec x 0); [left; apply Ok_inj in Hok; by simplify_eq|]. right.
  destruct (Z.ltb_spec (Z.min mc uc) (AMM.minimum_base_asset_trade_size (Market.amm m)));
    [done|]. destruct Hx as (Hx & Hleft & _).
  apply bind_ok in Hok as (k & Hk & Hok). apply bind_ok in Hok as (limit & _ & Hok).
  apply bind_ok in Hok as ([[m1 u1] upd] & Hupd & Hok).
  apply bind_ok in Hok as (u2 & Hpnl & Hok).
  unfold update_position_with_base_asset_amount in Hupd.
  apply bind_ok in Hupd as (p & Hp & Hupd). apply unwrap_ok in Hp.
  apply bind_ok in Hupd as ([[m2 p1] r] & Htrade & Hupd).
  apply Ok_inj in Hupd; injection Hupd as -> <- ->.
  pose proof (trade_base_asset_amount_slot _ _ _ _ _ _ _ _ _ _ Htrade) as Hslot.
  pose proof (trade_then_pnl _ _ _ _ _ _ _ Hk Hp Hslot Hpnl) as Htrades.
  unfold add_unsettled_pnl, get_position in Hpnl. cbn in Hpnl.
  rewrite list_lookup_insert_eq in Hpnl by (by eapply lookup_lt_Some).
  cbn in Hpnl. apply bind_ok in Hpnl as (pnl & _ & Hpnl). apply Ok_inj in Hpnl.
  destruct (_ && _) eqn:Hred; [done|]. apply Ok_inj in Hok; injection Hok as <- <- <- <-.
  eexists k, p, _, m, m1. cbn [fill_base]. split_and!; [done|done| |done|..].
  { subst u2. cbn. rewrite list_insert_insert_eq. apply list_lookup_insert_eq.
    by eapply lookup_lt_Some. }
  all: cbn.
  - apply drop_borrowed.
  - done.
  - by eapply trade_base_tracks in Htrade as [_ ?]; [|lia].
  - by eapply trade_base_tracks in Htrade as [? _]; [|lia].
  - lia.
  - lia.
  - lia.
  - intros Hro. rewrite Hro, andb_true_r in Hred. apply negb_false_iff in Hred.
    eapply reduce_only_trade_inv; [|done|done]. lia.
Qed.

(** Any execution: nothing happens, or a trade on the market's position; the filled
    amount of a non-market order stays within the order. *)
Lemma execute_order_inv u n mm bm om i mark now v u' mm' om' fill o :
  User.orders u !! n = Some o →
  execute_order u n mm bm om i mark now v = Ok (u', mm', om', fill) →
  u'.(User.orders) = u.(User.orders)
  ∧ (orders_wf u → orders_wf u')
  ∧ (∀ j, j ≠ i → mm' !! j = mm !! j)
  ∧ (fill.(fill_base) = 0 → o.(Order.order_type) = OrderType.Market ∨ u' = u ∧ mm' = mm).
Proof.
  intros Hn Hok. unfold execute_order in Hok. apply bind_ok in Hok as (o' & Ho & Hok).
  apply unwrap_ok in Ho. simplify_eq.
  assert (execute_non_market_order u n mm bm om i mark now v = Ok (u', mm', om', fill) →
    User.orders u' = User.orders u ∧ (orders_wf u → orders_wf u')
    ∧ (∀ j, j ≠ i → mm' !! j = mm !! j)
    ∧ (fill_base fill = 0 → u' = u ∧ mm' = mm)) as Hnm.
  { intros Hx. eapply execute_non_market_order_inv in Hx
      as [(-> & -> & ->) | (k & p & p' & m & m' & _ & _ & _ & _ & -> & Htr & _ & _ & Hpos & _)];
      [done| |done].
    split_and!; [apply Htr|by eapply trades_at_wf| |lia].
    intros j Hj. by apply lookup_insert_ne. }
  destruct (Order.order_type o); [|destruct (Hnm Hok) as (?&?&?&?); split_and!; auto..].
  apply bind_ok in Hok as ([[u1 mm1] f] & Hx & Hok). apply Ok_inj in Hok; simplify_eq.
  apply execute_market_order_trades in Hx as (Htr & m & m' & _ & ->).
  split_and!; [apply Htr|by eapply trades_at_wf| |by left].
  intros j Hj. by apply lookup_insert_ne.
Qed.

Lemma charge_user_trades u i fee discount referee u' :
  charge_user u i fee discount referee = Ok u' → trades_at i u u'.
Proof.
  unfold charge_user, get_position. intros Hok.
  apply bind_ok in Hok as (k & Hk & Hok). apply bind_ok in Hok as (p & Hp & Hok).
  apply unwrap_ok in Hp. apply bind_ok in Hok as (v & _ & Hok).
  apply bind_ok in Hok as (u1 & Hu1 & Hok).
  assert (User.orders u' = User.orders u1 ∧ User.positions u' = User.positions u1) as [Ho Hps]
    by (skip_steps Hok; done).
  assert (User.orders u1 = User.orders u
    ∧ User.positions u1 = <[k := p <| MarketPosition.unsettled_pnl := v |>]> (User.positions u))
    as [Ho1 Hps1] by (skip_steps Hu1; done).
  split; [congruence|]. rewrite Hps, Hps1. eexists k, p, _. split_and!; done.
Qed.

(** Another user's account after a fill: the same, or a trade of its own. *)
Definition account_wf (u u' : User) : Prop :=
  u'.(User.orders) = u.(User.orders) ∧ (orders_wf u → orders_wf u').

Lemma pay_filler_ok users key i reward users' :
  pay_filler users key i reward = Ok users' →
  ∃ f f', users !! key = Some (Loaded f) ∧ users' = <[key := Loaded f']> users
    ∧ account_wf f f'.
Proof.
  unfold pay_filler. intros Hok. apply bind_ok in Hok as ([f fs] & Hl & Hok).
  apply load_cell_mut_ok in Hl as [Hl ->].
  apply bind_ok in Hok as ([f1 k] & Hadd & Hok). apply bind_ok in Hok as (r & _ & Hok).
  apply bind_ok in Hok as (f2 & Hpnl & Hok). apply Ok_inj in Hok as <-.
  exists f, f2. split; [done|]. split; [apply drop_borrowed|].
  unfold add_unsettled_pnl, get_position in Hpnl. apply bind_ok in Hpnl as (p & Hp & Hpnl).
  apply unwrap_ok in Hp. apply bind_ok in Hpnl as (v & _ & Hpnl). apply Ok_inj in Hpnl as <-.
  assert (User.orders f1 = User.orders f) as Ho.
  { unfold get_or_add_position in Hadd. destruct (get_position_index _ i); inv_ok; done. }
  split; [done|]. intros Hwf.
  apply get_or_add_position_wf in Hadd as (Hwf1 & _ & _ & q & Hown & Hi & Hcount); [|done].
  assert (q = p) as -> by (destruct Hown; congruence).
  eapply (orders_wf_slot f1 _ i k p); [done|done|congruence|done|done|done|done].
Qed.

Lemma reward_referrer_ok users key reward users' :
  reward_referrer users key reward = Ok users' →
  ∃ f f', users !! key = Some (Loaded f) ∧ users' = <[key := Loaded f']> users
    ∧ account_wf f f'.
Proof.
  unfold reward_referrer. intros Hok. apply bind_ok in Hok as ([f fs] & Hl & Hok).
  apply load_cell_mut_ok in Hl as [Hl ->]. apply bind_ok in Hok as (x & _ & Hok).
  apply Ok_inj in Hok as <-. eexists f, _. split; [done|]. split; [apply drop_borrowed|].
  split; [done|]. by intros [].
Qed.

(** The order's slot after a fill: the order with the fill added, or an empty slot
    when nothing is left and for every market order. *)
Definition order_after_fill (o o' : Order) (fill : Fill) : Prop :=
  (o' = Order_default
   ∧ (o.(Order.order_type) = OrderType.Market
      ∨ o.(Order.base_asset_amount_filled) + fill.(fill_base) = o.(Order.base_asset_amount)))
  ∨ o'.(Order.status) = o.(Order.status) ∧ o'.(Order.market_index) = o.(Order.market_index)
    ∧ o.(Order.order_type) ≠ OrderType.Market
    ∧ o'.(Order.base_asset_amount) = o.(Order.base_asset_amount)
    ∧ o'.(Order.base_asset_amount_filled)
      = o.(Order.base_asset_amount_filled) + fill.(fill_base)
    ∧ o'.(Order.base_asset_amount_filled) < o'.(Order.base_asset_amount).

(** The accounts of others after a fill. *)
Definition others_after_fill (users users' : UserMap) (user_key filler_key : Z)
    (referrer : option Z) : Prop :=
  (∀ k, k ≠ filler_key → referrer ≠ Some k → users' !! k = users !! k)
  ∧ users' !! user_key = users !! user_key
  ∧ (∀ k f', users' !! k = Some (Loaded f') →
       ∃ f, users !! k = Some (Loaded f) ∧ account_wf f f').

Lemma others_refl users uk fk r : others_after_fill users users uk fk r.
Proof. split_and!; [done|done|]. intros k f Hf. exists f. split; [done|]. by split. Qed.

Lemma others_insert users users' uk fk r key f f' :
  others_after_fill users users' uk fk r → users !! uk = Some MutBorrowed →
  users' !! key = Some (Loaded f) → account_wf f f' → (key = fk ∨ r = Some key) →
  others_after_fill users (<[key := Loaded f']> users') uk fk r.
Proof.
  intros (Hsame & Huk & Hwf) Hb Hf Hacc Hkey.
  assert (key ≠ uk) as Hne by (intros ->; congruence).
  split_and!.
  - intros k Hk Hr. rewrite lookup_insert_ne; [auto|]. destruct Hkey; congruence.
  - by rewrite lookup_insert_ne.
  - intros k g' Hg. destruct (decide (k = key)) as [->|Hkk].
    + rewrite lookup_insert_eq in Hg. simplify_eq.
      destruct (Hwf _ _ Hf) as (f0 & Hf0 & Ho & Hw). exists f0. split; [done|].
      destruct Hacc as [Ho' Hw']. split; [congruence|auto].
    + rewrite lookup_insert_ne in Hg by done. auto.
Qed.

Lemma orders_wf_set_order u n o o' :
  orders_wf u → u.(User.orders) !! n = Some o → (∀ j, open_in j o' = open_in j o) →
  orders_wf (set_order u n o').
Proof.
  intros [Hun Hc Hcov Hroom] Hn Hsame.
  assert (∀ j, open_order_count j (<[n:=o']> (User.orders u))
    = open_order_count j (User.orders u)) as Heq.
  { intros j. rewrite (open_order_count_insert _ _ _ _ _ Hn), Hsame. lia. }
  split; cbn.
  - done.
  - intros. rewrite Heq. eauto.
  - intros i. rewrite Heq. apply Hcov.
  - by rewrite length_insert.
Qed.

Lemma release_order_if_filled_ok u n i o u' :
  orders_wf u → u.(User.orders) !! n = Some o →
  o.(Order.status) = Open → o.(Order.market_index) = i →
  release_order_if_filled u n i = Ok u' →
  orders_wf u' ∧
  if (o.(Order.base_asset_amount) =? o.(Order.base_asset_amount_filled))
     || bool_decide (o.(Order.order_type) = OrderType.Market)
  then u'.(User.orders) = <[n := Order_default]> u.(User.orders) else u' = u.
Proof.
  intros Hwf Hn Hopen Hi Hok. unfold release_order_if_filled in Hok.
  apply bind_ok in Hok as (o' & Ho & Hok). apply unwrap_ok in Ho. simplify_eq.
  destruct (_ || _); [|apply Ok_inj in Hok; by subst].
  unfold release_order, get_position in Hok. cbn in Hok.
  apply bind_ok in Hok as (k & Hk & Hok).
  apply get_position_index_owns in Hk as (p & Hown & Hf & Hi & Hcount); [|done].
  apply bind_ok in Hok as (p' & Hp & Hok). apply unwrap_ok in Hp.
  assert (p' = p) as -> by (destruct Hown; congruence). apply Ok_inj in Hok as <-.
  split; [|done].
  eapply (orders_wf_remove u (Order.market_index o) k p n o);
    [done|done|done|done|done| |apply Order_default_not_open|done|done].
  unfold open_in. by rewrite Hopen, Z.eqb_refl.
Qed.

Lemma settle_fill_inv st ost users u uk fk referrer mm i n order now fill users' u' mm' o :
  settle_fill st ost users u uk fk referrer mm i n order now fill = Ok (users', u', mm') →
  users !! uk = Some MutBorrowed → u.(User.orders) !! n = Some o →
  o.(Order.status) = Open → o.(Order.market_index) = i →
  (orders_wf u → orders_wf u'
   ∧ ∃ o', u'.(User.orders) = <[n := o']> u.(User.orders) ∧ order_after_fill o o' fill)
  ∧ others_after_fill users users' uk fk referrer
  ∧ (∀ j, j ≠ i → mm' !! j = mm !! j).
Proof.
  intros Hok Huk Hn Hopen Hi. unfold settle_fill in Hok.
  apply bind_ok in Hok as ([[[[[fee fm] td] fr] rr] rd] & _ & Hok).
  apply bind_ok in Hok as ([m mmb] & Hm & Hok). apply load_cell_mut_ok in Hm as [Hm ->].
  apply bind_ok in Hok as (m1 & _ & Hok). rewrite drop_borrowed in Hok.
  apply bind_ok in Hok as (u1 & Hcharge & Hok). apply charge_user_trades in Hcharge.
  pose proof (trades_at_wf _ _ _ Hcharge) as Hwf1.
  destruct Hcharge as [Ho1 _]. rewrite <-Ho1 in Hn |- *.
  apply bind_ok in Hok as (users1 & Hfiller & Hok).
  apply bind_ok in Hok as (users2 & Href & Hok).
  assert (others_after_fill users users1 uk fk referrer) as Hothers1.
  { destruct (fk =? uk); [apply Ok_inj in Hfiller as ->; apply others_refl|].
    apply pay_filler_ok in Hfiller as (f & f' & Hf & -> & Hacc).
    eapply others_insert; eauto using others_refl. }
  assert (others_after_fill users users2 uk fk referrer) as Hothers2.
  { destruct referrer as [key|]; [|apply Ok_inj in Href as ->; done].
    apply reward_referrer_ok in Href as (f & f' & Hf & -> & Hacc).
    eapply others_insert; eauto. }
  apply bind_ok in Hok as (m2 & _ & Hok). apply bind_ok in Hok as (o0 & Ho & Hok).
  apply unwrap_ok in Ho. simplify_eq.
  apply bind_ok in Hok as (o1 & Hupd & Hok).
  apply update_order_after_trade_inv in Hupd
    as (Hfilled & _ & _ & Hleft & Hstatus & Hindex & Htype & Hbase).
  apply bind_ok in Hok as ([m3 mmb] & Hm3 & Hok). apply load_cell_mut_ok in Hm3 as [_ ->].
  cbn in Hok. rewrite drop_borrowed in Hok. apply bind_ok in Hok as (u2 & Hrel & Hok).
  apply Ok_inj in Hok; injection Hok as <- <- <-.
  assert (n < length (User.orders u1))%nat as Hlt by (by eapply lookup_lt_Some).
  split; [|split; [done|intros j Hj; by rewrite !lookup_insert_ne]].
  intros Hwf. eapply release_order_if_filled_ok in Hrel as [Hwf2 Hrel];
    [|eapply orders_wf_set_order; [by apply Hwf1|done|]
     |cbn; by apply list_lookup_insert_eq|congruence|done].
  2:{ intros j. unfold open_in. by rewrite Hstatus, Hindex. }
  split; [done|]. rewrite Htype, Hbase, Hfilled in Hrel. destruct (_ || _) eqn:Hend.
  - exists Order_default. rewrite Hrel. cbn. rewrite list_insert_insert_eq. split; [done|].
    left. split; [done|]. apply orb_true_iff in Hend as [He|He];
      [right; apply Z.eqb_eq in He; lia|left; by apply bool_decide_eq_true in He].
  - exists o1. rewrite Hrel. split; [done|]. right.
    apply orb_false_iff in Hend as [He He']. apply Z.eqb_neq in He.
    apply bool_decide_eq_false in He'. specialize (Hleft He'). cbv zeta in Hleft.
    split_and!; try done. rewrite Hbase. lia.
Qed.

(** The whole of [fill_order]. *)
Lemma fill_order_inv id st ost users uk mm bm om acc fk referrer clock users' mm' om' x :
  fill_order id st ost users uk mm bm om acc fk referrer clock = Ok (users', mm', om', x) →
  ∃ u u' n o, users !! uk = Some (Loaded u) ∧ users' !! uk = Some (Loaded u')
    ∧ u.(User.orders) !! n = Some o ∧ o.(Order.order_id) = id ∧ o.(Order.status) = Open
    ∧ (orders_wf u → orders_wf u')
    ∧ (orders_wf u →
       if x =? 0 then u'.(User.orders) = u.(User.orders)
       else ∃ o' fill, u'.(User.orders) = <[n := o']> u.(User.orders)
              ∧ order_after_fill o o' fill ∧ fill.(fill_base) = x)
    ∧ (∀ k, k ≠ uk → k ≠ fk → referrer ≠ Some k → users' !! k = users !! k)
    ∧ (∀ k f', k ≠ uk → users' !! k = Some (Loaded f') →
         ∃ f, users !! k = Some (Loaded f) ∧ account_wf f f')
    ∧ (∀ j, j ≠ o.(Order.market_index) → mm' !! j = mm !! j).
Proof.
  intros Hok. unfold fill_order in Hok. cbv zeta in Hok.
  apply bind_ok in Hok as ([u us] & Hu & Hok). apply load_cell_mut_ok in Hu as [Hu ->].
  apply bind_ok in Hok as (u1 & Hsettle & Hok).
  apply settle_funding_wf in Hsettle as (Hos & _ & Hwf1).
  apply bind_ok in Hok as (n & Hn & Hok). apply ok_or_ok, iter_position_some in Hn
    as (o & Hn & Hid & _). apply Z.eqb_eq in Hid.
  apply bind_ok in Hok as (o0 & Ho & Hok). apply unwrap_ok in Ho.
  assert (o0 = o) as -> by congruence.
  destruct (bool_decide (Order.status o ≠ Open)) eqn:Hopen; [done|].
  apply bool_decide_eq_false, dec_stable in Hopen. set (i := Order.market_index o) in *.
  apply bind_ok in Hok as ([m mmb] & Hm & Hok). apply load_cell_mut_ok in Hm as [Hm ->].
  apply bind_ok in Hok as ([m1 [[[mark spread] valid] price]] & _ & Hok).
  rewrite drop_borrowed in Hok.
  apply bind_ok in Hok as ([[[u2 mm2] om2] fill] & Hexec & Hok).
  apply (execute_order_inv _ _ _ _ _ _ _ _ _ _ _ _ _ o) in Hexec
    as (Hos2 & Hwf2 & Hmm2 & _); [|done].
  assert (∀ j, j ≠ i → mm2 !! j = mm !! j) as Hmm.
  { intros j Hj. rewrite Hmm2 by done. by apply lookup_insert_ne. }
  exists u. rewrite <-Hos in *. destruct (Z.eqb_spec (fill_base fill) 0).
  - apply Ok_inj in Hok; injection Hok as <- <- <- <-. exists u2, n, o. rewrite Hos2.
    rewrite drop_borrowed, lookup_insert_eq. split_and!; try done; auto.
    + intros k Hk _ _. by apply lookup_insert_ne.
    + intros k f' Hk Hf. rewrite lookup_insert_ne in Hf by done.
      exists f'. split; [done|]. by split.
  - apply bind_ok in Hok as (om3 & _ & Hok).
    apply bind_ok in Hok as ([[us3 u3] mm3] & Hsf & Hok).
    apply bind_ok in Hok as ([m3 mmb] & Hm3 & Hok). apply load_cell_mut_ok in Hm3 as [_ ->].
    apply bind_ok in Hok as (m4 & _ & Hok). rewrite drop_borrowed in Hok.
    apply Ok_inj in Hok; injection Hok as <- <- <- <-. exists u3, n, o.
    rewrite (proj2 (Z.eqb_neq (fill_base fill) 0)) by done.
    eapply settle_fill_inv in Hsf as (Hwf3 & (Hkeep & Huk & Hacc) & Hmm3);
      [|apply lookup_insert_eq|by rewrite Hos2|done|done].
    unfold drop_mut. rewrite lookup_insert_eq. rewrite Hos2 in Hwf3. split_and!; auto.
    + intros Hwf. apply Hwf3. auto.
    + intros Hwf. destruct Hwf3 as (_ & o' & Ho' & Hafter); [by auto|]. eauto.
    + intros k Hk Hf Hr. rewrite lookup_insert_ne, Hkeep by done. by apply lookup_insert_ne.
    + intros k f' Hk Hf. rewrite lookup_insert_ne in Hf by done.
      apply Hacc in Hf as (f & Hf & ?). rewrite lookup_insert_ne in Hf by done. eauto.
    + intros j Hj. rewrite lookup_insert_ne, Hmm3 by done. auto.
Qed.

(** *** Fees of a fill *)

(** What a user is owed: unsettled profit and referral rewards. *)
Definition owed (u : User) : Z :=
  sum_of MarketPosition.unsettled_pnl u.(User.positions) + u.(User.total_referral_reward).
Definition owed_to_all (users : UserMap) : Z := cell_sum owed users.

Lemma add_unsettled_pnl_owed u k x u' :
  add_unsettled_pnl u k x = Ok u' → owed u' = owed u + x.
Proof.
  unfold add_unsettled_pnl, get_position. intros Hok. inv_ok. unfold owed. cbn.
  erewrite sum_of_insert by done. cbn. lia.
Qed.

Lemma charge_user_owed u i fee td rd u' :
  charge_user u i fee td rd = Ok u' → owed u' = owed u - fee.
Proof.
  unfold charge_user, get_position. intros Hok.
  apply bind_ok in Hok as (k & _ & Hok). apply bind_ok in Hok as (p & Hp & Hok).
  apply unwrap_ok in Hp. apply bind_ok in Hok as (v & Hv & Hok).
  apply csub_ok in Hv as [-> _]. apply bind_ok in Hok as (u1 & Hu1 & Hok).
  assert (owed u' = owed u1) as -> by (skip_steps Hok; done).
  assert (owed u1 = owed (set_position u k (p <| MarketPosition.unsettled_pnl :=
    MarketPosition.unsettled_pnl p - fee |>))) as -> by (skip_steps Hu1; done).
  unfold owed. cbn. erewrite sum_of_insert by done. cbn. lia.
Qed.

Lemma get_or_add_position_owed u i u' k :
  get_or_add_position u i = Ok (u', k) → owed u' = owed u.
Proof.
  unfold get_or_add_position. intros Hok.
  destruct (get_position_index _ i); [by apply Ok_inj in Hok; simplify_eq|..];
    apply bind_ok in Hok as ([ps n] & Hadd & Hok); apply Ok_inj in Hok; simplify_eq;
    unfold add_new_position in Hadd; apply bind_ok in Hadd as (n & Hn & Hadd);
    apply ok_or_ok, iter_position_some in Hn as (p & Hp & Ha & _);
    apply Ok_inj in Hadd; simplify_eq; apply is_available_spec in Ha as (_ & _ & Ha);
    unfold owed; cbn; erewrite sum_of_insert by done; cbn; lia.
Qed.

Lemma pay_filler_owed users key i reward users' :
  pay_filler users key i reward = Ok users' → owed_to_all users' = owed_to_all users + reward.
Proof.
  unfold pay_filler. intros Hok. apply bind_ok in Hok as ([f fs] & Hl & Hok).
  apply load_cell_mut_ok in Hl as [Hl ->].
  apply bind_ok in Hok as ([f1 k] & Hadd & Hok). apply get_or_add_position_owed in Hadd.
  apply bind_ok in Hok as (r & Hr & Hok). apply cast_ok in Hr as [-> _].
  apply bind_ok in Hok as (f2 & Hpnl & Hok). apply add_unsettled_pnl_owed in Hpnl.
  apply Ok_inj in Hok as <-. rewrite drop_borrowed.
  unfold owed_to_all. erewrite cell_sum_insert by done. cbn. lia.
Qed.

Lemma reward_referrer_owed users key reward users' :
  reward_referrer users key reward = Ok users' →
  owed_to_all users' = owed_to_all users + reward.
Proof.
  unfold reward_referrer. intros Hok. apply bind_ok in Hok as ([f fs] & Hl & Hok).
  apply load_cell_mut_ok in Hl as [Hl ->]. apply bind_ok in Hok as (x & Hx & Hok).
  apply cadd_ok in Hx as [-> _]. apply Ok_inj in Hok as <-. rewrite drop_borrowed.
  unfold owed_to_all. rewrite (cell_sum_insert _ _ _ _ _ Hl). cbn [cell_value]. unfold owed.
  cbn -[sum_of]. lia.
Qed.

Lemma add_market_fee_ok m fee m' :
  add_market_fee m fee = Ok m' →
  AMM.total_fee (Market.amm m') = AMM.total_fee (Market.amm m) + fee
  ∧ AMM.total_fee_minus_distributions (Market.amm m')
    = AMM.total_fee_minus_distributions (Market.amm m) + fee.
Proof. unfold add_market_fee. intros Hok. inv_ok. done. Qed.

Lemma release_order_owed u n i u' :
  release_order_if_filled u n i = Ok u' → owed u' = owed u.
Proof.
  unfold release_order_if_filled, release_order, get_position. intros Hrel.
  apply bind_ok in Hrel as (o & _ & Hrel). destruct (_ || _); [|by inv_ok].
  inv_ok. unfold owed. cbn in *. erewrite sum_of_insert by done. cbn. lia.
Qed.

(** C17. The settlement of a fill moves quote between the user, the filler, the referrer
    and the market: what all of them have changes by the spread surplus alone. *)
Theorem settle_fill_conserves st ost users u uk fk referrer mm i n order now fill users' u' mm' :
  settle_fill st ost users u uk fk referrer mm i n order now fill = Ok (users', u', mm') →
  ∃ m m', mm !! i = Some (Loaded m) ∧ mm' !! i = Some (Loaded m')
    ∧ owed u' + owed_to_all users' + m'.(Market.amm).(AMM.total_fee_minus_distributions)
      = owed u + owed_to_all users + m.(Market.amm).(AMM.total_fee_minus_distributions)
        + fill.(fill_surplus)
    ∧ m'.(Market.amm).(AMM.total_fee) - m.(Market.amm).(AMM.total_fee)
      = m'.(Market.amm).(AMM.total_fee_minus_distributions)
        - m.(Market.amm).(AMM.total_fee_minus_distributions).
Proof.
  intros Hok. unfold settle_fill in Hok.
  apply bind_ok in Hok as ([[[[[fee fm] td] fr] rr] rd] & Hfee & Hok).
  apply fee_for_order_conserved in Hfee as (Hsum & Hsame & Hnone).
  apply bind_ok in Hok as ([m mmb] & Hm & Hok). apply load_cell_mut_ok in Hm as [Hm ->].
  apply bind_ok in Hok as (m1 & Hm1 & Hok). rewrite drop_borrowed in Hok.
  assert (AMM.total_fee (Market.amm m1) = AMM.total_fee (Market.amm m) + fm
    ∧ AMM.total_fee_minus_distributions (Market.amm m1)
      = AMM.total_fee_minus_distributions (Market.amm m) + fm) as [Ht Hd].
  { by apply add_market_fee_ok. }
  apply bind_ok in Hok as (u1 & Hcharge & Hok). apply charge_user_owed in Hcharge.
  apply bind_ok in Hok as (users1 & Hfiller & Hok).
  apply bind_ok in Hok as (users2 & Href & Hok).
  assert (owed_to_all users1 = owed_to_all users + fr) as H1'.
  { destruct (fk =? uk); [apply Ok_inj in Hfiller as ->; rewrite Hsame by done; lia|].
    by apply pay_filler_owed in Hfiller. }
  assert (owed_to_all users2 = owed_to_all users1 + rr) as H2'.
  { destruct referrer as [key|]; [by apply reward_referrer_owed in Href|].
    apply Ok_inj in Href as ->. rewrite Hnone by done. lia. }
  apply bind_ok in Hok as (m2 & _ & Hok). apply bind_ok in Hok as (o0 & _ & Hok).
  apply bind_ok in Hok as (o1 & _ & Hok).
  apply bind_ok in Hok as ([m3 mmb] & Hm3 & Hok). apply load_cell_mut_ok in Hm3 as [Hm3 ->].
  rewrite lookup_insert_eq in Hm3. simplify_eq.
  cbn in Hok. rewrite drop_borrowed in Hok. apply bind_ok in Hok as (u2 & Hrel & Hok).
  assert (owed u2 = owed u1) as Hu2 by (by apply release_order_owed in Hrel).
  apply Ok_inj in Hok; injection Hok as <- <- <-.
  eexists m, _. rewrite !lookup_insert_eq. split_and!; [done|done|cbn..]; lia.
Qed.

(** *** The order system *)

(** One instruction on the orders of the accounts, with any state of everything else. *)
Inductive order_step (users users' : UserMap) : Prop :=
| step_place st ost key mm token referrer clock params oracle :
    place_order st ost users key mm token referrer clock params oracle = Ok users' →
    order_step users users'
| step_cancel_by_order_id st id key mm bm om clock oracle om' :
    cancel_order_by_order_id st id users key mm bm om clock oracle = Ok (users', om') →
    order_step users users'
| step_cancel_by_user_order_id st id key mm bm om clock oracle om' :
    cancel_order_by_user_order_id st id users key mm bm om clock oracle = Ok (users', om') →
    order_step users users'
| step_fill id st ost key mm bm om oracle filler referrer clock mm' om' x :
    fill_order id st ost users key mm bm om oracle filler referrer clock
      = Ok (users', mm', om', x) →
    order_step users users'.

Definition users_wf (users : UserMap) : Prop :=
  ∀ k u, users !! k = Some (Loaded u) → orders_wf u.

Lemma users_wf_insert users k u :
  users_wf users → orders_wf u → users_wf (<[k := Loaded u]> users).
Proof.
  intros Hwf Hu j v Hj. destruct (decide (j = k)) as [->|].
  - rewrite lookup_insert_eq in Hj. by simplify_eq.
  - rewrite lookup_insert_ne in Hj by done. eauto.
Qed.

Lemma cancel_first_order_wf p st users key mm bm om clock oracle users' om' :
  users_wf users → cancel_first_order p st users key mm bm om clock oracle = Ok (users', om') →
  users_wf users'.
Proof.
  intros Hwf Hok. unfold cancel_first_order in Hok.
  apply bind_ok in Hok as ([u us] & Hu & Hok). apply load_cell_mut_ok in Hu as [Hu ->].
  apply bind_ok in Hok as (n & _ & Hok). apply bind_ok in Hok as ([u' om1] & Hc & Hok).
  apply Ok_inj in Hok; injection Hok as <- <-. rewrite drop_borrowed.
  apply users_wf_insert; [done|].
  apply cancel_order_inv in Hc as [? _]; [done|]. by eapply Hwf.
Qed.

Lemma order_step_wf users users' :
  order_step users users' → users_wf users → users_wf users'.
Proof.
  intros [st ost key mm token referrer clock params oracle Hok|
    st id key mm bm om clock oracle om' Hok|st id key mm bm om clock oracle om' Hok|
    id st ost key mm bm om oracle filler referrer clock mm' om' x Hok] Hwf.
  - unfold place_order in Hok. apply bind_ok in Hok as ([u us] & Hu & Hok).
    apply load_cell_mut_ok in Hu as [Hu ->]. apply bind_ok in Hok as (u' & Hp & Hok).
    apply Ok_inj in Hok as <-. rewrite drop_borrowed. apply users_wf_insert; [done|].
    apply place_order_for_inv in Hp as [? _]; [done|]. by eapply Hwf.
  - by eapply cancel_first_order_wf.
  - by eapply cancel_first_order_wf.
  - apply fill_order_inv in Hok as (u & u' & n & o & Hu & Hu' & _ & _ & _ & Hw & _ & _ & Hacc & _).
    intros k v Hv. destruct (decide (k = key)) as [->|Hk].
    + rewrite Hu' in Hv. injection Hv as <-. apply Hw. by eapply Hwf.
    + destruct (Hacc _ _ Hk Hv) as (f & Hf & _ & Hfw). apply Hfw. by eapply Hwf.
Qed.

(** No sequence of placements, cancellations and fills, by whoever and with whatever
    markets and prices, brings the positions' counts of open orders out of step with
    the orders, or gives a user two positions in one market. *)
Theorem order_system_invariant users users' :
  rtc order_step users users' → users_wf users → users_wf users'.
Proof. induction 1; [done|]. eauto using order_step_wf. Qed.

(** C20. A fill is of an open order with the id, and stays within it: the order has grown
    by the amount that is returned, or its slot is empty because nothing is left or
    because it is a market order; nothing executed leaves the orders as they were. *)
Theorem fill_order_within_order id st ost users uk mm bm om acc fk referrer clock users' mm' om' x :
  users_wf users →
  fill_order id st ost users uk mm bm om acc fk referrer clock = Ok (users', mm', om', x) →
  ∃ u u' n o, users !! uk = Some (Loaded u) ∧ users' !! uk = Some (Loaded u')
    ∧ u.(User.orders) !! n = Some o ∧ o.(Order.order_id) = id ∧ o.(Order.status) = Open
    ∧ if x =? 0 then u'.(User.orders) = u.(User.orders)
      else ∃ o' fill, u'.(User.orders) = <[n := o']> u.(User.orders)
             ∧ order_after_fill o o' fill ∧ fill.(fill_base) = x.
Proof.
  intros Hwf Hok. apply fill_order_inv in Hok
    as (u & u' & n & o & Hu & Hu' & Hn & Hid & Hopen & _ & Hfill & _).
  exists u, u', n, o. split_and!; [done..|]. apply Hfill. by eapply Hwf.
Qed.

(** A fill touches no market but the order's and no account but the user's, the
    filler's and the referrer's, and it changes the orders of the user alone. *)
Theorem fill_order_frame id st ost users uk mm bm om acc fk referrer clock users' mm' om' x :
  fill_order id st ost users uk mm bm om acc fk referrer clock = Ok (users', mm', om', x) →
  (∀ k, k ≠ uk → k ≠ fk → referrer ≠ Some k → users' !! k = users !! k)
  ∧ (∀ k f', k ≠ uk → users' !! k = Some (Loaded f') →
       ∃ f, users !! k = Some (Loaded f) ∧ f'.(User.orders) = f.(User.orders))
  ∧ ∃ u n o, users !! uk = Some (Loaded u) ∧ u.(User.orders) !! n = Some o
      ∧ o.(Order.order_id) = id ∧ ∀ j, j ≠ o.(Order.market_index) → mm' !! j = mm !! j.
Proof.
  intros Hok. apply fill_order_inv in Hok
    as (u & u' & n & o & Hu & _ & Hn & Hid & _ & _ & _ & Hkeep & Hacc & Hmm).
  split; [done|]. split; [|eauto 10].
  intros k f' Hk Hf. destruct (Hacc _ _ Hk Hf) as (f & Hf0 & Hos & _). eauto.
Qed.

(** A user cannot be its own referrer in a fill that executes: its account is
    borrowed. *)
Theorem self_referral_fails st ost users u uk fk mm i n order now fill :
  users !! uk = Some MutBorrowed →
  is_ok (settle_fill st ost users u uk fk (Some uk) mm i n order now fill) = false.
Proof.
  intros Huk.
  destruct (settle_fill st ost users u uk fk (Some uk) mm i n order now fill)
    as [[[users' u'] mm']| |] eqn:Hok; [exfalso|done..].
  unfold settle_fill in Hok. apply bind_ok in Hok as ([[[[[fee fm] td] fr] rr] rd] & _ & Hok).
  apply bind_ok in Hok as ([m mmb] & _ & Hok). apply bind_ok in Hok as (m1 & _ & Hok).
  apply bind_ok in Hok as (u1 & _ & Hok). apply bind_ok in Hok as (users1 & Hf & Hok).
  apply bind_ok in Hok as (users2 & Hr & _).
  apply reward_referrer_ok in Hr as (f & f' & Hl & _).
  destruct (fk =? uk); [apply Ok_inj in Hf as ->; congruence|].
  apply pay_filler_ok in Hf as (g & g' & Hg & -> & _).
  destruct (decide (uk = fk)) as [->|]; [congruence|].
  rewrite lookup_insert_ne in Hl by done. congruence.
Qed.

(** A placed order passes the validation of its market, takes a free slot under the
    user's next id, and is the only change to the user's orders and to the accounts. *)
Theorem place_order_ok st ost users key mm token referrer clock params oracle users' :
  users_wf users →
  place_order st ost users key mm token referrer clock params oracle = Ok users' →
  ∃ u u' n old o market v,
    users !! key = Some (Loaded u) ∧ users' = <[key := Loaded u']> users
    ∧ u.(User.orders) !! n = Some old ∧ old.(Order.status) = Init
    ∧ u'.(User.orders) = <[n := o]> u.(User.orders)
    ∧ o.(Order.status) = Open ∧ o.(Order.order_id) = u.(User.next_order_id)
    ∧ o.(Order.base_asset_amount_filled) = 0
    ∧ market_get_ref mm params.(OrderParams.market_index) = Ok market
    ∧ validate_order o market ost v = Ok ().
Proof.
  intros Hwf Hok. unfold place_order in Hok.
  apply bind_ok in Hok as ([u us] & Hu & Hok). apply load_cell_mut_ok in Hu as [Hu ->].
  apply bind_ok in Hok as (u' & Hp & Hok). apply Ok_inj in Hok as <-.
  apply place_order_for_inv in Hp as
    (_ & n & old & o & Hold & Hinit & Hos & Hopen & Hid & Hi & Hz & market & v & Hm & Hv);
    [|by eapply Hwf].
  exists u, u', n, old, o, market, v. rewrite drop_borrowed, <-Hi. done.
Qed.

(** A cancellation that is not best-effort empties the slot of the first order with the
    id, which was open. *)
Theorem cancel_order_by_order_id_ok st id users key mm bm om clock oracle users' om' :
  users_wf users →
  cancel_order_by_order_id st id users key mm bm om clock oracle = Ok (users', om') →
  ∃ u u' n o, users !! key = Some (Loaded u) ∧ users' = <[key := Loaded u']> users
    ∧ u.(User.orders) !! n = Some o ∧ o.(Order.order_id) = id ∧ o.(Order.status) = Open
    ∧ (∀ m o', u.(User.orders) !! m = Some o' → (m < n)%nat → o'.(Order.order_id) ≠ id)
    ∧ u'.(User.orders) = <[n := Order_default]> u.(User.orders).
Proof.
  intros Hwf Hok. unfold cancel_order_by_order_id, cancel_first_order in Hok.
  apply bind_ok in Hok as ([u us] & Hu & Hok). apply load_cell_mut_ok in Hu as [Hu ->].
  apply bind_ok in Hok as (n & Hn & Hok). apply ok_or_ok, iter_position_some in Hn
    as (o & Ho & Hid & Hmin). apply Z.eqb_eq in Hid.
  apply bind_ok in Hok as ([u' om1] & Hc & Hok).
  apply Ok_inj in Hok; injection Hok as <- <-. rewrite drop_borrowed.
  apply cancel_order_inv in Hc as (_ & o' & Ho' & Hopen & Hcase); [|by eapply Hwf].
  simplify_eq. exists u, u', n, o. split_and!; try done.
  - intros m o' Hm Hlt. apply Z.eqb_neq. by eapply Hmin.
  - destruct Hcase as [|(? & _)]; done.
Qed.

(** A limit or trigger order that executes moves the position by exactly the fill in
    the order's direction and the market's totals with it, leaves nothing or a
    fillable amount of the order, and reduces when it is reduce-only. *)
Theorem execute_order_moves_position u n mm bm om i mark now v u' mm' om' fill o :
  User.orders u !! n = Some o → o.(Order.order_type) ≠ OrderType.Market →
  execute_order u n mm bm om i mark now v = Ok (u', mm', om', fill) →
  fill.(fill_base) ≠ 0 →
  ∃ k p p' m m',
    u.(User.positions) !! k = Some p ∧ is_for p i = true ∧ u'.(User.positions) !! k = Some p'
    ∧ mm !! i = Some (Loaded m) ∧ mm' = <[i := Loaded m']> mm
    ∧ p'.(MarketPosition.base_asset_amount) = p.(MarketPosition.base_asset_amount)
      + (match o.(Order.direction) with Long => fill.(fill_base) | Short => - fill.(fill_base) end)
    ∧ tracks m m' p.(MarketPosition.base_asset_amount) p'.(MarketPosition.base_asset_amount)
    ∧ (let left := o.(Order.base_asset_amount) - o.(Order.base_asset_amount_filled)
                   - fill.(fill_base) in
       left = 0 ∨ 0 < left ∧ m.(Market.amm).(AMM.minimum_base_asset_trade_size) ≤ left)
    ∧ (o.(Order.reduce_only) = true →
       Z.abs p'.(MarketPosition.base_asset_amount) < Z.abs p.(MarketPosition.base_asset_amount)
       ∨ Z.abs p.(MarketPosition.base_asset_amount) < fill.(fill_base)
         ∧ p'.(MarketPosition.quote_asset_amount) = 0).
Proof.
  intros Hn Hty Hok Hx. unfold execute_order in Hok.
  apply bind_ok in Hok as (o' & Ho & Hok). apply unwrap_ok in Ho. simplify_eq.
  assert (execute_non_market_order u n mm bm om i mark now v = Ok (u', mm', om', fill)) as Hok'
    by (by destruct (Order.order_type o)).
  eapply execute_non_market_order_inv in Hok'
    as [(-> & _) | (k & p & p' & m & m' & Hk & Hp & Hp' & Hm & Hmm & _ & Htr & Hb & Hpos & _
                     & Hleft & Hred)]; [done| |done].
  apply get_position_index_ok in Hk as (q & Hq & Hf). rewrite Hp in Hq. injection Hq as <-.
  exists k, p, p', m, m'. split_and!; try done.
  intros Hro. destruct (Hred Hro) as (_ & [|]); [left; lia|by right].
Qed.
End Properties.
