(* ===== verification/MarginProps.v ===== *)
(** * What the margin checks compare

    The requirement and the collateral of a user, as sums over its balances and positions
    at the prices of the oracle accounts, and what the checks of a fill make of them: a
    taker's order needs collateral for the initial requirement, a post-only order for the
    ten thousandth part of the partial one. *)

From stdpp Require Import base numbers list gmap.
From S2P Require Import Prelude Constants Bn State Value AmmMath BankBalance Twap Oracle.
From S2P Require Import Maps PositionMath CurveMath Repeg AmmController OrdersMath Position.
From S2P Require Import Funding Fees Margin OrderValidation Orders.
Local Open Scope Z_scope.

(** ** Loops that sum *)

(** A loop under an invariant, each step of which adds a number that its element
    determines. *)
Lemma fold_result_sum {A B} (f : B → A → result B) (I : B → Prop) (total : B → Z)
    (R : A → Z → Prop) l acc acc' :
  (∀ b b' x, I b → f b x = Ok b' → I b' ∧ ∃ r, R x r ∧ total b' = total b + r) →
  I acc → fold_result f acc l = Ok acc' →
  I acc' ∧ ∃ rs, Forall2 R l rs ∧ total acc' = total acc + sum_of id rs.
Proof.
  intros Hf. revert acc. induction l as [|x l IH]; intros acc Hi Hok; cbn in Hok.
  { apply Ok_inj in Hok as <-. split; [done|]. exists []. split; [done|]. unfold sum_of; cbn. lia. }
  apply bind_ok in Hok as (b & Hb & Hok). destruct (Hf _ _ _ Hi Hb) as (Hib & r & Hr & Ht).
  destruct (IH _ Hib Hok) as (Hi' & rs & Hrs & Ht'). split; [done|].
  exists (r :: rs). split; [by constructor|]. unfold sum_of, id in *; cbn. lia.
Qed.

Section Requirement.
Context `{BnLib} `{OracleAccounts}.

(** ** Balances and positions *)

Definition weight_of (side : BankBalanceType) (bank : Bank) (t : MarginRequirementType) : Z :=
  match side with
  | Deposit => get_asset_weight bank t
  | Borrow => get_liability_weight bank t
  end.

(** What a bank balance counts for on one side: its value at the price of the bank's
    oracle, by the weight of the side; nothing on the other one. *)
Definition balance_worth (bm : BankMap) (om : OracleMap) (t : MarginRequirementType)
    (side : BankBalanceType) (b : UserBankBalance) (r : Z) : Prop :=
  (b.(UserBankBalance.balance) = 0 ∨ b.(UserBankBalance.balance_type) ≠ side) ∧ r = 0
  ∨ b.(UserBankBalance.balance) ≠ 0 ∧ b.(UserBankBalance.balance_type) = side
    ∧ ∃ bank price value,
      bank_get_ref bm b.(UserBankBalance.bank_index) = Ok bank
      ∧ oracle_price_of om bank.(Bank.oracle) = Ok price
      ∧ get_balance_value b bank price = Ok value
      ∧ r = value * weight_of side bank t / BANK_WEIGHT_PRECISION.

(** The value and the profit of an open position on its market's curve, re-pegged to the
    oracle within the market's fees. *)
Definition position_value (mm : MarketMap) (om : OracleMap) (p : MarketPosition) (m : Market)
    (value pnl : Z) : Prop :=
  market_get_ref mm p.(MarketPosition.market_index) = Ok m
  ∧ ∃ price budget amm,
      oracle_price_of om m.(Market.amm).(AMM.oracle) = Ok price
      ∧ calculate_fee_pool m = Ok budget
      ∧ calculate_prepeg_market m price budget = Ok amm
      ∧ calculate_base_asset_value_and_pnl p amm = Ok (value, pnl).

(** The margin of a position: its value by the ratio of the market, in [MARGIN_PRECISION]. *)
Definition position_margin (mm : MarketMap) (om : OracleMap) (t : MarginRequirementType)
    (p : MarketPosition) (r : Z) : Prop :=
  if p.(MarketPosition.base_asset_amount) =? 0 then r = 0
  else ∃ m value pnl, position_value mm om p m value pnl ∧ r = value * get_margin_ratio m t.

Definition position_pnl (mm : MarketMap) (om : OracleMap) (p : MarketPosition) (r : Z) : Prop :=
  if p.(MarketPosition.base_asset_amount) =? 0 then r = 0
  else ∃ m value, position_value mm om p m value r.

(** ** One step of the loops *)

(** A map that has looked up prices: sound, with the prices of the first one. *)
Definition prices (om om' : OracleMap) : Prop :=
  cache_ok om' ∧ ∀ k, oracle_price_of om' k = oracle_price_of om k.

Lemma lookup_prices om om1 k om2 d :
  prices om om1 → get_price_data om1 k = Ok (om2, d) →
  prices om om2 ∧ oracle_price_of om k = Ok d.
Proof.
  intros [Hc Hp] Hok. pose proof (get_price_data_refines om1 k Hc) as Hr.
  rewrite Hok in Hr. destruct Hr as (Hd & Hc' & Hp').
  split; [split; [done|]|by rewrite <-Hp]. intros k'. by rewrite Hp'.
Qed.

Lemma add_weighted_ok sum value weight r :
  add_weighted sum value weight = Ok r →
  r = sum + value * weight / BANK_WEIGHT_PRECISION ∧ has_type U128 r.
Proof.
  unfold add_weighted. intros Hok. apply bind_ok in Hok as (x & Hx & Hok).
  apply cmul_ok in Hx as [-> _]. apply bind_ok in Hok as (y & Hy & Hok).
  apply cdiv_ok in Hy as (_ & -> & _). by apply cadd_ok in Hok as [-> Hty].
Qed.

(** The state of the first loop. *)
Definition balances_ok (om : OracleMap) (acc : OracleMap * Z * Z) : Prop :=
  prices om acc.1.1 ∧ has_type U128 acc.1.2.

(** Either side of the first loop: the collateral takes the deposits, the requirement the
    borrows. *)
Definition side_of (side : BankBalanceType) (acc : OracleMap * Z * Z) : Z :=
  match side with Deposit => acc.1.2 | Borrow => acc.2 end.

Lemma margin_bank_step_worth om bm t side acc acc' b :
  balances_ok om acc → margin_bank_step get_price_data bm t acc b = Ok acc' →
  balances_ok om acc'
  ∧ ∃ r, balance_worth bm om t side b r ∧ side_of side acc' = side_of side acc + r.
Proof.
  destruct acc as [[om1 c] q]. intros [Hp Hty] Hok. unfold margin_bank_step in Hok.
  destruct (Z.eqb_spec (UserBankBalance.balance b) 0) as [Hz|Hz].
  { apply Ok_inj in Hok as <-. split; [done|]. exists 0. split; [left; tauto|lia]. }
  apply bind_ok in Hok as ([[om2 bank] v] & Hv & Hok). unfold bank_balance_value in Hv.
  apply bind_ok in Hv as (bank1 & Hb & Hv). apply bind_ok in Hv as ([om3 d] & Hd & Hv).
  apply bind_ok in Hv as (v1 & Hv1 & Hv). apply Ok_inj in Hv; injection Hv as <- <- <-.
  apply (lookup_prices _ _ _ _ _ Hp) in Hd as [Hp2 Hd].
  assert (∀ s, UserBankBalance.balance_type b = s →
    balance_worth bm om t s b (v1 * weight_of s bank1 t / BANK_WEIGHT_PRECISION)) as Hworth
    by (intros s Hs; right; split_and!; [done|done|by exists bank1, d, v1]).
  assert (∀ s, UserBankBalance.balance_type b ≠ s → balance_worth bm om t s b 0) as Hnone
    by (intros s Hs; left; tauto).
  destruct (UserBankBalance.balance_type b); apply bind_ok in Hok as (x & Hx & Hok);
    apply Ok_inj in Hok as <-; apply add_weighted_ok in Hx as [-> Hx];
    (split; [by split|]); destruct side;
    (eexists; split; [first [by apply Hworth|by apply Hnone]|cbn; lia]).
Qed.

(** The state of the second loop. *)
Definition positions_ok (om : OracleMap) (acc : OracleMap * Z * Z * Z) : Prop :=
  prices om acc.1.1.1 ∧ has_type I128 acc.1.2 ∧ has_type I128 acc.2.

Lemma margin_position_step_ok om mm t acc acc' p :
  positions_ok om acc → margin_position_step get_price_data mm t acc p = Ok acc' →
  positions_ok om acc'
  ∧ (∃ r, position_margin mm om t p r ∧ acc'.1.1.2 = acc.1.1.2 + r)
  ∧ (∃ r, position_pnl mm om p r ∧ acc'.1.2 = acc.1.2 + r)
  ∧ acc'.2 = acc.2 + p.(MarketPosition.unsettled_pnl).
Proof.
  destruct acc as [[[om1 q] u] s]. intros (Hp & Hu & Hs) Hok. unfold margin_position_step in Hok.
  apply bind_ok in Hok as (s1 & Hs1 & Hok). apply cadd_ok in Hs1 as [-> Hs1].
  unfold position_margin, position_pnl.
  destruct (Z.eqb_spec (MarketPosition.base_asset_amount p) 0).
  { apply Ok_inj in Hok as <-. split; [by split_and!|]. cbn.
    split; [exists 0; split; [done|lia]|]. split; [exists 0; split; [done|lia]|done]. }
  apply bind_ok in Hok as (m & Hm & Hok). apply bind_ok in Hok as ([om2 d] & Hd & Hok).
  apply (lookup_prices _ _ _ _ _ Hp) in Hd as [Hp2 Hd].
  apply bind_ok in Hok as (budget & Hbudget & Hok). apply bind_ok in Hok as (amm & Hamm & Hok).
  apply bind_ok in Hok as ([v pnl] & Hv & Hok). apply bind_ok in Hok as (q1 & Hq & Hok).
  unfold add_requirement in Hq. apply bind_ok in Hq as (x & Hx & Hq).
  apply cmul_ok in Hx as [-> _]. apply cadd_ok in Hq as [-> _].
  apply bind_ok in Hok as (u1 & Hu1 & Hok). apply cadd_ok in Hu1 as [-> Hu1].
  apply Ok_inj in Hok as <-. split; [by split_and!|]. cbn.
  assert (position_value mm om p m v pnl) as Hpv by (split; [done|by exists d, budget, amm]).
  split; [exists (v * get_margin_ratio m t); split; [by exists m, v, pnl|done]|].
  split; [exists pnl; split; [by exists m, v|done]|done].
Qed.

(** ** The margin calculation *)

(** The requirement and the collateral of a user, in quote precision both. *)
Definition margin_of (user : User) (mm : MarketMap) (bm : BankMap) (om : OracleMap)
    (t : MarginRequirementType) (requirement collateral : Z) : Prop :=
  ∃ deposits borrows margins pnls,
    Forall2 (balance_worth bm om t Deposit) user.(User.bank_balances) deposits
    ∧ Forall2 (balance_worth bm om t Borrow) user.(User.bank_balances) borrows
    ∧ Forall2 (position_margin mm om t) user.(User.positions) margins
    ∧ Forall2 (position_pnl mm om) user.(User.positions) pnls
    ∧ requirement = sum_of id borrows + sum_of id margins / MARGIN_PRECISION
    ∧ collateral
      = Z.max 0 (Z.max 0 (sum_of id deposits + sum_of id pnls)
                 + sum_of MarketPosition.unsettled_pnl user.(User.positions)).

Lemma fold_result_total {A B} (f : B → A → result B) (I : B → Prop) (total : B → Z)
    (g : A → Z) l acc acc' :
  (∀ b b' x, I b → f b x = Ok b' → I b' ∧ total b' = total b + g x) →
  I acc → fold_result f acc l = Ok acc' → I acc' ∧ total acc' = total acc + sum_of g l.
Proof.
  intros Hf. revert acc. induction l as [|x l IH]; intros acc Hi Hok; cbn in Hok.
  { apply Ok_inj in Hok as <-. split; [done|]. unfold sum_of; cbn. lia. }
  apply bind_ok in Hok as (b & Hb & Hok). destruct (Hf _ _ _ Hi Hb) as [Hib Ht].
  destruct (IH _ Hib Hok) as (Hi' & Ht'). split; [done|]. unfold sum_of in *; cbn. lia.
Qed.

Lemma margin_banks_sum om bm t l om1 c q :
  cache_ok om →
  fold_result (margin_bank_step get_price_data bm t) (om, 0, 0) l = Ok (om1, c, q) →
  prices om om1 ∧ has_type U128 c
  ∧ (∃ deposits, Forall2 (balance_worth bm om t Deposit) l deposits ∧ c = sum_of id deposits)
  ∧ ∃ borrows, Forall2 (balance_worth bm om t Borrow) l borrows ∧ q = sum_of id borrows.
Proof.
  intros Hc Hok. assert (balances_ok om (om, 0, 0)) as Hstart by (by split).
  destruct (fold_result_sum _ _ (side_of Deposit) _ _ _ _
    (λ a a' b, margin_bank_step_worth om bm t Deposit a a' b) Hstart Hok)
    as ([Hp Hty] & deposits & Hdep & Hd).
  destruct (fold_result_sum _ _ (side_of Borrow) _ _ _ _
    (λ a a' b, margin_bank_step_worth om bm t Borrow a a' b) Hstart Hok)
    as (_ & borrows & Hbor & Hb).
  split; [done|]. split; [done|].
  split; [exists deposits|exists borrows]; (split; [done|assumption]).
Qed.

Lemma margin_positions_sum om om1 mm t l om2 q u s :
  prices om om1 →
  fold_result (margin_position_step get_price_data mm t) (om1, 0, 0, 0) l = Ok (om2, q, u, s) →
  has_type I128 u ∧ has_type I128 s ∧ s = sum_of MarketPosition.unsettled_pnl l
  ∧ (∃ margins, Forall2 (position_margin mm om t) l margins ∧ q = sum_of id margins)
  ∧ ∃ pnls, Forall2 (position_pnl mm om) l pnls ∧ u = sum_of id pnls.
Proof.
  intros Hp Hok. assert (positions_ok om (om1, 0, 0, 0)) as Hstart by (by split_and!).
  pose proof (margin_position_step_ok om mm t) as Hstep.
  destruct (fold_result_sum (margin_position_step get_price_data mm t) (positions_ok om)
    (λ a, a.1.1.2) (position_margin mm om t) _ _ _
    ltac:(intros a a' p Ha Hs; destruct (Hstep a a' p Ha Hs) as (? & ? & _); by split)
    Hstart Hok) as ((_ & Hu & Hs) & margins & Hm & Hq).
  destruct (fold_result_sum (margin_position_step get_price_data mm t) (positions_ok om)
    (λ a, a.1.2) (position_pnl mm om) _ _ _
    ltac:(intros a a' p Ha Hs'; destruct (Hstep a a' p Ha Hs') as (? & _ & ? & _); by split)
    Hstart Hok) as (_ & pnls & Hpnl & Hg).
  destruct (fold_result_total (margin_position_step get_price_data mm t) (positions_ok om)
    (λ a, a.2) MarketPosition.unsettled_pnl _ _ _
    ltac:(intros a a' p Ha Hs'; destruct (Hstep a a' p Ha Hs') as (? & _ & _ & ?); by split)
    Hstart Hok) as (_ & Hun).
  cbn [fst snd] in *. rewrite Z.add_0_l in *. split_and!; try done; by eexists.
Qed.

Lemma margin_calculation_ok user mm t bm om om' requirement collateral :
  cache_ok om →
  calculate_margin_requirement_and_total_collateral user mm t bm om
    = Ok (om', (requirement, collateral)) →
  margin_of user mm bm om t requirement collateral.
Proof.
  intros Hc Hok. unfold calculate_margin_requirement_and_total_collateral,
    margin_requirement_and_total_collateral in Hok.
  apply bind_ok in Hok as ([[om1 c] q] & Hbanks & Hok).
  apply (margin_banks_sum _ _ _ _ _ _ _ Hc) in Hbanks
    as (Hp & Hty & (deposits & Hdep & ->) & borrows & Hbor & ->).
  apply bind_ok in Hok as ([[[om2 pm] pnl] s] & Hpos & Hok).
  apply (margin_positions_sum _ _ _ _ _ _ _ _ _ Hp) in Hpos
    as (Hu & Hs & -> & (margins & Hmar & ->) & pnls & Hpnl & ->).
  apply bind_ok in Hok as (x & Hx & Hok). apply cdiv_ok in Hx as (_ & -> & _).
  apply bind_ok in Hok as (r & Hr & Hok). apply cadd_ok in Hr as [-> _].
  apply bind_ok in Hok as (tc & Htc & Hok). apply Ok_inj in Hok; injection Hok as <- <- <-.
  apply collateral_after_pnl_ok in Htc as [-> _]; [|done..].
  by exists deposits, borrows, margins, pnls.
Qed.

(** C22. What a fill asks of a user.  The requirement is the sum of the borrows, by their
    weights, and of the values of the positions, by the ratios of their markets, the
    collateral the sum of the deposits, by their weights, and of the profits, never below
    zero: both are in quote precision.  A taker's order is accepted exactly when the
    collateral covers the initial requirement.  A post-only order is accepted exactly when
    the partial requirement is below ten thousand times what the collateral and one unit
    make: the requirement is divided by the margin precision a second time. *)
Theorem fill_requirement_spec user mm bm om post_only om' b :
  cache_ok om → meets_fill_requirement user mm bm om post_only = Ok (om', b) →
  ∃ requirement collateral,
    margin_of user mm bm om (if post_only then Partial else Initial) requirement collateral
    ∧ (b = true ↔ if (post_only : bool) then requirement < (collateral + 1) * MARGIN_PRECISION
                  else requirement ≤ collateral).
Proof.
  intros Hc Hok. unfold meets_fill_requirement in Hok. destruct post_only.
  - unfold meets_partial_margin_requirement in Hok.
    apply bind_ok in Hok as ([om1 [r c]] & Hm & Hok).
    apply bind_ok in Hok as (x & Hx & Hok). apply cdiv_ok in Hx as (_ & -> & _).
    apply Ok_inj in Hok; injection Hok as <- <-. apply margin_calculation_ok in Hm; [|done].
    exists r, c. split; [done|]. unfold int_quot; cbn [is_signed].
    rewrite Z.leb_le. assert (0 < MARGIN_PRECISION) by done.
    pose proof (Z.div_mod r MARGIN_PRECISION ltac:(lia)).
    pose proof (Z.mod_pos_bound r MARGIN_PRECISION ltac:(lia)). nia.
  - unfold meets_initial_margin_requirement in Hok.
    apply bind_ok in Hok as ([om1 [r c]] & Hm & Hok).
    apply Ok_inj in Hok; injection Hok as <- <-. apply margin_calculation_ok in Hm; [|done].
    exists r, c. split; [done|]. apply Z.leb_le.
Qed.
End Requirement.
