(* ===== verification/Events.v ===== *)
(** * The records of the log (state/events.rs)

    The records that the instructions emit, and computations that emit them: a
    computation of [emits A] has a log and a [result A].  What was emitted before a
    failure stays in the log, as it does on Solana, where it belongs to a failed
    transaction.  [erase] forgets the log. *)

From stdpp Require Import base numbers list.
From S2P Require Import Prelude State Funding.
Local Open Scope Z_scope.

(** ** The records *)

Module DepositDirection.
Inductive DepositDirection := DEPOSIT | WITHDRAW.
#[export] Instance DepositDirection_eq_dec : EqDecision DepositDirection.
Proof. solve_decision. Defined.
End DepositDirection.
Abbreviation DepositDirection := DepositDirection.DepositDirection.

Module DepositRecord.
Record DepositRecord := mk {
  ts : Z;
  user_authority : Pubkey;
  user : Pubkey;
  direction : DepositDirection;
  amount : Z;
  bank_index : Z;
  from : option Pubkey;
  to : option Pubkey;
}.
End DepositRecord.
Abbreviation DepositRecord := DepositRecord.DepositRecord.

Module TradeRecord.
Record TradeRecord := mk {
  ts : Z;
  record_id : Z;
  user_authority : Pubkey;
  user : Pubkey;
  direction : PositionDirection;
  base_asset_amount : Z;
  quote_asset_amount : Z;
  mark_price_before : Z;
  mark_price_after : Z;
  fee : Z;
  quote_asset_amount_surplus : Z;
  referee_discount : Z;
  token_discount : Z;
  liquidation : bool;
  market_index : Z;
  oracle_price : Z;
}.
End TradeRecord.
Abbreviation TradeRecord := TradeRecord.TradeRecord.

Module FundingPaymentRecord.
Record FundingPaymentRecord := mk {
  ts : Z;
  user_authority : Pubkey;
  user : Pubkey;
  market_index : Z;
  funding_payment : Z;
  base_asset_amount : Z;
  user_last_cumulative_funding : Z;
  user_last_funding_rate_ts : Z;
  amm_cumulative_funding_long : Z;
  amm_cumulative_funding_short : Z;
}.
End FundingPaymentRecord.
Abbreviation FundingPaymentRecord := FundingPaymentRecord.FundingPaymentRecord.

Module FundingRateRecord.
Record FundingRateRecord := mk {
  ts : Z;
  record_id : Z;
  market_index : Z;
  funding_rate : Z;
  cumulative_funding_rate_long : Z;
  cumulative_funding_rate_short : Z;
  oracle_price_twap : Z;
  mark_price_twap : Z;
}.
End FundingRateRecord.
Abbreviation FundingRateRecord := FundingRateRecord.FundingRateRecord.

Module CurveRecord.
Record CurveRecord := mk {
  ts : Z;
  record_id : Z;
  market_index : Z;
  peg_multiplier_before : Z;
  base_asset_reserve_before : Z;
  quote_asset_reserve_before : Z;
  sqrt_k_before : Z;
  peg_multiplier_after : Z;
  base_asset_reserve_after : Z;
  quote_asset_reserve_after : Z;
  sqrt_k_after : Z;
  base_asset_amount_long : Z;
  base_asset_amount_short : Z;
  base_asset_amount : Z;
  open_interest : Z;
  total_fee : Z;
  total_fee_minus_distributions : Z;
  adjustment_cost : Z;
  oracle_price : Z;
  trade_record : Z;
}.
End CurveRecord.
Abbreviation CurveRecord := CurveRecord.CurveRecord.

Module LiquidationRecord.
Record LiquidationRecord := mk {
  ts : Z;
  user_authority : Pubkey;
  user : Pubkey;
  partial : bool;
  base_asset_value : Z;
  base_asset_value_closed : Z;
  liquidation_fee : Z;
  fee_to_liquidator : Z;
  fee_to_insurance_fund : Z;
  liquidator : Pubkey;
  total_collateral : Z;
  collateral : Z;
  unrealized_pnl : Z;
  margin_ratio : Z;
}.
End LiquidationRecord.
Abbreviation LiquidationRecord := LiquidationRecord.LiquidationRecord.

(** [OrderAction] has an [Expire] that no instruction emits. *)
Module OrderAction.
Inductive OrderAction := Place | Cancel | Fill | Expire.
#[export] Instance OrderAction_eq_dec : EqDecision OrderAction.
Proof. solve_decision. Defined.
End OrderAction.
Abbreviation OrderAction := OrderAction.OrderAction.

Module OrderRecord.
Record OrderRecord := mk {
  ts : Z;
  user : Pubkey;
  authority : Pubkey;
  order : Order;
  action : OrderAction;
  filler : Pubkey;
  trade_record_id : Z;
  base_asset_amount_filled : Z;
  quote_asset_amount_filled : Z;
  fee : Z;
  filler_reward : Z;
  quote_asset_amount_surplus : Z;
}.
End OrderRecord.
Abbreviation OrderRecord := OrderRecord.OrderRecord.

Definition DepositDirection_default : DepositDirection := DepositDirection.DEPOSIT.
Definition OrderAction_default : OrderAction := OrderAction.Place.

(** What [emit!] takes. *)
Inductive Event :=
| EDeposit (r : DepositRecord)
| ETrade (r : TradeRecord)
| EFundingPayment (r : FundingPaymentRecord)
| EFundingRate (r : FundingRateRecord)
| ECurve (r : CurveRecord)
| ELiquidation (r : LiquidationRecord)
| EOrder (r : OrderRecord).

(** ** Computations that emit records *)

Definition emits (A : Type) : Type := list Event * result A.

Definition quiet {A} (m : result A) : emits A := ([], m).
Definition emit (e : Event) : emits () := ([e], Ok ()).

Definition then_emits {A B} (m : emits A) (f : A → emits B) : emits B :=
  match m.2 with
  | Ok a => let '(l, r) := f a in (m.1 ++ l, r)
  | Err e => (m.1, Err e)
  | Panic => (m.1, Panic)
  end.

(** The computation without its log. *)
Definition erase {A} (m : emits A) : result A := m.2.

Coercion quiet : result >-> emits.
Arguments quiet : simpl never.
Arguments emit : simpl never.
Arguments then_emits : simpl never.

Notation "'let!' x := m 'in' k" := (then_emits m (λ x, k))
  (at level 10, x name, m at level 100, k at level 200,
   format "'[v' 'let!'  x  :=  '[' m ']'  'in' '/' k ']'") : rust_scope.
Notation "'let!' ' p := m 'in' k" := (then_emits m (λ p, k))
  (at level 10, p strict pattern, m at level 100, k at level 200,
   format "'[v' 'let!'  ' p  :=  '[' m ']'  'in' '/' k ']'") : rust_scope.

(** A loop over a list that fails with its first failure, as [map_result]. *)
Fixpoint map_emits {A B} (f : A → emits B) (l : list A) : emits (list B) :=
  match l with
  | [] => quiet (Ok [])
  | x :: l => let! y := f x in let! ys := map_emits f l in quiet (Ok (y :: ys))
  end.

(** ** Properties *)

(** *** The laws of the monad *)

Lemma then_quiet {A B} (a : A) (f : A → emits B) : then_emits (quiet (Ok a)) f = f a.
Proof. unfold then_emits, quiet. cbn. by destruct (f a). Qed.

Lemma then_silent {A B} (a : A) (f : A → emits B) : then_emits ([], Ok a) f = f a.
Proof. apply then_quiet. Qed.

Lemma then_assoc {A B C} (m : emits A) (f : A → emits B) (g : B → emits C) :
  then_emits (then_emits m f) g = then_emits m (λ a, then_emits (f a) g).
Proof.
  unfold then_emits. destruct m as [l [a|e|]]; cbn; try done.
  destruct (f a) as [l' [b|e|]]; cbn; try done. destruct (g b). cbn. by rewrite app_assoc.
Qed.

(** *** Forgetting the log *)

Lemma erase_then {A B} (m : emits A) (f : A → emits B) :
  erase (then_emits m f) = bind (erase m) (λ a, erase (f a)).
Proof. destruct m as [l [a|e|]]; try done. unfold then_emits. cbn. by destruct (f a). Qed.

Lemma erase_quiet {A} (m : result A) : erase (quiet m) = m.
Proof. done. Qed.

Lemma erase_emit {B} e (f : () → emits B) : erase (then_emits (emit e) f) = erase (f ()).
Proof. unfold then_emits, emit. cbn. by destruct (f ()). Qed.

(** The same first step, then continuations that are the same without their logs. *)
Lemma erase_bind {A B} (m : emits A) (m' : result A) (f : A → emits B) f' :
  erase m = m' → (∀ a, m' = Ok a → erase (f a) = f' a) →
  erase (then_emits m f) = bind m' f'.
Proof. intros <- Hf. rewrite erase_then. destruct (erase m); cbn; auto. Qed.

(** A first step that computes more than it did. *)
Lemma erase_bind_fst {A C B} (m : emits (A * C)) (m' : result A) (f : A * C → emits B) f' :
  bind (erase m) (λ a, Ok a.1) = m' → (∀ a c, erase (f (a, c)) = f' a) →
  erase (then_emits m f) = bind m' f'.
Proof.
  intros <- Hf. rewrite erase_then. destruct (erase m) as [[a c]|e|]; cbn; auto.
Qed.

(** *** Inversion of successful computations *)

Lemma then_ok {A B} (m : emits A) (f : A → emits B) l b :
  then_emits m f = (l, Ok b) ↔
  ∃ a l1 l2, m = (l1, Ok a) ∧ f a = (l2, Ok b) ∧ l = l1 ++ l2.
Proof.
  unfold then_emits. destruct m as [l0 [a|e|]]; cbn; split; try naive_solver.
  - destruct (f a) as [l1 r] eqn:Hf. intros [= <- ->]. by exists a, l0, l1.
  - intros (a' & l1 & l2 & [= -> ->] & Hf & ->). by rewrite Hf.
Qed.

Lemma quiet_ok {A} (m : result A) l a : quiet m = (l, Ok a) ↔ l = [] ∧ m = Ok a.
Proof. unfold quiet. naive_solver. Qed.

Lemma emit_ok e l u : emit e = (l, Ok u) ↔ l = [e].
Proof. destruct u. unfold emit. naive_solver. Qed.

Lemma then_quiet_ok {A B} (m : result A) (f : A → emits B) l b :
  then_emits (quiet m) f = (l, Ok b) ↔ ∃ a, m = Ok a ∧ f a = (l, Ok b).
Proof.
  rewrite then_ok. split.
  - intros (a & l1 & l2 & [-> Ha]%quiet_ok & Hf & ->). by exists a.
  - intros (a & -> & Hf). by exists a, [], l.
Qed.

Lemma then_emit_ok {B} e (f : () → emits B) l b :
  then_emits (emit e) f = (l, Ok b) ↔ ∃ l', f () = (l', Ok b) ∧ l = e :: l'.
Proof.
  rewrite then_ok. split.
  - intros ([] & l1 & l2 & ->%emit_ok & Hf & ->). by exists l2.
  - intros (l' & Hf & ->). by exists (), [e], l'.
Qed.

Lemma emits_erase {A} (m : emits A) l a : m = (l, Ok a) → erase m = Ok a.
Proof. by intros ->. Qed.

Lemma erase_emits {A} (m : emits A) a : erase m = Ok a → ∃ l, m = (l, Ok a).
Proof. destruct m as [l r]. cbn. intros ->. by exists l. Qed.

Lemma erase_map {A B} (f : A → emits B) (g : A → result B) l :
  (∀ a, erase (f a) = g a) → erase (map_emits f l) = map_result g l.
Proof.
  intros Hf. induction l as [|a l IH]; [done|]. cbn [map_emits map_result].
  apply erase_bind; [by rewrite Hf|]. intros b _. by apply erase_bind.
Qed.

(** [erase_steps] compares a computation, without its log, with the one that emits
    nothing, step by step; lemmas about their parts are in the hints [erase]. *)
Create HintDb erase.

Ltac erase_step :=
  match goal with
  | |- erase (then_emits (emit _) _) = _ => rewrite erase_emit; cbv beta iota
  | |- erase (then_emits _ _) = bind _ _ =>
      eapply erase_bind;
      [first [reflexivity | solve [auto with erase nocore] | idtac]
      | let a := fresh "a" in intros a _; cbv beta]
  | |- erase (let '() := ?u in _) = _ => destruct u
  | |- erase (let '(_, _) := ?p in _) = _ => first [is_var p; destruct p | destruct p eqn:?]
  | |- erase (if ?b then _ else _) = _ => destruct b
  | |- erase (match ?x with _ => _ end) = _ => is_var x; destruct x
  | |- erase (quiet _) = _ => reflexivity
  | |- erase _ = _ => first [reflexivity | solve [auto with erase nocore]]
  end.
Ltac erase_steps := repeat erase_step.

(** What a computation guarantees of its log and of its result, as [Frame] for those
    that emit nothing. *)
Class Logged {A} (m : emits A) (P : list Event → A → Prop) : Prop :=
  logged : ∀ l a, m = (l, Ok a) → P l a.
#[global] Hint Mode Logged - ! - : typeclass_instances.

(** Goes through the steps of a computation that emits. *)
Ltac log_step :=
  match goal with
  | H : then_emits (quiet _) _ = (_, Ok _) |- _ =>
      apply then_quiet_ok in H as (? & ? & H); cbv beta in H
  | H : then_emits (emit _) _ = (_, Ok _) |- _ =>
      apply then_emit_ok in H as (? & H & ->); cbv beta iota in H
  | H : then_emits _ _ = (_, Ok _) |- _ =>
      apply then_ok in H as (? & ? & ? & ? & H & ->); cbv beta in H
  | H : quiet _ = (_, Ok _) |- _ => apply quiet_ok in H as [-> H]
  | H : emit _ = (_, Ok _) |- _ => apply emit_ok in H as ->
  | H : (let '() := ?u in _) = (_, Ok _) |- _ => destruct u
  | H : (let '(_, _) := ?p in _) = (_, Ok _) |- _ =>
      first [is_var p; destruct p | destruct p eqn:?]
  | H : (if ?b then _ else _) = (_, Ok _) |- _ => destruct b
  | H : match ?x with _ => _ end = (_, Ok _) |- _ => is_var x; destruct x
  | H : ?m = (_, Ok _) |- _ =>
      let F := fresh "Hl" in pose proof (logged (m := m) _ _ H) as F;
      cbv beta in F; cbn [fst snd] in F; clear H
  | _ => frame_step
  end.
Ltac log_steps := repeat log_step.
