(* ===== verification/EventFunding.v ===== *)
(** * The records of funding (controller/funding.rs)

    [settle_funding_payment] and [update_funding_rate] with the records that they emit.
    Without its log each is the definition of [Funding]; with it, the log tells what was
    paid and what the rates became. *)

From stdpp Require Import base numbers list gmap.
From S2P Require Import Prelude Constants Bn State Value AmmMath Twap Oracle Maps Repeg.
From S2P Require Import Position Funding Orders Events.
Local Open Scope Z_scope.

(** ** Definitions *)

Section Definitions.
Context `{BnLib}.

Definition settle_position_funding_emits (authority user_key : Pubkey)
    (market_map : MarketMap) (now : Z) (market_position : MarketPosition)
    : emits MarketPosition :=
  if market_position.(MarketPosition.base_asset_amount) =? 0 then quiet (Ok market_position)
  else
    let! market := market_get_ref market_map market_position.(MarketPosition.market_index) in
    let amm := market.(Market.amm) in
    let amm_cumulative_funding_rate :=
      if 0 <? market_position.(MarketPosition.base_asset_amount)
      then amm.(AMM.cumulative_funding_rate_long)
      else amm.(AMM.cumulative_funding_rate_short) in
    if negb (amm_cumulative_funding_rate
             =? market_position.(MarketPosition.last_cumulative_funding_rate)) then
      let! x := calculate_funding_payment amm_cumulative_funding_rate market_position in
      let! market_funding_payment := cdiv I128 x AMM_TO_QUOTE_PRECISION_RATIO_I128 in
      let! ' () := emit (EFundingPayment {|
        FundingPaymentRecord.ts := now;
        FundingPaymentRecord.user_authority := authority;
        FundingPaymentRecord.user := user_key;
        FundingPaymentRecord.market_index :=
          market_position.(MarketPosition.market_index);
        FundingPaymentRecord.funding_payment := market_funding_payment;
        FundingPaymentRecord.base_asset_amount :=
          market_position.(MarketPosition.base_asset_amount);
        FundingPaymentRecord.user_last_cumulative_funding :=
          market_position.(MarketPosition.last_cumulative_funding_rate);
        FundingPaymentRecord.user_last_funding_rate_ts :=
          market_position.(MarketPosition.last_funding_rate_ts);
        FundingPaymentRecord.amm_cumulative_funding_long :=
          amm.(AMM.cumulative_funding_rate_long);
        FundingPaymentRecord.amm_cumulative_funding_short :=
          amm.(AMM.cumulative_funding_rate_short);
      |}) in
      let! u := cadd I128 market_position.(MarketPosition.unsettled_pnl)
                  market_funding_payment in
      quiet (Ok (market_position
            <| MarketPosition.last_cumulative_funding_rate := amm_cumulative_funding_rate |>
            <| MarketPosition.last_funding_rate_ts := amm.(AMM.last_funding_rate_ts) |>
            <| MarketPosition.unsettled_pnl := u |>))
    else quiet (Ok market_position).

Definition settle_funding_payment_emits (user : User) (user_key : Pubkey)
    (market_map : MarketMap) (now : Z) : emits User :=
  let! positions := map_emits (settle_position_funding_emits user.(User.authority) user_key
                                 market_map now) user.(User.positions) in
  quiet (Ok (user <| User.positions := positions |>)).

Definition update_funding_rate_emits `{OracleAccounts} (market_index : Z) (market : Market)
    (price_oracle : AccountInfo) (now clock_slot : Z) (guard_rails : OracleGuardRails)
    (funding_paused : bool) (precomputed_mark_price : option Z) : emits Market :=
  let amm := market.(Market.amm) in
  let! time_since_last_update := csub I64 now amm.(AMM.last_funding_rate_ts) in
  let! ' (block_funding_rate_update, oracle_price_data) :=
    block_operation amm price_oracle clock_slot guard_rails precomputed_mark_price in
  let! next_update_wait :=
    calculate_next_update_wait amm.(AMM.last_funding_rate_ts) amm.(AMM.funding_period) in
  if negb funding_paused && negb block_funding_rate_update
     && (next_update_wait <=? time_since_last_update) then
    let! ' (amm, oracle_price_twap) :=
      update_oracle_price_twap amm now oracle_price_data precomputed_mark_price in
    let! ' (amm, mid_price_twap) := update_mark_twap amm now None in
    let market := market <| Market.amm := amm |> in
    let! funding_rate :=
      calculate_funding_rate mid_price_twap oracle_price_twap amm.(AMM.funding_period) in
    let! ' (market, (funding_rate_long, funding_rate_short)) :=
      calculate_funding_rate_long_short market funding_rate in
    let amm := market.(Market.amm) in
    let! l := cadd I128 amm.(AMM.cumulative_funding_rate_long) funding_rate_long in
    let! s := cadd I128 amm.(AMM.cumulative_funding_rate_short) funding_rate_short in
    let '(record_id, next_id) :=
      get_then_update_id market.(Market.next_funding_rate_record_id) in
    let! ' () := emit (EFundingRate {|
      FundingRateRecord.ts := now;
      FundingRateRecord.record_id := record_id;
      FundingRateRecord.market_index := market_index;
      FundingRateRecord.funding_rate := funding_rate;
      FundingRateRecord.cumulative_funding_rate_long := l;
      FundingRateRecord.cumulative_funding_rate_short := s;
      FundingRateRecord.oracle_price_twap := oracle_price_twap;
      FundingRateRecord.mark_price_twap := mid_price_twap;
    |}) in
    quiet (Ok (market <| Market.amm := amm <| AMM.cumulative_funding_rate_long := l |>
                                    <| AMM.cumulative_funding_rate_short := s |>
                                    <| AMM.last_funding_rate := funding_rate |>
                                    <| AMM.last_funding_rate_ts := now |> |>
               <| Market.next_funding_rate_record_id := next_id |>))
  else quiet (Ok market).
End Definitions.

(** ** Without the log *)

Section Erasure.
Context `{BnLib} `{OracleAccounts}.

Lemma settle_position_funding_erase authority key mm now p :
  erase (settle_position_funding_emits authority key mm now p) = settle_position_funding mm p.
Proof.
  unfold settle_position_funding_emits, settle_position_funding. erase_steps.
Qed.

Lemma settle_funding_payment_erase u key mm now :
  erase (settle_funding_payment_emits u key mm now) = settle_funding_payment u mm.
Proof.
  unfold settle_funding_payment_emits, settle_funding_payment. erase_steps.
  apply erase_map. intros p. apply settle_position_funding_erase.
Qed.

Lemma update_funding_rate_erase i m oracle now slot rails paused mark :
  erase (update_funding_rate_emits i m oracle now slot rails paused mark)
  = update_funding_rate m oracle now slot rails paused mark.
Proof. unfold update_funding_rate_emits, update_funding_rate. erase_steps. Qed.
End Erasure.

#[export] Hint Resolve settle_position_funding_erase settle_funding_payment_erase
  update_funding_rate_erase : erase.
