(* ===== verification/Tokens.v ===== *)
(** * Token transfers (controller/token.rs)

    The accounts of the token program are outside of the source: a ledger of accounts by
    key, moved by the token program, which is a parameter with its documented behaviour
    as laws.  A call that the token program refuses ends the instruction and undoes all
    it did; no error code of the program is involved, so it is a [Panic]. *)

From stdpp Require Import base numbers list gmap.
From S2P Require Import Prelude State Maps Addresses.
Local Open Scope Z_scope.

(** ** Definitions *)

(** Of an account of the token program, what the program reads and what decides who can
    take tokens from it: the owner, or a delegate whom the owner has approved. *)
Module TokenAccount.
Record TokenAccount := mk {
  is_initialized : bool;
  mint : Pubkey;
  owner : Pubkey;
  amount : Z;
  delegate : option Pubkey;
}.
#[export] Instance TokenAccount_eta : Eta TokenAccount := λ r,
  mk r.(is_initialized) r.(mint) r.(owner) r.(amount) r.(delegate).
End TokenAccount.
Abbreviation TokenAccount := TokenAccount.TokenAccount.
Export (hints) TokenAccount.

Abbreviation Ledger := (gmap Pubkey TokenAccount).

(** Who signs a transfer: the caller, or the program by the seeds of an authority and a
    nonce. *)
Inductive Signer :=
| CallerSigns
| BankVaultSigns (bank_index nonce : Z)
| InsuranceVaultSigns (vault : Pubkey) (nonce : Z).

(** The address that the program signs for. *)
Definition signs `{ProgramAddresses} (s : Signer) : option Pubkey :=
  match s with
  | CallerSigns => None
  | BankVaultSigns i nonce =>
      create_program_address (seeds (BankVaultAuthorityAddress i) ++ [nonce])
  | InsuranceVaultSigns v nonce =>
      create_program_address (seeds (InsuranceVaultAuthorityAddress v) ++ [nonce])
  end.

(** The token program's [transfer]: the ledger, [from], [to], [authority] and the
    amount. *)
Class TokenProgram :=
  token_transfer : Signer → Ledger → Pubkey → Pubkey → Pubkey → Z → option Ledger.

(** A transfer is signed by the owner of [from] or a delegate, and moves an amount that
    [from] has between two existing accounts of a mint; the allowance of a delegate may
    come to an end.  To itself it changes nothing. *)
Class TokenLaws `{ProgramAddresses} `{TokenProgram} : Prop := {
  token_transfer_spec s l from to authority amount l' :
    token_transfer s l from to authority amount = Some l' →
    (has_private_key authority ∨ signs s = Some authority)
    ∧ ∃ a b d, l !! from = Some a ∧ l !! to = Some b
      ∧ a.(TokenAccount.mint) = b.(TokenAccount.mint)
      ∧ (authority = a.(TokenAccount.owner) ∨ a.(TokenAccount.delegate) = Some authority)
      ∧ 0 ≤ amount ≤ a.(TokenAccount.amount)
      ∧ (a.(TokenAccount.delegate) = None → d = None)
      ∧ l' = if from =? to then l
             else <[to := b <| TokenAccount.amount := b.(TokenAccount.amount) + amount |>]>
                  (<[from := a <| TokenAccount.amount := a.(TokenAccount.amount) - amount |>
                               <| TokenAccount.delegate := d |>]> l);
}.

(** The instance of the concrete examples; a delegate may take anything. *)
#[export] Instance example_tokens : TokenProgram := λ s l from to authority amount,
  match l !! from, l !! to with
  | Some a, Some b =>
      if (a.(TokenAccount.mint) =? b.(TokenAccount.mint))
         && ((0 <=? authority) || bool_decide (signs s = Some authority))
         && ((authority =? a.(TokenAccount.owner))
             || bool_decide (a.(TokenAccount.delegate) = Some authority))
         && (0 <=? amount) && (amount <=? a.(TokenAccount.amount))
      then
        Some (if from =? to then l
              else <[to := b <| TokenAccount.amount := b.(TokenAccount.amount) + amount |>]>
                   (<[from := a <| TokenAccount.amount := a.(TokenAccount.amount) - amount |>
                     ]> l))
      else None
  | _, _ => None
  end.

#[export] Instance example_tokens_laws : TokenLaws.
Proof.
  split. intros s l from to authority amount l' Hok. unfold token_transfer, example_tokens in Hok.
  destruct (l !! from) as [a|]; [|done]. destruct (l !! to) as [b|]; [|done].
  destruct (_ && _) eqn:Hc; [|done]. rewrite !andb_true_iff, !orb_true_iff, !Z.eqb_eq,
    !Z.leb_le, !bool_decide_eq_true in Hc. destruct Hc as ((((Hm & Hs) & Ha) & H0) & Hle).
  split; [done|]. exists a, b, a.(TokenAccount.delegate).
  injection Hok as <-. by split_and!.
Qed.

Section Transfers.
Context `{TokenProgram}.

Definition send_from_insurance_vault (ledger : Ledger) (from to authority : Pubkey)
    (nonce amount : Z) : result Ledger :=
  unwrap (token_transfer (InsuranceVaultSigns from nonce) ledger from to authority amount).

Definition send_from_bank_vault (ledger : Ledger) (from to authority : Pubkey)
    (bank_index nonce amount : Z) : result Ledger :=
  unwrap (token_transfer (BankVaultSigns bank_index nonce) ledger from to authority amount).

Definition receive (ledger : Ledger) (from to authority : Pubkey) (amount : Z)
    : result Ledger :=
  unwrap (token_transfer CallerSigns ledger from to authority amount).
End Transfers.
