(* ===== verification/BankHandlers.v ===== *)
(** * Deposits, withdrawals and settlement (lib.rs, state/user.rs)

    The instructions that move bank balances: [deposit], [withdraw],
    [transfer_deposit], [update_bank_cumulative_interest], [settle_pnl], and those
    that create a bank and a user.  The maps of banks and markets are the ones the
    instruction has loaded; the keys of its other accounts are arguments.  EventBanks
    adds the records that the code emits. *)

From stdpp Require Import base numbers list gmap.
From S2P Require Import Prelude Constants Bn State Value AmmMath BankBalance Twap Oracle.
From S2P Require Import Maps Position Funding Fees Margin OrderValidation Orders Addresses Tokens.
Local Open Scope Z_scope.

(** ** Definitions *)

(** *** The bank balances of a user

    A [&mut UserBankBalance] is the index of its slot. *)

Definition get_bank_balance_mut (user : User) (bank_index : Z) : option nat :=
  if bank_index =? 0 then Some 0%nat
  else iter_position (λ b, b.(UserBankBalance.bank_index) =? bank_index)
         user.(User.bank_balances).

Definition get_quote_asset_bank_balance_mut (user : User) : result nat :=
  unwrap (get_bank_balance_mut user QUOTE_ASSET_BANK_INDEX).

(** The first slot but slot 0 whose bank index is 0. *)
Definition get_next_available_bank_balance (user : User) : option nat :=
  S <$> iter_position (λ b, b.(UserBankBalance.bank_index) =? 0)
          (tail user.(User.bank_balances)).

Definition set_bank_balance (user : User) (k : nat) (b : UserBankBalance) : User :=
  user <| User.bank_balances := <[k := b]> user.(User.bank_balances) |>.

Definition add_bank_balance (user : User) (bank_index : Z) (balance_type : BankBalanceType)
    : result (User * nat) :=
  let? k := ok_or (get_next_available_bank_balance user) NoUserBankBalanceAvailable in
  Ok (set_bank_balance user k (UserBankBalance.mk bank_index balance_type 0), k).

(** [match user.get_bank_balance_mut(bank.bank_index) { .. }] *)
Definition get_or_add_bank_balance (user : User) (bank : Bank) (bank_index : Z)
    : result (User * nat) :=
  match get_bank_balance_mut user bank.(Bank.bank_index) with
  | Some k => Ok (user, k)
  | None => add_bank_balance user bank_index Deposit
  end.

Definition get_user_bank_balance (user : User) (k : nat) : result UserBankBalance :=
  unwrap (user.(User.bank_balances) !! k).

(** [update_bank_balances] on a slot of a user. *)
Definition update_user_bank_balance (token_amount : Z) (direction : BankBalanceType)
    (bank : Bank) (user : User) (k : nat) : result (Bank * User) :=
  let? b := get_user_bank_balance user k in
  let? ' (bank, b) := update_bank_balances token_amount direction bank b in
  Ok (bank, set_bank_balance user k b).

(** The amount of a reduce-only deposit or withdrawal: at most the token amount of a
    balance of the type that it reduces. *)
Definition reduce_only_amount (reduce_only : bool) (balance_type : BankBalanceType)
    (bank : Bank) (user : User) (k : nat) (amount : Z) : result Z :=
  let? b := get_user_bank_balance user k in
  if reduce_only && bool_decide (b.(UserBankBalance.balance_type) = balance_type) then
    let? token_amount :=
      get_token_amount b.(UserBankBalance.balance) bank b.(UserBankBalance.balance_type) in
    Ok (Z.min (wrap U64 token_amount) amount)
  else Ok amount.

(** *** Instructions *)

Section Handlers.
Context `{BnLib} `{OracleAccounts} `{TokenProgram}.

Definition exchange_not_paused (state : State) : result () :=
  validate (negb state.(State.exchange_paused)) ExchangePaused.

Definition deposit (users : UserMap) (bank_map : BankMap) (market_map : MarketMap)
    (ledger : Ledger) (user_key user_token_account bank_vault authority : Pubkey)
    (clock : Clock) (bank_index amount : Z) (reduce_only : bool)
    : result (UserMap * BankMap * Ledger) :=
  let? ' (user, users) := load_mut users user_key in
  if amount =? 0 then Err InsufficientDeposit
  else
    let? ' (bank, banks) := bank_get_ref_mut bank_map bank_index in
    let? bank := update_bank_cumulative_interest bank clock.(Clock.unix_timestamp) in
    let? ' (user, k) := get_or_add_bank_balance user bank bank_index in
    let? amount := reduce_only_amount reduce_only Borrow bank user k amount in
    let? ' (bank, user) := update_user_bank_balance amount Deposit bank user k in
    let? user := settle_funding_payment user market_map in
    let? ledger := receive ledger user_token_account bank_vault authority amount in
    Ok (drop_mut users user_key user, drop_mut banks bank_index bank, ledger).

Definition withdraw (state : State) (users : UserMap) (bank_map : BankMap)
    (market_map : MarketMap) (oracle_map : OracleMap) (ledger : Ledger)
    (user_key user_token_account bank_vault bank_vault_authority : Pubkey)
    (clock : Clock) (bank_index amount : Z) (reduce_only : bool)
    : result (UserMap * BankMap * OracleMap * Ledger) :=
  let? ' () := exchange_not_paused state in
  let? ' (user, users) := load_mut users user_key in
  let? user := settle_funding_payment user market_map in
  let? ' (bank, banks) := bank_get_ref_mut bank_map bank_index in
  let? bank := update_bank_cumulative_interest bank clock.(Clock.unix_timestamp) in
  let? ' (user, k) := get_or_add_bank_balance user bank bank_index in
  let? amount := reduce_only_amount reduce_only Deposit bank user k amount in
  let? ' (bank, user) := update_user_bank_balance amount Borrow bank user k in
  let bank_map := drop_mut banks bank_index bank in
  let? ' (oracle_map, meets_requirement) :=
    meets_initial_margin_requirement user market_map bank_map oracle_map in
  if negb meets_requirement then Err InsufficientCollateral
  else
    let? bank := bank_get_ref bank_map bank_index in
    let? ledger := send_from_bank_vault ledger bank_vault user_token_account
      bank_vault_authority bank_index bank.(Bank.vault_authority_nonce) amount in
    Ok (drop_mut users user_key user, bank_map, oracle_map, ledger).

(** The bank is mutably borrowed from the first lines to the end, while the margin
    of the sender is computed. *)
Definition transfer_deposit (users : UserMap) (bank_map : BankMap)
    (market_map : MarketMap) (oracle_map : OracleMap) (from_user_key to_user_key : Pubkey)
    (clock : Clock) (bank_index amount : Z) : result (UserMap * BankMap * OracleMap) :=
  let? ' (to_user, users) := load_mut users to_user_key in
  let? ' (from_user, users) := load_mut users from_user_key in
  let? ' (bank, banks) := bank_get_ref_mut bank_map bank_index in
  let? bank := update_bank_cumulative_interest bank clock.(Clock.unix_timestamp) in
  let? ' (from_user, k) := get_or_add_bank_balance from_user bank bank_index in
  let? ' (bank, from_user) := update_user_bank_balance amount Borrow bank from_user k in
  let? ' (oracle_map, meets_requirement) :=
    meets_initial_margin_requirement from_user market_map banks oracle_map in
  let? ' () := validate meets_requirement InsufficientCollateral in
  let? ' (to_user, k) := get_or_add_bank_balance to_user bank bank_index in
  let? ' (bank, to_user) := update_user_bank_balance amount Deposit bank to_user k in
  Ok (drop_mut (drop_mut users from_user_key from_user) to_user_key to_user,
      drop_mut banks bank_index bank, oracle_map).

Definition update_bank_cumulative_interest_ix (bank : Bank) (clock : Clock) : result Bank :=
  update_bank_cumulative_interest bank clock.(Clock.unix_timestamp).

(** The branch of [settle_pnl] for a profit, which the market's pool pays as far as it
    can. *)
Definition settle_profit (bank : Bank) (market : Market) (user : User)
    (authority : Pubkey) (position_index : nat) (user_unsettled_pnl : Z)
    : result (Bank * Market * User) :=
  let? ' () := validate (user.(User.authority) =? authority)
                 UserMustSettleTheirOwnPositiveUnsettledPNL in
  let? pnl_pool_token_amount :=
    get_token_amount (balance market.(Market.pnl_pool)) bank
      (balance_type market.(Market.pnl_pool)) in
  if pnl_pool_token_amount =? 0 then Ok (bank, market, user)
  else
    let? pnl := cast_to_u128 user_unsettled_pnl in
    let pnl_to_settle := Z.min pnl pnl_pool_token_amount in
    let? k := get_quote_asset_bank_balance_mut user in
    let? ' (bank, user) := update_user_bank_balance pnl_to_settle Deposit bank user k in
    let? ' (bank, pool) :=
      update_bank_balances pnl_to_settle Borrow bank market.(Market.pnl_pool) in
    let? x := cast_to_i128 pnl_to_settle in
    let? p := get_position user position_index in
    let? u := csub I128 p.(MarketPosition.unsettled_pnl) x in
    Ok (bank, market <| Market.pnl_pool := pool |>,
        set_position user position_index (p <| MarketPosition.unsettled_pnl := u |>)).

(** The branch for a loss, which the user pays into the pool, by borrowing if need
    be. *)
Definition settle_loss (bank : Bank) (market : Market) (user : User)
    (position_index : nat) (user_unsettled_pnl : Z) : result (Bank * Market * User) :=
  let pnl_to_settle := unsigned_abs user_unsettled_pnl in
  let? ' (bank, pool) :=
    update_bank_balances pnl_to_settle Deposit bank market.(Market.pnl_pool) in
  let? k := get_quote_asset_bank_balance_mut user in
  let? ' (bank, user) := update_user_bank_balance pnl_to_settle Borrow bank user k in
  let? p := get_position user position_index in
  Ok (bank, market <| Market.pnl_pool := pool |>,
      set_position user position_index (p <| MarketPosition.unsettled_pnl := 0 |>)).

Definition settle_pnl (state : State) (users : UserMap) (bank_map : BankMap)
    (market_map : MarketMap) (user_key authority : Pubkey) (market_index : Z)
    : result (UserMap * BankMap * MarketMap) :=
  let? ' () := exchange_not_paused state in
  let? ' (market, markets) := market_get_ref_mut market_map market_index in
  let? ' (user, users) := load_mut users user_key in
  let? position_index := get_position_index user.(User.positions) market_index in
  let? ' (bank, banks) := get_quote_asset_bank_mut bank_map in
  let? p := get_position user position_index in
  let user_unsettled_pnl := p.(MarketPosition.unsettled_pnl) in
  let? ' (bank, market, user) :=
    if user_unsettled_pnl =? 0 then Ok (bank, market, user)
    else if 0 <? user_unsettled_pnl
    then settle_profit bank market user authority position_index user_unsettled_pnl
    else settle_loss bank market user position_index user_unsettled_pnl in
  Ok (drop_mut users user_key user, drop_mut banks QUOTE_ASSET_BANK_INDEX bank,
      drop_mut markets market_index market).
End Handlers.

(** *** The creation of users and banks *)

(** A new account is zeroed memory: unlike in [Order_default], the order type is the
    enum's first. *)
Definition User_zeroed : User := {|
  User.authority := Pubkey_default;
  User.user_id := 0;
  User.name := replicate 32 0;
  User.bank_balances := replicate 8 (UserBankBalance.mk 0 Deposit 0);
  User.total_fee_paid := 0;
  User.total_fee_rebate := 0;
  User.total_token_discount := 0;
  User.total_referral_reward := 0;
  User.total_referee_discount := 0;
  User.next_order_id := 0;
  User.positions := replicate 5 MarketPosition_default;
  User.orders := replicate 32 (Order_default <| Order.order_type := OrderType.Market |>);
|}.

(** The framework creates the account, so its key is a new one. *)
Definition initialize_user (users : UserMap) (user_key authority : Pubkey)
    (user_id : Z) (name : list Z) : result UserMap :=
  let user := User_zeroed <| User.authority := authority |> <| User.user_id := user_id |>
                          <| User.name := name |> <| User.next_order_id := 1 |> in
  if bool_decide (users !! user_key = None) then Ok (<[user_key := Loaded user]> users)
  else Panic.

(** The arguments of [initialize_bank] and what it reads of its accounts. *)
Module BankParams.
Record BankParams `{OracleAccounts} := mk {
  bank_pubkey : Pubkey;
  bank_mint : Pubkey;
  mint_decimals : Z;
  bank_vault : Pubkey;
  bank_vault_owner : Pubkey;
  oracle : AccountInfo;
  optimal_utilization : Z;
  optimal_borrow_rate : Z;
  max_borrow_rate : Z;
  oracle_source : OracleSource;
  initial_asset_weight : Z;
  maintenance_asset_weight : Z;
  initial_liability_weight : Z;
  maintenance_liability_weight : Z;
}.
(** Every field holds a value of its Rust type. *)
Record typed `{OracleAccounts} (r : BankParams) : Prop := {
  mint_decimals_ty : has_type U8 r.(mint_decimals);
  optimal_utilization_ty : has_type U128 r.(optimal_utilization);
  optimal_borrow_rate_ty : has_type U128 r.(optimal_borrow_rate);
  max_borrow_rate_ty : has_type U128 r.(max_borrow_rate);
  initial_asset_weight_ty : has_type U128 r.(initial_asset_weight);
  maintenance_asset_weight_ty : has_type U128 r.(maintenance_asset_weight);
  initial_liability_weight_ty : has_type U128 r.(initial_liability_weight);
  maintenance_liability_weight_ty : has_type U128 r.(maintenance_liability_weight);
}.
End BankParams.
Abbreviation BankParams := BankParams.BankParams.

Section Initialize.
Context `{OracleAccounts} `{ProgramAddresses}.

(** The checks of the quote asset bank, whose index is 0. *)
Definition validate_quote_bank (p : BankParams) : result () :=
  let check c := validate c InvalidBankInitialization in
  let? ' () := check (p.(BankParams.initial_asset_weight) =? BANK_WEIGHT_PRECISION) in
  let? ' () := check (p.(BankParams.maintenance_asset_weight) =? BANK_WEIGHT_PRECISION) in
  let? ' () := check (p.(BankParams.initial_liability_weight) =? BANK_WEIGHT_PRECISION) in
  let? ' () :=
    check (p.(BankParams.maintenance_liability_weight) =? BANK_WEIGHT_PRECISION) in
  let? ' () := check (account_key p.(BankParams.oracle) =? Pubkey_default) in
  let? ' () := check (bool_decide (p.(BankParams.oracle_source) = QuoteAsset)) in
  check (p.(BankParams.mint_decimals) =? 6).

(** The checks of every other bank; its oracle is read with the time for a slot. *)
Definition validate_bank (p : BankParams) (unix_timestamp : Z) : result () :=
  let check c := validate c InvalidBankInitialization in
  let between w := (0 <? w) && (w <? BANK_WEIGHT_PRECISION) in
  let? ' () := check (between p.(BankParams.initial_asset_weight)) in
  let? ' () := check (between p.(BankParams.maintenance_asset_weight)) in
  let? ' () := check (BANK_WEIGHT_PRECISION <? p.(BankParams.initial_liability_weight)) in
  let? ' () :=
    check (BANK_WEIGHT_PRECISION <? p.(BankParams.maintenance_liability_weight)) in
  let? ' () := check (6 <=? p.(BankParams.mint_decimals)) in
  let? slot := cast U64 unix_timestamp in
  match get_oracle_price p.(BankParams.oracle_source) p.(BankParams.oracle) slot with
  | Ok _ => Ok ()
  | Err _ => Err InvalidBankInitialization
  | Panic => Panic
  end.

Definition initialize_bank (state : State) (p : BankParams) (clock : Clock)
    : result (State * Bank) :=
  let bank_index := state.(State.number_of_banks) in
  let '(vault_authority, vault_authority_nonce) := find_bank_vault_authority bank_index in
  if negb (p.(BankParams.bank_vault_owner) =? vault_authority) then Err InvalidBankAuthority
  else
    let '(_, next_index) := get_then_update_id bank_index in
    let? ' () := if bank_index =? 0 then validate_quote_bank p
                 else validate_bank p clock.(Clock.unix_timestamp) in
    let? last_updated := or_err (cast U64 clock.(Clock.unix_timestamp)) UnableToCastUnixTime in
    Ok (state <| State.number_of_banks := next_index |>, {|
      Bank.bank_index := bank_index;
      Bank.pubkey := p.(BankParams.bank_pubkey);
      Bank.oracle := account_key p.(BankParams.oracle);
      Bank.oracle_source := p.(BankParams.oracle_source);
      Bank.mint := p.(BankParams.bank_mint);
      Bank.vault := p.(BankParams.bank_vault);
      Bank.vault_authority := vault_authority;
      Bank.vault_authority_nonce := vault_authority_nonce;
      Bank.decimals := p.(BankParams.mint_decimals);
      Bank.optimal_utilization := p.(BankParams.optimal_utilization);
      Bank.optimal_borrow_rate := p.(BankParams.optimal_borrow_rate);
      Bank.max_borrow_rate := p.(BankParams.max_borrow_rate);
      Bank.deposit_balance := 0;
      Bank.borrow_balance := 0;
      Bank.cumulative_deposit_interest := BANK_CUMULATIVE_INTEREST_PRECISION;
      Bank.cumulative_borrow_interest := BANK_CUMULATIVE_INTEREST_PRECISION;
      Bank.last_updated := last_updated;
      Bank.initial_asset_weight := p.(BankParams.initial_asset_weight);
      Bank.maintenance_asset_weight := p.(BankParams.maintenance_asset_weight);
      Bank.initial_liability_weight := p.(BankParams.initial_liability_weight);
      Bank.maintenance_liability_weight := p.(BankParams.maintenance_liability_weight);
    |}).
End Initialize.
