(* ===== verification/EventBanks.v ===== *)
(** * The records of deposits and withdrawals (lib.rs)

    [deposit], [withdraw] and [transfer_deposit] with the records that they emit. *)

From stdpp Require Import base numbers list gmap.
From S2P Require Import Prelude Constants Bn State Value AmmMath BankBalance Twap Oracle.
From S2P Require Import Maps Position Funding Fees Margin OrderValidation Orders Events.
From S2P Require Import EventFunding Addresses Tokens BankHandlers.
Local Open Scope Z_scope.

(** ** Definitions *)

Section Definitions.
Context `{BnLib} `{OracleAccounts} `{TokenProgram}.

Definition deposit_emits (users : UserMap) (bank_map : BankMap) (market_map : MarketMap)
    (ledger : Ledger) (user_key user_token_account bank_vault authority : Pubkey)
    (clock : Clock) (bank_index amount : Z) (reduce_only : bool)
    : emits (UserMap * BankMap * Ledger) :=
  let now := clock.(Clock.unix_timestamp) in
  let! ' (user, users) := load_mut users user_key in
  if amount =? 0 then quiet (Err InsufficientDeposit)
  else
    let! ' (bank, banks) := bank_get_ref_mut bank_map bank_index in
    let! bank := update_bank_cumulative_interest bank now in
    let! ' (user, k) := get_or_add_bank_balance user bank bank_index in
    let! amount := reduce_only_amount reduce_only Borrow bank user k amount in
    let! ' (bank, user) := update_user_bank_balance amount Deposit bank user k in
    let! user := settle_funding_payment_emits user user_key market_map now in
    let! ledger := receive ledger user_token_account bank_vault authority amount in
    let! ' () := emit (EDeposit {|
      DepositRecord.ts := now;
      DepositRecord.user_authority := user.(User.authority);
      DepositRecord.user := user_key;
      DepositRecord.direction := DepositDirection.DEPOSIT;
      DepositRecord.amount := amount;
      DepositRecord.bank_index := bank_index;
      DepositRecord.from := None;
      DepositRecord.to := None;
    |}) in
    quiet (Ok (drop_mut users user_key user, drop_mut banks bank_index bank, ledger)).

Definition withdraw_emits (state : State) (users : UserMap) (bank_map : BankMap)
    (market_map : MarketMap) (oracle_map : OracleMap) (ledger : Ledger)
    (user_key user_token_account bank_vault bank_vault_authority : Pubkey)
    (clock : Clock) (bank_index amount : Z) (reduce_only : bool)
    : emits (UserMap * BankMap * OracleMap * Ledger) :=
  let now := clock.(Clock.unix_timestamp) in
  let! ' () := exchange_not_paused state in
  let! ' (user, users) := load_mut users user_key in
  let! user := settle_funding_payment_emits user user_key market_map now in
  let! ' (bank, banks) := bank_get_ref_mut bank_map bank_index in
  let! bank := update_bank_cumulative_interest bank now in
  let! ' (user, k) := get_or_add_bank_balance user bank bank_index in
  let! amount := reduce_only_amount reduce_only Deposit bank user k amount in
  let! ' (bank, user) := update_user_bank_balance amount Borrow bank user k in
  let bank_map := drop_mut banks bank_index bank in
  let! ' (oracle_map, meets_requirement) :=
    meets_initial_margin_requirement user market_map bank_map oracle_map in
  if negb meets_requirement then quiet (Err InsufficientCollateral)
  else
    let! bank := bank_get_ref bank_map bank_index in
    let! ledger := send_from_bank_vault ledger bank_vault user_token_account
      bank_vault_authority bank_index bank.(Bank.vault_authority_nonce) amount in
    let! ' () := emit (EDeposit {|
      DepositRecord.ts := now;
      DepositRecord.user_authority := user.(User.authority);
      DepositRecord.user := user_key;
      DepositRecord.direction := DepositDirection.WITHDRAW;
      DepositRecord.amount := amount;
      DepositRecord.bank_index := bank_index;
      DepositRecord.from := None;
      DepositRecord.to := None;
    |}) in
    quiet (Ok (drop_mut users user_key user, bank_map, oracle_map, ledger)).

(** The authority of the records is the signer's key. *)
Definition transfer_deposit_emits (users : UserMap) (bank_map : BankMap)
    (market_map : MarketMap) (oracle_map : OracleMap)
    (authority_key from_user_key to_user_key : Pubkey)
    (clock : Clock) (bank_index amount : Z) : emits (UserMap * BankMap * OracleMap) :=
  let now := clock.(Clock.unix_timestamp) in
  let! ' (to_user, users) := load_mut users to_user_key in
  let! ' (from_user, users) := load_mut users from_user_key in
  let! ' (bank, banks) := bank_get_ref_mut bank_map bank_index in
  let! bank := update_bank_cumulative_interest bank now in
  let! ' (from_user, k) := get_or_add_bank_balance from_user bank bank_index in
  let! ' (bank, from_user) := update_user_bank_balance amount Borrow bank from_user k in
  let! ' (oracle_map, meets_requirement) :=
    meets_initial_margin_requirement from_user market_map banks oracle_map in
  let! ' () := validate meets_requirement InsufficientCollateral in
  let! ' () := emit (EDeposit {|
    DepositRecord.ts := now;
    DepositRecord.user_authority := authority_key;
    DepositRecord.user := from_user_key;
    DepositRecord.direction := DepositDirection.WITHDRAW;
    DepositRecord.amount := amount;
    DepositRecord.bank_index := bank_index;
    DepositRecord.from := None;
    DepositRecord.to := Some to_user_key;
  |}) in
  let! ' (to_user, k) := get_or_add_bank_balance to_user bank bank_index in
  let! ' (bank, to_user) := update_user_bank_balance amount Deposit bank to_user k in
  let! ' () := emit (EDeposit {|
    DepositRecord.ts := now;
    DepositRecord.user_authority := authority_key;
    DepositRecord.user := to_user_key;
    DepositRecord.direction := DepositDirection.DEPOSIT;
    DepositRecord.amount := amount;
    DepositRecord.bank_index := bank_index;
    DepositRecord.from := Some from_user_key;
    DepositRecord.to := None;
  |}) in
  quiet (Ok (drop_mut (drop_mut users from_user_key from_user) to_user_key to_user,
             drop_mut banks bank_index bank, oracle_map)).
End Definitions.

(** ** Without the log *)

Section Erasure.
Context `{BnLib} `{OracleAccounts} `{TokenProgram}.

Lemma deposit_erase users bm mm ledger key token vault auth clock i amount ro :
  erase (deposit_emits users bm mm ledger key token vault auth clock i amount ro)
  = deposit users bm mm ledger key token vault auth clock i amount ro.
Proof. unfold deposit_emits, deposit. cbv zeta. erase_steps. Qed.

Lemma withdraw_erase st users bm mm om ledger key token vault auth clock i amount ro :
  erase (withdraw_emits st users bm mm om ledger key token vault auth clock i amount ro)
  = withdraw st users bm mm om ledger key token vault auth clock i amount ro.
Proof. unfold withdraw_emits, withdraw. cbv zeta. erase_steps. Qed.

Lemma transfer_deposit_erase users bm mm om auth from to clock i amount :
  erase (transfer_deposit_emits users bm mm om auth from to clock i amount)
  = transfer_deposit users bm mm om from to clock i amount.
Proof. unfold transfer_deposit_emits, transfer_deposit. cbv zeta. erase_steps. Qed.
End Erasure.

#[export] Hint Resolve deposit_erase withdraw_erase transfer_deposit_erase : erase.
