(* ===== verification/BankLedger.v ===== *)
(** * The ledger of the banks

    Every bank keeps the totals of the deposits and of the borrows of all users, and
    the profit and loss pools of the markets are deposits of the quote asset bank.
    Here is what "the totals are the sums of the balances" means, and that the
    instructions of [BankHandlers] keep it so, the payment of a profit apart. *)

From stdpp Require Import base numbers list gmap.
From S2P Require Import Prelude Constants Bn State Value AmmMath BankBalance Twap Oracle.
From S2P Require Import Maps Position Funding Fees Margin OrderValidation Orders Addresses Tokens.
From S2P Require Import BankHandlers.
Local Open Scope Z_scope.

(** ** Definitions *)

(** What a slot, a user and a market have in the bank [i]. *)
Definition slot_part (i : Z) (t : BankBalanceType) (b : UserBankBalance) : Z :=
  if b.(UserBankBalance.bank_index) =? i then balance_part t b else 0.
Definition user_part (i : Z) (t : BankBalanceType) (u : User) : Z :=
  sum_of (slot_part i t) u.(User.bank_balances).
Definition pool_part (i : Z) (t : BankBalanceType) (m : Market) : Z :=
  if i =? QUOTE_ASSET_BANK_INDEX then balance_part t m.(Market.pnl_pool) else 0.

(** What the accounts have in the bank [i]. *)
Definition accounted (users : UserMap) (markets : MarketMap) (i : Z)
    (t : BankBalanceType) : Z :=
  cell_sum (user_part i t) users + cell_sum (pool_part i t) markets.

(** Slot 0 is the quote asset's, and a free slot is empty. *)
Record balances_wf (u : User) : Prop := {
  wf_quote_slot : ∃ b, u.(User.bank_balances) !! 0%nat = Some b
                       ∧ b.(UserBankBalance.bank_index) = QUOTE_ASSET_BANK_INDEX;
  wf_balances : ∀ k b, u.(User.bank_balances) !! k = Some b →
    0 ≤ b.(UserBankBalance.balance);
  wf_free_slots : ∀ k b, u.(User.bank_balances) !! S k = Some b →
    b.(UserBankBalance.bank_index) = QUOTE_ASSET_BANK_INDEX →
    b.(UserBankBalance.balance) = 0;
}.

(** What the accounts have in the deposits of the quote asset bank beyond what the bank
    knows of. *)
Definition beyond (excess i : Z) (t : BankBalanceType) : Z :=
  if (i =? QUOTE_ASSET_BANK_INDEX) && bool_decide (t = Deposit) then excess else 0.

(** The totals of every bank are the sums of the balances, up to an [excess] in the
    deposits of the quote asset bank; a bank that does not exist has none. *)
Record ledger_ok (excess : Z) (users : UserMap) (banks : BankMap) (markets : MarketMap)
    : Prop := {
  ledger_users : ∀ k u, users !! k = Some (Loaded u) → balances_wf u;
  ledger_banks : ∀ i bank, banks !! i = Some (Loaded bank) →
    bank.(Bank.bank_index) = i ∧ bank_wf bank;
  ledger_pools : ∀ i m, markets !! i = Some (Loaded m) →
    0 ≤ m.(Market.pnl_pool).(PNLPool.balance);
  ledger_totals : ∀ i bank t, banks !! i = Some (Loaded bank) →
    accounted users markets i t = bank_total bank t + beyond excess i t;
  ledger_no_bank : ∀ i t, banks !! i = None → accounted users markets i t = beyond excess i t;
}.
Arguments ledger_users {excess} _ _ _ _.
Arguments ledger_banks {excess} _ _ _ _.
Arguments ledger_pools {excess} _ _ _ _.
Arguments ledger_totals {excess} _ _ _ _.
Arguments ledger_no_bank {excess} _ _ _ _.

(** The slot [k] of a user is the one of bank [i]. *)
Definition slot_of (u : User) (i : Z) (k : nat) : Prop :=
  ∃ b, u.(User.bank_balances) !! k = Some b ∧ b.(UserBankBalance.bank_index) = i
       ∧ (i = QUOTE_ASSET_BANK_INDEX → k = 0%nat).

(** An update moves a bank's totals with the balances of a user. *)
Record user_moves (i : Z) (bank bank' : Bank) (u u' : User) : Prop := {
  moves_index : bank'.(Bank.bank_index) = bank.(Bank.bank_index);
  moves_bank_wf : bank_wf bank → bank_wf bank';
  moves_wf : balances_wf u → balances_wf u';
  moves_part : ∀ t, bank_total bank' t - user_part i t u'
                    = bank_total bank t - user_part i t u;
  moves_other : ∀ j t, j ≠ i → user_part j t u' = user_part j t u;
}.

(** ** Lemmas *)

Lemma user_moves_trans i b1 b2 b3 u1 u2 u3 :
  user_moves i b1 b2 u1 u2 → user_moves i b2 b3 u2 u3 → user_moves i b1 b3 u1 u3.
Proof.
  intros [] []. split; [congruence|auto|auto|..].
  - intros t. transitivity (bank_total b2 t - user_part i t u2); auto.
  - intros j t Hj. transitivity (user_part j t u2); auto.
Qed.

(** A change of anything but the balances. *)
Lemma user_moves_same i bank u u' :
  u'.(User.bank_balances) = u.(User.bank_balances) → user_moves i bank bank u u'.
Proof.
  intros Hb. assert (∀ j t, user_part j t u' = user_part j t u) as Hp
    by (intros; unfold user_part; by rewrite Hb).
  split; [done|done| |intros; by rewrite Hp|auto].
  intros [H1 H2 H3]. by split; rewrite Hb.
Qed.

Lemma user_part_set i t u k b b' :
  u.(User.bank_balances) !! k = Some b →
  user_part i t (set_bank_balance u k b') = user_part i t u - slot_part i t b + slot_part i t b'.
Proof. intros Hk. unfold user_part. cbn. by apply sum_of_insert. Qed.

(** *** One balance *)

Lemma same_but_totals_wf bank bank' :
  same_but_totals bank bank' → bank_wf bank → bank_wf bank'.
Proof. intros -> []. by split. Qed.

Lemma same_but_totals_index bank bank' :
  same_but_totals bank bank' → bank'.(Bank.bank_index) = bank.(Bank.bank_index).
Proof. by intros ->. Qed.

(** An update of a user's balance keeps the bank it belongs to, and its sign. *)
Lemma update_user_balance_kept x d bank bank' (b b' : UserBankBalance) :
  update_bank_balances x d bank b = Ok (bank', b') → 0 ≤ b.(UserBankBalance.balance) →
  b'.(UserBankBalance.bank_index) = b.(UserBankBalance.bank_index)
  ∧ 0 ≤ b'.(UserBankBalance.balance).
Proof.
  assert (∀ t x bank bank' (b b' : UserBankBalance),
    increase_both x t bank b = Ok (bank', b') →
    b'.(UserBankBalance.bank_index) = b.(UserBankBalance.bank_index)
    ∧ 0 ≤ b'.(UserBankBalance.balance)) as Hinc.
  { intros t y k k' c c' Hok. unfold increase_both in Hok. inv_ok. simpl in Hx0. inv_ok.
    split; [done|]. simpl. by eapply (has_type_nonneg U128). }
  intros Hok Hb. unfold update_bank_balances in Hok.
  apply bind_ok in Hok as ([bank1 b1] & Hstep & Hend).
  assert (bank1 = bank' ∧ b1 = b') as [-> ->] by (clear Hstep; destruct d; inv_ok; done).
  clear Hend. case_bool_decide as Hd; [by eapply Hinc|].
  apply bind_ok in Hstep as ([[x1 bank2] b2] & Hred & Hrest).
  assert (b2.(UserBankBalance.bank_index) = b.(UserBankBalance.bank_index)
          ∧ 0 ≤ b2.(UserBankBalance.balance)) as [H1 H2].
  { unfold reduce_existing in Hred. inv_ok; simpl in *; inv_ok; simpl;
      try (split; [done|by eapply (has_type_nonneg U128)]); done. }
  inv_ok; [|done]. simpl in Hx. inv_ok. apply Hinc in Hrest as [H3 ?]. simpl in H3.
  split; [congruence|done].
Qed.

Lemma balances_wf_set u k b b' :
  balances_wf u → u.(User.bank_balances) !! k = Some b → 0 ≤ b'.(UserBankBalance.balance) →
  (k = 0%nat → b'.(UserBankBalance.bank_index) = QUOTE_ASSET_BANK_INDEX) →
  (k ≠ 0%nat → b'.(UserBankBalance.bank_index) = QUOTE_ASSET_BANK_INDEX →
   b'.(UserBankBalance.balance) = 0) →
  balances_wf (set_bank_balance u k b').
Proof.
  intros [[b0 [Hb0 Hi0]] Hpos Hfree] Hk Hb' H0 Hn.
  pose proof (lookup_lt_Some _ _ _ Hk) as Hlt.
  split; cbn.
  - destruct (decide (k = 0%nat)) as [->|Hk0].
    + exists b'. rewrite list_lookup_insert_eq by done. auto.
    + exists b0. rewrite list_lookup_insert_ne by done. auto.
  - intros j c Hj. apply list_lookup_insert_Some in Hj as [(_ & <- & _)|[_ Hj]]; eauto.
  - intros j c Hj. apply list_lookup_insert_Some in Hj as [(-> & <- & _)|[_ Hj]]; eauto.
Qed.

Lemma update_user_bank_balance_moves x d i bank bank' u u' k :
  bank_wf bank → balances_wf u → slot_of u i k →
  update_user_bank_balance x d bank u k = Ok (bank', u') →
  user_moves i bank bank' u u' ∧ slot_of u' i k.
Proof.
  intros Hbank Hu (b & Hk & Hi & H0) Hok. unfold update_user_bank_balance in Hok.
  apply bind_ok in Hok as (b1 & Hb1 & Hok). apply unwrap_ok in Hb1.
  rewrite Hk in Hb1; injection Hb1 as <-.
  apply bind_ok in Hok as ([bank1 b'] & Hup & Hok). apply Ok_inj in Hok; injection Hok as <- <-.
  pose proof (wf_balances _ Hu _ _ Hk) as Hpos.
  pose proof (update_user_balance_kept _ _ _ _ _ _ Hup Hpos) as [Hi' Hpos'].
  apply update_bank_balances_conserves in Hup as [Hsame Hcons]; [|done|exact Hpos].
  assert (∀ j t, slot_part j t b' = if j =? i then balance_part t b' else 0) as Hp'
    by (intros; unfold slot_part; by rewrite Hi', Hi, Z.eqb_sym).
  assert (∀ j t, slot_part j t b = if j =? i then balance_part t b else 0) as Hp
    by (intros; unfold slot_part; by rewrite Hi, Z.eqb_sym).
  split; [split|].
  - by apply same_but_totals_index.
  - by apply same_but_totals_wf.
  - intros _. apply (balances_wf_set _ _ b); [done|done|done|..].
    + intros ->. destruct (wf_quote_slot _ Hu) as (c & Hc & Hci). congruence.
    + intros Hk0 Hq. exfalso. apply Hk0, H0. congruence.
  - intros t. rewrite (user_part_set _ _ _ _ b) by done. rewrite Hp, Hp', Z.eqb_refl.
    pose proof (Hcons t). lia.
  - intros j t Hj. rewrite (user_part_set _ _ _ _ b) by done.
    rewrite Hp, Hp', (proj2 (Z.eqb_neq j i) Hj). lia.
  - exists b'. split; [|split; [congruence|done]]. cbn.
    apply list_lookup_insert_eq. by eapply lookup_lt_Some.
Qed.

Lemma get_or_add_bank_balance_moves u bank i u' k :
  bank.(Bank.bank_index) = i → balances_wf u →
  get_or_add_bank_balance u bank i = Ok (u', k) →
  user_moves i bank bank u u' ∧ balances_wf u' ∧ slot_of u' i k
  ∧ u'.(User.positions) = u.(User.positions).
Proof.
  intros Hi Hu Hok. unfold get_or_add_bank_balance, get_bank_balance_mut in Hok.
  rewrite Hi in Hok. destruct (Z.eqb_spec i 0) as [->|Hne].
  { apply Ok_inj in Hok; injection Hok as <- <-.
    split; [by apply user_moves_same|]. split; [done|]. split; [|done].
    destruct (wf_quote_slot _ Hu) as (b & Hb & Hbi). by exists b. }
  destruct (iter_position _ _) as [n|] eqn:Hfind.
  - apply Ok_inj in Hok; injection Hok as <- <-.
    split; [by apply user_moves_same|]. split; [done|]. split; [|done].
    apply iter_position_some in Hfind as (b & Hb & Heq & _). apply Z.eqb_eq in Heq.
    exists b. split; [done|]. split; [done|]. intros ->. done.
  - unfold add_bank_balance, get_next_available_bank_balance in Hok.
    apply bind_ok in Hok as (m & Hm & Hok). apply ok_or_ok in Hm.
    apply Ok_inj in Hok; injection Hok as <- <-.
    apply fmap_Some in Hm as (n & Hn & ->).
    apply iter_position_some in Hn as (b & Hb & Heq & _). apply Z.eqb_eq in Heq.
    rewrite lookup_tail in Hb. pose proof (wf_free_slots _ Hu _ _ Hb Heq) as Hz.
    assert (∀ j t, user_part j t (set_bank_balance u (S n) (UserBankBalance.mk i Deposit 0))
                   = user_part j t u) as Hparts.
    { intros j t. rewrite (user_part_set _ _ _ _ b) by done. unfold slot_part, balance_part.
      simpl. rewrite Hz. repeat case_match; lia. }
    assert (balances_wf (set_bank_balance u (S n) (UserBankBalance.mk i Deposit 0))).
    { apply (balances_wf_set _ _ b); done. }
    split; [split; try done; intros; by rewrite Hparts|]. split; [done|]. split; [|done].
    eexists. split; [cbn; apply list_lookup_insert_eq; by eapply lookup_lt_Some|done].
Qed.

(** Accruing interest moves no balance. *)
Lemma interest_moves i bank bank' now u :
  update_bank_cumulative_interest bank now = Ok bank' → user_moves i bank bank' u u.
Proof.
  intros Hok. unfold update_bank_cumulative_interest in Hok.
  apply bind_ok in Hok as (r & _ & Hok).
  destruct (_ && _) eqn:Hpos; [|inv_ok; by apply user_moves_same].
  bool_prop. inv_ok. split; try done. intros []. split; cbn; lia.
Qed.

(** The settlement of funding does not touch the balances. *)
Lemma settle_funding_balances `{BnLib} u mm u' :
  settle_funding_payment u mm = Ok u' → u'.(User.bank_balances) = u.(User.bank_balances).
Proof. unfold settle_funding_payment. intros Hok. by inv_ok. Qed.

(** *** The whole ledger *)

Lemma accounted_user users markets k c c' i t :
  users !! k = Some c →
  accounted (<[k:=c']> users) markets i t
  = accounted users markets i t - cell_value (user_part i t) c + cell_value (user_part i t) c'.
Proof. intros Hk. unfold accounted. rewrite (cell_sum_insert _ _ _ _ _ Hk). lia. Qed.

Lemma accounted_market users markets k c c' i t :
  markets !! k = Some c →
  accounted users (<[k:=c']> markets) i t
  = accounted users markets i t - cell_value (pool_part i t) c + cell_value (pool_part i t) c'.
Proof. intros Hk. unfold accounted. rewrite (cell_sum_insert _ _ _ _ _ Hk). lia. Qed.

Lemma balances_wf_same u u' :
  u'.(User.bank_balances) = u.(User.bank_balances) → balances_wf u → balances_wf u'.
Proof. intros Hb [H1 H2 H3]. by split; rewrite Hb. Qed.

(** The ledger reads the balances and the pools alone. *)
Lemma accounted_view users users' markets markets' i t :
  view User.bank_balances users' = view User.bank_balances users →
  view Market.pnl_pool markets' = view Market.pnl_pool markets →
  accounted users' markets' i t = accounted users markets i t.
Proof.
  intros Hu Hm. unfold accounted. f_equal.
  - transitivity (cell_sum (sum_of (slot_part i t)) (view User.bank_balances users'));
      [|rewrite Hu; symmetry]; apply (cell_sum_view _ User.bank_balances).
  - set (g := λ pool, if i =? QUOTE_ASSET_BANK_INDEX then balance_part t pool else 0).
    transitivity (cell_sum g (view Market.pnl_pool markets'));
      [|rewrite Hm; symmetry]; apply (cell_sum_view g Market.pnl_pool).
Qed.

Lemma ledger_view {d} users users' banks markets markets' :
  view User.bank_balances users' = view User.bank_balances users →
  view Market.pnl_pool markets' = view Market.pnl_pool markets →
  ledger_ok d users banks markets → ledger_ok d users' banks markets'.
Proof.
  intros Hu Hm [Hus Hbs Hps Htot Hno].
  split; try setoid_rewrite (accounted_view _ _ _ _ _ _ Hu Hm); try done.
  - intros k u' Hk. destruct (view_lookup _ _ _ _ _ Hu Hk) as (u & Hk' & Hb).
    apply (balances_wf_same u); eauto.
  - intros k m' Hk. destruct (view_lookup _ _ _ _ _ Hm Hk) as (m & Hk' & Hb).
    rewrite Hb. eauto.
Qed.

Lemma ledger_user_update {d} users banks markets k u u' i bank bank' :
  ledger_ok d users banks markets →
  users !! k = Some (Loaded u) → banks !! i = Some (Loaded bank) →
  user_moves i bank bank' u u' →
  ledger_ok d (<[k:=Loaded u']> users) (<[i:=Loaded bank']> banks) markets.
Proof.
  intros [Hus Hbs Hps Htot Hno] Hk Hi [Mi Mb Mu Mp Mo].
  split.
  - intros j v Hj. apply lookup_insert_Some in Hj as [[<- Hj]|[_ Hj]]; [|eauto].
    injection Hj as <-. eauto.
  - intros j b Hj. apply lookup_insert_Some in Hj as [[<- Hj]|[_ Hj]]; [|eauto].
    injection Hj as <-. destruct (Hbs _ _ Hi) as [??]. split; [congruence|auto].
  - done.
  - intros j b t Hj. rewrite (accounted_user _ _ _ _ _ _ _ Hk). cbn [cell_value].
    apply lookup_insert_Some in Hj as [[<- Hj]|[Hne Hj]].
    + injection Hj as <-. rewrite (Htot _ _ t Hi). pose proof (Mp t). lia.
    + rewrite (Htot _ _ t Hj). pose proof (Mo j t ltac:(congruence)). lia.
  - intros j t Hj. apply lookup_insert_None in Hj as [Hj Hne].
    rewrite (accounted_user _ _ _ _ _ _ _ Hk). cbn [cell_value].
    rewrite (Hno _ t Hj). pose proof (Mo j t ltac:(congruence)). lia.
Qed.

(** A deposit into the pool of a market. *)
Lemma pool_deposit_ok x bank bank' pool pool' :
  update_bank_balances x Deposit bank pool = Ok (bank', pool') →
  same_but_totals bank bank'
  ∧ bank_total bank' Borrow = bank_total bank Borrow
  ∧ bank_total bank' Deposit - pool'.(PNLPool.balance)
    = bank_total bank Deposit - pool.(PNLPool.balance)
  ∧ 0 ≤ pool'.(PNLPool.balance).
Proof.
  intros Hok. unfold update_bank_balances in Hok.
  cbn [balance_type PNLPool_BankBalance] in Hok.
  rewrite bool_decide_true in Hok by done. apply bind_ok in Hok as ([b p] & Hinc & Hok).
  apply Ok_inj in Hok; injection Hok as <- <-. unfold increase_both in Hinc.
  apply bind_ok in Hinc as (d & _ & Hinc). apply bind_ok in Hinc as (p1 & Hp & Hinc).
  apply bind_ok in Hinc as (b1 & Hb & Hinc). apply Ok_inj in Hinc; injection Hinc as <- <-.
  apply increase_bank_balance_ok in Hb as [Hsame Htot].
  cbn in Hp. apply bind_ok in Hp as (y & Hy & Hp). apply cadd_ok in Hy as [-> Hy].
  apply Ok_inj in Hp as <-. split; [done|].
  pose proof (Htot Borrow) as H1. pose proof (Htot Deposit) as H2.
  rewrite bool_decide_false in H1 by done. rewrite bool_decide_true in H2 by done.
  cbn -[bank_total]. split; [lia|]. split; [lia|]. by apply (has_type_nonneg U128).
Qed.

Lemma ledger_pool_deposit {d} users banks markets k m x bank bank' pool' :
  ledger_ok d users banks markets → markets !! k = Some (Loaded m) →
  banks !! QUOTE_ASSET_BANK_INDEX = Some (Loaded bank) →
  update_bank_balances x Deposit bank m.(Market.pnl_pool) = Ok (bank', pool') →
  ledger_ok d users (<[QUOTE_ASSET_BANK_INDEX:=Loaded bank']> banks)
    (<[k:=Loaded (m <| Market.pnl_pool := pool' |>)]> markets).
Proof.
  intros [Hus Hbs Hps Htot Hno] Hk Hq Hup.
  apply pool_deposit_ok in Hup as (Hsame & Hborrow & Hdep & Hpos).
  split; [done|..].
  - intros j b Hj. apply lookup_insert_Some in Hj as [[<- Hj]|[_ Hj]]; [|eauto].
    injection Hj as <-. destruct (Hbs _ _ Hq) as [<- ?].
    split; [by apply same_but_totals_index|by eapply same_but_totals_wf].
  - intros j v Hj. apply lookup_insert_Some in Hj as [[<- Hj]|[_ Hj]]; [|eauto].
    by injection Hj as <-.
  - intros j b t Hj. rewrite (accounted_market _ _ _ _ _ _ _ Hk). cbn [cell_value].
    apply lookup_insert_Some in Hj as [[<- Hj]|[Hne Hj]].
    + injection Hj as <-. rewrite (Htot _ _ t Hq). unfold pool_part.
      rewrite Z.eqb_refl. generalize (beyond d QUOTE_ASSET_BANK_INDEX t). intros e.
      unfold balance_part. destruct t; cbn; simpl in *; lia.
    + rewrite (Htot _ _ t Hj). unfold pool_part.
      rewrite (proj2 (Z.eqb_neq j QUOTE_ASSET_BANK_INDEX)) by congruence. lia.
  - intros j t Hj. apply lookup_insert_None in Hj as [Hj Hne].
    rewrite (accounted_market _ _ _ _ _ _ _ Hk). cbn [cell_value].
    rewrite (Hno _ t Hj). unfold pool_part.
    rewrite (proj2 (Z.eqb_neq j QUOTE_ASSET_BANK_INDEX)) by congruence. lia.
Qed.

(** ** Balanced moves

    The abstract ledger: an instruction is a sequence of moves of a balance of a user or
    of a pool together with the totals of the bank, and of changes of anything else. *)

Definition Accounts : Type := UserMap * BankMap * MarketMap.

Inductive balanced : Accounts → Accounts → Prop :=
| balanced_user users banks markets k u u' i bank bank' :
    users !! k = Some (Loaded u) → banks !! i = Some (Loaded bank) →
    (bank.(Bank.bank_index) = i → bank_wf bank → balances_wf u →
     user_moves i bank bank' u u') →
    balanced (users, banks, markets)
      (<[k:=Loaded u']> users, <[i:=Loaded bank']> banks, markets)
| balanced_pool users banks markets k m x bank bank' pool' :
    markets !! k = Some (Loaded m) → banks !! QUOTE_ASSET_BANK_INDEX = Some (Loaded bank) →
    update_bank_balances x Deposit bank m.(Market.pnl_pool) = Ok (bank', pool') →
    balanced (users, banks, markets)
      (users, <[QUOTE_ASSET_BANK_INDEX:=Loaded bank']> banks,
       <[k:=Loaded (m <| Market.pnl_pool := pool' |>)]> markets)
| balanced_frame users users' banks markets markets' :
    view User.bank_balances users' = view User.bank_balances users →
    view Market.pnl_pool markets' = view Market.pnl_pool markets →
    balanced (users, banks, markets) (users', banks, markets').

Definition accounts_ok (d : Z) (a : Accounts) : Prop := ledger_ok d a.1.1 a.1.2 a.2.

(** The accounts with those that an instruction has not loaded. *)
Definition with_unloaded (banks : BankMap) (markets : MarketMap) (a : Accounts) : Accounts :=
  (a.1.1, a.1.2 ∪ banks, a.2 ∪ markets).

Lemma balanced_ok d a b : balanced a b → accounts_ok d a → accounts_ok d b.
Proof.
  unfold accounts_ok.
  intros [users banks markets k u u' i bank bank' Hk Hi Hmoves|users banks markets k m x bank
    bank' pool' Hk Hb Hup|users users' banks markets markets' Hu Hm] Hl; cbn [fst snd] in *.
  - destruct (ledger_banks _ _ _ Hl _ _ Hi). pose proof (ledger_users _ _ _ Hl _ _ Hk).
    eapply ledger_user_update; eauto.
  - by eapply ledger_pool_deposit.
  - by eapply ledger_view.
Qed.

(** Balanced moves keep the ledger. *)
Lemma balanced_moves_ok d a b : rtc balanced a b → accounts_ok d a → accounts_ok d b.
Proof. induction 1; [done|]. eauto using balanced_ok. Qed.

Lemma view_union {A B} (f : A → B) m base : view f (m ∪ base) = view f m ∪ view f base.
Proof. unfold view. apply (map_fmap_union (M := gmap Z)). Qed.

Lemma balanced_unloaded banks markets a b :
  balanced a b → balanced (with_unloaded banks markets a) (with_unloaded banks markets b).
Proof.
  intros [users bm mm k u u' i bank bank' Hk Hi Hmoves|users bm mm k m x bank
    bank' pool' Hk Hb Hup|users users' bm mm mm' Hu Hm]; unfold with_unloaded; cbn [fst snd].
  - rewrite <-insert_union_l. apply (balanced_user _ _ _ _ u _ _ bank); [done| |done].
    by apply lookup_union_Some_l.
  - rewrite <-!insert_union_l.
    by apply (balanced_pool _ _ _ _ _ x bank); try apply lookup_union_Some_l.
  - apply balanced_frame; [done|]. by rewrite !view_union, Hm.
Qed.

(** An instruction that loads some of the banks and markets moves all the accounts. *)
Lemma balanced_loaded users users' bm bm' mm mm' banks markets :
  rtc balanced (users, bm, mm) (users', bm', mm') → bm ⊆ banks → mm ⊆ markets →
  rtc balanced (users, banks, markets) (users', bm' ∪ banks, mm' ∪ markets).
Proof.
  intros Hsteps Hb Hm.
  rewrite <-(map_subseteq_union bm banks Hb) at 1. rewrite <-(map_subseteq_union mm markets Hm) at 1.
  exact (rtc_congruence (with_unloaded banks markets) balanced _ _
    (balanced_unloaded banks markets) Hsteps).
Qed.

Lemma balanced_user_same users banks markets k u u' :
  users !! k = Some (Loaded u) → u'.(User.bank_balances) = u.(User.bank_balances) →
  balanced (users, banks, markets) (<[k:=Loaded u']> users, banks, markets).
Proof. intros Hk Hb. apply balanced_frame; [|done]. by eapply view_put. Qed.

(** ** The instructions *)

Section Instructions.
Context `{BnLib} `{OracleAccounts} `{TokenProgram}.

(** The lines that [deposit], [withdraw] and both halves of [transfer_deposit] share. *)
Lemma slot_update_moves x d i bank bank1 bank2 now u u1 u2 k :
  bank.(Bank.bank_index) = i → bank_wf bank → balances_wf u →
  update_bank_cumulative_interest bank now = Ok bank1 →
  get_or_add_bank_balance u bank1 i = Ok (u1, k) →
  update_user_bank_balance x d bank1 u1 k = Ok (bank2, u2) →
  user_moves i bank bank2 u u2.
Proof.
  intros Hi Hwf Hu Hint Hadd Hup.
  pose proof (interest_moves i _ _ _ u Hint) as M1.
  assert (bank1.(Bank.bank_index) = i) as Hi1 by (rewrite (moves_index _ _ _ _ _ M1); done).
  apply get_or_add_bank_balance_moves in Hadd as (M2 & Hu1 & Hslot & _); [|done..].
  pose proof (moves_bank_wf _ _ _ _ _ M1 Hwf) as Hwf1.
  apply (update_user_bank_balance_moves _ _ i) in Hup as [M3 _]; [|done..].
  by eapply user_moves_trans; [|eapply user_moves_trans].
Qed.

Lemma deposit_balanced users banks markets ledger key token vault auth clock i amount ro
    users' banks' ledger' :
  deposit users banks markets ledger key token vault auth clock i amount ro
    = Ok (users', banks', ledger') →
  balanced (users, banks, markets) (users', banks', markets).
Proof.
  intros Hok. unfold deposit in Hok.
  apply bind_ok in Hok as ([u us] & Hu & Hok). apply load_cell_mut_ok in Hu as [Hu ->].
  destruct (amount =? 0); [done|].
  apply bind_ok in Hok as ([bank bs] & Hb & Hok). apply load_cell_mut_ok in Hb as [Hb ->].
  apply bind_ok in Hok as (bank1 & Hint & Hok). apply bind_ok in Hok as ([u1 k] & Hadd & Hok).
  apply bind_ok in Hok as (x & _ & Hok). apply bind_ok in Hok as ([bank2 u2] & Hup & Hok).
  apply bind_ok in Hok as (u3 & Hf & Hok). apply bind_ok in Hok as (l & _ & Hok).
  apply Ok_inj in Hok; injection Hok as <- <- <-. rewrite !drop_borrowed.
  eapply balanced_user; [done|done|]. intros Hi Hwf Hbal.
  eapply user_moves_trans; [|by eapply user_moves_same, settle_funding_balances].
  by eapply slot_update_moves.
Qed.

Lemma withdraw_balanced st users banks markets om ledger key token vault auth clock i amount
    ro users' banks' om' ledger' :
  withdraw st users banks markets om ledger key token vault auth clock i amount ro
    = Ok (users', banks', om', ledger') →
  balanced (users, banks, markets) (users', banks', markets).
Proof.
  intros Hok. unfold withdraw in Hok. apply bind_ok in Hok as ([] & _ & Hok).
  apply bind_ok in Hok as ([u us] & Hu & Hok). apply load_cell_mut_ok in Hu as [Hu ->].
  apply bind_ok in Hok as (u0 & Hf & Hok).
  apply bind_ok in Hok as ([bank bs] & Hb & Hok). apply load_cell_mut_ok in Hb as [Hb ->].
  apply bind_ok in Hok as (bank1 & Hint & Hok). apply bind_ok in Hok as ([u1 k] & Hadd & Hok).
  apply bind_ok in Hok as (x & _ & Hok). apply bind_ok in Hok as ([bank2 u2] & Hup & Hok).
  apply bind_ok in Hok as ([om1 ok] & _ & Hok). destruct (negb ok); [done|].
  apply bind_ok in Hok as (bank3 & _ & Hok). apply bind_ok in Hok as (l & _ & Hok).
  apply Ok_inj in Hok; injection Hok as <- <- <- <-. rewrite !drop_borrowed.
  pose proof (user_moves_same i bank _ _ (settle_funding_balances _ _ _ Hf)) as M0.
  eapply balanced_user; [done|done|]. intros Hi Hwf Hbal.
  eapply user_moves_trans; [exact M0|]. eapply slot_update_moves; try done.
  by apply (moves_wf _ _ _ _ _ M0).
Qed.

Lemma transfer_deposit_balanced users banks markets om from to clock i amount
    users' banks' om' :
  transfer_deposit users banks markets om from to clock i amount = Ok (users', banks', om') →
  rtc balanced (users, banks, markets) (users', banks', markets).
Proof.
  intros Hok. unfold transfer_deposit in Hok.
  apply bind_ok in Hok as ([t us] & Ht & Hok). apply load_cell_mut_ok in Ht as [Ht ->].
  apply bind_ok in Hok as ([f us] & Hf & Hok). apply load_cell_mut_ok in Hf as [Hf ->].
  assert (to ≠ from) as Hne by (intros ->; by rewrite lookup_insert_eq in Hf).
  rewrite lookup_insert_ne in Hf by done.
  apply bind_ok in Hok as ([bank bs] & Hb & Hok). apply load_cell_mut_ok in Hb as [Hb ->].
  apply bind_ok in Hok as (bank1 & Hint & Hok). apply bind_ok in Hok as ([f1 k] & Hadd & Hok).
  apply bind_ok in Hok as ([bank2 f2] & Hup & Hok).
  apply bind_ok in Hok as ([om1 ok] & _ & Hok). apply bind_ok in Hok as ([] & _ & Hok).
  apply bind_ok in Hok as ([t1 k'] & Hadd' & Hok).
  apply bind_ok in Hok as ([bank3 t2] & Hup' & Hok).
  apply Ok_inj in Hok; injection Hok as <- <- <-. unfold drop_mut.
  eapply rtc_l; [eapply (balanced_user _ _ _ from f f2 i bank bank2); [done|done|]|].
  { intros. by eapply slot_update_moves. }
  rewrite !insert_insert_eq, (insert_insert_ne _ from to), insert_insert_eq by congruence.
  assert (balanced (<[from:=Loaded f2]> users, <[i:=Loaded bank2]> banks, markets)
    (<[to:=Loaded t2]> (<[from:=Loaded f2]> users),
     <[i:=Loaded bank3]> (<[i:=Loaded bank2]> banks), markets)) as M.
  { apply (balanced_user _ _ _ to t t2 i bank2); [by rewrite lookup_insert_ne by congruence|
      apply lookup_insert_eq|]. intros Hi Hwf Hbal.
    apply get_or_add_bank_balance_moves in Hadd' as (M2 & Hu1 & Hslot & _); [|done..].
    apply (update_user_bank_balance_moves _ _ i) in Hup' as [M3 _]; [|done..].
    by eapply user_moves_trans. }
  rewrite insert_insert_eq in M. by apply rtc_once.
Qed.

Lemma quote_slot u k :
  balances_wf u → get_quote_asset_bank_balance_mut u = Ok k → slot_of u QUOTE_ASSET_BANK_INDEX k.
Proof.
  intros Hu Hok. apply Ok_inj in Hok as <-.
  destruct (wf_quote_slot _ Hu) as (b & Hb & Hi). by exists b.
Qed.

(** An update of the quote balance of a user. *)
Lemma quote_update_balanced x d users banks markets key u u' bank bank' k :
  users !! key = Some (Loaded u) → banks !! QUOTE_ASSET_BANK_INDEX = Some (Loaded bank) →
  get_quote_asset_bank_balance_mut u = Ok k →
  update_user_bank_balance x d bank u k = Ok (bank', u') →
  balanced (users, banks, markets)
    (<[key:=Loaded u']> users, <[QUOTE_ASSET_BANK_INDEX:=Loaded bank']> banks, markets).
Proof.
  intros Hu Hb Hk Hup. apply (balanced_user _ _ _ _ u _ _ bank); [done..|].
  intros _ Hwf Hbal. apply (quote_slot u k) in Hk; [|done].
  by apply (update_user_bank_balance_moves _ _ QUOTE_ASSET_BANK_INDEX) in Hup as [M _].
Qed.

(** What [settle_pnl] settles: the unsettled profit of the position in the market. *)
Definition unsettled_in (users : UserMap) (user_key market_index : Z) (x : Z) : Prop :=
  ∃ u k p, users !! user_key = Some (Loaded u)
    ∧ get_position_index u.(User.positions) market_index = Ok k
    ∧ u.(User.positions) !! k = Some p ∧ p.(MarketPosition.unsettled_pnl) = x.

(** The accounts that [settle_pnl] works on, and the branch it takes. *)
Lemma settle_pnl_inv st users banks markets key auth i users' banks' markets' :
  settle_pnl st users banks markets key auth i = Ok (users', banks', markets') →
  ∃ u k p bank m u' bank' m',
    users !! key = Some (Loaded u) ∧ banks !! QUOTE_ASSET_BANK_INDEX = Some (Loaded bank)
    ∧ markets !! i = Some (Loaded m)
    ∧ get_position_index u.(User.positions) i = Ok k ∧ u.(User.positions) !! k = Some p
    ∧ users' = <[key:=Loaded u']> users
    ∧ banks' = <[QUOTE_ASSET_BANK_INDEX:=Loaded bank']> banks
    ∧ markets' = <[i:=Loaded m']> markets
    ∧ (let x := p.(MarketPosition.unsettled_pnl) in
       if x =? 0 then bank' = bank ∧ m' = m ∧ u' = u
       else if 0 <? x then settle_profit bank m u auth k x = Ok (bank', m', u')
       else settle_loss bank m u k x = Ok (bank', m', u')).
Proof.
  intros Hok. unfold settle_pnl in Hok. apply bind_ok in Hok as ([] & _ & Hok).
  apply bind_ok in Hok as ([m ms] & Hm & Hok). apply load_cell_mut_ok in Hm as [Hm ->].
  apply bind_ok in Hok as ([u us] & Hu & Hok). apply load_cell_mut_ok in Hu as [Hu ->].
  apply bind_ok in Hok as (k & Hk & Hok).
  apply bind_ok in Hok as ([bank bs] & Hb & Hok). apply load_cell_mut_ok in Hb as [Hb ->].
  apply bind_ok in Hok as (p & Hp & Hok). apply unwrap_ok in Hp.
  apply bind_ok in Hok as ([[bank' m'] u'] & Hs & Hok).
  apply Ok_inj in Hok; injection Hok as <- <- <-. rewrite !drop_borrowed.
  exists u, k, p, bank, m, u', bank', m'. split_and!; try done. cbv zeta.
  destruct (_ =? 0); [apply Ok_inj in Hs; by injection Hs as <- <- <-|].
  by destruct (0 <? _).
Qed.

(** The settlement of a loss moves it from the user's balance to the pool. *)
Lemma settle_loss_balanced users banks markets key i u bank m k x bank' m' u' :
  users !! key = Some (Loaded u) → banks !! QUOTE_ASSET_BANK_INDEX = Some (Loaded bank) →
  markets !! i = Some (Loaded m) → settle_loss bank m u k x = Ok (bank', m', u') →
  rtc balanced (users, banks, markets)
    (<[key:=Loaded u']> users, <[QUOTE_ASSET_BANK_INDEX:=Loaded bank']> banks,
     <[i:=Loaded m']> markets).
Proof.
  intros Hu Hb Hm Hok. unfold settle_loss in Hok.
  apply bind_ok in Hok as ([bank1 pool] & Hpool & Hok). apply bind_ok in Hok as (n & Hn & Hok).
  apply bind_ok in Hok as ([bank2 u2] & Hup & Hok). apply bind_ok in Hok as (p & _ & Hok).
  apply Ok_inj in Hok; injection Hok as <- <- <-.
  refine (rtc_l _ _ _ _ (balanced_pool users banks markets i m _ bank _ _ Hm Hb Hpool) _).
  refine (rtc_l _ _ _ _ (quote_update_balanced _ _ _ _ _ key u _ bank1 _ n Hu
    (lookup_insert_eq _ _ _) Hn Hup) _).
  rewrite insert_insert_eq. set (u3 := set_position _ _ _).
  rewrite <-(insert_insert_eq users key (Loaded u3) (Loaded u2)).
  apply rtc_once, (balanced_user_same _ _ _ key u2); [apply lookup_insert_eq|done].
Qed.

(** What the settlement of a profit moves: the user's balance as it should, and the
    pool's by as much as the bank's deposits shrink. *)
Lemma settle_profit_inv bank m u auth k x bank' m' u' :
  bank_wf bank → balances_wf u → 0 ≤ m.(Market.pnl_pool).(PNLPool.balance) →
  settle_profit bank m u auth k x = Ok (bank', m', u') →
  u.(User.authority) = auth
  ∧ ((bank' = bank ∧ m' = m ∧ u' = u)
     ∨ ∃ bank1, user_moves QUOTE_ASSET_BANK_INDEX bank bank1 u u'
         ∧ bank_wf bank' ∧ bank'.(Bank.bank_index) = bank.(Bank.bank_index)
         ∧ bank'.(Bank.borrow_balance) = bank1.(Bank.borrow_balance)
         ∧ m'.(Market.pnl_pool).(PNLPool.balance) - m.(Market.pnl_pool).(PNLPool.balance)
           = bank1.(Bank.deposit_balance) - bank'.(Bank.deposit_balance)
         ∧ m.(Market.pnl_pool).(PNLPool.balance) ≤ m'.(Market.pnl_pool).(PNLPool.balance)).
Proof.
  intros Hbank Hu Hpool Hok. unfold settle_profit in Hok.
  apply bind_ok in Hok as ([] & Hauth & Hok). apply validate_ok in Hauth.
  apply Z.eqb_eq in Hauth. split; [done|].
  apply bind_ok in Hok as (y & _ & Hok).
  destruct (y =? 0); [apply Ok_inj in Hok; injection Hok as <- <- <-; by left|right].
  apply bind_ok in Hok as (pnl & _ & Hok). apply bind_ok in Hok as (n & Hn & Hok).
  apply quote_slot in Hn; [|done]. apply bind_ok in Hok as ([bank1 u1] & Hup & Hok).
  apply bind_ok in Hok as ([bank2 pool] & Hpl & Hok). apply bind_ok in Hok as (z & _ & Hok).
  apply bind_ok in Hok as (p & _ & Hok). apply bind_ok in Hok as (v & _ & Hok).
  apply Ok_inj in Hok; injection Hok as <- <- <-.
  apply (update_user_bank_balance_moves _ _ QUOTE_ASSET_BANK_INDEX) in Hup as [M _]; [|done..].
  pose proof (moves_bank_wf _ _ _ _ _ M Hbank) as Hb1.
  pose proof (pool_withdrawal _ _ _ _ _ Hb1 Hpool Hpl) as (Hpd & Hpb & Hsame & Hge).
  exists bank1. split; [eapply user_moves_trans; [exact M|by apply user_moves_same]|].
  split; [by eapply same_but_totals_wf|].
  split; [by rewrite (same_but_totals_index _ _ Hsame), (moves_index _ _ _ _ _ M)|].
  by split_and!.
Qed.

(** A settlement of a profit: only the user takes it out of a market's pool; and since
    the pool grows by what leaves it, the excess grows by twice the growth of the
    pool. *)
Lemma settle_profit_ledger {d} users banks markets key auth i u bank m k x bank' m' u' :
  ledger_ok d users banks markets →
  users !! key = Some (Loaded u) → banks !! QUOTE_ASSET_BANK_INDEX = Some (Loaded bank) →
  markets !! i = Some (Loaded m) → settle_profit bank m u auth k x = Ok (bank', m', u') →
  let growth := m'.(Market.pnl_pool).(PNLPool.balance) - m.(Market.pnl_pool).(PNLPool.balance) in
  0 ≤ growth ∧ u.(User.authority) = auth
  ∧ ledger_ok (d + 2 * growth) (<[key:=Loaded u']> users)
      (<[QUOTE_ASSET_BANK_INDEX:=Loaded bank']> banks) (<[i:=Loaded m']> markets).
Proof.
  intros Hl Hu Hb Hm Hok. destruct (ledger_banks _ _ _ Hl _ _ Hb) as [Hbi Hwf].
  pose proof (ledger_pools _ _ _ Hl _ _ Hm) as Hpos.
  apply settle_profit_inv in Hok as [Hauth Hcase];
    [|done|by eapply (ledger_users _ _ _ Hl)|done].
  destruct Hcase as [(-> & -> & ->)|(bank1 & M & Hwf' & Hi' & Hbor & Hpl & Hge)].
  { cbv zeta. rewrite Z.sub_diag, Z.mul_0_r, Z.add_0_r, !insert_id by done. split_and!; done. }
  cbv zeta. split; [lia|]. split; [done|]. set (growth := _ - PNLPool.balance _).
  pose proof (ledger_user_update _ _ _ _ _ _ _ _ _ Hl Hu Hb M) as [Hus Hbs Hps Htot Hno].
  set (users1 := <[key:=_]> users) in *.
  assert (∀ j t, accounted users1 (<[i:=Loaded m']> markets) j t
    = accounted users1 markets j t + if (j =? QUOTE_ASSET_BANK_INDEX) && bool_decide (t = Deposit)
        then growth else 0) as Hacc.
  { intros j t. rewrite (accounted_market _ _ _ _ _ _ _ Hm). cbn [cell_value]. unfold pool_part.
    destruct (Z.eqb_spec j QUOTE_ASSET_BANK_INDEX) as [->|]; cbn [andb]; [|lia].
    unfold balance_part. subst growth.
    destruct t; [rewrite !bool_decide_true by done|rewrite !bool_decide_false by done];
      cbn [balance PNLPool_BankBalance]; lia. }
  split.
  - done.
  - intros j b Hj. apply lookup_insert_Some in Hj as [[<- Hj]|[Hne Hj]].
    + injection Hj as <-. split; [congruence|done].
    + apply (Hbs j). by rewrite lookup_insert_ne.
  - intros j v Hj. apply lookup_insert_Some in Hj as [[<- Hj]|[_ Hj]]; [|eauto].
    injection Hj as <-. lia.
  - intros j b t Hj. rewrite Hacc. apply lookup_insert_Some in Hj as [[<- Hj]|[Hne Hj]].
    + injection Hj as <-. rewrite (Htot _ bank1 t) by apply lookup_insert_eq.
      unfold beyond. rewrite Z.eqb_refl. cbn [andb].
      destruct t; [rewrite !bool_decide_true by done|rewrite !bool_decide_false by done];
        cbn [bank_total]; lia.
    + rewrite (Htot j b t) by (by rewrite lookup_insert_ne). unfold beyond.
      rewrite (proj2 (Z.eqb_neq j QUOTE_ASSET_BANK_INDEX)) by congruence. cbn [andb]. lia.
  - intros j t Hj. rewrite Hacc. apply lookup_insert_None in Hj as [Hj Hne].
    rewrite (Hno j t) by (by apply lookup_insert_None). unfold beyond.
    rewrite (proj2 (Z.eqb_neq j QUOTE_ASSET_BANK_INDEX)) by congruence. cbn [andb]. lia.
Qed.

(** The whole of [settle_pnl], on the accounts that it has loaded: the excess stays, or
    grows with the payment of a profit to the user itself. *)
Lemma settle_pnl_ledger {d} st users bm mm banks markets key auth i users' bm' mm' :
  bm ⊆ banks → mm ⊆ markets →
  settle_pnl st users bm mm key auth i = Ok (users', bm', mm') →
  ledger_ok d users banks markets →
  ∃ growth, 0 ≤ growth ∧ ledger_ok (d + 2 * growth) users' (bm' ∪ banks) (mm' ∪ markets)
    ∧ ((∀ x, unsettled_in users key i x → x ≤ 0) → growth = 0).
Proof.
  intros Hbm Hmm Hok Hl. apply settle_pnl_inv in Hok
    as (u & k & p & bank & m & u' & bank' & m' & Hu & Hb & Hm & Hk & Hp & -> & -> & -> & Hcase).
  rewrite <-!insert_union_l, !map_subseteq_union by done.
  apply (lookup_weaken _ banks) in Hb; [|done]. apply (lookup_weaken _ markets) in Hm; [|done].
  cbv zeta in Hcase. set (x := p.(MarketPosition.unsettled_pnl)) in *.
  destruct (Z.eqb_spec x 0); [|destruct (Z.ltb_spec 0 x)].
  - destruct Hcase as (-> & -> & ->). exists 0. rewrite !insert_id by done.
    rewrite Z.mul_0_r, Z.add_0_r. done.
  - pose proof (settle_profit_ledger _ _ _ _ _ _ _ _ _ _ _ _ _ _ Hl Hu Hb Hm Hcase)
      as (Hge & _ & Hl'). eexists. split; [exact Hge|]. split; [done|]. intros Hneg.
    assert (x ≤ 0) by (apply Hneg; by exists u, k, p). lia.
  - pose proof (settle_loss_balanced _ _ _ _ _ _ _ _ _ _ _ _ _ Hu Hb Hm Hcase) as Hs.
    apply (balanced_moves_ok d _ _ Hs) in Hl. exists 0.
    rewrite Z.mul_0_r, Z.add_0_r. done.
Qed.

(** C25. A withdrawal is of at most the amount asked for, from the bank's vault to the user's
    token account; after it the user meets the initial margin requirement, the bank's
    borrows are covered by its deposits, and the exchange was not paused. *)
Theorem withdraw_safe st users banks markets om ledger key token vault auth clock i amount ro
    users' banks' om' ledger' :
  withdraw st users banks markets om ledger key token vault auth clock i amount ro
    = Ok (users', banks', om', ledger') →
  ∃ u' bank' paid deposits borrows,
    users' = <[key:=Loaded u']> users ∧ banks' = <[i:=Loaded bank']> banks
    ∧ meets_initial_margin_requirement u' markets banks' om = Ok (om', true)
    ∧ paid ≤ amount
    ∧ token_transfer (BankVaultSigns i bank'.(Bank.vault_authority_nonce)) ledger vault token
        auth paid = Some ledger'
    ∧ get_token_amount bank'.(Bank.deposit_balance) bank' Deposit = Ok deposits
    ∧ get_token_amount bank'.(Bank.borrow_balance) bank' Borrow = Ok borrows
    ∧ borrows ≤ deposits ∧ st.(State.exchange_paused) = false.
Proof.
  intros Hok. unfold withdraw in Hok. apply bind_ok in Hok as ([] & Hpaused & Hok).
  apply validate_ok, negb_true_iff in Hpaused.
  apply bind_ok in Hok as ([u us] & Hu & Hok). apply load_cell_mut_ok in Hu as [Hu ->].
  apply bind_ok in Hok as (u0 & Hf & Hok).
  apply bind_ok in Hok as ([bank bs] & Hb & Hok). apply load_cell_mut_ok in Hb as [Hb ->].
  apply bind_ok in Hok as (bank1 & Hint & Hok). apply bind_ok in Hok as ([u1 k] & Hadd & Hok).
  apply bind_ok in Hok as (x & Hx & Hok). apply bind_ok in Hok as ([bank2 u2] & Hup & Hok).
  rewrite drop_borrowed in Hok.
  apply bind_ok in Hok as ([om1 ok] & Hmargin & Hok). destruct ok; cbn in Hok; [|done].
  apply bind_ok in Hok as (bank3 & Hb3 & Hok). apply load_cell_ok in Hb3.
  rewrite lookup_insert_eq in Hb3. injection Hb3 as <-.
  apply bind_ok in Hok as (l & Htok & Hok). apply unwrap_ok in Htok.
  apply Ok_inj in Hok; injection Hok as <- <- <- <-. rewrite !drop_borrowed.
  unfold update_user_bank_balance in Hup. apply bind_ok in Hup as (b & _ & Hup).
  apply bind_ok in Hup as ([bank4 b'] & Hup & Hend). apply Ok_inj in Hend.
  injection Hend as <- <-.
  apply borrow_keeps_bank_solvent in Hup as (deposits & borrows & Hd & Hbo & Hle).
  exists (set_bank_balance u1 k b'), bank4, x, deposits, borrows.
  split_and!; try done.
  unfold reduce_only_amount in Hx. inv_ok; lia.
Qed.

(** C40. A transfer succeeds only when it takes everything the sender has in the bank: the
    bank is still borrowed while the margin of the sender is computed. *)
Theorem transfer_deposit_empties_sender users banks markets om from to clock i amount
    users' banks' om' :
  transfer_deposit users banks markets om from to clock i amount = Ok (users', banks', om') →
  from ≠ to ∧ ∃ f', users' !! from = Some (Loaded f')
    ∧ ∀ k b, f'.(User.bank_balances) !! k = Some b → b.(UserBankBalance.bank_index) = i →
        b.(UserBankBalance.balance) = 0.
Proof.
  intros Hok. unfold transfer_deposit in Hok.
  apply bind_ok in Hok as ([t us] & Ht & Hok). apply load_cell_mut_ok in Ht as [Ht ->].
  apply bind_ok in Hok as ([f us] & Hf & Hok). apply load_cell_mut_ok in Hf as [Hf ->].
  assert (from ≠ to) as Hne by (intros ->; by rewrite lookup_insert_eq in Hf).
  apply bind_ok in Hok as ([bank bs] & Hb & Hok). apply load_cell_mut_ok in Hb as [Hb ->].
  apply bind_ok in Hok as (bank1 & Hint & Hok). apply bind_ok in Hok as ([f1 k] & Hadd & Hok).
  apply bind_ok in Hok as ([bank2 f2] & Hup & Hok).
  apply bind_ok in Hok as ([om1 ok] & Hmargin & Hok).
  apply bind_ok in Hok as ([] & _ & Hok). apply bind_ok in Hok as ([t1 k'] & Hadd' & Hok).
  apply bind_ok in Hok as ([bank3 t2] & Hup' & Hok).
  apply Ok_inj in Hok; injection Hok as <- <- <-. split; [done|].
  exists f2. unfold drop_mut. rewrite lookup_insert_ne, lookup_insert_eq by done.
  split; [done|]. intros n b Hn Hi. destruct (decide (b.(UserBankBalance.balance) = 0)); [done|].
  apply bind_ok in Hmargin as ([om2 [mr c]] & Hmargin & _).
  apply margin_loads_banks in Hmargin. rewrite Forall_lookup in Hmargin.
  destruct (Hmargin _ _ Hn) as [bank4 Hb4]; [done|].
  by rewrite Hi, lookup_insert_eq in Hb4.
Qed.

(** A deposit takes at most the amount from the depositor's token account into the
    vault, and exactly the amount when it is not reduce-only. *)
Theorem deposit_pays users banks markets ledger key token vault auth clock i amount ro
    users' banks' ledger' :
  deposit users banks markets ledger key token vault auth clock i amount ro
    = Ok (users', banks', ledger') →
  amount ≠ 0 ∧ ∃ paid, paid ≤ amount ∧ (ro = false → paid = amount)
    ∧ token_transfer CallerSigns ledger token vault auth paid = Some ledger'.
Proof.
  intros Hok. unfold deposit in Hok. apply bind_ok in Hok as ([u us] & _ & Hok).
  destruct (Z.eqb_spec amount 0); [done|]. split; [done|].
  apply bind_ok in Hok as ([bank bs] & _ & Hok). apply bind_ok in Hok as (bank1 & _ & Hok).
  apply bind_ok in Hok as ([u1 k] & _ & Hok). apply bind_ok in Hok as (x & Hx & Hok).
  apply bind_ok in Hok as ([bank2 u2] & _ & Hok). apply bind_ok in Hok as (u3 & _ & Hok).
  apply bind_ok in Hok as (l & Hl & Hok). apply unwrap_ok in Hl.
  apply Ok_inj in Hok; injection Hok as <- <- <-.
  exists x. unfold reduce_only_amount in Hx. split_and!; [|intros ->|done]; inv_ok; lia.
Qed.
End Instructions.

(** ** New users and banks *)

Lemma user_part_zeroed i t u :
  u.(User.bank_balances) = User_zeroed.(User.bank_balances) → user_part i t u = 0.
Proof.
  intros Hb. unfold user_part. rewrite Hb. unfold sum_of. cbn. unfold slot_part, balance_part.
  simpl. repeat case_match; done.
Qed.

Lemma initialize_user_ledger {d} users banks markets key auth id name users' :
  ledger_ok d users banks markets → initialize_user users key auth id name = Ok users' →
  ledger_ok d users' banks markets.
Proof.
  intros [Hus Hbs Hps Htot Hno] Hok. unfold initialize_user in Hok.
  case_bool_decide as Hk; [|done]. apply Ok_inj in Hok as <-.
  set (u := User_zeroed <| User.authority := auth |> <| User.user_id := id |>
                        <| User.name := name |> <| User.next_order_id := 1 |>).
  assert (∀ i t, accounted (<[key:=Loaded u]> users) markets i t = accounted users markets i t)
    as Ha.
  { intros i t. unfold accounted. rewrite (cell_sum_new _ _ _ _ Hk). cbn [cell_value].
    rewrite user_part_zeroed by done. lia. }
  split; try done.
  - intros j v Hj. apply lookup_insert_Some in Hj as [[<- Hj]|[_ Hj]]; [|eauto].
    injection Hj as <-. split.
    + eexists. split; [reflexivity|done].
    + intros n b Hn. change (replicate 8 (UserBankBalance.mk 0 Deposit 0) !! n = Some b) in Hn.
      by apply lookup_replicate in Hn as [-> _].
    + intros n b Hn. change (replicate 7 (UserBankBalance.mk 0 Deposit 0) !! n = Some b) in Hn.
      by apply lookup_replicate in Hn as [-> _].
  - intros. rewrite Ha. auto.
  - intros. rewrite Ha. auto.
Qed.

(** Accruing interest moves no totals. *)
Lemma interest_ledger {d} users banks markets i bank now bank' :
  ledger_ok d users banks markets → banks !! i = Some (Loaded bank) →
  update_bank_cumulative_interest bank now = Ok bank' →
  ledger_ok d users (<[i:=Loaded bank']> banks) markets.
Proof.
  intros [Hus Hbs Hps Htot Hno] Hi Hok.
  apply (interest_moves i _ _ _ User_zeroed) in Hok as [Mi Mb _ Mp _].
  split; try done.
  - intros j b Hj. apply lookup_insert_Some in Hj as [[<- [= <-]]|[_ Hj]]; [|eauto].
    destruct (Hbs _ _ Hi). split; [congruence|auto].
  - intros j b t Hj. apply lookup_insert_Some in Hj as [[<- [= <-]]|[_ Hj]]; [|eauto].
    rewrite (Htot _ _ t Hi). pose proof (Mp t). lia.
  - intros j t Hj. apply lookup_insert_None in Hj as [Hj _]. auto.
Qed.

(** A bank starts with no balances, under an index that has no bank yet. *)
Lemma initialize_bank_ledger {d} `{OracleAccounts} `{ProgramAddresses} users banks markets st p
    clock st' bank :
  ledger_ok d users banks markets → initialize_bank st p clock = Ok (st', bank) →
  banks !! bank.(Bank.bank_index) = None →
  ledger_ok d users (<[bank.(Bank.bank_index) := Loaded bank]> banks) markets.
Proof.
  intros [Hus Hbs Hps Htot Hno] Hok Hnew. unfold initialize_bank in Hok.
  destruct (find_bank_vault_authority _) as [va nonce]. destruct (negb _); [done|].
  destruct (get_then_update_id _) as [x next].
  apply bind_ok in Hok as ([] & Hvalid & Hok). apply bind_ok in Hok as (now & _ & Hok).
  apply Ok_inj in Hok; injection Hok as <- <-. cbn [Bank.bank_index] in *.
  assert (6 ≤ p.(BankParams.mint_decimals)).
  { destruct (_ =? 0); [unfold validate_quote_bank in Hvalid|unfold validate_bank in Hvalid];
      inv_ok; bool_prop; try lia. }
  split; try done.
  - intros j b Hj. apply lookup_insert_Some in Hj as [[<- Hj]|[_ Hj]]; [|eauto].
    injection Hj as <-. split; [done|]. split; cbn; lia.
  - intros j b t Hj. apply lookup_insert_Some in Hj as [[<- Hj]|[_ Hj]]; [|eauto].
    injection Hj as <-. rewrite Hno by done. by destruct t.
  - intros j t Hj. apply lookup_insert_None in Hj as [Hj _]. auto.
Qed.
