(* ===== verification/BankOrders.v ===== *)
(** * Balances and orders

    The instructions that move bank balances settle funding and profit on the way; they
    keep the positions of every user in step with its orders. *)

From stdpp Require Import base numbers list gmap.
From S2P Require Import Prelude Constants Bn State Value AmmMath BankBalance Twap Oracle.
From S2P Require Import Maps Position Funding Fees Margin OrderValidation Orders Addresses Tokens.
From S2P Require Import BankHandlers BankLedger.
Local Open Scope Z_scope.

Lemma users_wf_borrow users k :
  users_wf users → users_wf (<[k := MutBorrowed]> users).
Proof.
  intros Hwf j v Hj. apply lookup_insert_Some in Hj as [[_ Hj]|[_ Hj]]; [done|eauto].
Qed.

(** A change of anything but positions and orders. *)
Lemma orders_wf_same u u' :
  u'.(User.positions) = u.(User.positions) → u'.(User.orders) = u.(User.orders) →
  orders_wf u → orders_wf u'.
Proof. intros Hp Ho []. by split; rewrite ?Hp, ?Ho. Qed.

Lemma update_user_bank_balance_orders x d bank u k bank' u' :
  update_user_bank_balance x d bank u k = Ok (bank', u') →
  u'.(User.positions) = u.(User.positions) ∧ u'.(User.orders) = u.(User.orders).
Proof. unfold update_user_bank_balance. intros. by inv_ok. Qed.

Lemma get_or_add_bank_balance_orders u bank i u' k :
  get_or_add_bank_balance u bank i = Ok (u', k) →
  u'.(User.positions) = u.(User.positions) ∧ u'.(User.orders) = u.(User.orders).
Proof.
  unfold get_or_add_bank_balance, add_bank_balance. intros Hok.
  destruct (get_bank_balance_mut _ _); by inv_ok.
Qed.

(** Whose account it is. *)
Definition user_owner (u : User) := (u.(User.authority), u.(User.user_id), u.(User.name)).

Ltac keep_owner := repeat case_match; unfold user_owner in *; cbn in *; congruence.

#[export] Instance update_user_bank_balance_owner x d bank u k :
  Frame (update_user_bank_balance x d bank u k) (λ r, user_owner r.2 = user_owner u).
Proof. intros r Hok. unfold update_user_bank_balance in Hok. by frame_steps. Qed.

#[export] Instance get_or_add_bank_balance_owner u bank i :
  Frame (get_or_add_bank_balance u bank i) (λ r, user_owner r.1 = user_owner u).
Proof.
  intros r Hok. unfold get_or_add_bank_balance, add_bank_balance in Hok.
  destruct (get_bank_balance_mut _ _); by frame_steps.
Qed.

Section Instructions.
Context `{BnLib} `{OracleAccounts} `{TokenProgram}.

(** The lines that the handlers share. *)
Lemma slot_update_wf x d bank i u u1 bank' u2 k :
  get_or_add_bank_balance u bank i = Ok (u1, k) →
  update_user_bank_balance x d bank u1 k = Ok (bank', u2) → orders_wf u → orders_wf u2.
Proof.
  intros Hadd Hup. apply get_or_add_bank_balance_orders in Hadd as [Hp Ho].
  apply update_user_bank_balance_orders in Hup as [Hp' Ho'].
  apply orders_wf_same; congruence.
Qed.

Lemma deposit_wf users bm mm ledger key token vault auth clock i amount ro users' bm' ledger' :
  deposit users bm mm ledger key token vault auth clock i amount ro
    = Ok (users', bm', ledger') →
  users_wf users → users_wf users'.
Proof.
  intros Hok Hwf. unfold deposit in Hok.
  apply bind_ok in Hok as ([u us] & Hu & Hok). apply load_cell_mut_ok in Hu as [Hu ->].
  destruct (amount =? 0); [done|].
  apply bind_ok in Hok as ([bank bs] & _ & Hok). apply bind_ok in Hok as (bank1 & _ & Hok).
  apply bind_ok in Hok as ([u1 k] & Hadd & Hok). apply bind_ok in Hok as (x & _ & Hok).
  apply bind_ok in Hok as ([bank2 u2] & Hup & Hok). apply bind_ok in Hok as (u3 & Hf & Hok).
  apply bind_ok in Hok as (l & _ & Hok). apply Ok_inj in Hok; injection Hok as <- <- <-.
  apply users_wf_insert; [by apply users_wf_borrow|].
  apply settle_funding_wf in Hf as (_ & _ & Hf). apply Hf.
  eapply slot_update_wf; [exact Hadd|exact Hup|]. by eapply Hwf.
Qed.

Lemma withdraw_wf st users bm mm om ledger key token vault auth clock i amount ro users' bm'
    om' ledger' :
  withdraw st users bm mm om ledger key token vault auth clock i amount ro
    = Ok (users', bm', om', ledger') →
  users_wf users → users_wf users'.
Proof.
  intros Hok Hwf. unfold withdraw in Hok. apply bind_ok in Hok as ([] & _ & Hok).
  apply bind_ok in Hok as ([u us] & Hu & Hok). apply load_cell_mut_ok in Hu as [Hu ->].
  apply bind_ok in Hok as (u0 & Hf & Hok).
  apply bind_ok in Hok as ([bank bs] & _ & Hok). apply bind_ok in Hok as (bank1 & _ & Hok).
  apply bind_ok in Hok as ([u1 k] & Hadd & Hok). apply bind_ok in Hok as (x & _ & Hok).
  apply bind_ok in Hok as ([bank2 u2] & Hup & Hok).
  apply bind_ok in Hok as ([om1 ok] & _ & Hok). destruct (negb ok); [done|].
  apply bind_ok in Hok as (bank3 & _ & Hok). apply bind_ok in Hok as (l & _ & Hok).
  apply Ok_inj in Hok; injection Hok as <- <- <- <-.
  apply users_wf_insert; [by apply users_wf_borrow|].
  eapply slot_update_wf; [exact Hadd|exact Hup|].
  apply settle_funding_wf in Hf as (_ & _ & Hf). apply Hf. by eapply Hwf.
Qed.

Lemma transfer_deposit_wf users bm mm om from to clock i amount users' bm' om' :
  transfer_deposit users bm mm om from to clock i amount = Ok (users', bm', om') →
  users_wf users → users_wf users'.
Proof.
  intros Hok Hwf. unfold transfer_deposit in Hok.
  apply bind_ok in Hok as ([t us] & Ht & Hok). apply load_cell_mut_ok in Ht as [Ht ->].
  apply bind_ok in Hok as ([f us] & Hf & Hok). apply load_cell_mut_ok in Hf as [Hf ->].
  pose proof (users_wf_borrow _ to Hwf) as Hwf1. pose proof (users_wf_borrow _ from Hwf1) as Hwf2.
  apply bind_ok in Hok as ([bank bs] & _ & Hok). apply bind_ok in Hok as (bank1 & _ & Hok).
  apply bind_ok in Hok as ([f1 k] & Hadd & Hok). apply bind_ok in Hok as ([bank2 f2] & Hup & Hok).
  apply bind_ok in Hok as ([om1 ok] & _ & Hok). apply bind_ok in Hok as ([] & _ & Hok).
  apply bind_ok in Hok as ([t1 k'] & Hadd' & Hok).
  apply bind_ok in Hok as ([bank3 t2] & Hup' & Hok).
  apply Ok_inj in Hok; injection Hok as <- <- <-.
  apply users_wf_insert; [apply users_wf_insert; [done|]|].
  - eapply slot_update_wf; [exact Hadd|exact Hup|]. by eapply Hwf1.
  - eapply slot_update_wf; [exact Hadd'|exact Hup'|]. by eapply Hwf.
Qed.

(** The settlement of profit and loss changes one position's unsettled profit. *)
Lemma settled_wf i u u1 u2 k p x :
  get_position_index u.(User.positions) i = Ok k →
  u1.(User.positions) = u.(User.positions) → u1.(User.orders) = u.(User.orders) →
  get_position u1 k = Ok p →
  u2 = set_position u1 k (p <| MarketPosition.unsettled_pnl := x |>) →
  orders_wf u → orders_wf u2.
Proof.
  intros Hk Hp Ho Hget -> Hwf. apply unwrap_ok in Hget. rewrite Hp in Hget.
  apply (trades_at_wf i u); [|done]. split; [by cbn|]. eexists k, p, _.
  cbn. rewrite Hp. by split_and!.
Qed.

Lemma settle_pnl_wf st users bm mm key auth i users' bm' mm' :
  settle_pnl st users bm mm key auth i = Ok (users', bm', mm') →
  users_wf users → users_wf users'.
Proof.
  intros Hok Hwf. apply settle_pnl_inv in Hok
    as (u & k & p & bank & m & u' & bank' & m' & Hu & _ & _ & Hk & _ & -> & _ & _ & Hcase).
  apply users_wf_insert; [done|]. specialize (Hwf _ _ Hu). cbv zeta in Hcase.
  destruct (_ =? 0); [by destruct Hcase as (_ & _ & ->)|]. destruct (0 <? _).
  - unfold settle_profit in Hcase. apply bind_ok in Hcase as ([] & _ & Hcase).
    apply bind_ok in Hcase as (y & _ & Hcase).
    destruct (y =? 0); [apply Ok_inj in Hcase; injection Hcase as <- <- <-; done|].
    apply bind_ok in Hcase as (pnl & _ & Hcase). apply bind_ok in Hcase as (n & _ & Hcase).
    apply bind_ok in Hcase as ([bank1 u1] & Hup & Hcase).
    apply bind_ok in Hcase as ([bank2 pool] & _ & Hcase).
    apply bind_ok in Hcase as (z & _ & Hcase). apply bind_ok in Hcase as (q & Hq & Hcase).
    apply bind_ok in Hcase as (v & _ & Hcase). apply Ok_inj in Hcase; injection Hcase as <- <- <-.
    apply update_user_bank_balance_orders in Hup as [Hp Ho]. by eapply (settled_wf i u u1).
  - unfold settle_loss in Hcase. apply bind_ok in Hcase as ([bank1 pool] & _ & Hcase).
    apply bind_ok in Hcase as (n & _ & Hcase).
    apply bind_ok in Hcase as ([bank2 u1] & Hup & Hcase).
    apply bind_ok in Hcase as (q & Hq & Hcase). apply Ok_inj in Hcase; injection Hcase as <- <- <-.
    apply update_user_bank_balance_orders in Hup as [Hp Ho]. by eapply (settled_wf i u u1).
Qed.

(** A new user has no positions and no orders. *)
Lemma initialize_user_wf users key auth id name users' :
  initialize_user users key auth id name = Ok users' → users_wf users → users_wf users'.
Proof.
  intros Hok Hwf. unfold initialize_user in Hok. case_bool_decide; [|done].
  apply Ok_inj in Hok as <-. apply users_wf_insert; [done|].
  split; cbn -[replicate open_order_count]; [..|by vm_compute].
  - intros i j k p q Hp _ Hf _. apply lookup_replicate in Hp as [-> _].
    by apply is_for_spec in Hf as [_ ?].
  - intros i k p Hp Hf. apply lookup_replicate in Hp as [-> _].
    by apply is_for_spec in Hf as [_ ?].
  - intros i Hpos. exfalso. revert Hpos.
    assert (∀ n o, open_in i o = false → open_order_count i (replicate n o) = 0) as Hz
      by (intros n o Ho; induction n; cbn; by rewrite ?Ho).
    by rewrite Hz.
Qed.
End Instructions.
