(* ===== verification/Loading.v ===== *)
(** * The remaining accounts of an instruction (optional_accounts.rs and the [load]
      functions of state/oracle_map.rs, state/bank_map.rs, state/market_map.rs)

    An instruction reads its oracles, banks, markets, discount token account and
    referrer, in this order, off a list of accounts that the caller chose.  An account
    is its key, two flags and what its data is; the parsing of the bytes (the
    discriminators, [unpack_unchecked]) and the ownership by the Pyth and the token
    program belong to libraries and are in the kind of its contents.  Every function
    returns what it has not consumed of the list. *)

From stdpp Require Import base numbers list gmap.
From S2P Require Import Prelude Constants State Bn Value AmmMath Twap Oracle Maps Position.
From S2P Require Import OrderValidation Orders Addresses Tokens.
Local Open Scope Z_scope.

(** ** Definitions *)

Section Remaining.
Context `{OracleAccounts}.

(** [Borrowed] is the data of an account that the instruction has mutably borrowed. *)
Inductive Contents :=
| PythData (info : AccountInfo)
| BankData (bank : Bank)
| MarketData (market : Market)
| UserData
| TokenData (token : TokenAccount)
| OtherData
| Borrowed.

(** [owned] is the ownership by this program. *)
Record Remaining := mk_remaining {
  remaining_key : Pubkey;
  owned : bool;
  writable : bool;
  contents : Contents;
}.

(** *** The maps *)

Fixpoint load_oracles (accounts : list Remaining)
    (oracles : gmap Pubkey (AccountInfo * OracleSource))
    : gmap Pubkey (AccountInfo * OracleSource) * list Remaining :=
  match accounts with
  | a :: rest =>
      match a.(contents) with
      | PythData info => load_oracles rest (<[a.(remaining_key) := (info, Pyth)]> oracles)
      | _ => (oracles, accounts)
      end
  | [] => (oracles, accounts)
  end.

Definition load_oracle_map (accounts : list Remaining) (slot : Z)
    : OracleMap * list Remaining :=
  let '(oracles, rest) := load_oracles accounts ∅ in
  (OracleMap.mk _ oracles ∅ slot quote_asset_price, rest).

Fixpoint load_banks (writable_banks : gset Z) (accounts : list Remaining)
    (bank_map : BankMap) : result (BankMap * list Remaining) :=
  match accounts with
  | a :: rest =>
      match a.(contents) with
      | Borrowed => Err CouldNotLoadBankData
      | BankData bank =>
          let bank_index := bank.(Bank.bank_index) in
          if negb a.(owned) then Err InvalidBankAccount
          else if bool_decide (bank_index ∈ writable_banks) && negb a.(writable)
          then Err BankWrongMutability
          else load_banks writable_banks rest (<[bank_index := Loaded bank]> bank_map)
      | _ => Ok (bank_map, accounts)
      end
  | [] => Ok (bank_map, accounts)
  end.

Definition load_bank_map (writable_banks : gset Z) (accounts : list Remaining)
    : result (BankMap * list Remaining) :=
  load_banks writable_banks accounts ∅.

Definition get_writable_banks (bank_index : Z) : gset Z := {[ bank_index ]}.

(** The oracle that is expected of a market, by market index. *)
Definition get_market_oracles (market_index : Z) (oracle : AccountInfo)
    : gmap Z AccountInfo :=
  {[ market_index := oracle ]}.

Fixpoint load_markets (writable_markets : gset Z) (market_oracles : gmap Z AccountInfo)
    (accounts : list Remaining) (market_map : MarketMap)
    : result (MarketMap * list Remaining) :=
  match accounts with
  | a :: rest =>
      match a.(contents) with
      | Borrowed => Err CouldNotLoadMarketData
      | MarketData market =>
          let market_index := market.(Market.market_index) in
          let wrong_oracle :=
            match market_oracles !! market_index with
            | Some oracle => negb (account_key oracle =? market.(Market.amm).(AMM.oracle))
            | None => false
            end in
          if negb a.(owned) then Err InvalidMarketAccount
          else if bool_decide (market_index ∈ writable_markets) && negb a.(writable)
          then Err MarketWrongMutability
          else if negb market.(Market.initialized) then Err MarketIndexNotInitialized
          else if wrong_oracle then Err InvalidOracle
          else load_markets writable_markets market_oracles rest
                 (<[market_index := Loaded market]> market_map)
      | _ => Ok (market_map, accounts)
      end
  | [] => Ok (market_map, accounts)
  end.

Definition load_market_map (writable_markets : gset Z) (market_oracles : gmap Z AccountInfo)
    (accounts : list Remaining) : result (MarketMap * list Remaining) :=
  load_markets writable_markets market_oracles accounts ∅.

Definition get_writable_markets (market_index : Z) : gset Z := {[ market_index ]}.

Definition get_writable_markets_for_user_positions (user_positions : list MarketPosition)
    : gset Z :=
  list_to_set (MarketPosition.market_index <$> user_positions).

(** *** Optional accounts *)

(** context.rs: which optional accounts the caller has passed. *)
Record ManagePositionOptionalAccounts := mk_optional_accounts {
  discount_token : bool;
  referrer : bool;
}.

Definition get_discount_token (expect_discount_token : bool) (accounts : list Remaining)
    (discount_mint authority_public_key : Pubkey)
    : result (option TokenAccount * list Remaining) :=
  if expect_discount_token then
    match accounts with
    | [] => Err DiscountTokenNotFound
    | a :: rest =>
        match a.(contents) with
        | TokenData token =>
            if negb token.(TokenAccount.is_initialized) then Err InvalidDiscountToken
            else if negb (token.(TokenAccount.mint) =? discount_mint)
            then Err InvalidDiscountToken
            else if negb (token.(TokenAccount.owner) =? authority_public_key)
            then Err InvalidDiscountToken
            else Ok (Some token, rest)
        | _ => Err InvalidDiscountToken
        end
    end
  else Ok (None, accounts).

(** The key of the referrer's user account. *)
Definition get_referrer (expect_referrer : bool) (accounts : list Remaining)
    (user_public_key : Pubkey) (expected_referrer : option Pubkey)
    : result (option Pubkey * list Remaining) :=
  if expect_referrer then
    match accounts with
    | [] => Err ReferrerNotFound
    | a :: rest =>
        if a.(remaining_key) =? user_public_key then Err UserCantReferThemselves
        else
          let unexpected :=
            match expected_referrer with
            | Some expected => negb (a.(remaining_key) =? expected)
            | None => false
            end in
          if unexpected then Err DidNotReceiveExpectedReferrer
          else
            match a.(contents), a.(owned) with
            | UserData, true => Ok (Some a.(remaining_key), rest)
            | _, _ => Err CouldNotDeserializeReferrer
            end
    end
  else Ok (None, accounts).

Definition get_discount_token_and_referrer
    (optional_accounts : ManagePositionOptionalAccounts) (accounts : list Remaining)
    (discount_mint user_public_key authority_public_key : Pubkey)
    : result (option TokenAccount * option Pubkey * list Remaining) :=
  let? ' (token, accounts) := get_discount_token optional_accounts.(discount_token) accounts
    discount_mint authority_public_key in
  let? ' (referrer, accounts) := get_referrer optional_accounts.(referrer) accounts
    user_public_key None in
  Ok (token, referrer, accounts).

(** A referrer that cannot be deserialized is left out. *)
Definition get_referrer_for_fill_order (accounts : list Remaining) (user_public_key : Pubkey)
    (order_id : Z) (users : UserMap) : result (option Pubkey) :=
  let? user := load_cell users user_public_key UnableToLoadAccountLoader
                 UnableToLoadAccountLoader in
  let? order_index :=
    ok_or (iter_position (λ o, o.(Order.order_id) =? order_id) user.(User.orders))
      OrderDoesNotExist in
  let? order := get_order user order_index in
  if negb (order.(Order.referrer) =? Pubkey_default) then
    match get_referrer true accounts user_public_key (Some order.(Order.referrer)) with
    | Ok (referrer, _) => Ok referrer
    | Err e => if bool_decide (e = CouldNotDeserializeReferrer) then Ok None else Err e
    | Panic => Panic
    end
  else Ok None.
End Remaining.

(** ** Properties *)

Section Properties.
Context `{OracleAccounts}.

(** What [load_market_map] guarantees of a market. *)
Definition market_checked (oracles : gmap Z AccountInfo) (i : Z) (c : loader Market) : Prop :=
  ∃ m, c = Loaded m ∧ m.(Market.market_index) = i ∧ m.(Market.initialized) = true
       ∧ ∀ o, oracles !! i = Some o → account_key o = m.(Market.amm).(AMM.oracle).

Lemma load_markets_checked w oracles accounts mm mm' rest :
  load_markets w oracles accounts mm = Ok (mm', rest) →
  (∀ i c, mm !! i = Some c → market_checked oracles i c) →
  ∀ i c, mm' !! i = Some c → market_checked oracles i c.
Proof.
  revert mm. induction accounts as [|a accounts IH]; intros mm Hok Hmm; cbn in Hok.
  { by apply Ok_inj in Hok; injection Hok as <- <-. }
  destruct (contents a) as [| |market| | | |];
    try (by apply Ok_inj in Hok; injection Hok as <- <-); [|done].
  destruct (negb (owned a)); [done|]. destruct (_ && _); [done|].
  destruct (Market.initialized market) eqn:Hinit; cbn [negb] in Hok; [|done].
  destruct (match oracles !! _ with Some _ => _ | None => _ end) eqn:Horacle; [done|].
  apply (IH _ Hok). intros i c Hi.
  apply lookup_insert_Some in Hi as [[<- <-]|[_ Hi]]; [|by apply Hmm].
  exists market. split_and!; try done. intros o Ho. rewrite Ho in Horacle.
  by apply negb_false_iff, Z.eqb_eq in Horacle.
Qed.

(** Whatever accounts the caller passes, every market that is loaded is under its own
    index, is initialized and has the oracle that the instruction was given for it. *)
Theorem load_market_map_checked w oracles accounts mm rest i c :
  load_market_map w oracles accounts = Ok (mm, rest) → mm !! i = Some c →
  market_checked oracles i c.
Proof.
  intros Hok Hi. eapply load_markets_checked; [exact Hok| |exact Hi].
  intros j d Hj. by rewrite lookup_empty in Hj.
Qed.

(** A referrer is never the user itself, and in a fill it is the one that the order
    names. *)
Theorem get_referrer_for_fill_order_ok accounts key id users k :
  get_referrer_for_fill_order accounts key id users = Ok (Some k) →
  k ≠ key ∧ ∃ u n o, users !! key = Some (Loaded u) ∧ u.(User.orders) !! n = Some o
    ∧ o.(Order.order_id) = id ∧ o.(Order.referrer) = k ∧ k ≠ Pubkey_default.
Proof.
  intros Hok. unfold get_referrer_for_fill_order in Hok.
  apply bind_ok in Hok as (u & Hu & Hok). apply load_cell_ok in Hu.
  apply bind_ok in Hok as (n & Hn & Hok).
  apply ok_or_ok, iter_position_some in Hn as (o & Ho & Hid & _). apply Z.eqb_eq in Hid.
  apply bind_ok in Hok as (o' & Ho' & Hok). apply unwrap_ok in Ho'.
  rewrite Ho in Ho'; injection Ho' as <-.
  destruct (Z.eqb_spec (Order.referrer o) Pubkey_default) as [|Hne]; [done|].
  cbn [negb] in Hok. unfold get_referrer in Hok.
  destruct accounts as [|a accounts]; [done|].
  destruct (Z.eqb_spec (remaining_key a) key) as [|Hkey]; [done|].
  destruct (Z.eqb_spec (remaining_key a) (Order.referrer o)) as [Heq|]; [|done].
  cbn [negb] in Hok. destruct (contents a), (owned a); try done.
  apply Ok_inj in Hok. injection Hok as <-. split; [done|].
  exists u, n, o. split_and!; try done. congruence.
Qed.
End Properties.
