(* ===== verification/Trading.v ===== *)
(** * Trades at market and the entry points of orders (lib.rs)

    [open_position] and [close_position], and the instructions that call the
    controller of orders.  The maps are the ones the instruction has loaded, and
    [accounts] is what is left of its account list.  EventTrades and
    EventOrders add the records that the code emits. *)

From stdpp Require Import base numbers list gmap.
From S2P Require Import Prelude Constants Bn State Value AmmMath Twap Oracle Maps.
From S2P Require Import PositionMath CurveMath Repeg AmmController OrdersMath Position.
From S2P Require Import Funding Fees Margin OrderValidation Orders Addresses Tokens BankHandlers Loading.
Local Open Scope Z_scope.

(** ** Definitions *)

Section Trades.
Context `{BnLib} `{OracleAccounts}.

(** The user's side of a trade: its profit less the fee, and the totals of its fees. *)
Definition charge_trade (user : User) (position_index : nat)
    (pnl user_fee token_discount referee_discount : Z) : result User :=
  let? p := get_position user position_index in
  let? x := cadd I128 p.(MarketPosition.unsettled_pnl) pnl in
  let? fee := cast I128 user_fee in
  let? u := csub I128 x fee in
  let user := set_position user position_index (p <| MarketPosition.unsettled_pnl := u |>) in
  let? fee := cast U64 user_fee in
  let? x := cadd U64 user.(User.total_fee_paid) fee in
  let user := user <| User.total_fee_paid := x |> in
  let? x := cadd U128 user.(User.total_token_discount) token_discount in
  let user := user <| User.total_token_discount := x |> in
  let? x := cadd U128 user.(User.total_referee_discount) referee_discount in
  Ok (user <| User.total_referee_discount := x |>).

(** The fees of a trade: the market's, the user's and the referrer's shares. *)
Definition settle_trade (state : State) (users : UserMap) (market : Market) (user : User)
    (position_index : nat) (discount_token : option TokenAccount) (referrer : option Pubkey)
    (quote_asset_amount quote_asset_amount_surplus pnl : Z)
    : result (UserMap * Market * User) :=
  let? ' (user_fee, fee_to_market, token_discount, referrer_reward, referee_discount) :=
    calculate_fee_for_trade quote_asset_amount state.(State.fee_structure)
      (TokenAccount.amount <$> discount_token) (bool_decide (is_Some referrer))
      quote_asset_amount_surplus in
  let? market := add_market_fee market fee_to_market in
  let? user := charge_trade user position_index pnl user_fee token_discount
                 referee_discount in
  let? users := match referrer with
                | Some key => reward_referrer users key referrer_reward
                | None => Ok users
                end in
  Ok (users, market, user).

(** [get_then_update_id!(market, next_trade_record_id)] *)
Definition next_trade_record (market : Market) : Market :=
  market <| Market.next_trade_record_id :=
    (get_then_update_id market.(Market.next_trade_record_id)).2 |>.

(** The first block of [open_position]: the mark price, its distance to the oracle and
    the oracle's validity, with the oracle's average brought up to date. *)
Definition observe_market (state : State) (market : Market) (oracle : AccountInfo)
    (clock : Clock) : result (Market * (Z * Z * bool)) :=
  let? mark_price_before := mark_price market.(Market.amm) in
  let? oracle_price_data :=
    amm_get_oracle_price market.(Market.amm) oracle clock.(Clock.slot) in
  let? spread := calculate_oracle_mark_spread_pct market.(Market.amm) oracle_price_data
                   (Some mark_price_before) in
  let? oracle_valid := is_oracle_valid market.(Market.amm) oracle_price_data
    state.(State.oracle_guard_rails).(OracleGuardRails.validity) in
  let? amm :=
    if (oracle_valid : bool) then
      let? ' (amm, _) := update_oracle_price_twap market.(Market.amm)
        clock.(Clock.unix_timestamp) oracle_price_data (Some mark_price_before) in
      Ok amm
    else Ok market.(Market.amm) in
  Ok (market <| Market.amm := amm |>, (mark_price_before, spread, oracle_valid)).

(** The checks of the distance between mark and oracle price around a trade. *)
Definition check_divergence (state : State) (spread_before spread_after : Z)
    (is_oracle_valid potentially_risk_increasing : bool) : result () :=
  let rails := state.(State.oracle_guard_rails).(OracleGuardRails.price_divergence) in
  let? before := is_oracle_mark_too_divergent spread_before rails in
  let? after := is_oracle_mark_too_divergent spread_after rails in
  if after && negb before && is_oracle_valid then Err OracleMarkSpreadLimit
  else if after && (unsigned_abs spread_before <=? unsigned_abs spread_after)
          && is_oracle_valid && potentially_risk_increasing
  then Err OracleMarkSpreadLimit
  else Ok ().

Definition open_position (state : State) (users : UserMap) (bank_map : BankMap)
    (market_map : MarketMap) (oracle_map : OracleMap) (accounts : list Remaining)
    (user_key authority : Pubkey) (oracle : AccountInfo) (clock : Clock)
    (direction : PositionDirection) (quote_asset_amount market_index limit_price : Z)
    (optional_accounts : ManagePositionOptionalAccounts)
    : result (UserMap * MarketMap * OracleMap) :=
  let now := clock.(Clock.unix_timestamp) in
  let? ' () := exchange_not_paused state in
  let? ' (user, users) := load_mut users user_key in
  if quote_asset_amount =? 0 then Err TradeSizeTooSmall
  else
    let? user := settle_funding_payment user market_map in
    let? ' (user, position_index) := get_or_add_position user market_index in
    let? ' (market, markets) := market_get_ref_mut market_map market_index in
    let? ' (market, (mark_price_before, spread_before, is_oracle_valid)) :=
      observe_market state market oracle clock in
    let? ' (market, user, update) := update_position_with_quote_asset_amount
      quote_asset_amount direction market user position_index mark_price_before now in
    let market_map := drop_mut markets market_index market in
    let risk_increasing := update.(PositionUpdate.potentially_risk_increasing) in
    let? market := market_get_ref market_map market_index in
    let? mark_price_after := mark_price market.(Market.amm) in
    let? oracle_price_data :=
      amm_get_oracle_price market.(Market.amm) oracle clock.(Clock.slot) in
    let? spread_after := calculate_oracle_mark_spread_pct market.(Market.amm)
      oracle_price_data (Some mark_price_after) in
    let? ' (oracle_map, meets_requirement) :=
      meets_initial_margin_requirement user market_map bank_map oracle_map in
    if negb meets_requirement && risk_increasing then Err InsufficientCollateral
    else
      let? ' (discount_token, referrer, _) :=
        get_discount_token_and_referrer optional_accounts accounts
          state.(State.discount_mint) user_key authority in
      let? ' (market, markets) := market_get_ref_mut market_map market_index in
      let? ' (users, market, user) := settle_trade state users market user position_index
        discount_token referrer update.(PositionUpdate.quote_asset_amount)
        update.(PositionUpdate.quote_asset_amount_surplus) update.(PositionUpdate.pnl) in
      let? ' () := check_divergence state spread_before spread_after is_oracle_valid
                     risk_increasing in
      let market := next_trade_record market in
      let? limit_satisfied :=
        if negb (limit_price =? 0) then
          limit_price_satisfied limit_price update.(PositionUpdate.quote_asset_amount)
            update.(PositionUpdate.base_asset_amount) direction
        else Ok true in
      if negb limit_satisfied then Err SlippageOutsideLimit
      else
        let? market := update_funding_rate market oracle now clock.(Clock.slot)
          state.(State.oracle_guard_rails) state.(State.funding_paused)
          (Some mark_price_before) in
        Ok (drop_mut users user_key user, drop_mut markets market_index market, oracle_map).

(** The market is borrowed from the first lines to the end. *)
Definition close_position (state : State) (users : UserMap) (market_map : MarketMap)
    (accounts : list Remaining) (user_key authority : Pubkey) (oracle : AccountInfo)
    (clock : Clock) (market_index : Z)
    (optional_accounts : ManagePositionOptionalAccounts) : result (UserMap * MarketMap) :=
  let now := clock.(Clock.unix_timestamp) in
  let? ' () := exchange_not_paused state in
  let? ' (user, users) := load_mut users user_key in
  let? user := settle_funding_payment user market_map in
  let? position_index := get_position_index user.(User.positions) market_index in
  let? ' (market, markets) := market_get_ref_mut market_map market_index in
  let? mark_price_before := mark_price market.(Market.amm) in
  let? oracle_price_data :=
    amm_get_oracle_price market.(Market.amm) oracle clock.(Clock.slot) in
  let? spread_before := calculate_oracle_mark_spread_pct market.(Market.amm)
    oracle_price_data (Some mark_price_before) in
  let? p := get_position user position_index in
  let? ' (market, p, (quote_asset_amount, _, surplus, pnl)) :=
    close market p now None (Some mark_price_before) true in
  let user := set_position user position_index p in
  let? ' (discount_token, referrer, _) :=
    get_discount_token_and_referrer optional_accounts accounts state.(State.discount_mint)
      user_key authority in
  let? ' (users, market, user) := settle_trade state users market user position_index
    discount_token referrer quote_asset_amount surplus pnl in
  let? mark_price_after := mark_price market.(Market.amm) in
  let? spread_after := calculate_oracle_mark_spread_pct market.(Market.amm)
    oracle_price_data (Some mark_price_after) in
  let? oracle_valid := is_oracle_valid market.(Market.amm) oracle_price_data
    state.(State.oracle_guard_rails).(OracleGuardRails.validity) in
  let? amm :=
    if (oracle_valid : bool) then
      let? ' (amm, _) := update_oracle_price_twap market.(Market.amm) now oracle_price_data
        (Some mark_price_before) in
      Ok amm
    else Ok market.(Market.amm) in
  let market := market <| Market.amm := amm |> in
  let? ' () := check_divergence state spread_before spread_after oracle_valid false in
  let market := next_trade_record market in
  let? market := update_funding_rate market oracle now clock.(Clock.slot)
    state.(State.oracle_guard_rails) state.(State.funding_paused) (Some mark_price_before) in
  Ok (drop_mut users user_key user, drop_mut markets market_index market).
End Trades.

(** *** Entry points of the orders *)

Section OrderInstructions.
Context `{BnLib} `{OracleAccounts} `{Roots}.

(** The market of the first order of the user that satisfies [p]. *)
Definition order_market_index (p : Order → bool) (users : UserMap) (user_key : Pubkey)
    : result Z :=
  let? user := load_cell users user_key UnableToLoadAccountLoader
                 UnableToLoadAccountLoader in
  let? order_index := ok_or (iter_position p user.(User.orders)) OrderDoesNotExist in
  let? order := get_order user order_index in
  Ok order.(Order.market_index).

Definition place_order_ix (state : State) (order_state : OrderState) (users : UserMap)
    (accounts : list Remaining) (user_key authority : Pubkey) (oracle : AccountInfo)
    (clock : Clock) (params : OrderParams)
    (optional_accounts : ManagePositionOptionalAccounts) : result UserMap :=
  let '(_, accounts) := load_oracle_map accounts clock.(Clock.slot) in
  let? ' (_, accounts) := load_bank_map ∅ accounts in
  let? ' (market_map, accounts) := load_market_map ∅
    (get_market_oracles params.(OrderParams.market_index) oracle) accounts in
  let? ' (discount_token, accounts) :=
    get_discount_token optional_accounts.(discount_token) accounts
      state.(State.discount_mint) authority in
  let? ' (referrer, _) :=
    get_referrer optional_accounts.(referrer) accounts user_key None in
  if bool_decide (params.(OrderParams.order_type) = OrderType.Market)
  then Err MarketOrderMustBeInPlaceAndFill
  else if params.(OrderParams.immediate_or_cancel) then Err InvalidOrder
  else place_order state order_state users user_key market_map
         (TokenAccount.amount <$> discount_token) referrer clock params (Some oracle).

(** [cancel_order] and [cancel_order_by_user_id] differ in how they find the order. *)
Definition cancel_with (find : Order → bool)
    (cancel : MarketMap → BankMap → OracleMap → result (UserMap * OracleMap))
    (users : UserMap) (accounts : list Remaining) (user_key : Pubkey)
    (oracle : AccountInfo) (clock : Clock) : result UserMap :=
  let? market_index := order_market_index find users user_key in
  let '(oracle_map, accounts) := load_oracle_map accounts clock.(Clock.slot) in
  let? ' (bank_map, accounts) := load_bank_map ∅ accounts in
  let? ' (market_map, _) :=
    load_market_map ∅ (get_market_oracles market_index oracle) accounts in
  let? ' (users, _) := cancel market_map bank_map oracle_map in
  Ok users.

Definition cancel_order_ix (state : State) (users : UserMap) (accounts : list Remaining)
    (user_key : Pubkey) (oracle : AccountInfo) (clock : Clock) (order_id : Z)
    : result UserMap :=
  cancel_with (λ o, o.(Order.order_id) =? order_id)
    (λ market_map bank_map oracle_map,
      cancel_order_by_order_id state order_id users user_key market_map bank_map oracle_map
        clock (Some oracle))
    users accounts user_key oracle clock.

Definition cancel_order_by_user_id (state : State) (users : UserMap)
    (accounts : list Remaining) (user_key : Pubkey) (oracle : AccountInfo) (clock : Clock)
    (user_order_id : Z) : result UserMap :=
  cancel_with (λ o, o.(Order.user_order_id) =? user_order_id)
    (λ market_map bank_map oracle_map,
      cancel_order_by_user_order_id state user_order_id users user_key market_map bank_map
        oracle_map clock (Some oracle))
    users accounts user_key oracle clock.

Definition fill_order_ix (state : State) (order_state : OrderState) (users : UserMap)
    (accounts : list Remaining) (user_key filler_key : Pubkey) (oracle : AccountInfo)
    (clock : Clock) (order_id : Z) : result (UserMap * MarketMap) :=
  let? ' () := exchange_not_paused state in
  let? market_index :=
    order_market_index (λ o, o.(Order.order_id) =? order_id) users user_key in
  let '(oracle_map, accounts) := load_oracle_map accounts clock.(Clock.slot) in
  let? ' (bank_map, accounts) :=
    load_bank_map (get_writable_banks QUOTE_ASSET_BANK_INDEX) accounts in
  let? ' (market_map, accounts) := load_market_map (get_writable_markets market_index)
    (get_market_oracles market_index oracle) accounts in
  let? referrer := get_referrer_for_fill_order accounts user_key order_id users in
  let? ' (users, market_map, _, base_asset_amount) :=
    fill_order order_id state order_state users user_key market_map bank_map oracle_map
      oracle filler_key referrer clock in
  if base_asset_amount =? 0 then Err CouldNotFillOrder else Ok (users, market_map).

(** The id of the order that was placed last. *)
Definition last_order_id (users : UserMap) (user_key : Pubkey) : result Z :=
  let? user := load_cell users user_key UnableToLoadAccountLoader
                 UnableToLoadAccountLoader in
  if user.(User.next_order_id) =? 1 then Ok (int_max U64)
  else Ok (wrap U64 (user.(User.next_order_id) - 1)).

Definition place_and_fill_order (state : State) (order_state : OrderState) (users : UserMap)
    (accounts : list Remaining) (user_key authority : Pubkey) (oracle : AccountInfo)
    (clock : Clock) (params : OrderParams)
    (optional_accounts : ManagePositionOptionalAccounts) : result (UserMap * MarketMap) :=
  let? ' () := exchange_not_paused state in
  let market_index := params.(OrderParams.market_index) in
  let '(oracle_map, accounts) := load_oracle_map accounts clock.(Clock.slot) in
  let? ' (bank_map, accounts) :=
    load_bank_map (get_writable_banks QUOTE_ASSET_BANK_INDEX) accounts in
  let? ' (market_map, accounts) := load_market_map (get_writable_markets market_index)
    (get_market_oracles market_index oracle) accounts in
  let? ' (discount_token, accounts) :=
    get_discount_token optional_accounts.(discount_token) accounts
      state.(State.discount_mint) authority in
  let? ' (referrer, _) :=
    get_referrer optional_accounts.(referrer) accounts user_key None in
  let? users := place_order state order_state users user_key market_map
    (TokenAccount.amount <$> discount_token) referrer clock params (Some oracle) in
  let? order_id := last_order_id users user_key in
  let? ' (users, market_map, oracle_map, base_asset_amount_filled) :=
    fill_order order_id state order_state users user_key market_map bank_map oracle_map
      oracle user_key referrer clock in
  if params.(OrderParams.immediate_or_cancel)
     && negb (params.(OrderParams.base_asset_amount) =? base_asset_amount_filled)
  then
    let? ' (users, _) := cancel_order_by_order_id state order_id users user_key market_map
      bank_map oracle_map clock (Some oracle) in
    Ok (users, market_map)
  else Ok (users, market_map).
End OrderInstructions.
