(* ===== verification/EventOrders.v ===== *)
(** * The records of orders (controller/orders.rs, lib.rs)

    The placement, the cancellation and the fill of an order, and the instructions that
    do so, with the records that they emit. *)

From stdpp Require Import base numbers list gmap.
From S2P Require Import Prelude Constants Bn State Value AmmMath Twap Oracle Maps.
From S2P Require Import PositionMath CurveMath Repeg AmmController OrdersMath Position.
From S2P Require Import Funding Fees Margin OrderValidation Orders Events EventFunding.
From S2P Require Import Addresses Tokens BankHandlers Loading Trading.
Local Open Scope Z_scope.

(** ** Definitions *)

(** The record of an order that is not filled. *)
Definition order_record (now : Z) (user_key authority : Pubkey) (order : Order)
    (action : OrderAction) : OrderRecord := {|
  OrderRecord.ts := now;
  OrderRecord.user := user_key;
  OrderRecord.authority := authority;
  OrderRecord.order := order;
  OrderRecord.action := action;
  OrderRecord.filler := Pubkey_default;
  OrderRecord.trade_record_id := 0;
  OrderRecord.base_asset_amount_filled := 0;
  OrderRecord.quote_asset_amount_filled := 0;
  OrderRecord.fee := 0;
  OrderRecord.filler_reward := 0;
  OrderRecord.quote_asset_amount_surplus := 0;
|}.

Section Definitions.
Context `{BnLib} `{OracleAccounts} `{Roots}.

Definition place_order_for_emits (state : State) (order_state : OrderState) (user : User)
    (user_key : Pubkey) (market_map : MarketMap) (discount_token : option Z)
    (referrer : option Pubkey) (clock : Clock) (params : OrderParams)
    (oracle : option AccountInfo) : emits User :=
  let now := clock.(Clock.unix_timestamp) in
  let! user := settle_funding_payment_emits user user_key market_map now in
  let! new_order_index :=
    ok_or (iter_position (λ o, bool_decide (o.(Order.status) = Init)) user.(User.orders))
      MaxNumberOfOrders in
  let! discount_tier :=
    calculate_order_fee_tier state.(State.fee_structure) discount_token in
  let! ' () := quiet (
    if 0 <? params.(OrderParams.user_order_id) then
      match iter_position (λ o, o.(Order.user_order_id) =? params.(OrderParams.user_order_id))
              user.(User.orders) with
      | Some _ => Err UserOrderIdAlreadyInUse
      | None => Ok ()
      end
    else Ok ()) in
  let market_index := params.(OrderParams.market_index) in
  let! market := market_get_ref market_map market_index in
  let! ' (user, position_index) := get_or_add_position user market_index in
  let! market_position := get_position user position_index in
  let market_position := market_position <| MarketPosition.open_orders :=
    wrap U128 (market_position.(MarketPosition.open_orders) + 1) |> in
  let user := set_position user position_index market_position in
  let order_base_asset_amount :=
    get_base_asset_amount_for_order params market market_position in
  let '(order_id, next_order_id) := get_then_update_id user.(User.next_order_id) in
  let user := user <| User.next_order_id := next_order_id |> in
  let order := new_order params now order_id
    market_position.(MarketPosition.base_asset_amount) order_base_asset_amount
    discount_tier referrer in
  let! valid_oracle_price := get_valid_oracle_price oracle market order
    state.(State.oracle_guard_rails).(OracleGuardRails.validity) clock.(Clock.slot) in
  let! ' () := validate_order order market order_state valid_oracle_price in
  let user := set_order user new_order_index order in
  let! ' () := emit (EOrder (order_record now user_key user.(User.authority) order
                               OrderAction.Place)) in
  quiet (Ok user).

Definition place_order_emits (state : State) (order_state : OrderState) (users : UserMap)
    (user_key : Pubkey) (market_map : MarketMap) (discount_token : option Z)
    (referrer : option Pubkey) (clock : Clock) (params : OrderParams)
    (oracle : option AccountInfo) : emits UserMap :=
  let! ' (user, users) := load_mut users user_key in
  let! user := place_order_for_emits state order_state user user_key market_map
    discount_token referrer clock params oracle in
  quiet (Ok (drop_mut users user_key user)).

Definition cancel_order_emits (state : State) (order_index : nat) (user : User)
    (user_key : Pubkey) (market_map : MarketMap) (bank_map : BankMap)
    (oracle_map : OracleMap) (clock : Clock) (oracle : option AccountInfo)
    (best_effort : bool) : emits (User * OracleMap) :=
  let now := clock.(Clock.unix_timestamp) in
  let! user := settle_funding_payment_emits user user_key market_map now in
  let! order := get_order user order_index in
  if bool_decide (order.(Order.status) ≠ Open) then quiet (Err OrderNotOpen)
  else
    let order_market_index := order.(Order.market_index) in
    let! market := market_get_ref market_map order_market_index in
    let! valid_oracle_price := get_valid_oracle_price oracle market order
      state.(State.oracle_guard_rails).(OracleGuardRails.validity) clock.(Clock.slot) in
    let! ' (oracle_map, is_cancelable) := quiet (
      if best_effort then
        check_if_order_can_be_canceled user order_index market_map bank_map oracle_map
          valid_oracle_price
      else
        let? oracle_map := validate_order_can_be_canceled user order_index market_map
          bank_map oracle_map valid_oracle_price in
        Ok (oracle_map, true)) in
    if negb is_cancelable then quiet (Ok (user, oracle_map))
    else
      let! ' () := emit (EOrder (order_record now user_key user.(User.authority) order
                                   OrderAction.Cancel)) in
      let! position_index := get_position_index user.(User.positions) order_market_index in
      let! p := get_position user position_index in
      let user := set_position user position_index
        (p <| MarketPosition.open_orders :=
                wrap U128 (p.(MarketPosition.open_orders) - 1) |>) in
      quiet (Ok (set_order user order_index Order_default, oracle_map)).

Definition cancel_first_order_emits (matches : Order → bool) (state : State)
    (users : UserMap) (user_key : Pubkey) (market_map : MarketMap) (bank_map : BankMap)
    (oracle_map : OracleMap) (clock : Clock) (oracle : option AccountInfo)
    : emits (UserMap * OracleMap) :=
  let! ' (user, users) := load_mut users user_key in
  let! order_index := ok_or (iter_position matches user.(User.orders)) OrderDoesNotExist in
  let! ' (user, oracle_map) := cancel_order_emits state order_index user user_key market_map
    bank_map oracle_map clock oracle false in
  quiet (Ok (drop_mut users user_key user, oracle_map)).

(** [check_fill] with the mark and oracle prices after the fill, which are recorded. *)
Definition check_fill_prices (state : State) (user : User) (market_map : MarketMap)
    (bank_map : BankMap) (oracle_map : OracleMap) (market_index : Z) (oracle : AccountInfo)
    (slot spread_before : Z) (oracle_valid post_only : bool) (fill : Fill)
    : result (OracleMap * (Z * Z)) :=
  let? ' (market, _) := market_get_ref_mut market_map market_index in
  let? mark_price_after := mark_price market.(Market.amm) in
  let? oracle_price_data := amm_get_oracle_price market.(Market.amm) oracle slot in
  let? spread_after := calculate_oracle_mark_spread_pct market.(Market.amm)
    oracle_price_data (Some mark_price_after) in
  let? ' () := check_oracle_mark_spread spread_before spread_after
    state.(State.oracle_guard_rails).(OracleGuardRails.price_divergence) oracle_valid
    fill.(fill_risk_increasing) in
  let? ' (oracle_map, meets_maintenance_requirement) :=
    meets_fill_requirement user market_map bank_map oracle_map post_only in
  if negb meets_maintenance_requirement && fill.(fill_risk_increasing)
  then Err InsufficientCollateral
  else Ok (oracle_map, (mark_price_after, oracle_price_data.(OraclePriceData.price))).

(** The fees, the two records and the release of the order. *)
Definition settle_fill_emits (state : State) (order_state : OrderState) (users : UserMap)
    (user : User) (user_key filler_key : Pubkey) (referrer : option Pubkey)
    (market_map : MarketMap) (market_index : Z) (order_index : nat) (order : Order)
    (now mark_price_before mark_price_after oracle_price_after : Z) (fill : Fill)
    : emits (UserMap * User * MarketMap) :=
  let! ' (user_fee, fee_to_market, token_discount, filler_reward, referrer_reward,
          referee_discount) :=
    calculate_fee_for_order fill.(fill_quote) state.(State.fee_structure)
      order_state.(OrderState.order_filler_reward_structure) order.(Order.discount_tier)
      order.(Order.ts) now (bool_decide (is_Some referrer)) (filler_key =? user_key)
      fill.(fill_surplus) order.(Order.post_only) in
  let! ' (market, borrowed_map) := market_get_ref_mut market_map market_index in
  let! market := add_market_fee market fee_to_market in
  let market_map := drop_mut borrowed_map market_index market in
  let! user := charge_user user market_index user_fee token_discount referee_discount in
  let! users := quiet (if filler_key =? user_key then Ok users
                       else pay_filler users filler_key market_index filler_reward) in
  let! users := quiet (match referrer with
                       | Some key => reward_referrer users key referrer_reward
                       | None => Ok users
                       end) in
  let! market := market_get_ref market_map market_index in
  let direction := order.(Order.direction) in
  let! order := get_order user order_index in
  let! order := update_order_after_trade order
    market.(Market.amm).(AMM.minimum_base_asset_trade_size) fill.(fill_base)
    fill.(fill_quote) user_fee in
  let user := set_order user order_index order in
  let! ' (market, borrowed_map) := market_get_ref_mut market_map market_index in
  let '(record_id, next_id) := get_then_update_id market.(Market.next_trade_record_id) in
  let market := market <| Market.next_trade_record_id := next_id |> in
  let! ' () := emit (ETrade {|
    TradeRecord.ts := now;
    TradeRecord.record_id := record_id;
    TradeRecord.user_authority := user.(User.authority);
    TradeRecord.user := user_key;
    TradeRecord.direction := direction;
    TradeRecord.base_asset_amount := fill.(fill_base);
    TradeRecord.quote_asset_amount := fill.(fill_quote);
    TradeRecord.mark_price_before := mark_price_before;
    TradeRecord.mark_price_after := mark_price_after;
    TradeRecord.fee := user_fee;
    TradeRecord.quote_asset_amount_surplus := fill.(fill_surplus);
    TradeRecord.referee_discount := referee_discount;
    TradeRecord.token_discount := token_discount;
    TradeRecord.liquidation := false;
    TradeRecord.market_index := market_index;
    TradeRecord.oracle_price := oracle_price_after;
  |}) in
  let market_map := drop_mut borrowed_map market_index market in
  let! ' () := emit (EOrder {|
    OrderRecord.ts := now;
    OrderRecord.user := user_key;
    OrderRecord.authority := user.(User.authority);
    OrderRecord.order := order;
    OrderRecord.action := OrderAction.Fill;
    OrderRecord.filler := filler_key;
    OrderRecord.trade_record_id := record_id;
    OrderRecord.base_asset_amount_filled := fill.(fill_base);
    OrderRecord.quote_asset_amount_filled := fill.(fill_quote);
    OrderRecord.fee := user_fee;
    OrderRecord.filler_reward := filler_reward;
    OrderRecord.quote_asset_amount_surplus := fill.(fill_surplus);
  |}) in
  let! user := release_order_if_filled user order_index market_index in
  quiet (Ok (users, user, market_map)).

Definition fill_order_emits (order_id : Z) (state : State) (order_state : OrderState)
    (users : UserMap) (user_key : Pubkey) (market_map : MarketMap) (bank_map : BankMap)
    (oracle_map : OracleMap) (oracle : AccountInfo) (filler_key : Pubkey)
    (referrer : option Pubkey) (clock : Clock)
    : emits (UserMap * MarketMap * OracleMap * Z) :=
  let now := clock.(Clock.unix_timestamp) in
  let! ' (user, users) := load_mut users user_key in
  let! user := settle_funding_payment_emits user user_key market_map now in
  let! order_index :=
    ok_or (iter_position (λ o, o.(Order.order_id) =? order_id) user.(User.orders))
      OrderDoesNotExist in
  let! order := get_order user order_index in
  if bool_decide (order.(Order.status) ≠ Open) then quiet (Err OrderNotOpen)
  else
    let market_index := order.(Order.market_index) in
    let! ' (market, borrowed_map) := market_get_ref_mut market_map market_index in
    let! ' (market, (mark_price_before, spread_before, oracle_valid, oracle_price)) :=
      prepare_market state market oracle clock in
    let market_map := drop_mut borrowed_map market_index market in
    let valid_oracle_price := if oracle_valid then Some oracle_price else None in
    let! ' (user, market_map, oracle_map, fill) := execute_order user order_index market_map
      bank_map oracle_map market_index mark_price_before now valid_oracle_price in
    if fill.(fill_base) =? 0
    then quiet (Ok (drop_mut users user_key user, market_map, oracle_map, 0))
    else
      let! ' (oracle_map, (mark_price_after, oracle_price_after)) :=
        check_fill_prices state user market_map bank_map oracle_map market_index
          oracle clock.(Clock.slot) spread_before oracle_valid order.(Order.post_only)
          fill in
      let! ' (users, user, market_map) := settle_fill_emits state order_state users user
        user_key filler_key referrer market_map market_index order_index order now
        mark_price_before mark_price_after oracle_price_after fill in
      let! ' (market, borrowed_map) := market_get_ref_mut market_map market_index in
      let! market := update_funding_rate_emits market_index market oracle now
        clock.(Clock.slot) state.(State.oracle_guard_rails) state.(State.funding_paused)
        (Some mark_price_before) in
      quiet (Ok (drop_mut users user_key user, drop_mut borrowed_map market_index market,
                 oracle_map, fill.(fill_base))).
End Definitions.

(** *** The instructions (lib.rs) *)

Section Instructions.
Context `{BnLib} `{OracleAccounts} `{Roots}.

Definition place_order_ix_emits (state : State) (order_state : OrderState) (users : UserMap)
    (accounts : list Remaining) (user_key authority : Pubkey) (oracle : AccountInfo)
    (clock : Clock) (params : OrderParams)
    (optional_accounts : ManagePositionOptionalAccounts) : emits UserMap :=
  let '(_, accounts) := load_oracle_map accounts clock.(Clock.slot) in
  let! ' (_, accounts) := load_bank_map ∅ accounts in
  let! ' (market_map, accounts) := load_market_map ∅
    (get_market_oracles params.(OrderParams.market_index) oracle) accounts in
  let! ' (discount_token, accounts) :=
    get_discount_token optional_accounts.(discount_token) accounts
      state.(State.discount_mint) authority in
  let! ' (referrer, _) :=
    get_referrer optional_accounts.(referrer) accounts user_key None in
  if bool_decide (params.(OrderParams.order_type) = OrderType.Market)
  then quiet (Err MarketOrderMustBeInPlaceAndFill)
  else if params.(OrderParams.immediate_or_cancel) then quiet (Err InvalidOrder)
  else place_order_emits state order_state users user_key market_map
         (TokenAccount.amount <$> discount_token) referrer clock params (Some oracle).

Definition cancel_with_emits (find : Order → bool)
    (cancel : MarketMap → BankMap → OracleMap → emits (UserMap * OracleMap))
    (users : UserMap) (accounts : list Remaining) (user_key : Pubkey)
    (oracle : AccountInfo) (clock : Clock) : emits UserMap :=
  let! market_index := order_market_index find users user_key in
  let '(oracle_map, accounts) := load_oracle_map accounts clock.(Clock.slot) in
  let! ' (bank_map, accounts) := load_bank_map ∅ accounts in
  let! ' (market_map, _) :=
    load_market_map ∅ (get_market_oracles market_index oracle) accounts in
  let! ' (users, _) := cancel market_map bank_map oracle_map in
  quiet (Ok users).

(** Both cancellations of one order, which differ in how they find it. *)
Definition cancel_first_ix_emits (matches : Order → bool) (state : State) (users : UserMap)
    (accounts : list Remaining) (user_key : Pubkey) (oracle : AccountInfo) (clock : Clock)
    : emits UserMap :=
  cancel_with_emits matches
    (λ market_map bank_map oracle_map,
      cancel_first_order_emits matches state users user_key market_map bank_map oracle_map
        clock (Some oracle))
    users accounts user_key oracle clock.

Definition cancel_order_ix_emits (state : State) (users : UserMap)
    (accounts : list Remaining) (user_key : Pubkey) (oracle : AccountInfo) (clock : Clock)
    (order_id : Z) : emits UserMap :=
  cancel_first_ix_emits (λ o, o.(Order.order_id) =? order_id) state users accounts user_key
    oracle clock.

Definition cancel_order_by_user_id_emits (state : State) (users : UserMap)
    (accounts : list Remaining) (user_key : Pubkey) (oracle : AccountInfo) (clock : Clock)
    (user_order_id : Z) : emits UserMap :=
  cancel_first_ix_emits (λ o, o.(Order.user_order_id) =? user_order_id) state users accounts
    user_key oracle clock.

Definition fill_order_ix_emits (state : State) (order_state : OrderState) (users : UserMap)
    (accounts : list Remaining) (user_key filler_key : Pubkey) (oracle : AccountInfo)
    (clock : Clock) (order_id : Z) : emits (UserMap * MarketMap) :=
  let! ' () := exchange_not_paused state in
  let! market_index :=
    order_market_index (λ o, o.(Order.order_id) =? order_id) users user_key in
  let '(oracle_map, accounts) := load_oracle_map accounts clock.(Clock.slot) in
  let! ' (bank_map, accounts) :=
    load_bank_map (get_writable_banks QUOTE_ASSET_BANK_INDEX) accounts in
  let! ' (market_map, accounts) := load_market_map (get_writable_markets market_index)
    (get_market_oracles market_index oracle) accounts in
  let! referrer := get_referrer_for_fill_order accounts user_key order_id users in
  let! ' (users, market_map, _, base_asset_amount) :=
    fill_order_emits order_id state order_state users user_key market_map bank_map
      oracle_map oracle filler_key referrer clock in
  quiet (if base_asset_amount =? 0 then Err CouldNotFillOrder else Ok (users, market_map)).

Definition place_and_fill_order_emits (state : State) (order_state : OrderState)
    (users : UserMap) (accounts : list Remaining) (user_key authority : Pubkey)
    (oracle : AccountInfo) (clock : Clock) (params : OrderParams)
    (optional_accounts : ManagePositionOptionalAccounts) : emits (UserMap * MarketMap) :=
  let! ' () := exchange_not_paused state in
  let market_index := params.(OrderParams.market_index) in
  let '(oracle_map, accounts) := load_oracle_map accounts clock.(Clock.slot) in
  let! ' (bank_map, accounts) :=
    load_bank_map (get_writable_banks QUOTE_ASSET_BANK_INDEX) accounts in
  let! ' (market_map, accounts) := load_market_map (get_writable_markets market_index)
    (get_market_oracles market_index oracle) accounts in
  let! ' (discount_token, accounts) :=
    get_discount_token optional_accounts.(discount_token) accounts
      state.(State.discount_mint) authority in
  let! ' (referrer, _) :=
    get_referrer optional_accounts.(referrer) accounts user_key None in
  let! users := place_order_emits state order_state users user_key market_map
    (TokenAccount.amount <$> discount_token) referrer clock params (Some oracle) in
  let! order_id := last_order_id users user_key in
  let! ' (users, market_map, oracle_map, base_asset_amount_filled) :=
    fill_order_emits order_id state order_state users user_key market_map bank_map
      oracle_map oracle user_key referrer clock in
  if params.(OrderParams.immediate_or_cancel)
     && negb (params.(OrderParams.base_asset_amount) =? base_asset_amount_filled)
  then
    let! ' (users, _) := cancel_first_order_emits (λ o, o.(Order.order_id) =? order_id)
      state users user_key market_map bank_map oracle_map clock (Some oracle) in
    quiet (Ok (users, market_map))
  else quiet (Ok (users, market_map)).
End Instructions.

(** ** Without the log *)

Section Erasure.
Context `{BnLib} `{OracleAccounts} `{Roots}.

Lemma place_order_for_erase st ost u key mm token referrer clock params oracle :
  erase (place_order_for_emits st ost u key mm token referrer clock params oracle)
  = place_order_for st ost u mm token referrer clock params oracle.
Proof. unfold place_order_for_emits, place_order_for. cbv zeta. erase_steps. Qed.
#[local] Hint Resolve place_order_for_erase : erase.

Lemma place_order_erase st ost users key mm token referrer clock params oracle :
  erase (place_order_emits st ost users key mm token referrer clock params oracle)
  = place_order st ost users key mm token referrer clock params oracle.
Proof. unfold place_order_emits, place_order. erase_steps. Qed.
#[local] Hint Resolve place_order_erase : erase.

Lemma cancel_order_erase st n u key mm bm om clock oracle best :
  erase (cancel_order_emits st n u key mm bm om clock oracle best)
  = cancel_order st n u mm bm om clock oracle best.
Proof. unfold cancel_order_emits, cancel_order. cbv zeta. erase_steps. Qed.
#[local] Hint Resolve cancel_order_erase : erase.

Lemma cancel_first_order_erase p st users key mm bm om clock oracle :
  erase (cancel_first_order_emits p st users key mm bm om clock oracle)
  = cancel_first_order p st users key mm bm om clock oracle.
Proof. unfold cancel_first_order_emits, cancel_first_order. erase_steps. Qed.
#[local] Hint Resolve cancel_first_order_erase : erase.

Lemma check_fill_prices_erase st u mm bm om i oracle slot before valid post fill :
  bind (check_fill_prices st u mm bm om i oracle slot before valid post fill)
    (λ a, Ok a.1)
  = check_fill st u mm bm om i oracle slot before valid post fill.
Proof.
  unfold check_fill_prices, check_fill.
  repeat match goal with
  | |- bind (bind ?m _) _ = bind ?m _ => destruct m; cbn [bind]; [|done|done]
  | |- bind (let '(_, _) := ?p in _) _ = _ => destruct p
  | |- bind (let '() := ?u in _) _ = _ => destruct u
  end.
  by destruct (_ && _).
Qed.

Lemma settle_fill_erase st ost users u uk fk referrer mm i n o now before after price fill :
  erase (settle_fill_emits st ost users u uk fk referrer mm i n o now before after price fill)
  = settle_fill st ost users u uk fk referrer mm i n o now fill.
Proof. unfold settle_fill_emits, settle_fill. cbv zeta. erase_steps. Qed.
#[local] Hint Resolve settle_fill_erase : erase.

Lemma fill_order_erase id st ost users uk mm bm om oracle fk referrer clock :
  erase (fill_order_emits id st ost users uk mm bm om oracle fk referrer clock)
  = fill_order id st ost users uk mm bm om oracle fk referrer clock.
Proof.
  unfold fill_order_emits, fill_order. cbv zeta. erase_steps.
  eapply erase_bind_fst; [apply check_fill_prices_erase|]. intros om' [after price].
  erase_steps.
Qed.
#[local] Hint Resolve fill_order_erase : erase.

Lemma place_order_ix_erase st ost users accounts key auth oracle clock params opt :
  erase (place_order_ix_emits st ost users accounts key auth oracle clock params opt)
  = place_order_ix st ost users accounts key auth oracle clock params opt.
Proof. unfold place_order_ix_emits, place_order_ix. erase_steps. Qed.

Lemma cancel_first_ix_erase p st users accounts key oracle clock :
  erase (cancel_first_ix_emits p st users accounts key oracle clock)
  = cancel_with p
      (λ mm bm om, cancel_first_order p st users key mm bm om clock (Some oracle))
      users accounts key oracle clock.
Proof. unfold cancel_first_ix_emits, cancel_with_emits, cancel_with. erase_steps. Qed.

Lemma cancel_order_ix_erase st users accounts key oracle clock id :
  erase (cancel_order_ix_emits st users accounts key oracle clock id)
  = cancel_order_ix st users accounts key oracle clock id.
Proof. apply cancel_first_ix_erase. Qed.

Lemma cancel_order_by_user_id_erase st users accounts key oracle clock id :
  erase (cancel_order_by_user_id_emits st users accounts key oracle clock id)
  = cancel_order_by_user_id st users accounts key oracle clock id.
Proof. apply cancel_first_ix_erase. Qed.

Lemma fill_order_ix_erase st ost users accounts key filler oracle clock id :
  erase (fill_order_ix_emits st ost users accounts key filler oracle clock id)
  = fill_order_ix st ost users accounts key filler oracle clock id.
Proof. unfold fill_order_ix_emits, fill_order_ix. erase_steps. Qed.

Lemma place_and_fill_order_erase st ost users accounts key auth oracle clock params opt :
  erase (place_and_fill_order_emits st ost users accounts key auth oracle clock params opt)
  = place_and_fill_order st ost users accounts key auth oracle clock params opt.
Proof.
  unfold place_and_fill_order_emits, place_and_fill_order, cancel_order_by_order_id.
  cbv zeta. erase_steps.
Qed.
End Erasure.

#[export] Hint Resolve place_order_ix_erase cancel_order_ix_erase
  cancel_order_by_user_id_erase fill_order_ix_erase place_and_fill_order_erase : erase.
