(* ===== verification/Liquidation.v ===== *)
(** * Liquidation (lib.rs)

    [liquidate]: the loops over the markets of the user, which close or reduce
    positions until the margin requirement is met, and the division of the fee
    between the liquidator and the insurance fund.  A [continue] leaves the progress
    of a loop as it was, a [break] is the flag that a step returns.  EventTrades adds the
    records that the code emits. *)

From stdpp Require Import base numbers list gmap.
From S2P Require Import Prelude Constants Bn State Value AmmMath BankBalance Twap Oracle.
From S2P Require Import Maps PositionMath Position Funding Margin Orders Addresses Tokens BankHandlers.
From S2P Require Import Trading.
Local Open Scope Z_scope.

(** ** Definitions *)

(** The variables of the loops. *)
Record Progress := mk_progress {
  liquidated_user : User;
  liquidated_markets : MarketMap;
  base_asset_value_closed : Z;
  liquidation_fee : Z;
  requirement_left : Z;
}.

(** A loop over a list that a step may leave. *)
Fixpoint loop {A B} (step : B → A → result (B * bool)) (acc : B) (l : list A) : result B :=
  match l with
  | [] => Ok acc
  | x :: l =>
      let? ' (acc, break) := step acc x in
      if (break : bool) then Ok acc else loop step acc l
  end.

Section Liquidate.
Context `{BnLib} `{OracleAccounts} `{TokenProgram}.

(** Without a valid oracle, a mark price far from its average blocks the market. *)
Definition mark_twap_too_divergent (market : Market) (status : MarketStatus) : result bool :=
  if negb status.(MarketStatus.oracle_status).(OracleStatus.is_valid) then
    let? mark_twap_divergence := calculate_mark_twap_spread_pct market.(Market.amm)
      status.(MarketStatus.mark_price_before) in
    Ok (MAX_MARK_TWAP_DIVERGENCE <=? unsigned_abs mark_twap_divergence)
  else Ok false.

Definition close_slippage (status : MarketStatus) (existing_base_asset_amount : Z)
    : result Z :=
  match status.(MarketStatus.close_position_slippage) with
  | Some slippage => Ok slippage
  | None =>
      let? mark_price_before := cast_to_i128 status.(MarketStatus.mark_price_before) in
      calculate_slippage status.(MarketStatus.base_asset_value)
        (unsigned_abs existing_base_asset_amount) mark_price_before
  end.

Definition slippage_too_large (slippage_pct : Z) : bool :=
  (MAX_LIQUIDATION_SLIPPAGE <? slippage_pct) || (slippage_pct <? - MAX_LIQUIDATION_SLIPPAGE).

(** The distance between oracle and mark after a trade of that slippage. *)
Definition divergence_after (oracle_mark_spread_pct slippage_pct : Z) : result Z :=
  if negb (slippage_too_large slippage_pct) then cadd I128 oracle_mark_spread_pct slippage_pct
  else if 0 <? slippage_pct
  then cadd I128 oracle_mark_spread_pct (MAX_LIQUIDATION_SLIPPAGE * 2)
  else csub I128 oracle_mark_spread_pct (MAX_LIQUIDATION_SLIPPAGE * 2).

(** The trade would push the mark price outside of its limit and away from a valid
    oracle. *)
Definition worsens_divergence (state : State) (status : MarketStatus) (after : Z)
    : result bool :=
  let oracle := status.(MarketStatus.oracle_status) in
  let? too_divergent := is_oracle_mark_too_divergent after
    state.(State.oracle_guard_rails).(OracleGuardRails.price_divergence) in
  Ok (oracle.(OracleStatus.is_valid) && too_divergent
      && (unsigned_abs oracle.(OracleStatus.oracle_mark_spread_pct) <? unsigned_abs after)).

(** [amount * part / whole] *)
Definition share (amount part whole : Z) : result Z :=
  let? x := cmul U128 amount part in
  cdiv U128 x whole.

(** The end of both loops' bodies: the profit goes to the user, the requirement falls
    with the value closed, and the fee grows. *)
Definition record_liquidation (progress : Progress) (market : Market) (markets : MarketMap)
    (user : User) (status : MarketStatus) (position_index : nat)
    (value_closed quote_asset_amount pnl requirement maximum_fee fee_base
     adjusted_total_collateral : Z) (always : bool) : result (Progress * bool) :=
  let? user := add_unsettled_pnl user position_index pnl in
  let? _ := mark_price market.(Market.amm) in
  let market := next_trade_record market in
  let? x := share requirement quote_asset_amount status.(MarketStatus.base_asset_value) in
  let? requirement_left := csub U128 progress.(requirement_left) x in
  let? market_liquidation_fee := share maximum_fee quote_asset_amount fee_base in
  let? fee := cadd U128 progress.(liquidation_fee) market_liquidation_fee in
  let? adjusted_total_collateral_after_fee := csub U128 adjusted_total_collateral fee in
  Ok (mk_progress user (drop_mut markets status.(MarketStatus.market_index) market)
        value_closed fee requirement_left,
      negb always && (requirement_left <? adjusted_total_collateral_after_fee)).

(** What a full liquidation does to a position: it is closed, or reduced as far as the
    slippage allows. *)
Definition liquidate_fully (market : Market) (p : MarketPosition) (status : MarketStatus)
    (slippage_pct now : Z) : result (Market * MarketPosition * (Z * Z)) :=
  let mark := Some status.(MarketStatus.mark_price_before) in
  if slippage_too_large slippage_pct then
    let? quote_asset_amount := share status.(MarketStatus.base_asset_value)
      MAX_LIQUIDATION_SLIPPAGE_U128 (unsigned_abs slippage_pct) in
    let? ' (market, p', (_, _, pnl)) :=
      reduce (direction_to_close_position p.(MarketPosition.base_asset_amount))
        quote_asset_amount market p now mark false in
    Ok (market, p', (quote_asset_amount, pnl))
  else
    let? ' (market, p', (quote_asset_amount, _, _, pnl)) :=
      close market p now None mark false in
    Ok (market, p', (quote_asset_amount, pnl)).

(** One market of a full liquidation. *)
Definition full_liquidation_step (state : State) (now : Z) (is_dust_position : bool)
    (maximum_liquidation_fee base_asset_value adjusted_total_collateral : Z)
    (progress : Progress) (status : MarketStatus) : result (Progress * bool) :=
  if status.(MarketStatus.base_asset_value) =? 0 then Ok (progress, false)
  else
    let market_index := status.(MarketStatus.market_index) in
    let? ' (market, markets) :=
      market_get_ref_mut progress.(liquidated_markets) market_index in
    let? blocked := mark_twap_too_divergent market status in
    if (blocked : bool) then Ok (progress, false)
    else
      let user := progress.(liquidated_user) in
      let? position_index := get_position_index user.(User.positions) market_index in
      let? p := get_position user position_index in
      let? mark_price_before := cast_to_i128 status.(MarketStatus.mark_price_before) in
      let? slippage := close_slippage status p.(MarketPosition.base_asset_amount) in
      let? slippage_pct := calculate_slippage_pct slippage mark_price_before in
      let? after := divergence_after
        status.(MarketStatus.oracle_status).(OracleStatus.oracle_mark_spread_pct)
        slippage_pct in
      let? worsens := worsens_divergence state status after in
      if (worsens : bool) then Ok (progress, false)
      else
        let? ' (market, p, (quote_asset_amount, pnl)) :=
          liquidate_fully market p status slippage_pct now in
        let? value_closed :=
          cadd U128 progress.(base_asset_value_closed) quote_asset_amount in
        record_liquidation progress market markets (set_position user position_index p)
          status position_index value_closed quote_asset_amount pnl
          status.(MarketStatus.maintenance_margin_requirement) maximum_liquidation_fee
          base_asset_value adjusted_total_collateral is_dust_position.

(** One market of a partial liquidation: a quarter of the slippage of a full close is
    taken for the slippage of the reduction, and a worse divergence fails. *)
Definition partial_liquidation_step (state : State) (now : Z)
    (maximum_liquidation_fee maximum_base_asset_value_closed adjusted_total_collateral : Z)
    (progress : Progress) (status : MarketStatus) : result (Progress * bool) :=
  if status.(MarketStatus.base_asset_value) =? 0 then Ok (progress, false)
  else
    let market_index := status.(MarketStatus.market_index) in
    let? ' (market, markets) :=
      market_get_ref_mut progress.(liquidated_markets) market_index in
    let? blocked := mark_twap_too_divergent market status in
    if (blocked : bool) then Ok (progress, false)
    else
      let user := progress.(liquidated_user) in
      let? position_index := get_position_index user.(User.positions) market_index in
      let? p := get_position user position_index in
      let? quote_asset_amount := share status.(MarketStatus.base_asset_value)
        state.(State.partial_liquidation_close_percentage_numerator)
        state.(State.partial_liquidation_close_percentage_denominator) in
      let? mark_price_before := cast_to_i128 status.(MarketStatus.mark_price_before) in
      let? slippage := close_slippage status p.(MarketPosition.base_asset_amount) in
      let? slippage := op_div I128 slippage 4 in
      let? slippage_pct := calculate_slippage_pct slippage mark_price_before in
      let? after := divergence_after
        status.(MarketStatus.oracle_status).(OracleStatus.oracle_mark_spread_pct)
        slippage_pct in
      let? worsens := worsens_divergence state status after in
      if (worsens : bool) then Err OracleMarkSpreadLimit
      else
        let? quote_asset_amount :=
          if slippage_too_large slippage_pct
          then share quote_asset_amount MAX_LIQUIDATION_SLIPPAGE_U128
                 (unsigned_abs slippage_pct)
          else Ok quote_asset_amount in
        let? value_closed :=
          cadd U128 progress.(base_asset_value_closed) quote_asset_amount in
        let? ' (market, p, (_, _, pnl)) :=
          reduce (direction_to_close_position p.(MarketPosition.base_asset_amount))
            quote_asset_amount market p now
            (Some status.(MarketStatus.mark_price_before)) false in
        record_liquidation progress market markets (set_position user position_index p)
          status position_index value_closed quote_asset_amount pnl
          status.(MarketStatus.partial_margin_requirement) maximum_liquidation_fee
          maximum_base_asset_value_closed adjusted_total_collateral false.

(** Dust positions are liquidated fully. *)
Definition is_dust_position (status : LiquidationStatus) : bool :=
  status.(LiquidationStatus.adjusted_total_collateral) <=? QUOTE_PRECISION.
Definition is_full_liquidation (status : LiquidationStatus) : bool :=
  bool_decide (status.(LiquidationStatus.liquidation_type) = FULL)
  || is_dust_position status.

(** The loops of both kinds of liquidation. *)
Definition liquidate_positions (state : State) (user : User) (market_map : MarketMap)
    (now : Z) (status : LiquidationStatus) : result Progress :=
  let start := mk_progress user market_map 0 0
                 status.(LiquidationStatus.margin_requirement) in
  let collateral := status.(LiquidationStatus.adjusted_total_collateral) in
  if is_full_liquidation status then
    let? maximum_fee := share status.(LiquidationStatus.total_collateral)
      state.(State.full_liquidation_penalty_percentage_numerator)
      state.(State.full_liquidation_penalty_percentage_denominator) in
    loop (full_liquidation_step state now (is_dust_position status) maximum_fee
            status.(LiquidationStatus.base_asset_value) collateral)
      start status.(LiquidationStatus.market_statuses)
  else
    let? maximum_fee := share status.(LiquidationStatus.total_collateral)
      state.(State.partial_liquidation_penalty_percentage_numerator)
      state.(State.partial_liquidation_penalty_percentage_denominator) in
    let? maximum_closed := share status.(LiquidationStatus.base_asset_value)
      state.(State.partial_liquidation_close_percentage_numerator)
      state.(State.partial_liquidation_close_percentage_denominator) in
    loop (partial_liquidation_step state now maximum_fee maximum_closed collateral)
      start status.(LiquidationStatus.market_statuses).

(** The liquidator's part of the fee; the insurance fund gets the rest. *)
Definition fee_to_liquidator (state : State) (full : bool) (withdrawal_amount : Z)
    : result Z :=
  cdiv U64 withdrawal_amount
    (if full then state.(State.full_liquidation_liquidator_share_denominator)
     else state.(State.partial_liquidation_liquidator_share_denominator)).

(** The deposit of the liquidator's part, who may be the user. *)
Definition pay_liquidator (users : UserMap) (bank_map : BankMap) (user : User)
    (user_key liquidator_key : Pubkey) (fee : Z) : result (UserMap * BankMap * User) :=
  if 0 <? fee then
    let? ' (bank, banks) := get_quote_asset_bank_mut bank_map in
    if liquidator_key =? user_key then
      let? k := get_quote_asset_bank_balance_mut user in
      let? ' (bank, user) := update_user_bank_balance fee Deposit bank user k in
      Ok (users, drop_mut banks QUOTE_ASSET_BANK_INDEX bank, user)
    else
      let? ' (liquidator, borrowed) := load_mut users liquidator_key in
      let? k := get_quote_asset_bank_balance_mut liquidator in
      let? ' (bank, liquidator) := update_user_bank_balance fee Deposit bank liquidator k in
      Ok (drop_mut borrowed liquidator_key liquidator,
          drop_mut banks QUOTE_ASSET_BANK_INDEX bank, user)
  else Ok (users, bank_map, user).

Definition liquidate (state : State) (users : UserMap) (bank_map : BankMap)
    (market_map : MarketMap) (oracle_map : OracleMap) (ledger : Ledger)
    (user_key liquidator_key bank_vault insurance_vault bank_vault_authority : Pubkey)
    (clock : Clock) : result (UserMap * BankMap * MarketMap * Ledger) :=
  let? ' () := exchange_not_paused state in
  let? ' (user, users) := load_mut users user_key in
  let? user := settle_funding_payment user market_map in
  let? ' (_, status) := calculate_liquidation_status user market_map bank_map oracle_map
    state.(State.oracle_guard_rails) clock.(Clock.slot) in
  let? bank := get_quote_asset_bank bank_map in
  let? k := get_quote_asset_bank_balance_mut user in
  let? b := get_user_bank_balance user k in
  let? _ := get_token_amount b.(UserBankBalance.balance) bank
              b.(UserBankBalance.balance_type) in
  if bool_decide (status.(LiquidationStatus.liquidation_type) = NONE)
  then Err SufficientCollateral
  else
    let? progress :=
      liquidate_positions state user market_map clock.(Clock.unix_timestamp) status in
    if progress.(base_asset_value_closed) =? 0 then Err NoPositionsLiquidatable
    else
      let user := progress.(liquidated_user) in
      let? withdrawal_amount := cast_to_u64 progress.(liquidation_fee) in
      let? to_liquidator :=
        fee_to_liquidator state (is_full_liquidation status) withdrawal_amount in
      let? to_insurance_fund := csub U64 withdrawal_amount to_liquidator in
      let? ' (users, bank_map, user) :=
        pay_liquidator users bank_map user user_key liquidator_key to_liquidator in
      let? ' (bank, banks) := get_quote_asset_bank_mut bank_map in
      let? k := get_quote_asset_bank_balance_mut user in
      let? ' (bank, user) :=
        update_user_bank_balance progress.(liquidation_fee) Borrow bank user k in
      let bank_map := drop_mut banks QUOTE_ASSET_BANK_INDEX bank in
      let? ledger :=
        if 0 <? to_insurance_fund then
          let? bank := get_quote_asset_bank bank_map in
          send_from_bank_vault ledger bank_vault insurance_vault bank_vault_authority 0
            bank.(Bank.vault_authority_nonce) to_insurance_fund
        else Ok ledger in
      Ok (drop_mut users user_key user, bank_map, progress.(liquidated_markets), ledger).
End Liquidate.
