(* ===== verification/EventTrades.v ===== *)
(** * The records of trades and liquidations (lib.rs)

    [open_position], [close_position] and [liquidate] with the records that they emit. *)

From stdpp Require Import base numbers list gmap.
From S2P Require Import Prelude Constants Bn State Value AmmMath BankBalance Twap Oracle.
From S2P Require Import Maps PositionMath CurveMath Repeg AmmController OrdersMath Position.
From S2P Require Import Funding Fees Margin OrderValidation Orders Events EventFunding.
From S2P Require Import Addresses Tokens BankHandlers Loading Trading Liquidation.
Local Open Scope Z_scope.

(** ** Definitions *)

(** *** Trades at market *)

Section Trades.
Context `{BnLib} `{OracleAccounts}.

(** [settle_trade] with the fee and the discounts, which are recorded. *)
Definition settle_trade_fees (state : State) (users : UserMap) (market : Market)
    (user : User) (position_index : nat) (discount_token : option TokenAccount)
    (referrer : option Pubkey) (quote_asset_amount quote_asset_amount_surplus pnl : Z)
    : result (UserMap * Market * User * (Z * Z * Z)) :=
  let? ' (user_fee, fee_to_market, token_discount, referrer_reward, referee_discount) :=
    calculate_fee_for_trade quote_asset_amount state.(State.fee_structure)
      (TokenAccount.amount <$> discount_token) (bool_decide (is_Some referrer))
      quote_asset_amount_surplus in
  let? market := add_market_fee market fee_to_market in
  let? user := charge_trade user position_index pnl user_fee token_discount
                 referee_discount in
  let? users := match referrer with
                | Some key => reward_referrer users key referrer_reward
                | None => Ok users
                end in
  Ok (users, market, user, (user_fee, token_discount, referee_discount)).

(** The record of a trade at market, whose authority is the signer's key. *)
Definition trade_record (now record_id : Z) (authority user_key : Pubkey)
    (direction : PositionDirection) (base_asset_amount quote_asset_amount
     mark_price_before mark_price_after fee quote_asset_amount_surplus referee_discount
     token_discount market_index oracle_price : Z) : TradeRecord := {|
  TradeRecord.ts := now;
  TradeRecord.record_id := record_id;
  TradeRecord.user_authority := authority;
  TradeRecord.user := user_key;
  TradeRecord.direction := direction;
  TradeRecord.base_asset_amount := base_asset_amount;
  TradeRecord.quote_asset_amount := quote_asset_amount;
  TradeRecord.mark_price_before := mark_price_before;
  TradeRecord.mark_price_after := mark_price_after;
  TradeRecord.fee := fee;
  TradeRecord.quote_asset_amount_surplus := quote_asset_amount_surplus;
  TradeRecord.referee_discount := referee_discount;
  TradeRecord.token_discount := token_discount;
  TradeRecord.liquidation := false;
  TradeRecord.market_index := market_index;
  TradeRecord.oracle_price := oracle_price;
|}.

Definition open_position_emits (state : State) (users : UserMap) (bank_map : BankMap)
    (market_map : MarketMap) (oracle_map : OracleMap) (accounts : list Remaining)
    (user_key authority : Pubkey) (oracle : AccountInfo) (clock : Clock)
    (direction : PositionDirection) (quote_asset_amount market_index limit_price : Z)
    (optional_accounts : ManagePositionOptionalAccounts)
    : emits (UserMap * MarketMap * OracleMap) :=
  let now := clock.(Clock.unix_timestamp) in
  let! ' () := exchange_not_paused state in
  let! ' (user, users) := load_mut users user_key in
  if quote_asset_amount =? 0 then quiet (Err TradeSizeTooSmall)
  else
    let! user := settle_funding_payment_emits user user_key market_map now in
    let! ' (user, position_index) := get_or_add_position user market_index in
    let! ' (market, markets) := market_get_ref_mut market_map market_index in
    let! ' (market, (mark_price_before, spread_before, is_oracle_valid)) :=
      observe_market state market oracle clock in
    let! ' (market, user, update) := update_position_with_quote_asset_amount
      quote_asset_amount direction market user position_index mark_price_before now in
    let market_map := drop_mut markets market_index market in
    let risk_increasing := update.(PositionUpdate.potentially_risk_increasing) in
    let! market := market_get_ref market_map market_index in
    let! mark_price_after := mark_price market.(Market.amm) in
    let! oracle_price_data :=
      amm_get_oracle_price market.(Market.amm) oracle clock.(Clock.slot) in
    let! spread_after := calculate_oracle_mark_spread_pct market.(Market.amm)
      oracle_price_data (Some mark_price_after) in
    let! ' (oracle_map, meets_requirement) :=
      meets_initial_margin_requirement user market_map bank_map oracle_map in
    if negb meets_requirement && risk_increasing then quiet (Err InsufficientCollateral)
    else
      let! ' (discount_token, referrer, _) :=
        get_discount_token_and_referrer optional_accounts accounts
          state.(State.discount_mint) user_key authority in
      let! ' (market, markets) := market_get_ref_mut market_map market_index in
      let! ' (users, market, user, (user_fee, token_discount, referee_discount)) :=
        settle_trade_fees state users market user position_index discount_token referrer
          update.(PositionUpdate.quote_asset_amount)
          update.(PositionUpdate.quote_asset_amount_surplus) update.(PositionUpdate.pnl) in
      let! ' () := check_divergence state spread_before spread_after is_oracle_valid
                     risk_increasing in
      let record_id := market.(Market.next_trade_record_id) in
      let market := next_trade_record market in
      let! fee := cast I128 user_fee in
      let! ' () := emit (ETrade (trade_record now record_id authority user_key direction
        update.(PositionUpdate.base_asset_amount) update.(PositionUpdate.quote_asset_amount)
        mark_price_before mark_price_after fee
        update.(PositionUpdate.quote_asset_amount_surplus) referee_discount token_discount
        market_index oracle_price_data.(OraclePriceData.price))) in
      let! limit_satisfied := quiet (
        if negb (limit_price =? 0) then
          limit_price_satisfied limit_price update.(PositionUpdate.quote_asset_amount)
            update.(PositionUpdate.base_asset_amount) direction
        else Ok true) in
      if negb limit_satisfied then quiet (Err SlippageOutsideLimit)
      else
        let! market := update_funding_rate_emits market_index market oracle now
          clock.(Clock.slot) state.(State.oracle_guard_rails) state.(State.funding_paused)
          (Some mark_price_before) in
        quiet (Ok (drop_mut users user_key user, drop_mut markets market_index market,
                   oracle_map)).

Definition close_position_emits (state : State) (users : UserMap) (market_map : MarketMap)
    (accounts : list Remaining) (user_key authority : Pubkey) (oracle : AccountInfo)
    (clock : Clock) (market_index : Z)
    (optional_accounts : ManagePositionOptionalAccounts) : emits (UserMap * MarketMap) :=
  let now := clock.(Clock.unix_timestamp) in
  let! ' () := exchange_not_paused state in
  let! ' (user, users) := load_mut users user_key in
  let! user := settle_funding_payment_emits user user_key market_map now in
  let! position_index := get_position_index user.(User.positions) market_index in
  let! ' (market, markets) := market_get_ref_mut market_map market_index in
  let! mark_price_before := mark_price market.(Market.amm) in
  let! oracle_price_data :=
    amm_get_oracle_price market.(Market.amm) oracle clock.(Clock.slot) in
  let! spread_before := calculate_oracle_mark_spread_pct market.(Market.amm)
    oracle_price_data (Some mark_price_before) in
  let! p := get_position user position_index in
  let direction_to_close :=
    direction_to_close_position p.(MarketPosition.base_asset_amount) in
  let! ' (market, p, (quote_asset_amount, base_asset_amount, surplus, pnl)) :=
    close market p now None (Some mark_price_before) true in
  let base_asset_amount := unsigned_abs base_asset_amount in
  let user := set_position user position_index p in
  let! ' (discount_token, referrer, _) :=
    get_discount_token_and_referrer optional_accounts accounts state.(State.discount_mint)
      user_key authority in
  let! ' (users, market, user, (user_fee, token_discount, referee_discount)) :=
    settle_trade_fees state users market user position_index discount_token referrer
      quote_asset_amount surplus pnl in
  let! mark_price_after := mark_price market.(Market.amm) in
  let! spread_after := calculate_oracle_mark_spread_pct market.(Market.amm)
    oracle_price_data (Some mark_price_after) in
  let! oracle_valid := is_oracle_valid market.(Market.amm) oracle_price_data
    state.(State.oracle_guard_rails).(OracleGuardRails.validity) in
  let! amm := quiet (
    if (oracle_valid : bool) then
      let? ' (amm, _) := update_oracle_price_twap market.(Market.amm) now oracle_price_data
        (Some mark_price_before) in
      Ok amm
    else Ok market.(Market.amm)) in
  let market := market <| Market.amm := amm |> in
  let! ' () := check_divergence state spread_before spread_after oracle_valid false in
  let record_id := market.(Market.next_trade_record_id) in
  let market := next_trade_record market in
  let! fee := cast I128 user_fee in
  let! ' () := emit (ETrade (trade_record now record_id authority user_key direction_to_close
    base_asset_amount quote_asset_amount mark_price_before mark_price_after fee surplus
    referee_discount token_discount market_index
    oracle_price_data.(OraclePriceData.price))) in
  let! market := update_funding_rate_emits market_index market oracle now clock.(Clock.slot)
    state.(State.oracle_guard_rails) state.(State.funding_paused) (Some mark_price_before) in
  quiet (Ok (drop_mut users user_key user, drop_mut markets market_index market)).
End Trades.

(** *** Liquidations *)

Section Liquidate.
Context `{BnLib} `{OracleAccounts} `{TokenProgram}.

(** The record of a position that is closed or reduced by a liquidation. *)
Definition liquidation_trade (now record_id : Z) (authority user_key : Pubkey)
    (direction : PositionDirection) (base_asset_amount quote_asset_amount mark_price_after : Z)
    (status : MarketStatus) : TradeRecord := {|
  TradeRecord.ts := now;
  TradeRecord.record_id := record_id;
  TradeRecord.user_authority := authority;
  TradeRecord.user := user_key;
  TradeRecord.direction := direction;
  TradeRecord.base_asset_amount := base_asset_amount;
  TradeRecord.quote_asset_amount := quote_asset_amount;
  TradeRecord.mark_price_before := status.(MarketStatus.mark_price_before);
  TradeRecord.mark_price_after := mark_price_after;
  TradeRecord.fee := 0;
  TradeRecord.quote_asset_amount_surplus := 0;
  TradeRecord.referee_discount := 0;
  TradeRecord.token_discount := 0;
  TradeRecord.liquidation := true;
  TradeRecord.market_index := status.(MarketStatus.market_index);
  TradeRecord.oracle_price :=
    status.(MarketStatus.oracle_status).(OracleStatus.price_data).(OraclePriceData.price);
|}.

Definition record_liquidation_emits (progress : Progress) (market : Market)
    (markets : MarketMap) (user : User) (user_key : Pubkey) (now : Z)
    (direction : PositionDirection) (base_asset_amount : Z) (status : MarketStatus)
    (position_index : nat)
    (value_closed quote_asset_amount pnl requirement maximum_fee fee_base
     adjusted_total_collateral : Z) (always : bool) : emits (Progress * bool) :=
  let! user := add_unsettled_pnl user position_index pnl in
  let! mark_price_after := mark_price market.(Market.amm) in
  let record_id := market.(Market.next_trade_record_id) in
  let market := next_trade_record market in
  let! ' () := emit (ETrade (liquidation_trade now record_id user.(User.authority) user_key
    direction (unsigned_abs base_asset_amount) quote_asset_amount mark_price_after status)) in
  let! x := share requirement quote_asset_amount status.(MarketStatus.base_asset_value) in
  let! requirement_left := csub U128 progress.(requirement_left) x in
  let! market_liquidation_fee := share maximum_fee quote_asset_amount fee_base in
  let! fee := cadd U128 progress.(liquidation_fee) market_liquidation_fee in
  let! adjusted_total_collateral_after_fee := csub U128 adjusted_total_collateral fee in
  quiet (Ok (mk_progress user (drop_mut markets status.(MarketStatus.market_index) market)
               value_closed fee requirement_left,
             negb always && (requirement_left <? adjusted_total_collateral_after_fee))).

(** [liquidate_fully] with the base amount, which is recorded. *)
Definition liquidate_fully_base (market : Market) (p : MarketPosition)
    (status : MarketStatus) (slippage_pct now : Z)
    : result (Market * MarketPosition * (Z * Z) * Z) :=
  let mark := Some status.(MarketStatus.mark_price_before) in
  if slippage_too_large slippage_pct then
    let? quote_asset_amount := share status.(MarketStatus.base_asset_value)
      MAX_LIQUIDATION_SLIPPAGE_U128 (unsigned_abs slippage_pct) in
    let? ' (market, p', (base_asset_amount, _, pnl)) :=
      reduce (direction_to_close_position p.(MarketPosition.base_asset_amount))
        quote_asset_amount market p now mark false in
    Ok (market, p', (quote_asset_amount, pnl), base_asset_amount)
  else
    let? ' (market, p', (quote_asset_amount, base_asset_amount, _, pnl)) :=
      close market p now None mark false in
    Ok (market, p', (quote_asset_amount, pnl), base_asset_amount).

Definition full_liquidation_step_emits (state : State) (user_key : Pubkey) (now : Z)
    (is_dust_position : bool)
    (maximum_liquidation_fee base_asset_value adjusted_total_collateral : Z)
    (progress : Progress) (status : MarketStatus) : emits (Progress * bool) :=
  if status.(MarketStatus.base_asset_value) =? 0 then quiet (Ok (progress, false))
  else
    let market_index := status.(MarketStatus.market_index) in
    let! ' (market, markets) :=
      market_get_ref_mut progress.(liquidated_markets) market_index in
    let! blocked := mark_twap_too_divergent market status in
    if (blocked : bool) then quiet (Ok (progress, false))
    else
      let user := progress.(liquidated_user) in
      let! position_index := get_position_index user.(User.positions) market_index in
      let! p := get_position user position_index in
      let! mark_price_before := cast_to_i128 status.(MarketStatus.mark_price_before) in
      let! slippage := close_slippage status p.(MarketPosition.base_asset_amount) in
      let! slippage_pct := calculate_slippage_pct slippage mark_price_before in
      let! after := divergence_after
        status.(MarketStatus.oracle_status).(OracleStatus.oracle_mark_spread_pct)
        slippage_pct in
      let! worsens := worsens_divergence state status after in
      if (worsens : bool) then quiet (Ok (progress, false))
      else
        let direction_to_close :=
          direction_to_close_position p.(MarketPosition.base_asset_amount) in
        let! ' (market, p, (quote_asset_amount, pnl), base_asset_amount) :=
          liquidate_fully_base market p status slippage_pct now in
        let! value_closed :=
          cadd U128 progress.(base_asset_value_closed) quote_asset_amount in
        record_liquidation_emits progress market markets
          (set_position user position_index p) user_key now direction_to_close
          base_asset_amount status position_index value_closed quote_asset_amount pnl
          status.(MarketStatus.maintenance_margin_requirement) maximum_liquidation_fee
          base_asset_value adjusted_total_collateral is_dust_position.

Definition partial_liquidation_step_emits (state : State) (user_key : Pubkey) (now : Z)
    (maximum_liquidation_fee maximum_base_asset_value_closed adjusted_total_collateral : Z)
    (progress : Progress) (status : MarketStatus) : emits (Progress * bool) :=
  if status.(MarketStatus.base_asset_value) =? 0 then quiet (Ok (progress, false))
  else
    let market_index := status.(MarketStatus.market_index) in
    let! ' (market, markets) :=
      market_get_ref_mut progress.(liquidated_markets) market_index in
    let! blocked := mark_twap_too_divergent market status in
    if (blocked : bool) then quiet (Ok (progress, false))
    else
      let user := progress.(liquidated_user) in
      let! position_index := get_position_index user.(User.positions) market_index in
      let! p := get_position user position_index in
      let! quote_asset_amount := share status.(MarketStatus.base_asset_value)
        state.(State.partial_liquidation_close_percentage_numerator)
        state.(State.partial_liquidation_close_percentage_denominator) in
      let! mark_price_before := cast_to_i128 status.(MarketStatus.mark_price_before) in
      let! slippage := close_slippage status p.(MarketPosition.base_asset_amount) in
      let! slippage := op_div I128 slippage 4 in
      let! slippage_pct := calculate_slippage_pct slippage mark_price_before in
      let! after := divergence_after
        status.(MarketStatus.oracle_status).(OracleStatus.oracle_mark_spread_pct)
        slippage_pct in
      let! worsens := worsens_divergence state status after in
      if (worsens : bool) then quiet (Err OracleMarkSpreadLimit)
      else
        let! quote_asset_amount := quiet (
          if slippage_too_large slippage_pct
          then share quote_asset_amount MAX_LIQUIDATION_SLIPPAGE_U128
                 (unsigned_abs slippage_pct)
          else Ok quote_asset_amount) in
        let! value_closed :=
          cadd U128 progress.(base_asset_value_closed) quote_asset_amount in
        let direction_to_reduce :=
          direction_to_close_position p.(MarketPosition.base_asset_amount) in
        let! ' (market, p, (base_asset_amount, _, pnl)) :=
          reduce direction_to_reduce quote_asset_amount market p now
            (Some status.(MarketStatus.mark_price_before)) false in
        record_liquidation_emits progress market markets
          (set_position user position_index p) user_key now direction_to_reduce
          base_asset_amount status position_index value_closed quote_asset_amount pnl
          status.(MarketStatus.partial_margin_requirement) maximum_liquidation_fee
          maximum_base_asset_value_closed adjusted_total_collateral false.

(** A loop over a list that a step may leave, as [loop]. *)
Fixpoint loop_emits {A B} (step : B → A → emits (B * bool)) (acc : B) (l : list A)
    : emits B :=
  match l with
  | [] => quiet (Ok acc)
  | x :: l =>
      let! ' (acc, break) := step acc x in
      if (break : bool) then quiet (Ok acc) else loop_emits step acc l
  end.

Definition liquidate_positions_emits (state : State) (user : User) (user_key : Pubkey)
    (market_map : MarketMap) (now : Z) (status : LiquidationStatus) : emits Progress :=
  let start := mk_progress user market_map 0 0
                 status.(LiquidationStatus.margin_requirement) in
  let collateral := status.(LiquidationStatus.adjusted_total_collateral) in
  if is_full_liquidation status then
    let! maximum_fee := share status.(LiquidationStatus.total_collateral)
      state.(State.full_liquidation_penalty_percentage_numerator)
      state.(State.full_liquidation_penalty_percentage_denominator) in
    loop_emits (full_liquidation_step_emits state user_key now (is_dust_position status)
                  maximum_fee status.(LiquidationStatus.base_asset_value) collateral)
      start status.(LiquidationStatus.market_statuses)
  else
    let! maximum_fee := share status.(LiquidationStatus.total_collateral)
      state.(State.partial_liquidation_penalty_percentage_numerator)
      state.(State.partial_liquidation_penalty_percentage_denominator) in
    let! maximum_closed := share status.(LiquidationStatus.base_asset_value)
      state.(State.partial_liquidation_close_percentage_numerator)
      state.(State.partial_liquidation_close_percentage_denominator) in
    loop_emits (partial_liquidation_step_emits state user_key now maximum_fee maximum_closed
                  collateral)
      start status.(LiquidationStatus.market_statuses).

Definition liquidate_emits (state : State) (users : UserMap) (bank_map : BankMap)
    (market_map : MarketMap) (oracle_map : OracleMap) (ledger : Ledger)
    (user_key liquidator_key bank_vault insurance_vault bank_vault_authority : Pubkey)
    (clock : Clock) : emits (UserMap * BankMap * MarketMap * Ledger) :=
  let now := clock.(Clock.unix_timestamp) in
  let! ' () := exchange_not_paused state in
  let! ' (user, users) := load_mut users user_key in
  let! user := settle_funding_payment_emits user user_key market_map now in
  let! ' (_, status) := calculate_liquidation_status user market_map bank_map oracle_map
    state.(State.oracle_guard_rails) clock.(Clock.slot) in
  let! bank := get_quote_asset_bank bank_map in
  let! k := get_quote_asset_bank_balance_mut user in
  let! b := get_user_bank_balance user k in
  let! collateral := get_token_amount b.(UserBankBalance.balance) bank
                       b.(UserBankBalance.balance_type) in
  if bool_decide (status.(LiquidationStatus.liquidation_type) = NONE)
  then quiet (Err SufficientCollateral)
  else
    let! progress := liquidate_positions_emits state user user_key market_map now status in
    if progress.(base_asset_value_closed) =? 0 then quiet (Err NoPositionsLiquidatable)
    else
      let user := progress.(liquidated_user) in
      let! withdrawal_amount := cast_to_u64 progress.(liquidation_fee) in
      let! to_liquidator :=
        fee_to_liquidator state (is_full_liquidation status) withdrawal_amount in
      let! to_insurance_fund := csub U64 withdrawal_amount to_liquidator in
      let! ' (users, bank_map, user) :=
        pay_liquidator users bank_map user user_key liquidator_key to_liquidator in
      let! ' (bank, banks) := get_quote_asset_bank_mut bank_map in
      let! k := get_quote_asset_bank_balance_mut user in
      let! ' (bank, user) :=
        update_user_bank_balance progress.(liquidation_fee) Borrow bank user k in
      let bank_map := drop_mut banks QUOTE_ASSET_BANK_INDEX bank in
      let! ledger := quiet (
        if 0 <? to_insurance_fund then
          let? bank := get_quote_asset_bank bank_map in
          send_from_bank_vault ledger bank_vault insurance_vault bank_vault_authority 0
            bank.(Bank.vault_authority_nonce) to_insurance_fund
        else Ok ledger) in
      let! ' () := emit (ELiquidation {|
        LiquidationRecord.ts := now;
        LiquidationRecord.user_authority := user.(User.authority);
        LiquidationRecord.user := user_key;
        LiquidationRecord.partial := negb (is_full_liquidation status);
        LiquidationRecord.base_asset_value := status.(LiquidationStatus.base_asset_value);
        LiquidationRecord.base_asset_value_closed := progress.(base_asset_value_closed);
        LiquidationRecord.liquidation_fee := progress.(liquidation_fee);
        LiquidationRecord.fee_to_liquidator := to_liquidator;
        LiquidationRecord.fee_to_insurance_fund := to_insurance_fund;
        LiquidationRecord.liquidator := liquidator_key;
        LiquidationRecord.total_collateral := status.(LiquidationStatus.total_collateral);
        LiquidationRecord.collateral := collateral;
        LiquidationRecord.unrealized_pnl := status.(LiquidationStatus.unrealized_pnl);
        LiquidationRecord.margin_ratio := status.(LiquidationStatus.margin_ratio);
      |}) in
      quiet (Ok (drop_mut users user_key user, bank_map, progress.(liquidated_markets),
                 ledger)).
End Liquidate.

(** ** Without the log *)

Section Erasure.
Context `{BnLib} `{OracleAccounts} `{TokenProgram}.

Lemma settle_trade_fees_erase st users m u k token referrer q s pnl :
  bind (settle_trade_fees st users m u k token referrer q s pnl) (λ a, Ok a.1)
  = settle_trade st users m u k token referrer q s pnl.
Proof.
  unfold settle_trade_fees, settle_trade.
  destruct (calculate_fee_for_trade _ _ _ _ _) as [[[[[f fm] td] rr] rd]| |]; [|done..].
  cbn [bind]. destruct (add_market_fee m fm); [|done..]. cbn [bind].
  destruct (charge_trade _ _ _ _ _ _); [|done..]. cbn [bind].
  by destruct referrer as [key|]; cbn [bind]; [destruct (reward_referrer _ _ _)|].
Qed.

(** The fee of a trade that is settled can be recorded. *)
Lemma settle_trade_fees_cast st users m u k token referrer q s pnl r fee td rd :
  settle_trade_fees st users m u k token referrer q s pnl = Ok (r, (fee, td, rd)) →
  cast I128 fee = Ok fee.
Proof.
  intros Hok. unfold settle_trade_fees in Hok.
  apply bind_ok in Hok as ([[[[f fm] td'] rr] rd'] & _ & Hok).
  apply bind_ok in Hok as (m' & _ & Hok). apply bind_ok in Hok as (u' & Hc & Hok).
  apply bind_ok in Hok as (us & _ & Hok). apply Ok_inj in Hok. injection Hok as _ <- _ _.
  unfold charge_trade in Hc. apply bind_ok in Hc as (p & _ & Hc).
  apply bind_ok in Hc as (x & _ & Hc). apply bind_ok in Hc as (y & Hy & _).
  pose proof Hy as Hy'. by apply cast_ok in Hy' as [-> _].
Qed.

(** The step where the fees of a trade are settled and recorded. *)
Lemma erase_settle_trade {B} st users m u k token referrer q s pnl
    (f : UserMap * Market * User * (Z * Z * Z) → emits B) f' :
  (∀ a fee td rd, cast I128 fee = Ok fee → erase (f (a, (fee, td, rd))) = f' a) →
  erase (then_emits (settle_trade_fees st users m u k token referrer q s pnl) f)
  = bind (settle_trade st users m u k token referrer q s pnl) f'.
Proof.
  intros Hf. rewrite <-settle_trade_fees_erase, erase_then, erase_quiet.
  destruct (settle_trade_fees _ _ _ _ _ _ _ _ _ _) as [[a [[fee td] rd]]| |] eqn:Hok;
    [|done..]. cbn [bind fst]. apply Hf. by eapply settle_trade_fees_cast.
Qed.

Lemma erase_cast {B} t x (f : Z → emits B) r :
  cast t x = Ok x → erase (f x) = r → erase (then_emits (cast t x) f) = r.
Proof. intros Hc. by rewrite erase_then, erase_quiet, Hc. Qed.

Lemma open_position_erase st users bm mm om accounts key auth oracle clock d q i limit opt :
  erase (open_position_emits st users bm mm om accounts key auth oracle clock d q i limit opt)
  = open_position st users bm mm om accounts key auth oracle clock d q i limit opt.
Proof.
  unfold open_position_emits, open_position. cbv zeta. erase_steps.
  apply erase_settle_trade. intros [[us m'] u'] fee td rd Hc. erase_steps.
  apply erase_cast; [done|]. erase_steps.
Qed.

Lemma close_position_erase st users mm accounts key auth oracle clock i opt :
  erase (close_position_emits st users mm accounts key auth oracle clock i opt)
  = close_position st users mm accounts key auth oracle clock i opt.
Proof.
  unfold close_position_emits, close_position. cbv zeta. erase_steps.
  apply erase_settle_trade. intros [[us m'] u'] fee td rd Hc. erase_steps.
  apply erase_cast; [done|]. erase_steps.
Qed.

Lemma liquidate_fully_base_erase m p status slippage now :
  bind (liquidate_fully_base m p status slippage now) (λ a, Ok a.1)
  = liquidate_fully m p status slippage now.
Proof.
  unfold liquidate_fully_base, liquidate_fully. destruct (slippage_too_large slippage).
  - destruct (share _ _ _); [|done..]. cbn [bind].
    by destruct (reduce _ _ _ _ _ _ _) as [[[m' p'] [[b s] pnl]]| |].
  - by destruct (close _ _ _ _ _ _) as [[[m' p'] [[[q b] s] pnl]]| |].
Qed.

Lemma record_liquidation_erase a m ms u key now d b status k v q pnl req fee base coll always :
  erase (record_liquidation_emits a m ms u key now d b status k v q pnl req fee base coll
           always)
  = record_liquidation a m ms u status k v q pnl req fee base coll always.
Proof. unfold record_liquidation_emits, record_liquidation. cbv zeta. erase_steps. Qed.
#[local] Hint Resolve record_liquidation_erase : erase.

Lemma full_liquidation_step_erase st key now dust fee value coll a status :
  erase (full_liquidation_step_emits st key now dust fee value coll a status)
  = full_liquidation_step st now dust fee value coll a status.
Proof.
  unfold full_liquidation_step_emits, full_liquidation_step. cbv zeta. erase_steps.
  eapply erase_bind_fst; [apply liquidate_fully_base_erase|]. intros [[m2 p2] [q pnl]] b.
  erase_steps.
Qed.

Lemma partial_liquidation_step_erase st key now fee closed coll a status :
  erase (partial_liquidation_step_emits st key now fee closed coll a status)
  = partial_liquidation_step st now fee closed coll a status.
Proof.
  unfold partial_liquidation_step_emits, partial_liquidation_step. cbv zeta. erase_steps.
Qed.
#[local] Hint Resolve full_liquidation_step_erase partial_liquidation_step_erase : erase.

Lemma loop_erase {A B} (f : B → A → emits (B * bool)) g acc l :
  (∀ b a, erase (f b a) = g b a) → erase (loop_emits f acc l) = loop g acc l.
Proof.
  intros Hf. revert acc. induction l as [|a l IH]; intros acc; [done|].
  cbn [loop_emits loop]. apply erase_bind; [by rewrite Hf|]. intros [acc' stop] _.
  by destruct stop.
Qed.

Lemma liquidate_positions_erase st u key mm now status :
  erase (liquidate_positions_emits st u key mm now status)
  = liquidate_positions st u mm now status.
Proof.
  unfold liquidate_positions_emits, liquidate_positions. cbv zeta. erase_steps;
    apply loop_erase; intros; auto with erase nocore.
Qed.
#[local] Hint Resolve liquidate_positions_erase : erase.

Lemma liquidate_erase st users bm mm om ledger key liquidator vault insurance auth clock :
  erase (liquidate_emits st users bm mm om ledger key liquidator vault insurance auth clock)
  = liquidate st users bm mm om ledger key liquidator vault insurance auth clock.
Proof. unfold liquidate_emits, liquidate. cbv zeta. erase_steps. Qed.
End Erasure.

#[export] Hint Resolve open_position_erase close_position_erase liquidate_erase : erase.
