(* ===== verification/TradingProps.v ===== *)
(** * What a trade at market guarantees

    The settlement of the fees of a trade moves quote between the user, the referrer and
    the market without making any; a trade that may increase the risk of the user needs
    the initial margin; and every trade keeps the user's positions in step with its
    orders. *)

From stdpp Require Import base numbers list gmap.
From S2P Require Import Prelude Constants Bn State Value AmmMath BankBalance Twap Oracle.
From S2P Require Import Maps PositionMath CurveMath Repeg AmmController OrdersMath Position.
From S2P Require Import Funding Fees Margin OrderValidation Orders Addresses Tokens BankHandlers.
From S2P Require Import BankOrders Loading Trading.
Local Open Scope Z_scope.

(** ** The slot of a market *)

(** The slot [k] is the market's and counts its open orders. *)
Definition market_slot (i : Z) (k : nat) (u : User) : Prop :=
  ∃ p, owns u i k p ∧ p.(MarketPosition.market_index) = i
       ∧ p.(MarketPosition.open_orders) = open_order_count i u.(User.orders).

(** A change of the slot that keeps its market and its count. *)
Lemma market_slot_update i k u u' p p' :
  orders_wf u → market_slot i k u → u'.(User.orders) = u.(User.orders) →
  u.(User.positions) !! k = Some p → u'.(User.positions) = <[k:=p']> u.(User.positions) →
  p'.(MarketPosition.market_index) = p.(MarketPosition.market_index) →
  p'.(MarketPosition.open_orders) = p.(MarketPosition.open_orders) →
  orders_wf u' ∧ market_slot i k u'.
Proof.
  intros Hwf (q & Hown & Hi & Hcount) Hos Hp Hps Hm Hoo.
  assert (q = p) as -> by (destruct Hown; congruence).
  split; [eapply (orders_wf_slot u u' i k p p'); by try congruence|].
  assert (k < length (User.positions u))%nat by (by eapply lookup_lt_Some).
  exists p'. split; [|split; [congruence|by rewrite Hoo, Hos]].
  split; [by rewrite Hps, list_lookup_insert_eq|]. split; [right; congruence|].
  intros j r Hj Hr. rewrite Hps in Hj. destruct (decide (j = k)); [done|].
  rewrite list_lookup_insert_ne in Hj by done. destruct Hown as (_ & _ & Honly). eauto.
Qed.

Lemma get_or_add_market_slot u i u' k :
  orders_wf u → get_or_add_position u i = Ok (u', k) →
  orders_wf u' ∧ market_slot i k u' ∧ u'.(User.orders) = u.(User.orders).
Proof.
  intros Hwf Hok. apply get_or_add_position_wf in Hok as (Hwf' & Hos & _ & p & Hown & Hi & Hc);
    [|done]. split; [done|]. split; [|done]. exists p. by rewrite Hos.
Qed.

Lemma get_market_slot u i k :
  orders_wf u → get_position_index u.(User.positions) i = Ok k → market_slot i k u.
Proof.
  intros Hwf Hk. apply get_position_index_owns in Hk as (p & Hown & _ & Hi & Hc); [|done].
  by exists p.
Qed.

(** ** The fees of a trade *)

Section Properties.
Context `{BnLib} `{OracleAccounts}.

Lemma charge_trade_inv u k pnl fee td rd u' :
  charge_trade u k pnl fee td rd = Ok u' →
  u'.(User.orders) = u.(User.orders)
  ∧ u'.(User.total_referral_reward) = u.(User.total_referral_reward)
  ∧ ∃ p, u.(User.positions) !! k = Some p
      ∧ u'.(User.positions) = <[k := p <| MarketPosition.unsettled_pnl :=
          p.(MarketPosition.unsettled_pnl) + pnl - fee |>]> u.(User.positions).
Proof.
  unfold charge_trade, get_position. intros Hok.
  apply bind_ok in Hok as (p & Hp & Hok). apply unwrap_ok in Hp.
  apply bind_ok in Hok as (x & Hx & Hok). apply cadd_ok in Hx as [-> _].
  apply bind_ok in Hok as (f & Hf & Hok). apply cast_ok in Hf as [-> _].
  apply bind_ok in Hok as (v & Hv & Hok). apply csub_ok in Hv as [-> _].
  skip_steps Hok. split_and!; [done|done|by exists p].
Qed.

Lemma charge_trade_bank_balances u k pnl fee td rd u' :
  charge_trade u k pnl fee td rd = Ok u' → u'.(User.bank_balances) = u.(User.bank_balances).
Proof. unfold charge_trade. intros Hok. by skip_steps Hok. Qed.

Lemma charge_trade_owed u k pnl fee td rd u' :
  charge_trade u k pnl fee td rd = Ok u' → owed u' = owed u + pnl - fee.
Proof.
  intros Hok. apply charge_trade_inv in Hok as (_ & Hr & p & Hp & Hps). unfold owed.
  rewrite Hr, Hps, (sum_of_insert _ _ _ _ _ Hp). cbn. lia.
Qed.

Lemma charge_trade_wf i u k pnl fee td rd u' :
  orders_wf u → market_slot i k u → charge_trade u k pnl fee td rd = Ok u' → orders_wf u'.
Proof.
  intros Hwf Hslot Hok. apply charge_trade_inv in Hok as (Ho & _ & p & Hp & Hps).
  by eapply (market_slot_update i k u u' p).
Qed.

(** C18. The settlement of a trade moves quote between the user, the referrer and the
    market: what all of them have changes by the profit of the trade and the spread
    surplus alone, and the market's total of fees grows with what it may distribute. *)
Theorem settle_trade_conserves st users m u k token referrer q s pnl users' m' u' :
  settle_trade st users m u k token referrer q s pnl = Ok (users', m', u') →
  owed u' + owed_to_all users' + m'.(Market.amm).(AMM.total_fee_minus_distributions)
  = owed u + owed_to_all users + m.(Market.amm).(AMM.total_fee_minus_distributions) + pnl + s
  ∧ m'.(Market.amm).(AMM.total_fee) - m.(Market.amm).(AMM.total_fee)
    = m'.(Market.amm).(AMM.total_fee_minus_distributions)
      - m.(Market.amm).(AMM.total_fee_minus_distributions).
Proof.
  intros Hok. unfold settle_trade in Hok.
  apply bind_ok in Hok as ([[[[fee fm] td] rr] rd] & Hfee & Hok).
  apply trade_fee_conserved in Hfee as (Hsum & _ & _ & _ & Hnone).
  apply bind_ok in Hok as (m1 & Hm & Hok). apply add_market_fee_ok in Hm as [Ht Hd].
  apply bind_ok in Hok as (u1 & Hu & Hok). apply charge_trade_owed in Hu.
  apply bind_ok in Hok as (users1 & Hr & Hok). apply Ok_inj in Hok; injection Hok as <- <- <-.
  assert (owed_to_all users1 = owed_to_all users + rr).
  { destruct referrer as [key|]; [by apply reward_referrer_owed in Hr|].
    apply Ok_inj in Hr as ->. rewrite Hnone by done. lia. }
  lia.
Qed.

(** The accounts after the settlement: the user's is in step, and so are the others. *)
Lemma settle_trade_wf i st users m u k token referrer q s pnl users' m' u' uk :
  settle_trade st users m u k token referrer q s pnl = Ok (users', m', u') →
  orders_wf u → market_slot i k u →
  orders_wf u' ∧ u'.(User.orders) = u.(User.orders)
  ∧ (users_wf users → users_wf users')
  ∧ (users !! uk = Some MutBorrowed → users' !! uk = Some MutBorrowed).
Proof.
  intros Hok Hwf Hslot. unfold settle_trade in Hok.
  apply bind_ok in Hok as ([[[[fee fm] td] rr] rd] & _ & Hok).
  apply bind_ok in Hok as (m1 & _ & Hok). apply bind_ok in Hok as (u1 & Hu & Hok).
  pose proof Hu as Ho. apply charge_trade_inv in Ho as [Ho _].
  apply (charge_trade_wf i) in Hu; [|done..].
  apply bind_ok in Hok as (users1 & Hr & Hok). apply Ok_inj in Hok; injection Hok as <- <- <-.
  split; [done|]. split; [done|]. destruct referrer as [key|].
  - apply reward_referrer_ok in Hr as (f & f' & Hf & -> & _ & Hw). split.
    + intros Hus. apply users_wf_insert; [done|]. apply Hw. by eapply Hus.
    + intros Hb. destruct (decide (uk = key)) as [->|]; [congruence|].
      by rewrite lookup_insert_ne.
  - by apply Ok_inj in Hr as ->.
Qed.

(** ** Trades *)

Lemma open_position_wf st users bm mm om accounts uk auth oracle clock d q i limit opt
    users' mm' om' :
  open_position st users bm mm om accounts uk auth oracle clock d q i limit opt
    = Ok (users', mm', om') →
  users_wf users → users_wf users'.
Proof.
  intros Hok Hus. unfold open_position in Hok. cbv zeta in Hok.
  apply bind_ok in Hok as ([] & _ & Hok).
  apply bind_ok in Hok as ([u us] & Hu & Hok). apply load_cell_mut_ok in Hu as [Hu ->].
  destruct (q =? 0); [done|]. apply bind_ok in Hok as (u1 & Hf & Hok).
  apply settle_funding_wf in Hf as (_ & _ & Hwf1). specialize (Hwf1 (Hus _ _ Hu)).
  apply bind_ok in Hok as ([u2 k] & Hadd & Hok).
  apply get_or_add_market_slot in Hadd as (Hwf2 & Hslot & _); [|done].
  apply bind_ok in Hok as ([m ms] & _ & Hok).
  apply bind_ok in Hok as ([m1 [[mark before] valid]] & _ & Hok).
  apply bind_ok in Hok as ([[m2 u3] upd] & Hup & Hok).
  apply update_quote_trades in Hup as (p & p' & Hp & -> & Hmi & Hoo & _).
  destruct (market_slot_update i k u2 (set_position u2 k p') p p') as [Hwf3 Hslot3];
    [done..|].
  apply bind_ok in Hok as (m3 & _ & Hok). apply bind_ok in Hok as (after & _ & Hok).
  apply bind_ok in Hok as (od & _ & Hok). apply bind_ok in Hok as (sp & _ & Hok).
  apply bind_ok in Hok as ([om1 meets] & _ & Hok). destruct (_ && _); [done|].
  apply bind_ok in Hok as ([[token referrer] rest] & _ & Hok).
  apply bind_ok in Hok as ([m4 ms4] & _ & Hok).
  apply bind_ok in Hok as ([[us5 m5] u5] & Hs & Hok).
  apply (settle_trade_wf i _ _ _ _ _ _ _ _ _ _ _ _ _ uk) in Hs as (Hwf5 & _ & Hus5 & _);
    [|done..].
  apply bind_ok in Hok as ([] & _ & Hok). apply bind_ok in Hok as (sat & _ & Hok).
  destruct (negb sat); [done|]. apply bind_ok in Hok as (m6 & _ & Hok).
  apply Ok_inj in Hok; injection Hok as <- <- <-.
  apply users_wf_insert; [|done]. by apply Hus5, users_wf_borrow.
Qed.

Lemma close_position_wf st users mm accounts uk auth oracle clock i opt users' mm' :
  close_position st users mm accounts uk auth oracle clock i opt = Ok (users', mm') →
  users_wf users → users_wf users'.
Proof.
  intros Hok Hus. unfold close_position in Hok. cbv zeta in Hok.
  apply bind_ok in Hok as ([] & _ & Hok).
  apply bind_ok in Hok as ([u us] & Hu & Hok). apply load_cell_mut_ok in Hu as [Hu ->].
  apply bind_ok in Hok as (u1 & Hf & Hok).
  apply settle_funding_wf in Hf as (_ & _ & Hwf1). specialize (Hwf1 (Hus _ _ Hu)).
  apply bind_ok in Hok as (k & Hk & Hok). apply get_market_slot in Hk as Hslot; [|done].
  apply bind_ok in Hok as ([m ms] & _ & Hok). apply bind_ok in Hok as (mark & _ & Hok).
  apply bind_ok in Hok as (od & _ & Hok). apply bind_ok in Hok as (before & _ & Hok).
  apply bind_ok in Hok as (p & Hp & Hok). apply unwrap_ok in Hp.
  apply bind_ok in Hok as ([[m1 p1] [[[qa ba] sur] pnl]] & Hc & Hok).
  apply close_slot in Hc as (Hmi & Hoo & _).
  destruct (market_slot_update i k u1 (set_position u1 k p1) p p1) as [Hwf2 Hslot2];
    [done..|].
  apply bind_ok in Hok as ([[token referrer] rest] & _ & Hok).
  apply bind_ok in Hok as ([[us3 m3] u3] & Hs & Hok).
  apply (settle_trade_wf i _ _ _ _ _ _ _ _ _ _ _ _ _ uk) in Hs as (Hwf3 & _ & Hus3 & _);
    [|done..].
  skip_steps Hok. apply users_wf_insert; [|done]. by apply Hus3, users_wf_borrow.
Qed.

(** What the settlement of a trade leaves: the user with the profit and the fee in its
    position and nothing else that the margin looks at, and every account but the
    referrer's as it was. *)
Lemma settle_trade_inv st users m u k token referrer q s pnl users' m' u' :
  settle_trade st users m u k token referrer q s pnl = Ok (users', m', u') →
  (∃ p fee, u.(User.positions) !! k = Some p
    ∧ u'.(User.positions) = <[k := p <| MarketPosition.unsettled_pnl :=
        p.(MarketPosition.unsettled_pnl) + pnl - fee |>]> u.(User.positions))
  ∧ u'.(User.bank_balances) = u.(User.bank_balances)
  ∧ u'.(User.orders) = u.(User.orders)
  ∧ (∀ x, referrer ≠ Some x → users' !! x = users !! x).
Proof.
  intros Hok. unfold settle_trade in Hok.
  apply bind_ok in Hok as ([[[[fee fm] td] rr] rd] & _ & Hok).
  apply bind_ok in Hok as (m1 & _ & Hok). apply bind_ok in Hok as (u1 & Hu & Hok).
  apply bind_ok in Hok as (users1 & Hr & Hok). apply Ok_inj in Hok; injection Hok as <- <- <-.
  pose proof (charge_trade_bank_balances _ _ _ _ _ _ _ Hu) as Hb.
  apply charge_trade_inv in Hu as (Ho & _ & p & Hp & Hps).
  split; [by exists p, fee|]. split; [done|]. split; [done|]. intros x Hx.
  destruct referrer as [key|]; [|by apply Ok_inj in Hr as ->].
  apply reward_referrer_ok in Hr as (f & f' & _ & -> & _).
  apply lookup_insert_ne. congruence.
Qed.

(** C26. A market trade happens only while the exchange is not paused.  It is the trade of
    the user of the instruction, with its funding settled, on the market of the
    instruction, observed through its oracle: if it may increase the user's risk then this
    user with the new position meets the initial margin requirement at the market's new
    price, and the price of the trade is within the limit that the user gave.  What is
    kept is the user that was checked, whose position alone takes the profit and the fee,
    and the market that was checked, with its fees, its record counted and its funding
    brought up to date; no other market changes, and no other account but the
    referrer's. *)
Theorem open_position_safe st users bm mm om accounts uk auth oracle clock d q i limit opt
    users' mm' om' :
  open_position st users bm mm om accounts uk auth oracle clock d q i limit opt
    = Ok (users', mm', om') →
  st.(State.exchange_paused) = false ∧ q ≠ 0
  ∧ ∃ u u1 u2 k m m1 mark spread valid m2 u3 upd token referrer us m3 u4 m4,
      users !! uk = Some (Loaded u) ∧ settle_funding_payment u mm = Ok u1
      ∧ get_or_add_position u1 i = Ok (u2, k)
      ∧ mm !! i = Some (Loaded m)
      ∧ observe_market st m oracle clock = Ok (m1, (mark, spread, valid))
      ∧ update_position_with_quote_asset_amount q d m1 u2 k mark clock.(Clock.unix_timestamp)
        = Ok (m2, u3, upd)
      ∧ (upd.(PositionUpdate.potentially_risk_increasing) = true →
         meets_initial_margin_requirement u3 (<[i := Loaded m2]> mm) bm om = Ok (om', true))
      ∧ (let base := upd.(PositionUpdate.base_asset_amount) in
         let quote := upd.(PositionUpdate.quote_asset_amount) in
         limit ≠ 0 → has_type U128 base → 0 < base ∧
         match d with
         | Long => quote * 100000000000000000 / base ≤ limit
         | Short => limit ≤ quote * 100000000000000000 / base
         end)
      ∧ settle_trade st (<[uk := MutBorrowed]> users) m2 u3 k token referrer
          upd.(PositionUpdate.quote_asset_amount)
          upd.(PositionUpdate.quote_asset_amount_surplus) upd.(PositionUpdate.pnl)
        = Ok (us, m3, u4)
      ∧ (∃ p fee, u3.(User.positions) !! k = Some p
          ∧ u4.(User.positions) = <[k := p <| MarketPosition.unsettled_pnl :=
              p.(MarketPosition.unsettled_pnl) + upd.(PositionUpdate.pnl) - fee |>]>
                u3.(User.positions))
      ∧ u4.(User.bank_balances) = u3.(User.bank_balances)
      ∧ u4.(User.orders) = u3.(User.orders)
      ∧ update_funding_rate (next_trade_record m3) oracle clock.(Clock.unix_timestamp)
          clock.(Clock.slot) st.(State.oracle_guard_rails) st.(State.funding_paused)
          (Some mark) = Ok m4
      ∧ users' !! uk = Some (Loaded u4)
      ∧ (∀ x, x ≠ uk → referrer ≠ Some x → users' !! x = users !! x)
      ∧ mm' = <[i := Loaded m4]> mm.
Proof.
  intros Hok. unfold open_position in Hok. cbv zeta in Hok.
  apply bind_ok in Hok as ([] & Hpaused & Hok). apply validate_ok, negb_true_iff in Hpaused.
  apply bind_ok in Hok as ([u us] & Hu & Hok). apply load_cell_mut_ok in Hu as [Hu ->].
  destruct (Z.eqb_spec q 0) as [|Hq]; [done|]. apply bind_ok in Hok as (u1 & Hf & Hok).
  apply bind_ok in Hok as ([u2 k] & Hadd & Hok).
  apply bind_ok in Hok as ([m ms] & Hm & Hok). apply load_cell_mut_ok in Hm as [Hm ->].
  apply bind_ok in Hok as ([m1 [[mark before] valid]] & Hobs & Hok).
  apply bind_ok in Hok as ([[m2 u3] upd] & Hup & Hok). rewrite drop_borrowed in Hok.
  apply bind_ok in Hok as (m2' & _ & Hok). apply bind_ok in Hok as (after & _ & Hok).
  apply bind_ok in Hok as (od & _ & Hok). apply bind_ok in Hok as (sp & _ & Hok).
  apply bind_ok in Hok as ([om1 meets] & Hmeets & Hok).
  destruct (_ && _) eqn:Hcheck in Hok; [done|].
  apply bind_ok in Hok as ([[token referrer] rest] & _ & Hok).
  apply bind_ok in Hok as ([m2'' ms2] & Hm2 & Hok). apply load_cell_mut_ok in Hm2 as [Hm2 ->].
  rewrite lookup_insert_eq in Hm2. injection Hm2 as <-.
  apply bind_ok in Hok as ([[us4 m3] u4] & Hs & Hok).
  apply bind_ok in Hok as ([] & _ & Hok). apply bind_ok in Hok as (sat & Hsat & Hok).
  destruct sat; cbn [negb] in Hok; [|done]. apply bind_ok in Hok as (m4 & Hfr & Hok).
  rewrite drop_borrowed, insert_insert_eq in Hok. apply Ok_inj in Hok; injection Hok as <- <- <-.
  split; [done|]. split; [done|].
  exists u, u1, u2, k, m, m1, mark, before, valid, m2, u3, upd, token, referrer, us4, m3, u4, m4.
  destruct (settle_trade_inv _ _ _ _ _ _ _ _ _ _ _ _ _ Hs) as (Hp & Hb & Ho & Hother).
  split_and!; try done.
  - intros Hr. rewrite Hr in Hcheck. destruct meets; [done|by cbn in Hcheck].
  - intros base quote Hl Hty. rewrite (proj2 (Z.eqb_neq limit 0)) in Hsat by done.
    cbn [negb] in Hsat. apply limit_price_satisfied_ok in Hsat as [Hlp Heq]; [|done].
    split; [done|]. by destruct d; apply Z.leb_le.
  - apply lookup_insert_eq.
  - intros x Hx Href. unfold drop_mut. rewrite lookup_insert_ne by done.
    rewrite Hother by done. by apply lookup_insert_ne.
Qed.
End Properties.
