(* ===== verification/Frames.v ===== *)
(** * What trading leaves alone

    Trades, fills, funding and repegging move a market's curve, totals and fees and a
    user's positions, orders and fee totals; they touch neither the terms of a market
    (its identity, margin ratios, parameters and profit pool) nor what identifies a user
    and its bank balances.  Every function has an instance of [Frame] that says so. *)

From stdpp Require Import base numbers list gmap.
From S2P Require Import Prelude Constants Bn State Value AmmMath BankBalance Twap Oracle.
From S2P Require Import Maps PositionMath CurveMath Repeg AmmController OrdersMath Position.
From S2P Require Import Funding Fees Margin OrderValidation Orders Addresses Tokens BankHandlers.
From S2P Require Import BankLedger BankOrders Loading Trading Liquidation.
Local Open Scope Z_scope.

(** ** Definitions *)

(** The fields of a curve that only the administrator sets. *)
Definition amm_terms (amm : AMM) :=
  (amm.(AMM.oracle), amm.(AMM.oracle_source), amm.(AMM.funding_period),
   amm.(AMM.total_fee_withdrawn), amm.(AMM.minimum_quote_asset_trade_size),
   amm.(AMM.minimum_base_asset_trade_size), amm.(AMM.base_spread),
   amm.(AMM.curve_update_intensity)).

Definition market_terms (m : Market) :=
  (m.(Market.market_index), m.(Market.pubkey), m.(Market.initialized),
   m.(Market.margin_ratio_initial), m.(Market.margin_ratio_partial),
   m.(Market.margin_ratio_maintenance), m.(Market.pnl_pool), amm_terms m.(Market.amm)).

(** With these, the base totals of the positions, which only trades move. *)
Definition amm_idle (amm : AMM) := (amm_terms amm, amm.(AMM.net_base_asset_amount)).
Definition market_base (m : Market) :=
  (m.(Market.base_asset_amount_long), m.(Market.base_asset_amount_short),
   m.(Market.amm).(AMM.net_base_asset_amount)).
Definition market_idle (m : Market) := (market_terms m, market_base m).

Definition user_terms (u : User) :=
  (u.(User.authority), u.(User.user_id), u.(User.name), u.(User.bank_balances)).

(** ** Curves *)

Ltac keep_terms :=
  repeat case_match;
  unfold market_idle, market_base, amm_idle, market_terms, amm_terms, user_terms, set_reserves,
    set_position, set_order in *;
  cbn in *; congruence.

Lemma idle_terms m m' : market_idle m' = market_idle m → market_terms m' = market_terms m.
Proof. unfold market_idle. congruence. Qed.
Lemma idle_base m m' : market_idle m' = market_idle m → market_base m' = market_base m.
Proof. unfold market_idle. congruence. Qed.

Section Curves.
Context `{BnLib}.

#[export] Instance update_mark_twap_terms amm now p :
  Frame (update_mark_twap amm now p) (λ r, amm_idle r.1 = amm_idle amm).
Proof.
  intros [amm' mid] Hok. apply update_mark_twap_frame in Hok as (? & ? & ? & -> & _). done.
Qed.

#[export] Instance swap_base_asset_terms amm a d now p s :
  Frame (swap_base_asset amm a d now p s) (λ r, amm_idle r.1 = amm_idle amm).
Proof.
  intros [amm' r] Hok. apply swap_base_asset_frame in Hok as (? & ? & ? & ? & ? & ->). done.
Qed.

#[export] Instance swap_quote_asset_terms amm a d now p s :
  Frame (swap_quote_asset amm a d now p s) (λ r, amm_idle r.1 = amm_idle amm).
Proof.
  intros [amm' r] Hok. apply swap_quote_asset_frame in Hok as (? & ? & ? & ? & ? & ->). done.
Qed.

#[export] Instance move_price_terms amm base quote :
  Frame (move_price amm base quote) (λ r, amm_idle r = amm_idle amm).
Proof. intros r Hok. unfold move_price in Hok. by frame_steps. Qed.

#[export] Instance update_oracle_price_twap_terms amm now d p :
  Frame (update_oracle_price_twap amm now d p) (λ r, amm_idle r.1 = amm_idle amm).
Proof. intros r Hok. unfold update_oracle_price_twap in Hok. frame_steps; done. Qed.

#[export] Instance calculate_spreads_terms amm :
  Frame (calculate_spreads amm) (λ r, amm_idle r.1 = amm_idle amm).
Proof. intros r Hok. unfold calculate_spreads in Hok. frame_steps; done. Qed.

(** *** Repegging and the depth of the curve *)

#[export] Instance apply_cost_to_market_terms m c :
  Frame (apply_cost_to_market m c) (λ r, market_idle r.1 = market_idle m).
Proof. intros r Hok. unfold apply_cost_to_market in Hok. frame_steps; done. Qed.

#[export] Instance adjust_peg_cost_terms m p :
  Frame (adjust_peg_cost m p) (λ r, market_idle r.1 = market_idle m).
Proof. intros r Hok. unfold adjust_peg_cost in Hok. frame_steps; done. Qed.

Lemma update_k_terms m k m' r : update_k m k = (m', r) → market_idle m' = market_idle m.
Proof.
  unfold update_k. destruct (calculate_swap_output _ _ _ _) as [[]| |]; by intros [= <- <-].
Qed.

#[export] Instance prepeg_over_budget_terms m mark budget peg cost :
  Frame (prepeg_over_budget m mark budget peg cost)
    (λ r, market_idle r.1.1 = market_idle m).
Proof.
  intros r Hok. unfold prepeg_over_budget in Hok. frame_steps. by eapply update_k_terms.
Qed.

#[export] Instance prepeg_terms m mark d budget :
  Frame (prepeg m mark d budget) (λ r, market_idle r.1 = market_idle m).
Proof. intros r Hok. unfold prepeg in Hok. frame_steps; keep_terms. Qed.

#[export] Instance repeg_terms `{OracleAccounts} m oracle peg slot g :
  Frame (repeg m oracle peg slot g) (λ r, market_idle r.1 = market_idle m).
Proof. intros r Hok. unfold repeg in Hok. frame_steps; keep_terms. Qed.

(** *** Funding *)

#[export] Instance calculate_funding_rate_long_short_terms m rate :
  Frame (calculate_funding_rate_long_short m rate) (λ r, market_idle r.1 = market_idle m).
Proof. intros r Hok. unfold calculate_funding_rate_long_short in Hok. frame_steps; done. Qed.

#[export] Instance update_funding_rate_terms `{OracleAccounts} m oracle now slot g paused mark :
  Frame (update_funding_rate m oracle now slot g paused mark)
    (λ r, market_idle r = market_idle m).
Proof. intros r Hok. unfold update_funding_rate in Hok. frame_steps; keep_terms. Qed.

(** *** Positions *)

#[export] Instance open_if_new_terms d m p :
  Frame (open_if_new d m p) (λ r, market_terms r.1 = market_terms m).
Proof. intros r Hok. unfold open_if_new in Hok. frame_steps; done. Qed.

#[export] Instance add_base_asset_amount_terms m after x :
  Frame (add_base_asset_amount m after x) (λ r, market_terms r = market_terms m).
Proof. intros r Hok. unfold add_base_asset_amount in Hok. frame_steps; done. Qed.

#[export] Instance add_quote_asset_amount_terms m after x :
  Frame (add_quote_asset_amount m after x) (λ r, market_terms r = market_terms m).
Proof. intros r Hok. unfold add_quote_asset_amount in Hok. frame_steps; done. Qed.

#[export] Instance close_open_interest_terms m after :
  Frame (close_open_interest m after) (λ r, market_terms r = market_terms m).
Proof. intros r Hok. unfold close_open_interest in Hok. frame_steps; done. Qed.

#[export] Instance increase_terms d q m p now mark :
  Frame (increase d q m p now mark) (λ r, market_terms r.1.1 = market_terms m).
Proof. intros r Hok. unfold increase in Hok. frame_steps; keep_terms. Qed.

#[export] Instance increase_with_base_asset_amount_terms d b m p now limit mark :
  Frame (increase_with_base_asset_amount d b m p now limit mark)
    (λ r, market_terms r.1.1 = market_terms m).
Proof. intros r Hok. unfold increase_with_base_asset_amount in Hok. frame_steps; keep_terms. Qed.

#[export] Instance reduce_terms d q m p now mark spread :
  Frame (reduce d q m p now mark spread) (λ r, market_terms r.1.1 = market_terms m).
Proof. intros r Hok. unfold reduce in Hok. frame_steps; keep_terms. Qed.

#[export] Instance reduce_with_base_asset_amount_terms d b m p now limit mark :
  Frame (reduce_with_base_asset_amount d b m p now limit mark)
    (λ r, market_terms r.1.1 = market_terms m).
Proof. intros r Hok. unfold reduce_with_base_asset_amount in Hok. frame_steps; keep_terms. Qed.

#[export] Instance close_terms m p now limit mark spread :
  Frame (close m p now limit mark spread) (λ r, market_terms r.1.1 = market_terms m).
Proof. intros r Hok. unfold close in Hok. frame_steps; keep_terms. Qed.

#[export] Instance trade_base_asset_amount_terms b d m p mark now limit :
  Frame (trade_base_asset_amount b d m p mark now limit)
    (λ r, market_terms r.1.1 = market_terms m).
Proof. intros r Hok. unfold trade_base_asset_amount in Hok. frame_steps; keep_terms. Qed.

#[export] Instance trade_quote_asset_amount_terms q d m p mark now :
  Frame (trade_quote_asset_amount q d m p mark now) (λ r, market_terms r.1.1 = market_terms m).
Proof. intros r Hok. unfold trade_quote_asset_amount in Hok. frame_steps; keep_terms. Qed.

#[export] Instance update_position_with_base_asset_amount_terms b d m u k mark now limit :
  Frame (update_position_with_base_asset_amount b d m u k mark now limit)
    (λ r, market_terms r.1.1 = market_terms m ∧ user_terms r.1.2 = user_terms u).
Proof.
  intros r Hok. unfold update_position_with_base_asset_amount in Hok. by frame_steps.
Qed.

#[export] Instance update_position_with_quote_asset_amount_terms q d m u k mark now :
  Frame (update_position_with_quote_asset_amount q d m u k mark now)
    (λ r, market_terms r.1.1 = market_terms m ∧ user_terms r.1.2 = user_terms u).
Proof.
  intros r Hok. unfold update_position_with_quote_asset_amount in Hok. by frame_steps.
Qed.
End Curves.

(** ** Accounts and orders *)

#[export] Instance load_mut_frame users k :
  Frame (load_mut users k)
    (λ r, users !! k = Some (Loaded r.1) ∧ r.2 = <[k := MutBorrowed]> users).
Proof. apply load_cell_mut_frame. Qed.

(** The ends of the borrows: a map with all its borrows dropped. *)
Ltac end_borrows :=
  subst; rewrite ?drop_borrowed in *;
  repeat match goal with
  | H : <[?i := _]> _ !! ?i = Some _ |- _ => rewrite lookup_insert_eq in H; simplify_eq
  end; rewrite ?insert_insert_eq.

(** What is put back into the maps shows what was there before. *)
Ltac keep_view_step :=
  match goal with
  | |- view _ ?m = view _ ?m => reflexivity
  | H : view ?f ?m' = view ?f ?m |- view ?f ?m' = _ => etransitivity; [exact H|]
  | |- view _ (drop_mut _ _ _) = _ => eapply view_drop; [eassumption|eassumption|keep_terms]
  | |- view _ (<[_ := Loaded _]> _) = _ =>
      etransitivity; [eapply view_put; [eassumption|keep_terms]|]
  end.
Ltac keep_view := cbn [fst snd liquidated_user liquidated_markets] in *; end_borrows; repeat keep_view_step.

#[export] Instance settle_funding_payment_terms `{BnLib} u mm :
  Frame (settle_funding_payment u mm) (λ r, user_terms r = user_terms u).
Proof. intros r Hok. unfold settle_funding_payment in Hok. by frame_steps. Qed.

#[export] Instance get_or_add_position_terms u i :
  Frame (get_or_add_position u i) (λ r, user_terms r.1 = user_terms u).
Proof.
  intros r Hok. unfold get_or_add_position in Hok.
  destruct (get_position_index _ i); by frame_steps.
Qed.

#[export] Instance add_unsettled_pnl_terms u k x :
  Frame (add_unsettled_pnl u k x) (λ r, user_terms r = user_terms u).
Proof. intros r Hok. unfold add_unsettled_pnl in Hok. by frame_steps. Qed.

#[export] Instance charge_user_terms u i fee td rd :
  Frame (charge_user u i fee td rd) (λ r, user_terms r = user_terms u).
Proof. intros r Hok. unfold charge_user in Hok. by frame_steps. Qed.

#[export] Instance charge_trade_terms u k pnl fee td rd :
  Frame (charge_trade u k pnl fee td rd) (λ r, user_terms r = user_terms u).
Proof. intros r Hok. unfold charge_trade in Hok. by frame_steps. Qed.

#[export] Instance release_order_if_filled_terms u n i :
  Frame (release_order_if_filled u n i) (λ r, user_terms r = user_terms u).
Proof.
  intros r Hok. unfold release_order_if_filled, release_order in Hok. by frame_steps.
Qed.

#[export] Instance add_market_fee_terms m fee :
  Frame (add_market_fee m fee) (λ r, market_idle r = market_idle m).
Proof. intros r Hok. unfold add_market_fee in Hok. by frame_steps. Qed.

#[export] Instance pay_filler_terms users k i x :
  Frame (pay_filler users k i x) (λ r, view user_terms r = view user_terms users).
Proof. intros r Hok. unfold pay_filler in Hok. frame_steps. keep_view. Qed.

#[export] Instance reward_referrer_terms users k x :
  Frame (reward_referrer users k x) (λ r, view user_terms r = view user_terms users).
Proof. intros r Hok. unfold reward_referrer in Hok. frame_steps. keep_view. Qed.

Section Orders.
Context `{BnLib} `{OracleAccounts} `{Roots}.

#[export] Instance execute_market_order_terms u n mm i mark now :
  Frame (execute_market_order u n mm i mark now)
    (λ r, user_terms r.1.1 = user_terms u ∧ view market_terms r.1.2 = view market_terms mm).
Proof.
  intros r Hok. unfold execute_market_order in Hok. frame_steps;
    (split; [keep_terms|keep_view]).
Qed.

#[export] Instance execute_non_market_order_terms u n mm bm om i mark now v :
  Frame (execute_non_market_order u n mm bm om i mark now v)
    (λ r, user_terms r.1.1.1 = user_terms u
          ∧ view market_terms r.1.1.2 = view market_terms mm).
Proof.
  intros r Hok. unfold execute_non_market_order in Hok. frame_steps; try done;
    (split; [keep_terms|keep_view]).
Qed.

#[export] Instance execute_order_terms u n mm bm om i mark now v :
  Frame (execute_order u n mm bm om i mark now v)
    (λ r, user_terms r.1.1.1 = user_terms u
          ∧ view market_terms r.1.1.2 = view market_terms mm).
Proof.
  intros r Hok. unfold execute_order in Hok. apply bind_ok in Hok as (o & _ & Hok).
  destruct (Order.order_type o); by frame_steps.
Qed.

#[export] Instance prepare_market_terms st m oracle clock :
  Frame (prepare_market st m oracle clock) (λ r, market_idle r.1 = market_idle m).
Proof. intros r Hok. unfold prepare_market in Hok. frame_steps; keep_terms. Qed.

#[export] Instance place_order_for_terms st ost u mm token referrer clock params oracle :
  Frame (place_order_for st ost u mm token referrer clock params oracle)
    (λ r, user_terms r = user_terms u).
Proof.
  intros r Hok. unfold place_order_for in Hok. cbv zeta in Hok.
  frame_steps; keep_terms.
Qed.

#[export] Instance place_order_terms st ost users k mm token referrer clock params oracle :
  Frame (place_order st ost users k mm token referrer clock params oracle)
    (λ r, view user_terms r = view user_terms users).
Proof. intros r Hok. unfold place_order in Hok. frame_steps; keep_view. Qed.

#[export] Instance cancel_order_terms st n u mm bm om clock oracle best :
  Frame (cancel_order st n u mm bm om clock oracle best)
    (λ r, user_terms r.1 = user_terms u).
Proof. intros r Hok. unfold cancel_order in Hok. frame_steps; keep_terms. Qed.

#[export] Instance cancel_first_order_terms p st users k mm bm om clock oracle :
  Frame (cancel_first_order p st users k mm bm om clock oracle)
    (λ r, view user_terms r.1 = view user_terms users).
Proof. intros r Hok. unfold cancel_first_order in Hok. frame_steps; keep_view. Qed.

#[export] Instance settle_fill_terms st ost users u uk fk referrer mm i n o now fill :
  Frame (settle_fill st ost users u uk fk referrer mm i n o now fill)
    (λ r, view user_terms r.1.1 = view user_terms users
          ∧ user_terms r.1.2 = user_terms u
          ∧ view market_terms r.2 = view market_terms mm).
Proof.
  intros r Hok. unfold settle_fill in Hok. frame_steps;
    (split_and!; [keep_view|keep_terms|keep_view]).
Qed.

#[export] Instance check_fill_frame st u mm bm om i oracle slot spread valid post fill :
  Frame (check_fill st u mm bm om i oracle slot spread valid post fill) (λ _, True).
Proof. done. Qed.

(** Filling an order leaves the terms of all users and markets. *)
#[export] Instance fill_order_terms id st ost users uk mm bm om oracle fk referrer clock :
  Frame (fill_order id st ost users uk mm bm om oracle fk referrer clock)
    (λ r, view user_terms r.1.1.1 = view user_terms users
          ∧ view market_terms r.1.1.2 = view market_terms mm).
Proof.
  intros r Hok. unfold fill_order in Hok. cbv zeta in Hok. frame_steps.
  all: (split; keep_view).
Qed.
End Orders.

(** ** Trades and liquidations *)

Section Trades.
Context `{BnLib} `{OracleAccounts}.

#[export] Instance observe_market_terms st m oracle clock :
  Frame (observe_market st m oracle clock) (λ r, market_idle r.1 = market_idle m).
Proof. intros r Hok. unfold observe_market in Hok. frame_steps; keep_terms. Qed.

#[export] Instance settle_trade_terms st users m u k token referrer q s pnl :
  Frame (settle_trade st users m u k token referrer q s pnl)
    (λ r, view user_terms r.1.1 = view user_terms users
          ∧ market_terms r.1.2 = market_terms m ∧ user_terms r.2 = user_terms u).
Proof.
  intros r Hok. unfold settle_trade in Hok.
  frame_steps; (split_and!; [keep_view|keep_terms..]).
Qed.

#[export] Instance open_position_terms st users bm mm om accounts uk auth oracle clock d q i
    limit optional :
  Frame (open_position st users bm mm om accounts uk auth oracle clock d q i limit optional)
    (λ r, view user_terms r.1.1 = view user_terms users
          ∧ view market_terms r.1.2 = view market_terms mm).
Proof.
  intros r Hok. unfold open_position in Hok. cbv zeta in Hok.
  frame_steps; (split; keep_view).
Qed.

#[export] Instance close_position_terms st users mm accounts uk auth oracle clock i optional :
  Frame (close_position st users mm accounts uk auth oracle clock i optional)
    (λ r, view user_terms r.1 = view user_terms users
          ∧ view market_terms r.2 = view market_terms mm).
Proof.
  intros r Hok. unfold close_position in Hok. cbv zeta in Hok.
  frame_steps; (split; keep_view).
Qed.

(** The loops of a liquidation: what every step keeps, the loop keeps. *)
Lemma loop_inv {A B} (P : B → Prop) (step : B → A → result (B * bool)) l acc acc' :
  (∀ b x b' stop, P b → step b x = Ok (b', stop) → P b') →
  P acc → loop step acc l = Ok acc' → P acc'.
Proof.
  intros Hstep. revert acc. induction l as [|x l IH]; intros acc Hacc Hok; cbn in Hok.
  - by apply Ok_inj in Hok as <-.
  - apply bind_ok in Hok as ([b stop] & Hb & Hok).
    assert (P b) by eauto. destruct stop; [by apply Ok_inj in Hok as <-|eauto].
Qed.

Definition same_terms (a b : Progress) : Prop :=
  user_terms a.(liquidated_user) = user_terms b.(liquidated_user)
  ∧ view market_terms a.(liquidated_markets) = view market_terms b.(liquidated_markets).

#[export] Instance liquidate_fully_terms m p status slippage now :
  Frame (liquidate_fully m p status slippage now)
    (λ r, market_terms r.1.1 = market_terms m).
Proof. intros r Hok. unfold liquidate_fully in Hok. frame_steps; keep_terms. Qed.

#[export] Instance full_liquidation_step_terms st now dust fee value collateral progress status :
  Frame (full_liquidation_step st now dust fee value collateral progress status)
    (λ r, same_terms r.1 progress).
Proof.
  intros r Hok. unfold full_liquidation_step, record_liquidation in Hok. unfold same_terms.
  frame_steps; try done; (split; [keep_terms|keep_view]).
Qed.

#[export] Instance partial_liquidation_step_terms st now fee closed collateral progress status :
  Frame (partial_liquidation_step st now fee closed collateral progress status)
    (λ r, same_terms r.1 progress).
Proof.
  intros r Hok. unfold partial_liquidation_step, record_liquidation in Hok. unfold same_terms.
  frame_steps; try done; (split; [keep_terms|keep_view]).
Qed.

#[export] Instance liquidate_positions_terms st u mm now status :
  Frame (liquidate_positions st u mm now status)
    (λ r, user_terms r.(liquidated_user) = user_terms u
          ∧ view market_terms r.(liquidated_markets) = view market_terms mm).
Proof.
  intros r Hok. unfold liquidate_positions in Hok. cbv zeta in Hok.
  set (start := mk_progress u mm 0 0 _) in *.
  enough (same_terms r start) by done.
  assert (∀ b b', same_terms b start → same_terms b' b → same_terms b' start) as Htrans
    by (intros b b' [] []; split; congruence).
  destruct (is_full_liquidation status);
    repeat (apply bind_ok in Hok as (? & _ & Hok));
    (refine (loop_inv (λ b, same_terms b start) _ _ _ _ _ _ Hok); [|done]);
    intros b y b' stop Hb Hstep; (apply (Htrans b); [done|exact (frame _ Hstep)]).
Qed.
End Trades.
