(* ===== verification/LiquidationProps.v ===== *)
(** * What a liquidation guarantees

    Only a user whose collateral is below its requirement is liquidated; the fee is at
    most its collateral and is divided between the liquidator and the insurance fund; a
    user who borrows is not liquidated at all; and a liquidation moves balances only together with the totals of the quote asset
    bank. *)

From stdpp Require Import base numbers list gmap.
From S2P Require Import Prelude Constants Bn State Value AmmMath BankBalance Twap Oracle.
From S2P Require Import Maps PositionMath CurveMath Repeg AmmController OrdersMath Position.
From S2P Require Import Funding Fees Margin OrderValidation Orders Addresses Tokens BankHandlers.
From S2P Require Import BankLedger BankOrders Loading Trading Liquidation TradingProps Frames.
Local Open Scope Z_scope.

(** ** The progress of the loops *)

Lemma share_ok a p w x :
  share a p w = Ok x → x = int_quot U128 (a * p) w ∧ 0 ≤ x.
Proof.
  unfold share. intros Hok. inv_ok. split; [done|]. by apply (has_type_nonneg U128).
Qed.

(** What a step of a loop keeps: the positions are in step with the orders, the value
    closed is not negative, the fee does not fall, the requirement does not rise, and a
    fee is at most the collateral. *)
Record advances (collateral : Z) (a b : Progress) : Prop := {
  advances_wf : orders_wf a.(liquidated_user) → orders_wf b.(liquidated_user);
  advances_orders : b.(liquidated_user).(User.orders) = a.(liquidated_user).(User.orders);
  advances_value : 0 ≤ a.(base_asset_value_closed) → 0 ≤ b.(base_asset_value_closed);
  advances_fee : a.(liquidation_fee) ≤ b.(liquidation_fee);
  advances_requirement : b.(requirement_left) ≤ a.(requirement_left);
  advances_bound : a = b ∨ b.(liquidation_fee) ≤ collateral;
}.

Lemma advances_refl c a : advances c a a.
Proof. split; done || lia || by left. Qed.

Lemma advances_trans c x y z : advances c x y → advances c y z → advances c x z.
Proof.
  intros [w1 o1 v1 f1 r1 b1] [w2 o2 v2 f2 r2 b2].
  split; [auto|congruence|auto|lia|lia|]. destruct b2 as [<-|]; [done|by right].
Qed.

(** *** Whose accounts they are *)

Lemma terms_balances u u' :
  user_terms u' = user_terms u → u'.(User.bank_balances) = u.(User.bank_balances).
Proof. unfold user_terms. congruence. Qed.

Lemma terms_owner u u' : user_terms u' = user_terms u → user_owner u' = user_owner u.
Proof. unfold user_terms, user_owner. congruence. Qed.

Lemma terms_owners users users' :
  view user_terms users' = view user_terms users →
  view user_owner users' = view user_owner users.
Proof. apply (view_part (λ t, (t.1.1.1, t.1.1.2, t.1.2)) user_terms). Qed.

Section Properties.
Context `{BnLib} `{OracleAccounts} `{TokenProgram}.

Lemma record_liquidation_advances progress market markets k p' p status value quote pnl req
    maxfee base coll always progress' stop i :
  record_liquidation progress market markets (set_position progress.(liquidated_user) k p')
    status k value quote pnl req maxfee base coll always = Ok (progress', stop) →
  get_position_index progress.(liquidated_user).(User.positions) i = Ok k →
  progress.(liquidated_user).(User.positions) !! k = Some p → same_slot p p' →
  0 ≤ value →
  advances coll progress progress'.
Proof.
  intros Hok Hk Hp Hslot Hv. unfold record_liquidation in Hok.
  apply bind_ok in Hok as (u & Hu & Hok). apply bind_ok in Hok as (mk & _ & Hok).
  apply bind_ok in Hok as (x & Hx & Hok). apply share_ok in Hx as [_ Hx].
  apply bind_ok in Hok as (r & Hr & Hok). apply csub_ok in Hr as [-> _].
  apply bind_ok in Hok as (f & Hf & Hok). apply share_ok in Hf as [_ Hf].
  apply bind_ok in Hok as (fee & Hfee & Hok). apply cadd_ok in Hfee as [-> _].
  apply bind_ok in Hok as (left & Hleft & Hok). apply csub_ok in Hleft as [-> Hleft].
  apply (has_type_nonneg U128) in Hleft; [|done].
  apply Ok_inj in Hok; injection Hok as <- <-.
  apply (trade_then_pnl i _ _ p) in Hu; [|done..].
  pose proof (trades_at_wf _ _ _ Hu) as Hwf. destruct Hu as [Ho _].
  split; cbn [liquidated_user base_asset_value_closed liquidation_fee requirement_left];
    [done|done|done|lia|lia|right; lia].
Qed.

Lemma liquidate_fully_slot m p status slippage now m' p' r :
  liquidate_fully m p status slippage now = Ok (m', p', r) →
  same_slot p p'.
Proof.
  intros Hok. unfold liquidate_fully in Hok. destruct (slippage_too_large slippage).
  - apply bind_ok in Hok as (q & _ & Hok).
    apply bind_ok in Hok as ([[m1 p1] [[b s] pnl]] & Hr & Hok).
    apply Ok_inj in Hok; simplify_eq. by eapply reduce_slot.
  - apply bind_ok in Hok as ([[m1 p1] [[[q b] s] pnl]] & Hr & Hok).
    apply Ok_inj in Hok; simplify_eq. by eapply close_slot.
Qed.

(** One market of a liquidation of either kind. *)
Lemma full_liquidation_step_advances st now dust maxfee value coll a status b stop :
  full_liquidation_step st now dust maxfee value coll a status = Ok (b, stop) →
  advances coll a b.
Proof.
  intros Hok. unfold full_liquidation_step in Hok. cbv zeta in Hok.
  destruct (_ =? 0); [apply Ok_inj in Hok; injection Hok as <- _; apply advances_refl|].
  apply bind_ok in Hok as ([m ms] & _ & Hok). apply bind_ok in Hok as (blocked & _ & Hok).
  destruct blocked; [apply Ok_inj in Hok; injection Hok as <- _; apply advances_refl|].
  apply bind_ok in Hok as (k & Hk & Hok). apply bind_ok in Hok as (p & Hp & Hok).
  apply unwrap_ok in Hp. do 4 (apply bind_ok in Hok as (? & _ & Hok)).
  apply bind_ok in Hok as (worse & _ & Hok).
  destruct worse; [apply Ok_inj in Hok; injection Hok as <- _; apply advances_refl|].
  apply bind_ok in Hok as ([[m1 p1] [q pnl]] & Hl & Hok).
  apply liquidate_fully_slot in Hl. apply bind_ok in Hok as (v & Hv & Hok).
  apply cadd_ok in Hv as [-> Hv].
  eapply record_liquidation_advances; [exact Hok|exact Hk|exact Hp|exact Hl|].
  by eapply (has_type_nonneg U128).
Qed.

Lemma partial_liquidation_step_advances st now maxfee value coll a status b stop :
  partial_liquidation_step st now maxfee value coll a status = Ok (b, stop) →
  advances coll a b.
Proof.
  intros Hok. unfold partial_liquidation_step in Hok. cbv zeta in Hok.
  destruct (_ =? 0); [apply Ok_inj in Hok; injection Hok as <- _; apply advances_refl|].
  apply bind_ok in Hok as ([m ms] & _ & Hok). apply bind_ok in Hok as (blocked & _ & Hok).
  destruct blocked; [apply Ok_inj in Hok; injection Hok as <- _; apply advances_refl|].
  apply bind_ok in Hok as (k & Hk & Hok). apply bind_ok in Hok as (p & Hp & Hok).
  apply unwrap_ok in Hp. do 6 (apply bind_ok in Hok as (? & _ & Hok)).
  apply bind_ok in Hok as (worse & _ & Hok). destruct worse; [done|].
  apply bind_ok in Hok as (q & _ & Hok). apply bind_ok in Hok as (v & Hv & Hok).
  apply cadd_ok in Hv as [-> Hv].
  apply bind_ok in Hok as ([[m1 p1] [[b1 s1] pnl]] & Hl & Hok). apply reduce_slot in Hl.
  eapply record_liquidation_advances; [exact Hok|exact Hk|exact Hp|exact Hl|].
  by eapply (has_type_nonneg U128).
Qed.

Lemma liquidate_positions_advances st u mm now status progress :
  liquidate_positions st u mm now status = Ok progress →
  advances status.(LiquidationStatus.adjusted_total_collateral)
    (mk_progress u mm 0 0 status.(LiquidationStatus.margin_requirement)) progress.
Proof.
  intros Hok. unfold liquidate_positions in Hok. cbv zeta in Hok.
  destruct (is_full_liquidation status); repeat (apply bind_ok in Hok as (? & _ & Hok));
    (eapply loop_inv; [|apply advances_refl|exact Hok]);
    intros b ms b' stop Hb Hstep; (eapply advances_trans; [exact Hb|]);
    [by eapply full_liquidation_step_advances|by eapply partial_liquidation_step_advances].
Qed.

(** ** The instruction *)

(** What [liquidate] has done when it succeeds: the loops on the user's settled
    positions, the payment of the liquidator, the payment of the fee and the transfer
    to the insurance fund. *)
Lemma liquidate_inv st users bm mm om ledger key liquidator vault insurance auth clock users'
    bm' mm' ledger' :
  liquidate st users bm mm om ledger key liquidator vault insurance auth clock
    = Ok (users', bm', mm', ledger') →
  ∃ u u1 om1 status progress to_liquidator us2 bm2 u2 bank k bank3 u3,
    st.(State.exchange_paused) = false
    ∧ users !! key = Some (Loaded u) ∧ settle_funding_payment u mm = Ok u1
    ∧ calculate_liquidation_status u1 mm bm om st.(State.oracle_guard_rails)
        clock.(Clock.slot) = Ok (om1, status)
    ∧ status.(LiquidationStatus.liquidation_type) ≠ NONE
    ∧ liquidate_positions st u1 mm clock.(Clock.unix_timestamp) status = Ok progress
    ∧ progress.(base_asset_value_closed) ≠ 0
    ∧ fee_to_liquidator st (is_full_liquidation status) progress.(liquidation_fee)
      = Ok to_liquidator
    ∧ 0 ≤ progress.(liquidation_fee) - to_liquidator
    ∧ pay_liquidator (<[key:=MutBorrowed]> users) bm progress.(liquidated_user) key liquidator
        to_liquidator = Ok (us2, bm2, u2)
    ∧ bm2 !! QUOTE_ASSET_BANK_INDEX = Some (Loaded bank)
    ∧ get_quote_asset_bank_balance_mut u2 = Ok k
    ∧ update_user_bank_balance progress.(liquidation_fee) Borrow bank u2 k = Ok (bank3, u3)
    ∧ (if 0 <? progress.(liquidation_fee) - to_liquidator
       then token_transfer (BankVaultSigns 0 bank3.(Bank.vault_authority_nonce)) ledger vault
              insurance auth (progress.(liquidation_fee) - to_liquidator) = Some ledger'
       else ledger' = ledger)
    ∧ users' = <[key:=Loaded u3]> us2 ∧ bm' = <[QUOTE_ASSET_BANK_INDEX:=Loaded bank3]> bm2
    ∧ mm' = progress.(liquidated_markets).
Proof.
  intros Hok. unfold liquidate in Hok. cbv zeta in Hok.
  apply bind_ok in Hok as ([] & Hpaused & Hok). apply validate_ok, negb_true_iff in Hpaused.
  apply bind_ok in Hok as ([u us] & Hu & Hok). apply load_cell_mut_ok in Hu as [Hu ->].
  apply bind_ok in Hok as (u1 & Hf & Hok).
  apply bind_ok in Hok as ([om1 status] & Hs & Hok). apply bind_ok in Hok as (b0 & _ & Hok).
  apply bind_ok in Hok as (k0 & _ & Hok). apply bind_ok in Hok as (ub & _ & Hok).
  apply bind_ok in Hok as (ta & _ & Hok). case_bool_decide as Htype; [done|].
  apply bind_ok in Hok as (progress & Hl & Hok).
  destruct (Z.eqb_spec (base_asset_value_closed progress) 0); [done|].
  apply bind_ok in Hok as (w & Hw & Hok). apply cast_ok in Hw as [-> _].
  apply bind_ok in Hok as (t & Ht & Hok). apply bind_ok in Hok as (r & Hr & Hok).
  apply csub_ok in Hr as [-> Hr]. apply (has_type_nonneg U64) in Hr; [|done].
  apply bind_ok in Hok as ([[us2 bm2] u2] & Hpay & Hok).
  apply bind_ok in Hok as ([bank bs] & Hb & Hok). apply load_cell_mut_ok in Hb as [Hb ->].
  apply bind_ok in Hok as (k & Hk & Hok). apply bind_ok in Hok as ([bank3 u3] & Hup & Hok).
  rewrite drop_borrowed in Hok. apply bind_ok in Hok as (l & Hledger & Hok).
  apply Ok_inj in Hok; injection Hok as <- <- <- <-.
  exists u, u1, om1, status, progress, t, us2, bm2, u2, bank, k, bank3, u3.
  split_and!; try done. destruct (0 <? _).
  - apply bind_ok in Hledger as (bank4 & Hb4 & Hledger). apply load_cell_ok in Hb4.
    rewrite lookup_insert_eq in Hb4. injection Hb4 as <-. by apply unwrap_ok in Hledger.
  - by apply Ok_inj in Hledger.
Qed.

(** The liquidator's part of the fee, credited: to nobody when there is none, to the
    user when the user liquidates itself, and otherwise to the account of the liquidator;
    a deposit into the quote balance of that account and into the quote bank. *)
Inductive liquidator_paid (users : UserMap) (key liquidator : Pubkey) (amount : Z) (u : User)
    (bank : Bank) : UserMap → Bank → User → Prop :=
  | paid_nothing :
      amount ≤ 0 → liquidator_paid users key liquidator amount u bank users bank u
  | paid_to_user k bank' u' :
      0 < amount → liquidator = key →
      get_quote_asset_bank_balance_mut u = Ok k →
      update_user_bank_balance amount Deposit bank u k = Ok (bank', u') →
      liquidator_paid users key liquidator amount u bank users bank' u'
  | paid_to_liquidator l k bank' l' :
      0 < amount → liquidator ≠ key →
      users !! liquidator = Some (Loaded l) →
      get_quote_asset_bank_balance_mut l = Ok k →
      update_user_bank_balance amount Deposit bank l k = Ok (bank', l') →
      liquidator_paid users key liquidator amount u bank (<[liquidator := Loaded l']> users)
        bank' u.

Lemma liquidator_paid_frame users key liquidator amount u bank users' bank' u' x :
  liquidator_paid users key liquidator amount u bank users' bank' u' →
  x ≠ liquidator → users' !! x = users !! x.
Proof. intros Hpaid Hx. destruct Hpaid; [done..|by apply lookup_insert_ne]. Qed.

Lemma pay_liquidator_paid users bm u key liquidator amount us2 bm2 u2 bank2 :
  pay_liquidator (<[key:=MutBorrowed]> users) bm u key liquidator amount = Ok (us2, bm2, u2) →
  bm2 !! QUOTE_ASSET_BANK_INDEX = Some (Loaded bank2) →
  ∃ bank users2,
    bm !! QUOTE_ASSET_BANK_INDEX = Some (Loaded bank)
    ∧ liquidator_paid users key liquidator amount u bank users2 bank2 u2
    ∧ (∀ u3, <[key:=Loaded u3]> us2 = <[key:=Loaded u3]> users2)
    ∧ (∀ bank3, <[QUOTE_ASSET_BANK_INDEX:=Loaded bank3]> bm2
                = <[QUOTE_ASSET_BANK_INDEX:=Loaded bank3]> bm).
Proof.
  intros Hok Hb2. unfold pay_liquidator in Hok. destruct (Z.ltb_spec 0 amount).
  - apply bind_ok in Hok as ([bank bs] & Hb & Hok). apply load_cell_mut_ok in Hb as [Hb ->].
    exists bank. destruct (Z.eqb_spec liquidator key) as [Heq|Hne].
    + apply bind_ok in Hok as (k & Hk & Hok). apply bind_ok in Hok as ([b2 u'] & Hup & Hok).
      rewrite drop_borrowed in Hok. apply Ok_inj in Hok; injection Hok as <- <- <-.
      rewrite lookup_insert_eq in Hb2. injection Hb2 as <-. exists users.
      split; [done|]. split; [by eapply paid_to_user|].
      split; intros; by rewrite insert_insert_eq.
    + apply bind_ok in Hok as ([l ls] & Hl & Hok). apply load_cell_mut_ok in Hl as [Hl ->].
      rewrite lookup_insert_ne in Hl by done.
      apply bind_ok in Hok as (k & Hk & Hok). apply bind_ok in Hok as ([b2 l'] & Hup & Hok).
      rewrite !drop_borrowed in Hok. apply Ok_inj in Hok; injection Hok as <- <- <-.
      rewrite lookup_insert_eq in Hb2. injection Hb2 as <-. exists (<[liquidator:=Loaded l']> users).
      split; [done|]. split; [by eapply paid_to_liquidator|]. split; intros.
      * rewrite insert_insert_ne by done. by rewrite insert_insert_eq, insert_insert_ne.
      * by rewrite insert_insert_eq.
  - apply Ok_inj in Hok; injection Hok as <- <- <-. exists bank2, users.
    split; [done|]. split; [by apply paid_nothing|].
    split; intros; [by rewrite insert_insert_eq|done].
Qed.

(** C23. A liquidation happens only to a user whose collateral, adjusted for invalid
    oracles, is below the margin requirement, closes something, and takes a fee of at
    most that collateral.  The liquidator's share of the fee is credited to the quote
    balance of the liquidator, the rest is paid from the vault to the insurance fund, the
    whole fee is debited from the quote balance of the user whose positions were closed,
    and nobody else is touched: closing the positions leaves the balances as they were, no
    account but the user's and the liquidator's changes, no bank but the one of the quote
    asset, and the markets are those that closing the positions leaves. *)
Theorem liquidate_safe st users bm mm om ledger key liquidator vault insurance auth clock
    users' bm' mm' ledger' :
  liquidate st users bm mm om ledger key liquidator vault insurance auth clock
    = Ok (users', bm', mm', ledger') →
  st.(State.exchange_paused) = false
  ∧ ∃ u u1 om1 status progress to_liquidator bank users2 bank2 u2 k bank3 u3,
    users !! key = Some (Loaded u) ∧ settle_funding_payment u mm = Ok u1
    ∧ calculate_liquidation_status u1 mm bm om st.(State.oracle_guard_rails)
        clock.(Clock.slot) = Ok (om1, status)
    ∧ status.(LiquidationStatus.adjusted_total_collateral)
      < status.(LiquidationStatus.margin_requirement)
    ∧ liquidate_positions st u1 mm clock.(Clock.unix_timestamp) status = Ok progress
    ∧ 0 < progress.(base_asset_value_closed)
    ∧ progress.(requirement_left) ≤ status.(LiquidationStatus.margin_requirement)
    ∧ progress.(liquidated_user).(User.bank_balances) = u.(User.bank_balances)
    ∧ (let fee := progress.(liquidation_fee) in
       0 ≤ fee ∧ fee ≤ Z.max 0 status.(LiquidationStatus.adjusted_total_collateral)
       ∧ fee_to_liquidator st (is_full_liquidation status) fee = Ok to_liquidator
       ∧ to_liquidator ≤ fee)
    ∧ bm !! QUOTE_ASSET_BANK_INDEX = Some (Loaded bank)
    ∧ liquidator_paid users key liquidator to_liquidator progress.(liquidated_user) bank
        users2 bank2 u2
    ∧ get_quote_asset_bank_balance_mut u2 = Ok k
    ∧ update_user_bank_balance progress.(liquidation_fee) Borrow bank2 u2 k = Ok (bank3, u3)
    ∧ users' = <[key := Loaded u3]> users2
    ∧ (∀ x, x ≠ key → x ≠ liquidator → users' !! x = users !! x)
    ∧ bm' = <[QUOTE_ASSET_BANK_INDEX := Loaded bank3]> bm
    ∧ mm' = progress.(liquidated_markets)
    ∧ (if 0 <? progress.(liquidation_fee) - to_liquidator
       then token_transfer (BankVaultSigns 0 bank3.(Bank.vault_authority_nonce)) ledger vault
              insurance auth (progress.(liquidation_fee) - to_liquidator) = Some ledger'
       else ledger' = ledger).
Proof.
  intros Hok. apply liquidate_inv in Hok as (u & u1 & om1 & status & progress & t & us2 & bm2
    & u2 & bank2 & k & bank3 & u3 & Hpaused & Hu & Hf & Hs & Htype & Hl & Hv & Ht & Hr & Hpay
    & Hb & Hk & Hup & Hledger & -> & -> & ->).
  destruct (pay_liquidator_paid _ _ _ _ _ _ _ _ _ _ Hpay Hb)
    as (bank & users2 & Hbank & Hpaid & Hus & Hbm).
  split; [done|]. exists u, u1, om1, status, progress, t, bank, users2, bank2, u2, k, bank3, u3.
  pose proof (liquidation_status_below _ _ _ _ _ _ _ _ Hs Htype).
  destruct (liquidate_positions_advances _ _ _ _ _ _ Hl) as [_ _ Hval Hfee Hreq Hbound].
  cbn [base_asset_value_closed liquidation_fee requirement_left] in *.
  assert (liquidation_fee progress ≤
    Z.max 0 (LiquidationStatus.adjusted_total_collateral status))
    by (destruct Hbound as [<-|]; cbn [liquidation_fee]; lia).
  pose proof (frame (r := settle_funding_payment u mm) _ Hf) as Hu1.
  pose proof (frame (r := liquidate_positions _ _ _ _ _) _ Hl) as [Hu2 _]. cbv beta in *.
  rewrite Hus, Hbm. split_and!; try done; [lia|apply terms_balances; congruence|lia..|].
  intros x Hx Hxl. rewrite lookup_insert_ne by done. by eapply liquidator_paid_frame.
Qed.

(** C24. An account that borrows from any bank cannot be liquidated, however little its
    collateral is worth, whoever calls and whatever markets, prices and vaults are given:
    the calculation of the liquidation status aborts on a balance of type borrow. *)
Theorem borrower_is_not_liquidated st users bm mm om ledger key liquidator vault insurance
    auth clock u b :
  users !! key = Some (Loaded u) → b ∈ u.(User.bank_balances) →
  b.(UserBankBalance.balance) ≠ 0 → b.(UserBankBalance.balance_type) = Borrow →
  ∀ r, liquidate st users bm mm om ledger key liquidator vault insurance auth clock ≠ Ok r.
Proof.
  intros Hu Hb Hne Hborrow [[[users' bm'] mm'] ledger'] Hok.
  apply liquidate_inv in Hok as (u0 & u1 & om1 & status & progress & t & us2 & bm2 & u2 & bank2
    & k & bank3 & u3 & _ & Hu0 & Hf & Hs & _).
  assert (u0 = u) as -> by congruence.
  pose proof (frame (r := settle_funding_payment u mm) _ Hf) as Hu1%terms_balances.
  unfold calculate_liquidation_status in Hs. apply bind_ok in Hs as (acc & Hacc & _).
  apply (fold_result_forall _ not_borrowed) in Hacc;
    [|intros; by eapply deposit_step_not_borrowed].
  rewrite Hu1, Forall_forall in Hacc. destruct (Hacc b Hb); congruence.
Qed.

(** The positions of the user stay in step with its orders. *)
Lemma pay_liquidator_users users bm u key liquidator fee users' bm' u' :
  pay_liquidator users bm u key liquidator fee = Ok (users', bm', u') →
  u'.(User.positions) = u.(User.positions) ∧ u'.(User.orders) = u.(User.orders)
  ∧ (users_wf users → users_wf users').
Proof.
  intros Hok. unfold pay_liquidator in Hok. destruct (0 <? fee);
    [|apply Ok_inj in Hok; injection Hok as <- <- <-; done].
  apply bind_ok in Hok as ([bank bs] & _ & Hok). destruct (liquidator =? key).
  - apply bind_ok in Hok as (k & _ & Hok). apply bind_ok in Hok as ([bank2 u2] & Hu & Hok).
    apply Ok_inj in Hok; injection Hok as <- <- <-. by apply update_user_bank_balance_orders in Hu as [].
  - apply bind_ok in Hok as ([l ls] & Hl & Hok). apply load_cell_mut_ok in Hl as [Hl ->].
    apply bind_ok in Hok as (k & _ & Hok). apply bind_ok in Hok as ([bank2 l2] & Hu & Hok).
    apply Ok_inj in Hok; injection Hok as <- <- <-. rewrite drop_borrowed.
    split; [done|]. split; [done|]. intros Hwf. apply users_wf_insert; [done|].
    apply update_user_bank_balance_orders in Hu as [Hp Ho]. eapply orders_wf_same; [exact Hp|exact Ho|]. by eapply Hwf.
Qed.

Lemma liquidate_wf st users bm mm om ledger key liquidator vault insurance auth clock users'
    bm' mm' ledger' :
  liquidate st users bm mm om ledger key liquidator vault insurance auth clock
    = Ok (users', bm', mm', ledger') →
  users_wf users → users_wf users'.
Proof.
  intros Hok Hus. apply liquidate_inv in Hok as (u & u1 & om1 & status & progress & t & us2
    & bm2 & u2 & bank & k & bank3 & u3 & _ & Hu & Hf & _ & _ & Hl & _ & _ & _ & Hpay & _
    & _ & Hup & _ & -> & _).
  apply settle_funding_wf in Hf as (_ & _ & Hwf1).
  pose proof (advances_wf _ _ _ (liquidate_positions_advances _ _ _ _ _ _ Hl)) as Hwf2.
  apply pay_liquidator_users in Hpay as (Hp & Ho & Hus2).
  apply users_wf_insert; [by apply Hus2, users_wf_borrow|].
  apply update_user_bank_balance_orders in Hup as [Hp3 Ho3].
  apply (orders_wf_same (liquidated_user progress)); [congruence|congruence|].
  apply Hwf2, Hwf1. by eapply Hus.
Qed.

(** ** The ledger of a liquidation *)

Lemma terms_pools mm mm' :
  view market_terms mm' = view market_terms mm →
  view Market.pnl_pool mm' = view Market.pnl_pool mm.
Proof. apply (view_part (λ t, t.1.2) market_terms). Qed.

Lemma terms_pool m m' :
  market_terms m' = market_terms m → m'.(Market.pnl_pool) = m.(Market.pnl_pool).
Proof. unfold market_terms. congruence. Qed.

Lemma terms_users users users' :
  view user_terms users' = view user_terms users →
  view User.bank_balances users' = view User.bank_balances users.
Proof. apply (view_part (λ t, t.2) user_terms). Qed.

Lemma pay_liquidator_balanced users bm mm u key liquidator fee us2 bm2 u2 :
  pay_liquidator (<[key:=MutBorrowed]> users) bm u key liquidator fee = Ok (us2, bm2, u2) →
  rtc balanced (<[key:=Loaded u]> users, bm, mm) (<[key:=Loaded u2]> us2, bm2, mm).
Proof.
  intros Hok. unfold pay_liquidator in Hok. destruct (0 <? fee);
    [|apply Ok_inj in Hok; injection Hok as <- <- <-; by rewrite insert_insert_eq].
  apply bind_ok in Hok as ([bank bs] & Hb & Hok). apply load_cell_mut_ok in Hb as [Hb ->].
  destruct (Z.eqb_spec liquidator key) as [->|Hne].
  - apply bind_ok in Hok as (k & Hk & Hok). apply bind_ok in Hok as ([bank2 u3] & Hu & Hok).
    apply Ok_inj in Hok; injection Hok as <- <- <-. rewrite drop_borrowed, insert_insert_eq.
    rewrite <-(insert_insert_eq users key (Loaded u3) (Loaded u)).
    apply rtc_once. by eapply quote_update_balanced; [apply lookup_insert_eq|..].
  - apply bind_ok in Hok as ([l ls] & Hl & Hok). apply load_cell_mut_ok in Hl as [Hl ->].
    rewrite lookup_insert_ne in Hl by done.
    apply bind_ok in Hok as (k & Hk & Hok). apply bind_ok in Hok as ([bank2 l2] & Hu & Hok).
    apply Ok_inj in Hok; injection Hok as <- <- <-. rewrite !drop_borrowed.
    rewrite (insert_insert_ne _ key liquidator), insert_insert_eq by done.
    rewrite (insert_insert_ne _ liquidator key) by done. apply rtc_once.
    rewrite (insert_insert_ne _ key liquidator) by done.
    by eapply quote_update_balanced; [rewrite lookup_insert_ne by done|..].
Qed.

Lemma liquidate_balanced st users bm mm om ledger key liquidator vault insurance auth clock
    users' bm' mm' ledger' :
  liquidate st users bm mm om ledger key liquidator vault insurance auth clock
    = Ok (users', bm', mm', ledger') →
  rtc balanced (users, bm, mm) (users', bm', mm').
Proof.
  intros Hok. apply liquidate_inv in Hok as (u & u1 & om1 & status & progress & t & us2
    & bm2 & u2 & bank & k & bank3 & u3 & _ & Hu & Hf & _ & _ & Hl & _ & _ & _ & Hpay & Hb
    & Hk & Hup & _ & -> & -> & ->).
  pose proof (frame (r := settle_funding_payment u mm) _ Hf) as Hu1.
  pose proof (frame (r := liquidate_positions _ _ _ _ _) _ Hl) as [Hu2 Hmm]. cbv beta in *.
  apply (rtc_l _ _ (<[key:=Loaded progress.(liquidated_user)]> users, bm,
    progress.(liquidated_markets))).
  { apply balanced_frame; [|by apply terms_pools].
    eapply view_put; [exact Hu|]. apply terms_balances. congruence. }
  eapply rtc_r; [by eapply (pay_liquidator_balanced users)|].
  rewrite <-(insert_insert_eq us2 key (Loaded u3) (Loaded u2)).
  by eapply quote_update_balanced; [apply lookup_insert_eq|..].
Qed.

Lemma deposit_owner users bm mm ledger key token vault auth clock i amount ro users' bm'
    ledger' :
  deposit users bm mm ledger key token vault auth clock i amount ro
    = Ok (users', bm', ledger') →
  view user_owner users' = view user_owner users.
Proof.
  intros Hok. unfold deposit in Hok. frame_steps.
  match goal with H : user_terms _ = user_terms _ |- _ => apply terms_owner in H end.
  end_borrows. eapply view_put; [eassumption|keep_owner].
Qed.

Lemma withdraw_owner st users bm mm om ledger key token vault auth clock i amount ro users'
    bm' om' ledger' :
  withdraw st users bm mm om ledger key token vault auth clock i amount ro
    = Ok (users', bm', om', ledger') →
  view user_owner users' = view user_owner users.
Proof.
  intros Hok. unfold withdraw in Hok. frame_steps.
  match goal with H : user_terms _ = user_terms _ |- _ => apply terms_owner in H end.
  end_borrows. eapply view_put; [eassumption|keep_owner].
Qed.

Lemma transfer_deposit_owner users bm mm om from to clock i amount users' bm' om' :
  transfer_deposit users bm mm om from to clock i amount = Ok (users', bm', om') →
  view user_owner users' = view user_owner users.
Proof.
  intros Hok. unfold transfer_deposit in Hok. frame_steps. subst.
  eapply view_drop; [eassumption| |congruence].
  eapply view_drop; [eassumption|done|congruence].
Qed.

Lemma settle_pnl_owner st users bm mm key auth i users' bm' mm' :
  settle_pnl st users bm mm key auth i = Ok (users', bm', mm') →
  view user_owner users' = view user_owner users.
Proof.
  intros Hok. apply settle_pnl_inv in Hok
    as (u & k & p & bank & m & u' & bank' & m' & Hu & _ & _ & _ & _ & -> & _ & _ & Hcase).
  eapply view_put; [exact Hu|]. cbv zeta in Hcase.
  destruct (_ =? 0); [by destruct Hcase as (_ & _ & ->)|]. destruct (0 <? _).
  - unfold settle_profit in Hcase. frame_steps; done.
  - unfold settle_loss in Hcase. frame_steps; done.
Qed.

Lemma liquidate_owner st users bm mm om ledger key liquidator vault insurance auth clock
    users' bm' mm' ledger' :
  liquidate st users bm mm om ledger key liquidator vault insurance auth clock
    = Ok (users', bm', mm', ledger') →
  view user_owner users' = view user_owner users.
Proof.
  intros Hok. apply liquidate_inv in Hok as (u & u1 & om1 & status & progress & t & us2
    & bm2 & u2 & bank & k & bank3 & u3 & _ & Hu & Hf & _ & _ & Hl & _ & _ & _ & Hpay & Hb
    & Hk & Hup & _ & -> & _ & _).
  pose proof (frame (r := settle_funding_payment u mm) _ Hf) as Hu1%terms_owner.
  pose proof (frame (r := liquidate_positions _ _ _ _ _) _ Hl) as [Hu2%terms_owner _].
  pose proof (frame (r := update_user_bank_balance _ _ _ _ _) _ Hup) as Hu3.
  cbv beta in *. cbn [snd] in *.
  assert (view user_owner us2 = view user_owner (<[key:=MutBorrowed]> users)
    ∧ user_owner u2 = user_owner (liquidated_user progress)) as [Hus2 Hu4].
  { unfold pay_liquidator in Hpay. frame_steps; try done. subst. split; [|done].
    eapply view_drop; [eassumption|done|congruence]. }
  eapply view_drop; [exact Hu|exact Hus2|congruence].
Qed.
End Properties.
