(* ===== verification/BankTypes.v ===== *)
(** * How a bank evolves

    A bank has no setters: once it is created, instructions move its totals within their
    integer types, its cumulative interest only grows, and everything else stays. *)

From stdpp Require Import base numbers list gmap.
From S2P Require Import Prelude Constants Bn State Value AmmMath BankBalance Twap Oracle.
From S2P Require Import Maps PositionMath CurveMath Repeg AmmController OrdersMath Position.
From S2P Require Import Funding Fees Margin OrderValidation Orders Addresses Tokens BankHandlers.
From S2P Require Import BankLedger BankOrders Loading Trading Liquidation TradingProps Frames.
From S2P Require Import LiquidationProps.
Local Open Scope Z_scope.

(** ** Definitions *)

(** What is set when the bank is created. *)
Definition bank_params (b : Bank) :=
  (b.(Bank.bank_index), b.(Bank.pubkey), b.(Bank.oracle), b.(Bank.oracle_source),
   b.(Bank.mint), b.(Bank.vault), b.(Bank.vault_authority), b.(Bank.vault_authority_nonce),
   b.(Bank.decimals),
   (b.(Bank.optimal_utilization), b.(Bank.optimal_borrow_rate), b.(Bank.max_borrow_rate)),
   (b.(Bank.initial_asset_weight), b.(Bank.maintenance_asset_weight),
    b.(Bank.initial_liability_weight), b.(Bank.maintenance_liability_weight))).

Record bank_evolves (b b' : Bank) : Prop := {
  evolves_typed : Bank.typed b → Bank.typed b';
  evolves_params : bank_params b' = bank_params b;
  evolves_deposit_interest :
    b.(Bank.cumulative_deposit_interest) ≤ b'.(Bank.cumulative_deposit_interest);
  evolves_borrow_interest :
    b.(Bank.cumulative_borrow_interest) ≤ b'.(Bank.cumulative_borrow_interest);
}.

#[export] Instance bank_evolves_preorder : PreOrder bank_evolves.
Proof.
  split; [by split|].
  intros b1 b2 b3 [t1 p1 d1 i1] [t2 p2 d2 i2]. split; [auto|congruence|lia|lia].
Qed.

(** No bank disappears, none appears, and all evolve. *)
Definition banks_evolve (bm bm' : BankMap) : Prop :=
  (∀ i, bm !! i = None → bm' !! i = None)
  ∧ ∀ i b, bm !! i = Some (Loaded b) →
      ∃ b', bm' !! i = Some (Loaded b') ∧ bank_evolves b b'.

(** ** One bank *)

#[export] Instance increase_bank_balance_evolves x b t :
  Frame (increase_bank_balance x b t) (bank_evolves b).
Proof.
  intros b' Hok. unfold increase_bank_balance in Hok.
  destruct t; inv_ok; (split; [intros []; by split|done|cbn; lia|cbn; lia]).
Qed.

#[export] Instance decrease_bank_balance_evolves x b t :
  Frame (decrease_bank_balance x b t) (bank_evolves b).
Proof.
  intros b' Hok. unfold decrease_bank_balance in Hok.
  destruct t; inv_ok; (split; [intros []; by split|done|cbn; lia|cbn; lia]).
Qed.

#[export] Instance update_bank_balances_evolves {B} `{BankBalance B} x d bank (b : B) :
  Frame (update_bank_balances x d bank b) (λ r, bank_evolves bank r.1).
Proof.
  intros r Hok. unfold update_bank_balances, reduce_existing, increase_both in Hok.
  cbn [bind] in Hok. frame_steps; cbn [fst]; by repeat (etransitivity; [eassumption|]).
Qed.

#[export] Instance update_user_bank_balance_evolves x d bank u k :
  Frame (update_user_bank_balance x d bank u k) (λ r, bank_evolves bank r.1).
Proof. intros r Hok. unfold update_user_bank_balance in Hok. by frame_steps. Qed.

#[export] Instance update_bank_cumulative_interest_evolves bank now :
  Frame (update_bank_cumulative_interest bank now) (bank_evolves bank).
Proof.
  intros b' Hok. unfold update_bank_cumulative_interest in Hok. cbv zeta in Hok.
  apply bind_ok in Hok as (i & _ & Hok). destruct (_ && _) eqn:Hpos; [|by inv_ok].
  bool_prop. inv_ok. split; [intros []; by split|done|cbn; lia|cbn; lia].
Qed.

(** ** The maps *)

Lemma banks_evolve_refl bm : banks_evolve bm bm.
Proof. split; [done|]. intros i b Hb. by exists b. Qed.

Lemma banks_evolve_put bm i b b' :
  bm !! i = Some (Loaded b) → bank_evolves b b' → banks_evolve bm (<[i:=Loaded b']> bm).
Proof.
  intros Hi Hb. split.
  - intros j Hj. rewrite lookup_insert_ne; [done|congruence].
  - intros j c Hj. destruct (decide (j = i)) as [->|].
    + exists b'. rewrite lookup_insert_eq. split; [done|]. by simplify_eq.
    + exists c. by rewrite lookup_insert_ne.
Qed.

Lemma banks_evolve_trans bm1 bm2 bm3 :
  banks_evolve bm1 bm2 → banks_evolve bm2 bm3 → banks_evolve bm1 bm3.
Proof.
  intros [N1 S1] [N2 S2]. split; [auto|]. intros i b Hb.
  destruct (S1 _ _ Hb) as (b2 & Hb2 & E1). destruct (S2 _ _ Hb2) as (b3 & Hb3 & E2).
  exists b3. split; [done|by etransitivity].
Qed.

(** The banks that were not loaded stay. *)
Lemma banks_evolve_loaded bm bm' banks :
  banks_evolve bm bm' → bm ⊆ banks → banks_evolve banks (bm' ∪ banks).
Proof.
  intros [N S] Hsub. split.
  - intros i Hi. apply lookup_union_None. split; [|done]. apply N.
    by eapply lookup_weaken_None.
  - intros i b Hi. destruct (bm !! i) as [c|] eqn:Hc.
    + pose proof (lookup_weaken _ _ _ _ Hc Hsub) as Hc'. simplify_eq.
      destruct (S _ _ Hc) as (b' & Hb' & E). exists b'. split; [|done].
      by apply lookup_union_Some_l.
    + exists b. split; [|done]. rewrite lookup_union_r; [done|auto].
Qed.

#[export] Instance bank_get_ref_mut_frame m i :
  Frame (bank_get_ref_mut m i) (λ r, m !! i = Some (Loaded r.1) ∧ r.2 = <[i := MutBorrowed]> m).
Proof. apply load_cell_mut_frame. Qed.
#[export] Instance get_quote_asset_bank_mut_frame m :
  Frame (get_quote_asset_bank_mut m)
    (λ r, m !! QUOTE_ASSET_BANK_INDEX = Some (Loaded r.1)
          ∧ r.2 = <[QUOTE_ASSET_BANK_INDEX := MutBorrowed]> m).
Proof. apply load_cell_mut_frame. Qed.

(** ** The instructions *)

Ltac bank_evolution :=
  subst; rewrite ?drop_borrowed; eapply banks_evolve_put; [eassumption|];
  by repeat (etransitivity; [eassumption|]).

Section Instructions.
Context `{BnLib} `{OracleAccounts} `{TokenProgram}.

Lemma deposit_evolves users bm mm ledger key token vault auth clock i amount ro users' bm'
    ledger' :
  deposit users bm mm ledger key token vault auth clock i amount ro
    = Ok (users', bm', ledger') →
  banks_evolve bm bm'.
Proof. intros Hok. unfold deposit in Hok. frame_steps. bank_evolution. Qed.

Lemma withdraw_evolves st users bm mm om ledger key token vault auth clock i amount ro users'
    bm' om' ledger' :
  withdraw st users bm mm om ledger key token vault auth clock i amount ro
    = Ok (users', bm', om', ledger') →
  banks_evolve bm bm'.
Proof. intros Hok. unfold withdraw in Hok. frame_steps. bank_evolution. Qed.

Lemma transfer_deposit_evolves users bm mm om from to clock i amount users' bm' om' :
  transfer_deposit users bm mm om from to clock i amount = Ok (users', bm', om') →
  banks_evolve bm bm'.
Proof. intros Hok. unfold transfer_deposit in Hok. frame_steps. bank_evolution. Qed.

Lemma settle_pnl_evolves st users bm mm key auth i users' bm' mm' :
  settle_pnl st users bm mm key auth i = Ok (users', bm', mm') → banks_evolve bm bm'.
Proof.
  intros Hok. apply settle_pnl_inv in Hok
    as (u & k & p & bank & m & u' & bank' & m' & _ & Hb & _ & _ & _ & _ & -> & _ & Hcase).
  eapply banks_evolve_put; [exact Hb|]. cbv zeta in Hcase.
  destruct (_ =? 0); [by destruct Hcase as (-> & _ & _)|]. destruct (0 <? _).
  - unfold settle_profit in Hcase. frame_steps; by repeat (etransitivity; [eassumption|]).
  - unfold settle_loss in Hcase. frame_steps; by repeat (etransitivity; [eassumption|]).
Qed.

Lemma liquidate_evolves st users bm mm om ledger key liquidator vault insurance auth clock
    users' bm' mm' ledger' :
  liquidate st users bm mm om ledger key liquidator vault insurance auth clock
    = Ok (users', bm', mm', ledger') →
  banks_evolve bm bm'.
Proof.
  intros Hok. apply liquidate_inv in Hok as (u & u1 & om1 & status & progress & t & us2
    & bm2 & u2 & bank & k & bank3 & u3 & _ & _ & _ & _ & _ & _ & _ & _ & _ & Hpay & Hb
    & _ & Hup & _ & _ & -> & _).
  apply (banks_evolve_trans _ bm2).
  - unfold pay_liquidator in Hpay. frame_steps; [bank_evolution..|apply banks_evolve_refl].
  - eapply banks_evolve_put; [exact Hb|]. exact (frame _ Hup).
Qed.
End Instructions.

(** A new bank holds values of their types when its parameters do. *)
Lemma initialize_bank_typed `{OracleAccounts} `{ProgramAddresses} st p clock st' bank :
  has_type U64 st.(State.number_of_banks) →
  has_type U8 (find_bank_vault_authority st.(State.number_of_banks)).2 →
  has_type U8 p.(BankParams.mint_decimals) →
  Forall (has_type U128)
    [p.(BankParams.optimal_utilization); p.(BankParams.optimal_borrow_rate);
     p.(BankParams.max_borrow_rate); p.(BankParams.initial_asset_weight);
     p.(BankParams.maintenance_asset_weight); p.(BankParams.initial_liability_weight);
     p.(BankParams.maintenance_liability_weight)] →
  initialize_bank st p clock = Ok (st', bank) → Bank.typed bank.
Proof.
  intros Hi Hnonce Hdec Hp Hok. repeat (apply Forall_cons in Hp as [? Hp]).
  unfold initialize_bank in Hok. destruct (find_bank_vault_authority _) as [va nonce].
  destruct (negb _); [done|]. destruct (get_then_update_id _) as [x next].
  apply bind_ok in Hok as ([] & _ & Hok). apply bind_ok in Hok as (now & Hnow & Hok).
  apply or_err_ok in Hnow. apply cast_ok in Hnow as [-> Hnow].
  apply Ok_inj in Hok; injection Hok as <- <-. by split.
Qed.
