(* ===== verification/Admin.v ===== *)
(** * Administration (lib.rs)

    The instructions of the administrator: the creation of the exchange and of its
    markets, the price and depth of a market's curve, its oracle average, the fees and
    the insurance fund, and the setters.  A market account is an argument that the
    instruction returns changed.  [access_control] runs each of its checks in turn.  EventAdmin
    adds the records that the code emits. *)

From stdpp Require Import base numbers list gmap.
From S2P Require Import Prelude Constants Bn State Value AmmMath BankBalance Twap Oracle.
From S2P Require Import Maps PositionMath CurveMath Repeg AmmController Funding Fees Margin.
From S2P Require Import Orders Addresses Tokens BankHandlers.
Local Open Scope Z_scope.

(** ** Definitions *)

(** *** The checks *)

Definition market_initialized (market : Market) : result () :=
  validate market.(Market.initialized) MarketIndexNotInitialized.

Definition admin_controls_prices (state : State) : result () :=
  validate state.(State.admin_controls_prices) AdminControlsPricesDisabled.

Definition valid_oracle_for_market `{OracleAccounts} (oracle : AccountInfo)
    (market : Market) : result () :=
  validate (market.(Market.amm).(AMM.oracle) =? account_key oracle) InvalidOracle.

(** [has_one = admin] and [has_one = authority] (context.rs) *)
Definition has_one_admin (state : State) (admin : Pubkey) : bool :=
  state.(State.admin) =? admin.
Definition has_one_authority (user : User) (authority : Pubkey) : bool :=
  user.(User.authority) =? authority.

(** *** The exchange *)

(** The fee structure that the exchange starts with. *)
Definition default_fee_structure : FeeStructure :=
  FeeStructure.mk DEFAULT_FEE_NUMERATOR DEFAULT_FEE_DENOMINATOR
    (DiscountTokenTiers.mk
      (DiscountTokenTier.mk DEFAULT_DISCOUNT_TOKEN_FIRST_TIER_MINIMUM_BALANCE
        DEFAULT_DISCOUNT_TOKEN_FIRST_TIER_DISCOUNT_NUMERATOR
        DEFAULT_DISCOUNT_TOKEN_FIRST_TIER_DISCOUNT_DENOMINATOR)
      (DiscountTokenTier.mk DEFAULT_DISCOUNT_TOKEN_SECOND_TIER_MINIMUM_BALANCE
        DEFAULT_DISCOUNT_TOKEN_SECOND_TIER_DISCOUNT_NUMERATOR
        DEFAULT_DISCOUNT_TOKEN_SECOND_TIER_DISCOUNT_DENOMINATOR)
      (DiscountTokenTier.mk DEFAULT_DISCOUNT_TOKEN_THIRD_TIER_MINIMUM_BALANCE
        DEFAULT_DISCOUNT_TOKEN_THIRD_TIER_DISCOUNT_NUMERATOR
        DEFAULT_DISCOUNT_TOKEN_THIRD_TIER_DISCOUNT_DENOMINATOR)
      (DiscountTokenTier.mk DEFAULT_DISCOUNT_TOKEN_FOURTH_TIER_MINIMUM_BALANCE
        DEFAULT_DISCOUNT_TOKEN_FOURTH_TIER_DISCOUNT_NUMERATOR
        DEFAULT_DISCOUNT_TOKEN_FOURTH_TIER_DISCOUNT_DENOMINATOR))
    (ReferralDiscount.mk DEFAULT_REFERRER_REWARD_NUMERATOR
      DEFAULT_REFERRER_REWARD_DENOMINATOR DEFAULT_REFEREE_DISCOUNT_NUMERATOR
      DEFAULT_REFEREE_DISCOUNT_DENOMINATOR).

Definition default_oracle_guard_rails : OracleGuardRails :=
  OracleGuardRails.mk (PriceDivergenceGuardRails.mk 1 10)
    (ValidityGuardRails.mk 1000 4 5) true.

Definition initialize `{ProgramAddresses} (admin insurance_vault insurance_vault_owner : Pubkey)
    (admin_controls_prices : bool) : result State :=
  let '(authority, nonce) := find_insurance_vault_authority insurance_vault in
  if negb (insurance_vault_owner =? authority) then Err InvalidInsuranceAccountAuthority
  else Ok {|
    State.admin := admin;
    State.exchange_paused := false;
    State.funding_paused := false;
    State.admin_controls_prices := admin_controls_prices;
    State.insurance_vault := insurance_vault;
    State.insurance_vault_authority := authority;
    State.insurance_vault_nonce := nonce;
    State.margin_ratio_initial := 2000;
    State.margin_ratio_maintenance := 500;
    State.margin_ratio_partial := 625;
    State.partial_liquidation_close_percentage_numerator := 25;
    State.partial_liquidation_close_percentage_denominator := 100;
    State.partial_liquidation_penalty_percentage_numerator := 25;
    State.partial_liquidation_penalty_percentage_denominator := 1000;
    State.full_liquidation_penalty_percentage_numerator := 1;
    State.full_liquidation_penalty_percentage_denominator := 1;
    State.partial_liquidation_liquidator_share_denominator := 2;
    State.full_liquidation_liquidator_share_denominator := 20;
    State.fee_structure := default_fee_structure;
    State.whitelist_mint := Pubkey_default;
    State.discount_mint := Pubkey_default;
    State.oracle_guard_rails := default_oracle_guard_rails;
    State.order_state := Pubkey_default;
    State.number_of_markets := 0;
    State.number_of_banks := 0;
  |}.

Definition initialize_order_state (state : State) (order_state_key : Pubkey)
    : result (State * OrderState) :=
  if negb (state.(State.order_state) =? Pubkey_default)
  then Err OrderStateAlreadyInitialized
  else Ok (state <| State.order_state := order_state_key |>,
           OrderState.mk (OrderFillerRewardStructure.mk 1 10 10000) 500000).

(** The arguments of [initialize_market] and what it reads of its accounts. *)
Module MarketParams.
Record MarketParams `{OracleAccounts} := mk {
  market_pubkey : Pubkey;
  oracle : AccountInfo;
  amm_base_asset_reserve : Z;
  amm_quote_asset_reserve : Z;
  amm_periodicity : Z;
  amm_peg_multiplier : Z;
  oracle_source : OracleSource;
  margin_ratio_initial : Z;
  margin_ratio_partial : Z;
  margin_ratio_maintenance : Z;
}.
(** Every field holds a value of its Rust type. *)
Record typed `{OracleAccounts} (r : MarketParams) : Prop := {
  amm_base_asset_reserve_ty : has_type U128 r.(amm_base_asset_reserve);
  amm_quote_asset_reserve_ty : has_type U128 r.(amm_quote_asset_reserve);
  amm_periodicity_ty : has_type I64 r.(amm_periodicity);
  amm_peg_multiplier_ty : has_type U128 r.(amm_peg_multiplier);
  margin_ratio_initial_ty : has_type U32 r.(margin_ratio_initial);
  margin_ratio_partial_ty : has_type U32 r.(margin_ratio_partial);
  margin_ratio_maintenance_ty : has_type U32 r.(margin_ratio_maintenance);
}.
End MarketParams.
Abbreviation MarketParams := MarketParams.MarketParams.

Section Initialize.
Context `{BnLib} `{OracleAccounts}.

(** The curve of a new market. *)
Definition new_amm (p : MarketParams) (now init_mark_price last_oracle_price_twap : Z)
    (oracle : OraclePriceData) : AMM := {|
  AMM.oracle := account_key p.(MarketParams.oracle);
  AMM.oracle_source := p.(MarketParams.oracle_source);
  AMM.base_asset_reserve := p.(MarketParams.amm_base_asset_reserve);
  AMM.quote_asset_reserve := p.(MarketParams.amm_quote_asset_reserve);
  AMM.terminal_quote_asset_reserve := p.(MarketParams.amm_quote_asset_reserve);
  AMM.cumulative_repeg_rebate_long := 0;
  AMM.cumulative_repeg_rebate_short := 0;
  AMM.cumulative_funding_rate_long := 0;
  AMM.cumulative_funding_rate_short := 0;
  AMM.cumulative_funding_rate_lp := 0;
  AMM.last_funding_rate := 0;
  AMM.last_funding_rate_ts := now;
  AMM.funding_period := p.(MarketParams.amm_periodicity);
  AMM.last_oracle_price_twap := last_oracle_price_twap;
  AMM.last_mark_price_twap := init_mark_price;
  AMM.last_mark_price_twap_ts := now;
  AMM.sqrt_k := p.(MarketParams.amm_base_asset_reserve);
  AMM.peg_multiplier := p.(MarketParams.amm_peg_multiplier);
  AMM.total_fee := 0;
  AMM.total_fee_minus_distributions := 0;
  AMM.total_mm_fee := 0;
  AMM.total_exchange_fee := 0;
  AMM.net_revenue_since_last_funding := 0;
  AMM.total_fee_withdrawn := 0;
  AMM.minimum_quote_asset_trade_size := 10000000;
  AMM.last_oracle_price_twap_ts := now;
  AMM.last_oracle_normalised_price := oracle.(OraclePriceData.price);
  AMM.last_oracle_price := oracle.(OraclePriceData.price);
  AMM.last_oracle_conf := wrap U64 oracle.(OraclePriceData.confidence);
  AMM.last_oracle_delay := oracle.(OraclePriceData.delay);
  AMM.last_oracle_mark_spread_pct := 0;
  AMM.minimum_base_asset_trade_size := 10000000;
  AMM.base_spread := 0;
  AMM.long_spread := 0;
  AMM.short_spread := 0;
  AMM.last_bid_price_twap := init_mark_price;
  AMM.last_ask_price_twap := init_mark_price;
  AMM.net_base_asset_amount := 0;
  AMM.quote_asset_amount_long := 0;
  AMM.quote_asset_amount_short := 0;
  AMM.mark_std := 0;
  AMM.long_intensity_time := p.(MarketParams.amm_periodicity);
  AMM.long_intensity_count := 0;
  AMM.long_intensity_volume := 0;
  AMM.short_intensity_time := p.(MarketParams.amm_periodicity);
  AMM.short_intensity_count := 0;
  AMM.short_intensity_volume := 0;
  AMM.curve_update_intensity := 0;
|}.

(** The account is a new one, which is not initialized; the partial margin ratio is not
    among the ratios that are validated. *)
Definition initialize_market (state : State) (p : MarketParams) (clock : Clock)
    : result (State * Market) :=
  if negb (p.(MarketParams.amm_base_asset_reserve)
           =? p.(MarketParams.amm_quote_asset_reserve)) then Err InvalidInitialPeg
  else
    let? init_mark_price := calculate_price p.(MarketParams.amm_quote_asset_reserve)
      p.(MarketParams.amm_base_asset_reserve) p.(MarketParams.amm_peg_multiplier) in
    let? _ := bn_mul U192 (bn_from U192 p.(MarketParams.amm_base_asset_reserve))
                (bn_from U192 p.(MarketParams.amm_quote_asset_reserve)) in
    let? oracle :=
      match p.(MarketParams.oracle_source) with
      | Pyth => unwrap_result (get_pyth_price p.(MarketParams.oracle) clock.(Clock.slot))
      | Switchboard =>
          unwrap_result (get_switchboard_price p.(MarketParams.oracle) clock.(Clock.slot))
      | QuoteAsset => Panic
      end in
    let? last_oracle_price_twap :=
      match p.(MarketParams.oracle_source) with
      | Pyth => get_pyth_twap p.(MarketParams.oracle)
      | Switchboard => Ok oracle.(OraclePriceData.price)
      | QuoteAsset => Panic
      end in
    let? ' () := validate_margin p.(MarketParams.margin_ratio_initial)
      p.(MarketParams.margin_ratio_initial) p.(MarketParams.margin_ratio_maintenance) in
    let market_index := state.(State.number_of_markets) in
    let? number_of_markets := cadd U64 market_index 1 in
    Ok (state <| State.number_of_markets := number_of_markets |>, {|
      Market.market_index := market_index;
      Market.pubkey := p.(MarketParams.market_pubkey);
      Market.initialized := true;
      Market.amm := new_amm p clock.(Clock.unix_timestamp) init_mark_price
                      last_oracle_price_twap oracle;
      Market.base_asset_amount_long := 0;
      Market.base_asset_amount_short := 0;
      Market.open_interest := 0;
      Market.margin_ratio_initial := p.(MarketParams.margin_ratio_initial);
      Market.margin_ratio_partial := p.(MarketParams.margin_ratio_partial);
      Market.margin_ratio_maintenance := p.(MarketParams.margin_ratio_maintenance);
      Market.next_trade_record_id := 1;
      Market.next_funding_rate_record_id := 1;
      Market.next_curve_record_id := 1;
      Market.pnl_pool := PNLPool.mk 0;
    |}).
End Initialize.

(** *** The markets *)

Section Markets.
Context `{BnLib} `{OracleAccounts}.

Definition next_curve_record (market : Market) : Market :=
  market <| Market.next_curve_record_id :=
    (get_then_update_id market.(Market.next_curve_record_id)).2 |>.

Definition move_amm_price (state : State) (market : Market)
    (base_asset_reserve quote_asset_reserve : Z) : result Market :=
  let? ' () := market_initialized market in
  let? ' () := exchange_not_paused state in
  let? ' () := admin_controls_prices state in
  let? amm := move_price market.(Market.amm) base_asset_reserve quote_asset_reserve in
  Ok (market <| Market.amm := amm |>).

(** The oracle's price is read once more for the record. *)
Definition repeg_amm_curve (state : State) (market : Market) (oracle : AccountInfo)
    (clock : Clock) (new_peg_candidate : Z) : result Market :=
  let? ' () := market_initialized market in
  let? ' () := exchange_not_paused state in
  let? ' () := valid_oracle_for_market oracle market in
  let? _ := amm_get_oracle_price market.(Market.amm) oracle 0 in
  let? ' (market, _) := repeg market oracle new_peg_candidate clock.(Clock.slot)
                          state.(State.oracle_guard_rails) in
  Ok (next_curve_record market).

Definition set_oracle_twap (market : Market) (twap now : Z) : Market :=
  market <| Market.amm := market.(Market.amm)
    <| AMM.last_oracle_price_twap := twap |> <| AMM.last_oracle_price_twap_ts := now |> |>.

Definition update_amm_oracle_twap (market : Market) (oracle : AccountInfo) (clock : Clock)
    : result Market :=
  let? ' () := market_initialized market in
  let? ' () := valid_oracle_for_market oracle market in
  let amm := market.(Market.amm) in
  let? oracle_twap := get_oracle_twap amm oracle in
  match oracle_twap with
  | Some oracle_twap =>
      let? mark := cast_to_i128 amm.(AMM.last_mark_price_twap) in
      let? gap_before := csub I128 mark amm.(AMM.last_oracle_price_twap) in
      let? gap_after := csub I128 mark oracle_twap in
      if ((0 <? gap_after) && (gap_before <? 0)) || ((gap_after <? 0) && (0 <? gap_before))
      then Ok (set_oracle_twap market mark clock.(Clock.unix_timestamp))
      else if unsigned_abs gap_after <=? unsigned_abs gap_before
      then Ok (set_oracle_twap market oracle_twap clock.(Clock.unix_timestamp))
      else Err OracleMarkSpreadLimit
  | None => Err InvalidOracle
  end.

Definition reset_amm_oracle_twap (state : State) (market : Market) (oracle : AccountInfo)
    (clock : Clock) : result Market :=
  let? ' () := market_initialized market in
  let? ' () := valid_oracle_for_market oracle market in
  let? oracle_price_data :=
    amm_get_oracle_price market.(Market.amm) oracle clock.(Clock.slot) in
  let? is_oracle_valid := is_oracle_valid market.(Market.amm) oracle_price_data
    state.(State.oracle_guard_rails).(OracleGuardRails.validity) in
  if negb is_oracle_valid then
    let? mark := cast_to_i128 market.(Market.amm).(AMM.last_mark_price_twap) in
    Ok (set_oracle_twap market mark clock.(Clock.unix_timestamp))
  else Ok market.

Definition settle_funding_payment_ix (state : State) (users : UserMap)
    (market_map : MarketMap) (user_key : Pubkey) : result UserMap :=
  let? ' () := exchange_not_paused state in
  let? ' (user, users) := load_mut users user_key in
  let? user := settle_funding_payment user market_map in
  Ok (drop_mut users user_key user).

Definition update_funding_rate_ix (state : State) (market : Market) (oracle : AccountInfo)
    (clock : Clock) : result Market :=
  let? ' () := market_initialized market in
  let? ' () := exchange_not_paused state in
  let? ' () := valid_oracle_for_market oracle market in
  update_funding_rate market oracle clock.(Clock.unix_timestamp) clock.(Clock.slot)
    state.(State.oracle_guard_rails) state.(State.funding_paused) None.

(** The payment of a k: a cost comes out of the fees that are neither distributed nor
    withdrawn, a gain goes to them. *)
Definition apply_k_cost (market : Market) (adjustment_cost : Z) : result Market :=
  let amm := market.(Market.amm) in
  if 0 <? adjustment_cost then
    let? max_cost :=
      csub U128 amm.(AMM.total_fee_minus_distributions) amm.(AMM.total_fee_withdrawn) in
    if max_cost <? unsigned_abs adjustment_cost then Err InvalidUpdateK
    else
      let? x := csub U128 amm.(AMM.total_fee_minus_distributions)
                  (unsigned_abs adjustment_cost) in
      Ok (set_total_fee_minus_distributions market x)
  else
    let? x := cadd U128 amm.(AMM.total_fee_minus_distributions)
                (unsigned_abs adjustment_cost) in
    Ok (set_total_fee_minus_distributions market x).

(** The checks of the new curve: its price moved little and its k is the product of its
    reserves, within 100. *)
Definition check_new_k (amm : AMM) (price_before : Z) : result () :=
  let? price_after := mark_price amm in
  let? before := cast_to_i128 price_before in
  let? after := cast_to_i128 price_after in
  let? change := csub I128 before after in
  if UPDATE_K_ALLOWED_PRICE_CHANGE <? unsigned_abs change then Err InvalidUpdateK
  else
    let? k := bn_mul U192 (bn_from U192 amm.(AMM.base_asset_reserve))
                (bn_from U192 amm.(AMM.quote_asset_reserve)) in
    let? k_sqrt_check := try_to_u128 U192 (bn_integer_sqrt U192 k) in
    let? k_sqrt_check := cast_to_i128 k_sqrt_check in
    let? sqrt_k := cast_to_i128 amm.(AMM.sqrt_k) in
    let? k_err := csub I128 k_sqrt_check sqrt_k in
    if 100 <? unsigned_abs k_err then Err InvalidUpdateK else Ok ().

(** The result of [update_k] of math/amm.rs is ignored, but its panics are not. *)
Definition update_k_ix (state : State) (market : Market) (oracle : AccountInfo)
    (sqrt_k : Z) : result Market :=
  let? ' () := market_initialized market in
  let? ' () := valid_oracle_for_market oracle market in
  let? ' () := exchange_not_paused state in
  let? price_before := mark_price market.(Market.amm) in
  let? update_k_result := get_update_k_result market (bn_from U192 sqrt_k) in
  let? adjustment_cost := adjust_k_cost market update_k_result in
  let '(market, r) := update_k market update_k_result in
  let? ' () := match r with Panic => Panic | _ => Ok () end in
  let? market := apply_k_cost market adjustment_cost in
  let? ' () := check_new_k market.(Market.amm) price_before in
  let? _ := amm_get_oracle_price market.(Market.amm) oracle 0 in
  Ok (next_curve_record market).
End Markets.

Definition update_margin_ratio (market : Market) (margin_ratio_initial margin_ratio_partial
    margin_ratio_maintenance : Z) : result Market :=
  let? ' () := market_initialized market in
  let? ' () := validate_margin margin_ratio_initial margin_ratio_partial
                 margin_ratio_maintenance in
  Ok (market <| Market.margin_ratio_initial := margin_ratio_initial |>
             <| Market.margin_ratio_partial := margin_ratio_partial |>
             <| Market.margin_ratio_maintenance := margin_ratio_maintenance |>).

(** The setters of a market's curve. *)
Definition set_amm (market : Market) (f : AMM → AMM) : result Market :=
  let? ' () := market_initialized market in
  Ok (market <| Market.amm := f market.(Market.amm) |>).

Definition update_curve_update_intensity (market : Market) (curve_update_intensity : Z)
    : result Market :=
  set_amm market (λ amm, amm <| AMM.curve_update_intensity := curve_update_intensity |>).
Definition update_market_oracle (market : Market) (oracle : Pubkey)
    (oracle_source : OracleSource) : result Market :=
  set_amm market (λ amm, amm <| AMM.oracle := oracle |>
                             <| AMM.oracle_source := oracle_source |>).
Definition update_market_minimum_quote_asset_trade_size (market : Market)
    (minimum_trade_size : Z) : result Market :=
  set_amm market (λ amm, amm <| AMM.minimum_quote_asset_trade_size := minimum_trade_size |>).
Definition update_market_base_spread (market : Market) (base_spread : Z) : result Market :=
  set_amm market (λ amm, amm <| AMM.base_spread := base_spread |>).
Definition update_market_minimum_base_asset_trade_size (market : Market)
    (minimum_trade_size : Z) : result Market :=
  set_amm market (λ amm, amm <| AMM.minimum_base_asset_trade_size := minimum_trade_size |>).

(** *** Fees and the insurance fund *)

Section Funds.
Context `{TokenProgram}.

Definition withdraw_fees (market : Market) (bank : Bank) (ledger : Ledger)
    (bank_vault recipient bank_vault_authority : Pubkey) (amount : Z)
    : result (Market * Ledger) :=
  let? ' () := market_initialized market in
  let amm := market.(Market.amm) in
  let? allocated := total_fee_lower_bound market in
  let? max_withdraw := csub U128 allocated amm.(AMM.total_fee_withdrawn) in
  let? a := cast_to_u128 amount in
  if max_withdraw <? a then Err AdminWithdrawTooLarge
  else
    let? ledger := send_from_bank_vault ledger bank_vault recipient bank_vault_authority 0
      bank.(Bank.vault_authority_nonce) amount in
    let? a := cast U128 amount in
    let? x := cadd U128 amm.(AMM.total_fee_withdrawn) a in
    Ok (market <| Market.amm := amm <| AMM.total_fee_withdrawn := x |> |>, ledger).

Definition withdraw_from_insurance_vault (state : State) (ledger : Ledger)
    (insurance_vault recipient insurance_vault_authority : Pubkey) (amount : Z)
    : result Ledger :=
  send_from_insurance_vault ledger insurance_vault recipient insurance_vault_authority
    state.(State.insurance_vault_nonce) amount.

Definition withdraw_from_insurance_vault_to_market (state : State) (market : Market)
    (ledger : Ledger) (insurance_vault bank_vault insurance_vault_authority : Pubkey)
    (amount : Z) : result (Market * Ledger) :=
  let? ' () := market_initialized market in
  let? a := cast U128 amount in
  let? x := cadd U128 market.(Market.amm).(AMM.total_fee_minus_distributions) a in
  let market := set_total_fee_minus_distributions market x in
  let? ledger := send_from_insurance_vault ledger insurance_vault bank_vault
    insurance_vault_authority state.(State.insurance_vault_nonce) amount in
  Ok (market, ledger).
End Funds.

(** *** The setters of the state *)

Definition update_partial_liquidation_close_percentage (state : State)
    (numerator denominator : Z) : State :=
  state <| State.partial_liquidation_close_percentage_numerator := numerator |>
        <| State.partial_liquidation_close_percentage_denominator := denominator |>.
Definition update_partial_liquidation_penalty_percentage (state : State)
    (numerator denominator : Z) : State :=
  state <| State.partial_liquidation_penalty_percentage_numerator := numerator |>
        <| State.partial_liquidation_penalty_percentage_denominator := denominator |>.
Definition update_full_liquidation_penalty_percentage (state : State)
    (numerator denominator : Z) : State :=
  state <| State.full_liquidation_penalty_percentage_numerator := numerator |>
        <| State.full_liquidation_penalty_percentage_denominator := denominator |>.
Definition update_partial_liquidation_liquidator_share_denominator (state : State)
    (denominator : Z) : State :=
  state <| State.partial_liquidation_liquidator_share_denominator := denominator |>.
Definition update_full_liquidation_liquidator_share_denominator (state : State)
    (denominator : Z) : State :=
  state <| State.full_liquidation_liquidator_share_denominator := denominator |>.
Definition update_fee (state : State) (fees : FeeStructure) : State :=
  state <| State.fee_structure := fees |>.
Definition update_order_filler_reward_structure (order_state : OrderState)
    (order_filler_reward_structure : OrderFillerRewardStructure) : OrderState :=
  order_state <| OrderState.order_filler_reward_structure := order_filler_reward_structure |>.
Definition update_oracle_guard_rails (state : State) (oracle_guard_rails : OracleGuardRails)
    : State :=
  state <| State.oracle_guard_rails := oracle_guard_rails |>.
Definition update_admin (state : State) (admin : Pubkey) : State :=
  state <| State.admin := admin |>.
Definition update_whitelist_mint (state : State) (whitelist_mint : Pubkey) : State :=
  state <| State.whitelist_mint := whitelist_mint |>.
Definition update_discount_mint (state : State) (discount_mint : Pubkey) : State :=
  state <| State.discount_mint := discount_mint |>.
Definition update_exchange_paused (state : State) (exchange_paused : bool) : State :=
  state <| State.exchange_paused := exchange_paused |>.
Definition disable_admin_controls_prices (state : State) : State :=
  state <| State.admin_controls_prices := false |>.
Definition update_funding_paused (state : State) (funding_paused : bool) : State :=
  state <| State.funding_paused := funding_paused |>.
