(* ===== verification/EventAdmin.v ===== *)
(** * The records of curves and of the instructions on funding (lib.rs)

    [repeg_amm_curve], [update_k], [settle_funding_payment] and [update_funding_rate] with
    the records that they emit. *)

From stdpp Require Import base numbers list gmap.
From S2P Require Import Prelude Constants Bn State Value AmmMath BankBalance Twap Oracle.
From S2P Require Import Maps PositionMath CurveMath Repeg AmmController OrdersMath Position.
From S2P Require Import Funding Fees Margin OrderValidation Orders Events EventFunding.
From S2P Require Import Addresses Tokens BankHandlers Loading Trading Admin.
Local Open Scope Z_scope.

(** ** Definitions *)

(** The record of the change of a market's curve from [before] to [after]; it has the
    market's id. *)
Definition curve_record (now : Z) (before after : Market) (adjustment_cost oracle_price : Z)
    : CurveRecord := {|
  CurveRecord.ts := now;
  CurveRecord.record_id := after.(Market.next_curve_record_id);
  CurveRecord.market_index := after.(Market.market_index);
  CurveRecord.peg_multiplier_before := before.(Market.amm).(AMM.peg_multiplier);
  CurveRecord.base_asset_reserve_before := before.(Market.amm).(AMM.base_asset_reserve);
  CurveRecord.quote_asset_reserve_before := before.(Market.amm).(AMM.quote_asset_reserve);
  CurveRecord.sqrt_k_before := before.(Market.amm).(AMM.sqrt_k);
  CurveRecord.peg_multiplier_after := after.(Market.amm).(AMM.peg_multiplier);
  CurveRecord.base_asset_reserve_after := after.(Market.amm).(AMM.base_asset_reserve);
  CurveRecord.quote_asset_reserve_after := after.(Market.amm).(AMM.quote_asset_reserve);
  CurveRecord.sqrt_k_after := after.(Market.amm).(AMM.sqrt_k);
  CurveRecord.base_asset_amount_long := unsigned_abs after.(Market.base_asset_amount_long);
  CurveRecord.base_asset_amount_short := unsigned_abs after.(Market.base_asset_amount_short);
  CurveRecord.base_asset_amount := after.(Market.amm).(AMM.net_base_asset_amount);
  CurveRecord.open_interest := after.(Market.open_interest);
  CurveRecord.total_fee := after.(Market.amm).(AMM.total_fee);
  CurveRecord.total_fee_minus_distributions :=
    after.(Market.amm).(AMM.total_fee_minus_distributions);
  CurveRecord.adjustment_cost := adjustment_cost;
  CurveRecord.oracle_price := oracle_price;
  CurveRecord.trade_record := 0;
|}.

(** [update_k] records the positions as they were before it. *)
Definition k_record (now : Z) (before after : Market) (adjustment_cost oracle_price : Z)
    : CurveRecord :=
  let r := curve_record now before after adjustment_cost oracle_price in {|
  CurveRecord.ts := r.(CurveRecord.ts);
  CurveRecord.record_id := r.(CurveRecord.record_id);
  CurveRecord.market_index := r.(CurveRecord.market_index);
  CurveRecord.peg_multiplier_before := r.(CurveRecord.peg_multiplier_before);
  CurveRecord.base_asset_reserve_before := r.(CurveRecord.base_asset_reserve_before);
  CurveRecord.quote_asset_reserve_before := r.(CurveRecord.quote_asset_reserve_before);
  CurveRecord.sqrt_k_before := r.(CurveRecord.sqrt_k_before);
  CurveRecord.peg_multiplier_after := r.(CurveRecord.peg_multiplier_after);
  CurveRecord.base_asset_reserve_after := r.(CurveRecord.base_asset_reserve_after);
  CurveRecord.quote_asset_reserve_after := r.(CurveRecord.quote_asset_reserve_after);
  CurveRecord.sqrt_k_after := r.(CurveRecord.sqrt_k_after);
  CurveRecord.base_asset_amount_long := unsigned_abs before.(Market.base_asset_amount_long);
  CurveRecord.base_asset_amount_short :=
    unsigned_abs before.(Market.base_asset_amount_short);
  CurveRecord.base_asset_amount := before.(Market.amm).(AMM.net_base_asset_amount);
  CurveRecord.open_interest := before.(Market.open_interest);
  CurveRecord.total_fee := r.(CurveRecord.total_fee);
  CurveRecord.total_fee_minus_distributions :=
    r.(CurveRecord.total_fee_minus_distributions);
  CurveRecord.adjustment_cost := adjustment_cost;
  CurveRecord.oracle_price := oracle_price;
  CurveRecord.trade_record := 0;
|}.

Section Definitions.
Context `{BnLib} `{OracleAccounts}.

Definition repeg_amm_curve_emits (state : State) (market : Market) (oracle : AccountInfo)
    (clock : Clock) (new_peg_candidate : Z) : emits Market :=
  let! ' () := market_initialized market in
  let! ' () := exchange_not_paused state in
  let! ' () := valid_oracle_for_market oracle market in
  let! oracle_price_data := amm_get_oracle_price market.(Market.amm) oracle 0 in
  let before := market in
  let! ' (market, adjustment_cost) := repeg market oracle new_peg_candidate
    clock.(Clock.slot) state.(State.oracle_guard_rails) in
  let! ' () := emit (ECurve (curve_record clock.(Clock.unix_timestamp) before market
                 adjustment_cost oracle_price_data.(OraclePriceData.price))) in
  quiet (Ok (next_curve_record market)).

Definition update_k_ix_emits (state : State) (market : Market) (oracle : AccountInfo)
    (clock : Clock) (sqrt_k : Z) : emits Market :=
  let! ' () := market_initialized market in
  let! ' () := valid_oracle_for_market oracle market in
  let! ' () := exchange_not_paused state in
  let before := market in
  let! price_before := mark_price market.(Market.amm) in
  let! update_k_result := get_update_k_result market (bn_from U192 sqrt_k) in
  let! adjustment_cost := adjust_k_cost market update_k_result in
  let '(market, r) := update_k market update_k_result in
  let! ' () := quiet (match r with Panic => Panic | _ => Ok () end) in
  let! market := apply_k_cost market adjustment_cost in
  let! ' () := check_new_k market.(Market.amm) price_before in
  let! oracle_price_data := amm_get_oracle_price market.(Market.amm) oracle 0 in
  let! ' () := emit (ECurve (k_record clock.(Clock.unix_timestamp) before market
                 adjustment_cost oracle_price_data.(OraclePriceData.price))) in
  quiet (Ok (next_curve_record market)).

Definition settle_funding_payment_ix_emits (state : State) (users : UserMap)
    (market_map : MarketMap) (user_key : Pubkey) (clock : Clock) : emits UserMap :=
  let! ' () := exchange_not_paused state in
  let! ' (user, users) := load_mut users user_key in
  let! user :=
    settle_funding_payment_emits user user_key market_map clock.(Clock.unix_timestamp) in
  quiet (Ok (drop_mut users user_key user)).

Definition update_funding_rate_ix_emits (state : State) (market : Market)
    (oracle : AccountInfo) (clock : Clock) (market_index : Z) : emits Market :=
  let! ' () := market_initialized market in
  let! ' () := exchange_not_paused state in
  let! ' () := valid_oracle_for_market oracle market in
  update_funding_rate_emits market_index market oracle clock.(Clock.unix_timestamp)
    clock.(Clock.slot) state.(State.oracle_guard_rails) state.(State.funding_paused) None.
End Definitions.

(** ** Without the log *)

Section Erasure.
Context `{BnLib} `{OracleAccounts}.

Lemma repeg_amm_curve_erase st m oracle clock peg :
  erase (repeg_amm_curve_emits st m oracle clock peg) = repeg_amm_curve st m oracle clock peg.
Proof. unfold repeg_amm_curve_emits, repeg_amm_curve. cbv zeta. erase_steps. Qed.

Lemma update_k_ix_erase st m oracle clock sqrt_k :
  erase (update_k_ix_emits st m oracle clock sqrt_k) = update_k_ix st m oracle sqrt_k.
Proof. unfold update_k_ix_emits, update_k_ix. cbv zeta. erase_steps. Qed.

Lemma settle_funding_payment_ix_erase st users mm key clock :
  erase (settle_funding_payment_ix_emits st users mm key clock)
  = settle_funding_payment_ix st users mm key.
Proof. unfold settle_funding_payment_ix_emits, settle_funding_payment_ix. erase_steps. Qed.

Lemma update_funding_rate_ix_erase st m oracle clock i :
  erase (update_funding_rate_ix_emits st m oracle clock i)
  = update_funding_rate_ix st m oracle clock.
Proof. unfold update_funding_rate_ix_emits, update_funding_rate_ix. erase_steps. Qed.
End Erasure.

#[export] Hint Resolve repeg_amm_curve_erase update_k_ix_erase settle_funding_payment_ix_erase
  update_funding_rate_ix_erase : erase.
