(* ===== verification/EventLog.v ===== *)
(** * The numbers of the records

    Every market counts its trade, funding rate and curve records.  The records of an
    instruction are numbered by these counters, without a gap. *)

From stdpp Require Import base numbers list gmap.
From S2P Require Import Prelude Constants Bn State Value AmmMath BankBalance Twap Oracle.
From S2P Require Import Maps PositionMath CurveMath Repeg AmmController OrdersMath Position.
From S2P Require Import Funding Fees Margin OrderValidation Orders Events EventFunding.
From S2P Require Import Addresses Tokens BankHandlers EventBanks Loading Trading EventOrders.
From S2P Require Import Liquidation EventTrades TradingProps Frames Admin EventAdmin.
Local Open Scope Z_scope.

(** ** Definitions *)

Inductive Counter := TradeCounter | FundingRateCounter | CurveCounter.

#[export] Instance Counter_eq_dec : EqDecision Counter.
Proof. solve_decision. Defined.

(** The number that the next record of the kind gets. *)
Definition next_id (c : Counter) (m : Market) : Z :=
  match c with
  | TradeCounter => m.(Market.next_trade_record_id)
  | FundingRateCounter => m.(Market.next_funding_rate_record_id)
  | CurveCounter => m.(Market.next_curve_record_id)
  end.

(** The market and the number of a record. *)
Definition event_id (c : Counter) (e : Event) : option (Z * Z) :=
  match c, e with
  | TradeCounter, ETrade r => Some (r.(TradeRecord.market_index), r.(TradeRecord.record_id))
  | FundingRateCounter, EFundingRate r =>
      Some (r.(FundingRateRecord.market_index), r.(FundingRateRecord.record_id))
  | CurveCounter, ECurve r => Some (r.(CurveRecord.market_index), r.(CurveRecord.record_id))
  | _, _ => None
  end.

(** The numbers of the records of the market [i], as they were emitted. *)
Definition ids (c : Counter) (i : Z) (l : list Event) : list Z :=
  omap (λ e, match event_id c e with
             | Some (j, id) => if j =? i then Some id else None
             | None => None
             end) l.

(** Counting from [n]: the number after the last one, if none is left out. *)
Fixpoint numbered (n : Z) (l : list Z) : option Z :=
  match l with
  | [] => Some n
  | id :: l => if id =? n then numbered (get_then_update_id n).2 l else None
  end.

(** The log of the market [i], from the counters of [m] to those of [m']. *)
Definition market_log (i : Z) (m : Market) (l : list Event) (m' : Market) : Prop :=
  ∀ c, numbered (next_id c m) (ids c i l) = Some (next_id c m')
       ∧ ∀ j, j ≠ i → ids c j l = [].

(** A log that counts nothing. *)
Definition uncounted (l : list Event) : Prop := ∀ c i, ids c i l = [].

(** The log of all markets; a market that is not there has no records. *)
Definition cell_log (i : Z) (l : list Event) (a b : option (loader Market)) : Prop :=
  match a, b with
  | Some (Loaded m), Some (Loaded m') =>
      ∀ c, numbered (next_id c m) (ids c i l) = Some (next_id c m')
  | Some MutBorrowed, Some MutBorrowed => True
  | None, None => ∀ c, ids c i l = []
  | _, _ => False
  end.
Definition map_log (mm : MarketMap) (l : list Event) (mm' : MarketMap) : Prop :=
  ∀ i, cell_log i l (mm !! i) (mm' !! i).

(** ** Numbers *)

Lemma ids_app c i l1 l2 : ids c i (l1 ++ l2) = ids c i l1 ++ ids c i l2.
Proof. apply omap_app. Qed.

Lemma numbered_app n l1 l2 :
  numbered n (l1 ++ l2) = match numbered n l1 with Some k => numbered k l2 | None => None end.
Proof. revert n. induction l1 as [|id l1 IH]; intros n; [done|]. cbn. by destruct (_ =? _). Qed.

(** The numbers are distinct, and count up from the first one. *)
Lemma numbered_nth n l n' k id :
  numbered n l = Some n' → n + Z.of_nat (length l) ≤ int_max U64 → int_min U64 ≤ n →
  n' = n + Z.of_nat (length l) ∧ (l !! k = Some id → id = n + Z.of_nat k).
Proof.
  revert n k. induction l as [|x l IH]; intros n k Hn Hle H0; cbn in Hn.
  - injection Hn as <-. cbn. split; [lia|]. by rewrite lookup_nil.
  - destruct (Z.eqb_spec x n) as [->|]; [|done].
    unfold checked_add in Hn. rewrite checked_in in Hn by (cbn in *; unfold_int; lia).
    destruct (IH _ (pred k) Hn) as [-> Hk]; [cbn in *; lia|cbn in *; lia|].
    split; [cbn; lia|]. destruct k as [|k]; cbn; [intros [= <-]; lia|].
    intros Hl. cbn in Hk. rewrite (Hk Hl). lia.
Qed.

Lemma uncounted_nil : uncounted [].
Proof. done. Qed.

Lemma uncounted_app l1 l2 : uncounted l1 → uncounted l2 → uncounted (l1 ++ l2).
Proof. intros H1 H2 c i. by rewrite ids_app, H1, H2. Qed.

Lemma uncounted_cons e l : (∀ c, event_id c e = None) → uncounted l → uncounted (e :: l).
Proof. intros He Hl c i. cbn. rewrite He. apply Hl. Qed.

Ltac count_none :=
  cbn [app];
  repeat first [assumption | apply uncounted_nil | apply uncounted_app
               | apply uncounted_cons; [by intros []|]].

(** *** Logs of one market *)

Lemma market_log_same i m l m' :
  uncounted l → (∀ c, next_id c m' = next_id c m) → market_log i m l m'.
Proof. intros Hl Hm c. rewrite !Hl. cbn. rewrite Hm. split; [done|]. intros j _. by rewrite Hl. Qed.

Lemma market_log_trans i m1 m2 m3 l1 l2 :
  market_log i m1 l1 m2 → market_log i m2 l2 m3 → market_log i m1 (l1 ++ l2) m3.
Proof.
  intros H1 H2 c. destruct (H1 c) as [Hn1 Ho1], (H2 c) as [Hn2 Ho2]. split.
  - by rewrite ids_app, numbered_app, Hn1.
  - intros j Hj. by rewrite ids_app, Ho1, Ho2.
Qed.

(** A change that leaves the counters as they are. *)
Lemma market_log_before i m0 m l m' :
  (∀ c, next_id c m = next_id c m0) → market_log i m l m' → market_log i m0 l m'.
Proof. intros Hm H c. destruct (H c) as [Hn Ho]. by rewrite <-Hm. Qed.

(** *** Logs of all markets *)

Lemma map_log_uncounted mm l : uncounted l → map_log mm l mm.
Proof.
  intros Hl i. unfold cell_log. destruct (mm !! i) as [[m|]|]; [|done|]; intros c;
    by rewrite Hl.
Qed.

Lemma map_log_trans mm1 mm2 mm3 l1 l2 :
  map_log mm1 l1 mm2 → map_log mm2 l2 mm3 → map_log mm1 (l1 ++ l2) mm3.
Proof.
  intros H1 H2 i. specialize (H1 i). specialize (H2 i). unfold cell_log in *.
  destruct (mm1 !! i) as [[m1|]|], (mm2 !! i) as [[m2|]|], (mm3 !! i) as [[m3|]|]; try done;
    intros c; rewrite ids_app.
  - by rewrite numbered_app, H1.
  - by rewrite H1, H2.
Qed.

Lemma map_log_put mm i m l m' :
  mm !! i = Some (Loaded m) → market_log i m l m' → map_log mm l (<[i:=Loaded m']> mm).
Proof.
  intros Hi H j. destruct (decide (j = i)) as [->|Hj].
  - rewrite lookup_insert_eq, Hi. intros c. by destruct (H c).
  - rewrite lookup_insert_ne by done. unfold cell_log.
    assert (∀ c, ids c j l = []) as Hl by (intros c; destruct (H c) as [_ Ho]; by apply Ho).
    destruct (mm !! j) as [[m1|]|]; try done; intros c; by rewrite Hl.
Qed.

(** The markets that an instruction has loaded, put back among the others. *)
Lemma map_log_loaded mm l mm' base :
  map_log mm l mm' → mm ⊆ base → map_log base l (mm' ∪ base).
Proof.
  intros H Hsub i. specialize (H i). unfold cell_log in H.
  destruct (mm !! i) as [c|] eqn:Hi.
  - rewrite (lookup_weaken _ _ _ _ Hi Hsub).
    destruct (mm' !! i) as [c'|] eqn:Hi'; [|by destruct c].
    by rewrite (lookup_union_Some_l _ _ _ _ Hi').
  - destruct (mm' !! i) as [c'|] eqn:Hi'; [done|]. rewrite lookup_union_r by done.
    unfold cell_log. destruct (base !! i) as [[m|]|]; [|done|done]; intros c; by rewrite H.
Qed.

(** ** What leaves the counters as they are *)

Definition record_ids (m : Market) :=
  (m.(Market.market_index), m.(Market.next_trade_record_id),
   m.(Market.next_funding_rate_record_id), m.(Market.next_curve_record_id)).

Lemma record_ids_next m m' : record_ids m' = record_ids m → ∀ c, next_id c m' = next_id c m.
Proof. unfold record_ids. by intros [= Hi H1 H2 H3] []. Qed.

Lemma record_ids_index m m' :
  record_ids m' = record_ids m → m'.(Market.market_index) = m.(Market.market_index).
Proof. unfold record_ids. by intros [=]. Qed.

Ltac keep_ids :=
  repeat case_match;
  unfold record_ids, set_position, set_order, set_peg, set_k, set_total_fee_minus_distributions
    in *; cbn in *; congruence.

Section Counters.
Context `{BnLib} `{OracleAccounts} `{TokenProgram} `{Roots}.

#[local] Instance apply_cost_to_market_ids m c :
  Frame (apply_cost_to_market m c) (λ r, record_ids r.1 = record_ids m).
Proof. intros r Hok. unfold apply_cost_to_market in Hok. frame_steps; done. Qed.

#[local] Instance adjust_peg_cost_ids m p :
  Frame (adjust_peg_cost m p) (λ r, record_ids r.1 = record_ids m).
Proof. intros r Hok. unfold adjust_peg_cost in Hok. frame_steps; done. Qed.

Lemma update_k_ids m k m' r : update_k m k = (m', r) → record_ids m' = record_ids m.
Proof.
  unfold update_k. destruct (calculate_swap_output _ _ _ _) as [[]| |]; by intros [= <- <-].
Qed.

#[local] Instance prepeg_over_budget_ids m mark budget peg cost :
  Frame (prepeg_over_budget m mark budget peg cost) (λ r, record_ids r.1.1 = record_ids m).
Proof.
  intros r Hok. unfold prepeg_over_budget in Hok. frame_steps. by eapply update_k_ids.
Qed.

#[local] Instance prepeg_ids m mark d budget :
  Frame (prepeg m mark d budget) (λ r, record_ids r.1 = record_ids m).
Proof. intros r Hok. unfold prepeg in Hok. frame_steps; keep_ids. Qed.

#[local] Instance repeg_ids m oracle peg slot g :
  Frame (repeg m oracle peg slot g) (λ r, record_ids r.1 = record_ids m).
Proof. intros r Hok. unfold repeg in Hok. frame_steps; keep_ids. Qed.

#[local] Instance calculate_funding_rate_long_short_ids m rate :
  Frame (calculate_funding_rate_long_short m rate) (λ r, record_ids r.1 = record_ids m).
Proof. intros r Hok. unfold calculate_funding_rate_long_short in Hok. frame_steps; done. Qed.

#[local] Instance open_if_new_ids d m p :
  Frame (open_if_new d m p) (λ r, record_ids r.1 = record_ids m).
Proof. intros r Hok. unfold open_if_new in Hok. frame_steps; done. Qed.

#[local] Instance add_base_asset_amount_ids m after x :
  Frame (add_base_asset_amount m after x) (λ r, record_ids r = record_ids m).
Proof. intros r Hok. unfold add_base_asset_amount in Hok. frame_steps; done. Qed.

#[local] Instance add_quote_asset_amount_ids m after x :
  Frame (add_quote_asset_amount m after x) (λ r, record_ids r = record_ids m).
Proof. intros r Hok. unfold add_quote_asset_amount in Hok. frame_steps; done. Qed.

#[local] Instance close_open_interest_ids m after :
  Frame (close_open_interest m after) (λ r, record_ids r = record_ids m).
Proof. intros r Hok. unfold close_open_interest in Hok. frame_steps; done. Qed.

#[local] Instance increase_ids d q m p now mark :
  Frame (increase d q m p now mark) (λ r, record_ids r.1.1 = record_ids m).
Proof. intros r Hok. unfold increase in Hok. frame_steps; keep_ids. Qed.

#[local] Instance increase_with_base_asset_amount_ids d b m p now limit mark :
  Frame (increase_with_base_asset_amount d b m p now limit mark)
    (λ r, record_ids r.1.1 = record_ids m).
Proof. intros r Hok. unfold increase_with_base_asset_amount in Hok. frame_steps; keep_ids. Qed.

#[local] Instance reduce_ids d q m p now mark spread :
  Frame (reduce d q m p now mark spread) (λ r, record_ids r.1.1 = record_ids m).
Proof. intros r Hok. unfold reduce in Hok. frame_steps; keep_ids. Qed.

#[local] Instance reduce_with_base_asset_amount_ids d b m p now limit mark :
  Frame (reduce_with_base_asset_amount d b m p now limit mark)
    (λ r, record_ids r.1.1 = record_ids m).
Proof. intros r Hok. unfold reduce_with_base_asset_amount in Hok. frame_steps; keep_ids. Qed.

#[local] Instance close_ids m p now limit mark spread :
  Frame (close m p now limit mark spread) (λ r, record_ids r.1.1 = record_ids m).
Proof. intros r Hok. unfold close in Hok. frame_steps; keep_ids. Qed.

#[local] Instance trade_base_asset_amount_ids b d m p mark now limit :
  Frame (trade_base_asset_amount b d m p mark now limit)
    (λ r, record_ids r.1.1 = record_ids m).
Proof. intros r Hok. unfold trade_base_asset_amount in Hok. frame_steps; keep_ids. Qed.

#[local] Instance trade_quote_asset_amount_ids q d m p mark now :
  Frame (trade_quote_asset_amount q d m p mark now) (λ r, record_ids r.1.1 = record_ids m).
Proof. intros r Hok. unfold trade_quote_asset_amount in Hok. frame_steps; keep_ids. Qed.

#[local] Instance update_position_with_base_asset_amount_ids b d m u k mark now limit :
  Frame (update_position_with_base_asset_amount b d m u k mark now limit)
    (λ r, record_ids r.1.1 = record_ids m).
Proof.
  intros r Hok. unfold update_position_with_base_asset_amount in Hok. by frame_steps.
Qed.

#[local] Instance update_position_with_quote_asset_amount_ids q d m u k mark now :
  Frame (update_position_with_quote_asset_amount q d m u k mark now)
    (λ r, record_ids r.1.1 = record_ids m).
Proof.
  intros r Hok. unfold update_position_with_quote_asset_amount in Hok. by frame_steps.
Qed.

#[local] Instance add_market_fee_ids m fee :
  Frame (add_market_fee m fee) (λ r, record_ids r = record_ids m).
Proof. intros r Hok. unfold add_market_fee in Hok. by frame_steps. Qed.

#[local] Instance prepare_market_ids st m oracle clock :
  Frame (prepare_market st m oracle clock) (λ r, record_ids r.1 = record_ids m).
Proof. intros r Hok. unfold prepare_market in Hok. frame_steps; keep_ids. Qed.

#[local] Instance observe_market_ids st m oracle clock :
  Frame (observe_market st m oracle clock) (λ r, record_ids r.1 = record_ids m).
Proof. intros r Hok. unfold observe_market in Hok. frame_steps; keep_ids. Qed.

#[local] Instance settle_trade_fees_ids st users m u k token referrer q s pnl :
  Frame (settle_trade_fees st users m u k token referrer q s pnl)
    (λ r, record_ids r.1.1.2 = record_ids m).
Proof. intros r Hok. unfold settle_trade_fees in Hok. by frame_steps. Qed.

#[local] Instance liquidate_fully_base_ids m p status slippage now :
  Frame (liquidate_fully_base m p status slippage now)
    (λ r, record_ids r.1.1.1 = record_ids m).
Proof. intros r Hok. unfold liquidate_fully_base in Hok. frame_steps; keep_ids. Qed.

#[local] Instance apply_k_cost_ids m c :
  Frame (apply_k_cost m c) (λ r, record_ids r = record_ids m).
Proof. intros r Hok. unfold apply_k_cost in Hok. cbv zeta in Hok. by frame_steps. Qed.

(** ** The logs of the functions *)

(** *** Funding *)

Lemma map_emits_logged {A B} (f : A → emits B) (P : list Event → Prop) xs l ys :
  P [] → (∀ l1 l2, P l1 → P l2 → P (l1 ++ l2)) →
  (∀ x l1 y, f x = (l1, Ok y) → P l1) → map_emits f xs = (l, Ok ys) → P l.
Proof.
  intros Hnil Happ Hf. revert l ys. induction xs as [|x xs IH]; intros l ys Hok; cbn in Hok.
  - by apply quiet_ok in Hok as [-> _].
  - apply then_ok in Hok as (y & l1 & l2 & Hx & Hok & ->).
    apply then_ok in Hok as (zs & l3 & l4 & Hxs & Hok & ->). apply quiet_ok in Hok as [-> _].
    rewrite app_nil_r. eauto.
Qed.

#[export] Instance settle_position_funding_uncounted authority key mm now p :
  Logged (settle_position_funding_emits authority key mm now p) (λ l _, uncounted l).
Proof.
  intros l r Hok. unfold settle_position_funding_emits in Hok. cbv zeta in Hok.
  log_steps; count_none.
Qed.

#[export] Instance settle_funding_payment_uncounted u key mm now :
  Logged (settle_funding_payment_emits u key mm now) (λ l _, uncounted l).
Proof.
  intros l r Hok. unfold settle_funding_payment_emits in Hok.
  apply then_ok in Hok as (ps & l1 & l2 & Hps & Hok & ->). apply quiet_ok in Hok as [-> _].
  rewrite app_nil_r.
  refine (map_emits_logged _ uncounted _ _ _ _ _ _ Hps); [done|apply uncounted_app|].
  intros x l3 y Hx. exact (logged _ _ Hx).
Qed.

(** A record that takes the number of its market. *)
Lemma market_log_record c i m e m' :
  event_id c e = Some (i, next_id c m) →
  next_id c m' = (get_then_update_id (next_id c m)).2 →
  (∀ c', c' ≠ c → event_id c' e = None ∧ next_id c' m' = next_id c' m) →
  market_log i m [e] m'.
Proof.
  intros He Hm Ho c'. unfold ids. cbn [omap list_omap].
  destruct (decide (c' = c)) as [->|Hc].
  - rewrite He, Z.eqb_refl. cbn. rewrite Z.eqb_refl, Hm. split; [done|].
    intros j Hj. by rewrite (proj2 (Z.eqb_neq _ _)).
  - destruct (Ho _ Hc) as [-> ->]. done.
Qed.

#[export] Instance update_funding_rate_logged i m oracle now slot g paused mark :
  Logged (update_funding_rate_emits i m oracle now slot g paused mark)
    (λ l r, market_log i m l r).
Proof.
  intros l r Hok. unfold update_funding_rate_emits in Hok. cbv zeta in Hok.
  log_steps; cbn [app]; [|by apply market_log_same].
  match goal with Hp : get_then_update_id _ = _ |- _ => injection Hp as <- <- end.
  match goal with Hi : record_ids ?m1 = _ |- _ =>
    apply (market_log_before i m m1); [exact (record_ids_next _ _ Hi)|] end.
  apply (market_log_record FundingRateCounter); [done|done|by intros [] Hc].
Qed.

(** *** Orders *)

Lemma map_log_ids mm l mm' :
  uncounted l → view record_ids mm' = view record_ids mm → map_log mm l mm'.
Proof.
  intros Hl Hv i. apply (f_equal (.!! i)) in Hv. unfold view in Hv. rewrite !lookup_fmap in Hv.
  unfold cell_log. destruct (mm !! i) as [[m|]|], (mm' !! i) as [[m'|]|]; try done;
    intros c; rewrite Hl; try done.
  cbn in *. f_equal. symmetry. apply record_ids_next. congruence.
Qed.

(** The numbers of a trade, after changes of the market that count nothing. *)
Lemma market_log_trade i m m1 r l :
  (∀ c, next_id c m1 = next_id c m) → r.(TradeRecord.market_index) = i →
  r.(TradeRecord.record_id) = m1.(Market.next_trade_record_id) → uncounted l →
  market_log i m (ETrade r :: l) (next_trade_record m1).
Proof.
  intros Hm Hi Hr Hl. change (ETrade r :: l) with ([ETrade r] ++ l).
  eapply market_log_trans; [|by apply market_log_same].
  eapply market_log_before; [exact Hm|].
  apply (market_log_record TradeCounter); [cbn; by rewrite Hi, Hr|done|by intros [] Hc].
Qed.

(** The log of a trade: payments before it, its record, and the funding rate after it. *)
Lemma market_log_traded i m m1 r l1 l2 m' :
  uncounted l1 → (∀ c, next_id c m1 = next_id c m) → r.(TradeRecord.market_index) = i →
  r.(TradeRecord.record_id) = m1.(Market.next_trade_record_id) →
  market_log i (next_trade_record m1) l2 m' → market_log i m (l1 ++ ETrade r :: l2) m'.
Proof.
  intros Hl1 Hm Hi Hr Hrest.
  refine (market_log_trans _ _ m _ _ _ _ _); [by apply market_log_same|].
  change (ETrade r :: l2) with ([ETrade r] ++ l2).
  refine (market_log_trans _ _ _ _ _ _ _ Hrest). by apply market_log_trade.
Qed.

(** The number of the record of a curve. *)
Lemma market_log_curve m m1 r :
  record_ids m1 = record_ids m →
  r.(CurveRecord.market_index) = m1.(Market.market_index) →
  r.(CurveRecord.record_id) = m1.(Market.next_curve_record_id) →
  market_log m.(Market.market_index) m [ECurve r] (next_curve_record m1).
Proof.
  intros Hm Hi Hr. refine (market_log_before _ _ _ _ _ (record_ids_next _ _ Hm) _).
  apply (market_log_record CurveCounter); [|done|by intros [] Hc].
  cbn. by rewrite Hr, Hi, (record_ids_index _ _ Hm).
Qed.

Ltac same_ids :=
  first [done | by count_none | intros []; unfold record_ids in *; cbn in *; congruence].

Ltac keep_ids_view_step :=
  match goal with
  | |- view _ ?m = view _ ?m => reflexivity
  | H : view ?f ?m' = view ?f ?m |- view ?f ?m' = _ => etransitivity; [exact H|]
  | |- view _ (drop_mut _ _ _) = _ => eapply view_drop; [eassumption|eassumption|keep_ids]
  | |- view _ (<[_ := Loaded _]> _) = _ =>
      etransitivity; [eapply view_put; [eassumption|keep_ids]|]
  end.
Ltac keep_ids_view :=
  cbn [fst snd liquidated_user liquidated_markets] in *; end_borrows;
  repeat keep_ids_view_step.

#[local] Instance execute_market_order_ids u n mm i mark now :
  Frame (execute_market_order u n mm i mark now)
    (λ r, view record_ids r.1.2 = view record_ids mm).
Proof. intros r Hok. unfold execute_market_order in Hok. frame_steps; keep_ids_view. Qed.

#[local] Instance execute_non_market_order_ids u n mm bm om i mark now v :
  Frame (execute_non_market_order u n mm bm om i mark now v)
    (λ r, view record_ids r.1.1.2 = view record_ids mm).
Proof.
  intros r Hok. unfold execute_non_market_order in Hok. frame_steps; try done; keep_ids_view.
Qed.

#[local] Instance execute_order_ids u n mm bm om i mark now v :
  Frame (execute_order u n mm bm om i mark now v)
    (λ r, view record_ids r.1.1.2 = view record_ids mm).
Proof.
  intros r Hok. unfold execute_order in Hok. apply bind_ok in Hok as (o & _ & Hok).
  destruct (Order.order_type o); by frame_steps.
Qed.

(** The log of one market, after a change of the markets that counts nothing. *)
Lemma map_log_then mm mm1 l1 l2 mm2 :
  uncounted l1 → view record_ids mm1 = view record_ids mm → map_log mm1 l2 mm2 →
  map_log mm (l1 ++ l2) mm2.
Proof. intros Hl Hv. apply map_log_trans. by apply map_log_ids. Qed.

#[export] Instance settle_fill_logged st ost users u uk fk referrer mm i n o now before after price
    fill :
  Logged (settle_fill_emits st ost users u uk fk referrer mm i n o now before after price fill)
    (λ l r, map_log mm l r.2).
Proof.
  intros l r Hok. unfold settle_fill_emits in Hok. cbv zeta in Hok. log_steps; cbn [snd app].
  all: end_borrows.
  all: match goal with Hp : get_then_update_id _ = _ |- _ => injection Hp as <- <- end.
  all: (eapply map_log_put; [eassumption|]; apply market_log_trade; same_ids).
Qed.

#[export] Instance fill_order_logged id st ost users uk mm bm om oracle fk referrer clock :
  Logged (fill_order_emits id st ost users uk mm bm om oracle fk referrer clock)
    (λ l r, map_log mm l r.1.1.2).
Proof.
  intros l r Hok. unfold fill_order_emits in Hok. cbv zeta in Hok. log_steps; cbn [fst snd].
  - end_borrows. rewrite app_nil_r. apply map_log_ids; [done|]. keep_ids_view.
  - end_borrows. rewrite app_nil_r.
    match goal with Hs : map_log ?mm1 _ _ |- _ =>
      refine (map_log_then _ mm1 _ _ _ _ _ (map_log_trans _ _ _ _ _ Hs _)) end;
      [done|keep_ids_view|by eapply map_log_put].
Qed.

#[export] Instance place_order_logged st ost users k mm token referrer clock params oracle :
  Logged (place_order_emits st ost users k mm token referrer clock params oracle)
    (λ l _, uncounted l).
Proof.
  intros l r Hok. unfold place_order_emits, place_order_for_emits in Hok. cbv zeta in Hok.
  log_steps; count_none.
Qed.

#[export] Instance cancel_order_logged st n u key mm bm om clock oracle best :
  Logged (cancel_order_emits st n u key mm bm om clock oracle best) (λ l _, uncounted l).
Proof.
  intros l r Hok. unfold cancel_order_emits in Hok. cbv zeta in Hok. log_steps; count_none.
Qed.

#[export] Instance cancel_first_order_logged p st users key mm bm om clock oracle :
  Logged (cancel_first_order_emits p st users key mm bm om clock oracle)
    (λ l _, uncounted l).
Proof.
  intros l r Hok. unfold cancel_first_order_emits in Hok. log_steps; count_none.
Qed.

(** *** Trades *)

#[export] Instance open_position_logged st users bm mm om accounts key auth oracle clock d q i
    limit opt :
  Logged (open_position_emits st users bm mm om accounts key auth oracle clock d q i limit opt)
    (λ l r, map_log mm l r.1.2).
Proof.
  intros l r Hok. unfold open_position_emits in Hok. cbv zeta in Hok.
  log_steps; cbn [fst snd]; end_borrows; cbn [app]; rewrite app_nil_r.
  all: (eapply map_log_put; [eassumption|]; eapply market_log_traded; [..|eassumption]; same_ids).
Qed.

#[export] Instance close_position_logged st users mm accounts key auth oracle clock i opt :
  Logged (close_position_emits st users mm accounts key auth oracle clock i opt)
    (λ l r, map_log mm l r.2).
Proof.
  intros l r Hok. unfold close_position_emits in Hok. cbv zeta in Hok.
  log_steps; cbn [fst snd]; end_borrows; cbn [app]; rewrite app_nil_r.
  all: (eapply map_log_put; [eassumption|]; eapply market_log_traded; [..|eassumption]; same_ids).
Qed.

(** *** Liquidations *)

(** The progress of a liquidation. *)
#[export] Instance record_liquidation_logged a m ms u key now d b status k v q pnl req fee base coll
    always :
  Logged (record_liquidation_emits a m ms u key now d b status k v q pnl req fee base coll
            always)
    (λ l r, market_log status.(MarketStatus.market_index) m l (next_trade_record m)
            ∧ r.1.(liquidated_markets)
              = drop_mut ms status.(MarketStatus.market_index) (next_trade_record m)).
Proof.
  intros l r Hok. unfold record_liquidation_emits in Hok. cbv zeta in Hok.
  log_steps; cbn [fst liquidated_markets app]; (split; [|done]); by apply market_log_trade.
Qed.

Lemma loop_emits_logged {A B} (step : B → A → emits (B * bool)) (P : list Event → B → Prop)
    l xs b l' b' :
  (∀ l b x l1 b1 stop, P l b → step b x = (l1, Ok (b1, stop)) → P (l ++ l1) b1) →
  P l b → loop_emits step b xs = (l', Ok b') → P (l ++ l') b'.
Proof.
  intros Hstep. revert l b l'. induction xs as [|x xs IH]; intros l b l' Hb Hok; cbn in Hok.
  - apply quiet_ok in Hok as [-> Hok]. apply Ok_inj in Hok as <-. by rewrite app_nil_r.
  - apply then_ok in Hok as ([b1 stop] & l1 & l2 & Hs & Hok & ->).
    pose proof (Hstep _ _ _ _ _ _ Hb Hs) as Hb1. rewrite app_assoc. destruct stop; [|by eapply IH].
    apply quiet_ok in Hok as [-> Hok]. apply Ok_inj in Hok as <-. by rewrite app_nil_r.
Qed.

(** A step of the loops that trades in the market of [status]. *)
Lemma map_log_step a m m1 l (r : Progress * bool) status :
  a.(liquidated_markets) !! status.(MarketStatus.market_index) = Some (Loaded m) →
  record_ids m1 = record_ids m →
  market_log status.(MarketStatus.market_index) m1 l (next_trade_record m1) →
  r.1.(liquidated_markets)
    = <[status.(MarketStatus.market_index) := Loaded (next_trade_record m1)]>
        a.(liquidated_markets) →
  map_log a.(liquidated_markets) l r.1.(liquidated_markets).
Proof.
  intros Hm Hids Hl ->. apply (map_log_put _ _ _ _ _ Hm).
  refine (market_log_before _ _ _ _ _ _ Hl). by apply record_ids_next.
Qed.

#[export] Instance full_liquidation_step_logged st key now dust fee value coll a status :
  Logged (full_liquidation_step_emits st key now dust fee value coll a status)
    (λ l r, map_log a.(liquidated_markets) l r.1.(liquidated_markets)).
Proof.
  intros l r Hok. unfold full_liquidation_step_emits in Hok. cbv zeta in Hok.
  log_steps; cbn [fst app]; try (by apply map_log_uncounted); end_borrows.
  by eapply map_log_step.
Qed.

#[export] Instance partial_liquidation_step_logged st key now fee closed coll a status :
  Logged (partial_liquidation_step_emits st key now fee closed coll a status)
    (λ l r, map_log a.(liquidated_markets) l r.1.(liquidated_markets)).
Proof.
  intros l r Hok. unfold partial_liquidation_step_emits in Hok. cbv zeta in Hok.
  log_steps; cbn [fst app]; try (by apply map_log_uncounted); end_borrows;
    by eapply map_log_step.
Qed.

#[export] Instance liquidate_positions_logged st u key mm now status :
  Logged (liquidate_positions_emits st u key mm now status)
    (λ l r, map_log mm l r.(liquidated_markets)).
Proof.
  intros l r Hok. unfold liquidate_positions_emits in Hok. cbv zeta in Hok.
  set (start := mk_progress u mm 0 0 _) in *.
  assert (map_log mm [] start.(liquidated_markets)) as Hstart by by apply map_log_uncounted.
  assert (∀ a l1 l2 b, map_log mm l1 a.(liquidated_markets) →
    map_log a.(liquidated_markets) l2 b.(liquidated_markets) →
    map_log mm (l1 ++ l2) b.(liquidated_markets)) as Htrans
    by (intros *; apply map_log_trans).
  destruct (is_full_liquidation status);
    repeat (apply then_ok in Hok as (? & ? & ? & Hx & Hok & ->);
            apply quiet_ok in Hx as [-> _]; cbn [app]);
    refine (loop_emits_logged _ (λ l b, map_log mm l b.(liquidated_markets)) [] _ _ _ _ _ Hstart
              Hok); intros l1 b status1 l2 b1 stop Hb Hs;
    exact (Htrans _ _ _ _ Hb (logged _ _ Hs)).
Qed.

#[export] Instance liquidate_logged st users bm mm om ledger key liquidator vault insurance auth
    clock :
  Logged (liquidate_emits st users bm mm om ledger key liquidator vault insurance auth clock)
    (λ l r, map_log mm l r.1.2).
Proof.
  intros l r Hok. unfold liquidate_emits in Hok. cbv zeta in Hok.
  log_steps; cbn [fst snd app].
  all: match goal with Hs : map_log _ _ _ |- _ =>
    refine (map_log_trans _ mm _ _ _ _ (map_log_trans _ _ _ _ _ Hs _)) end.
  all: apply map_log_uncounted; count_none.
Qed.

(** *** Banks, curves and the instructions on orders *)

#[export] Instance deposit_logged users bm mm ledger key token vault auth clock i amount ro :
  Logged (deposit_emits users bm mm ledger key token vault auth clock i amount ro)
    (λ l _, uncounted l).
Proof.
  intros l r Hok. unfold deposit_emits in Hok. cbv zeta in Hok. log_steps; count_none.
Qed.

#[export] Instance withdraw_logged st users bm mm om ledger key token vault auth clock i amount ro :
  Logged (withdraw_emits st users bm mm om ledger key token vault auth clock i amount ro)
    (λ l _, uncounted l).
Proof.
  intros l r Hok. unfold withdraw_emits in Hok. cbv zeta in Hok. log_steps; count_none.
Qed.

#[export] Instance transfer_deposit_logged users bm mm om auth from to clock i amount :
  Logged (transfer_deposit_emits users bm mm om auth from to clock i amount)
    (λ l _, uncounted l).
Proof.
  intros l r Hok. unfold transfer_deposit_emits in Hok. cbv zeta in Hok.
  log_steps; count_none.
Qed.

#[export] Instance settle_funding_payment_ix_logged st users mm key clock :
  Logged (settle_funding_payment_ix_emits st users mm key clock) (λ l _, uncounted l).
Proof.
  intros l r Hok. unfold settle_funding_payment_ix_emits in Hok. log_steps; count_none.
Qed.

#[export] Instance update_funding_rate_ix_logged st m oracle clock i :
  Logged (update_funding_rate_ix_emits st m oracle clock i) (λ l r, market_log i m l r).
Proof. intros l r Hok. unfold update_funding_rate_ix_emits in Hok. by log_steps. Qed.

#[export] Instance repeg_amm_curve_logged st m oracle clock peg :
  Logged (repeg_amm_curve_emits st m oracle clock peg)
    (λ l r, market_log m.(Market.market_index) m l r).
Proof.
  intros l r Hok. unfold repeg_amm_curve_emits in Hok. log_steps; cbn [app].
  by apply market_log_curve.
Qed.

#[export] Instance update_k_ix_logged st m oracle clock k :
  Logged (update_k_ix_emits st m oracle clock k)
    (λ l r, market_log m.(Market.market_index) m l r).
Proof.
  intros l r Hok. unfold update_k_ix_emits in Hok. cbv zeta in Hok. log_steps; cbn [app].
  all: match goal with Hk : update_k _ _ = _ |- _ => apply update_k_ids in Hk end.
  all: apply market_log_curve; [congruence|done|done].
Qed.
End Counters.
