(* ===== verification/AdminProps.v ===== *)
(** * What the administrator can and cannot do

    The bounds on the withdrawal of fees, on a change of the depth of a curve, on a re-peg
    and on a change of the oracle average; and which margin ratios are checked. *)

From stdpp Require Import base numbers list gmap.
From S2P Require Import Prelude Constants Bn State Value AmmMath BankBalance Twap Oracle.
From S2P Require Import Maps PositionMath CurveMath Repeg AmmController Funding Fees Margin.
From S2P Require Import Orders Addresses Tokens BankHandlers BankLedger BankOrders Loading Trading.
From S2P Require Import Liquidation Frames Admin.
Local Open Scope Z_scope.

(** ** Fees *)

Section Fees.
Context `{BnLib} `{OracleAccounts} `{TokenProgram}.

(** The administrator withdraws exactly the amount from the vault of the quote asset
    bank, and all withdrawals from a market together are at most half of the fees that the
    market has ever taken; nothing else of the market changes. *)
Theorem withdraw_fees_bounded m bank ledger vault recipient auth amount m' ledger' :
  withdraw_fees m bank ledger vault recipient auth amount = Ok (m', ledger') →
  m'.(Market.amm).(AMM.total_fee_withdrawn)
    = m.(Market.amm).(AMM.total_fee_withdrawn) + amount
  ∧ m'.(Market.amm).(AMM.total_fee_withdrawn) ≤ m.(Market.amm).(AMM.total_fee) / 2
  ∧ m' = m <| Market.amm := m.(Market.amm)
                <| AMM.total_fee_withdrawn := m'.(Market.amm).(AMM.total_fee_withdrawn) |> |>
  ∧ token_transfer (BankVaultSigns 0 bank.(Bank.vault_authority_nonce)) ledger vault recipient
      auth amount = Some ledger'.
Proof.
  intros Hok. unfold withdraw_fees in Hok. cbv zeta in Hok.
  apply bind_ok in Hok as ([] & _ & Hok). apply bind_ok in Hok as (x & Hx & Hok).
  apply total_fee_lower_bound_ok in Hx as ->.
  apply bind_ok in Hok as (y & Hy & Hok). apply csub_ok in Hy as [-> _].
  apply bind_ok in Hok as (a & Ha & Hok). apply cast_ok in Ha as [-> _].
  destruct (Z.ltb_spec (AMM.total_fee (Market.amm m) / 2
    - AMM.total_fee_withdrawn (Market.amm m)) amount); [done|].
  apply bind_ok in Hok as (l & Hl & Hok). apply unwrap_ok in Hl.
  apply bind_ok in Hok as (b & Hb & Hok). apply cast_ok in Hb as [-> _].
  apply bind_ok in Hok as (z & Hz & Hok). apply cadd_ok in Hz as [-> _].
  apply Ok_inj in Hok; injection Hok as <- <-. split_and!; [done|cbn; lia|done|done].
Qed.

(** ** The depth of a curve *)

(** The second part of [check_new_k]. *)
Lemma check_k_ok `{!BnLaws} amm :
  (let? k := bn_mul U192 (bn_from U192 amm.(AMM.base_asset_reserve))
               (bn_from U192 amm.(AMM.quote_asset_reserve)) in
   let? k_sqrt_check := try_to_u128 U192 (bn_integer_sqrt U192 k) in
   let? k_sqrt_check := cast_to_i128 k_sqrt_check in
   let? sqrt_k := cast_to_i128 amm.(AMM.sqrt_k) in
   let? k_err := csub I128 k_sqrt_check sqrt_k in
   if 100 <? unsigned_abs k_err then Err InvalidUpdateK else Ok ()) = Ok () →
  has_type U128 amm.(AMM.base_asset_reserve) → has_type U128 amm.(AMM.quote_asset_reserve) →
  Z.abs (Z.sqrt (amm.(AMM.base_asset_reserve) * amm.(AMM.quote_asset_reserve))
         - amm.(AMM.sqrt_k)) ≤ 100.
Proof.
  intros Hok Hb Hq. apply bind_ok in Hok as (k & Hk & Hok).
  rewrite !bn_from_spec in Hk by done. apply bn_mul_ok in Hk as [-> Hk];
    [|by apply u128_bn_range..].
  rewrite bn_integer_sqrt_spec in Hok by done. apply bind_ok in Hok as (x & Hx & Hok).
  apply try_to_u128_ok in Hx as [-> _]; [|by apply bn_sqrt_range].
  inv_ok. bool_prop. unfold unsigned_abs in *. lia.
Qed.

(** C36. An update of k that succeeds moves the mark price by at most a ten thousandth of
    a quote unit and leaves a curve whose k is the product of its reserves, rounded; a
    cost is paid out of the fees that are neither distributed nor withdrawn, and a gain
    goes to them.  The error of the update itself, which the code ignores, cannot occur:
    the computation of the cost has run the same update. *)
Theorem update_k_ix_safe `{!BnLaws} st m oracle sqrt_k m' :
  update_k_ix st m oracle sqrt_k = Ok m' →
  ∃ before after r cost market1,
    mark_price m.(Market.amm) = Ok before ∧ mark_price m'.(Market.amm) = Ok after
    ∧ Z.abs (before - after) ≤ MARK_PRICE_PRECISION / 10000
    ∧ get_update_k_result m (bn_from U192 sqrt_k) = Ok r
    ∧ adjust_k_cost m r = Ok cost ∧ update_k m r = (market1, Ok ())
    ∧ m'.(Market.amm).(AMM.sqrt_k) = market1.(Market.amm).(AMM.sqrt_k)
    ∧ (let base := m'.(Market.amm).(AMM.base_asset_reserve) in
       let quote := m'.(Market.amm).(AMM.quote_asset_reserve) in
       has_type U128 base → has_type U128 quote →
       Z.abs (Z.sqrt (base * quote) - m'.(Market.amm).(AMM.sqrt_k)) ≤ 100)
    ∧ m'.(Market.amm).(AMM.total_fee_minus_distributions)
      = market1.(Market.amm).(AMM.total_fee_minus_distributions) - cost
    ∧ (0 < cost → market1.(Market.amm).(AMM.total_fee_withdrawn)
                  ≤ m'.(Market.amm).(AMM.total_fee_minus_distributions)).
Proof.
  intros Hok. unfold update_k_ix in Hok.
  apply bind_ok in Hok as ([] & _ & Hok). apply bind_ok in Hok as ([] & _ & Hok).
  apply bind_ok in Hok as ([] & _ & Hok). apply bind_ok in Hok as (before & Hb & Hok).
  apply bind_ok in Hok as (r & Hr & Hok). apply bind_ok in Hok as (cost & Hcost & Hok).
  destruct (update_k m r) as [market1 res] eqn:Hup. apply bind_ok in Hok as ([] & Hres & Hok).
  assert (res = Ok ()) as ->.
  { unfold adjust_k_cost in Hcost. apply bind_ok in Hcost as ([v w] & _ & Hcost).
    rewrite Hup in Hcost. apply bind_ok in Hcost as ([] & -> & _). done. }
  apply bind_ok in Hok as (market2 & Hpay & Hok). apply bind_ok in Hok as ([] & Hcheck & Hok).
  apply bind_ok in Hok as (od & _ & Hok). apply Ok_inj in Hok as <-.
  unfold check_new_k in Hcheck. apply bind_ok in Hcheck as (after & Ha & Hcheck).
  apply bind_ok in Hcheck as (x & Hx & Hcheck). apply cast_ok in Hx as [-> _].
  apply bind_ok in Hcheck as (y & Hy & Hcheck). apply cast_ok in Hy as [-> _].
  apply bind_ok in Hcheck as (z & Hz & Hcheck). apply csub_ok in Hz as [-> Hz].
  destruct (Z.ltb_spec UPDATE_K_ALLOWED_PRICE_CHANGE (unsigned_abs (before - after)));
    [done|]. pose proof (check_k_ok _ Hcheck) as Hsqrt.
  assert (AMM.sqrt_k (Market.amm market2) = AMM.sqrt_k (Market.amm market1)
    ∧ mark_price (Market.amm (next_curve_record market2)) = mark_price (Market.amm market2)
    ∧ AMM.total_fee_minus_distributions (Market.amm market2)
      = AMM.total_fee_minus_distributions (Market.amm market1) - cost
    ∧ (0 < cost → AMM.total_fee_withdrawn (Market.amm market1)
       ≤ AMM.total_fee_minus_distributions (Market.amm market2)))
    as (Hk & Hmark & Hfee & Hleft).
  { clear -Hpay. unfold apply_k_cost in Hpay. cbv zeta in Hpay.
    destruct (Z.ltb_spec 0 cost).
    - inv_ok. bool_prop. unfold unsigned_abs in *. cbn. split_and!; try done; lia.
    - inv_ok. unfold unsigned_abs in *. cbn. split_and!; try done; lia. }
  exists before, after, r, cost, market1. split_and!; try done.
Qed.


(** ** The oracle average *)

(** An update of the oracle average brings it no further from the mark average than
    it was, never to its other side, and touches nothing else of the market. *)
Theorem update_amm_oracle_twap_narrows m oracle clock m' :
  update_amm_oracle_twap m oracle clock = Ok m' →
  let mark := m.(Market.amm).(AMM.last_mark_price_twap) in
  let before := mark - m.(Market.amm).(AMM.last_oracle_price_twap) in
  let after := mark - m'.(Market.amm).(AMM.last_oracle_price_twap) in
  Z.abs after ≤ Z.abs before ∧ 0 ≤ after * before
  ∧ m' = set_oracle_twap m m'.(Market.amm).(AMM.last_oracle_price_twap)
           clock.(Clock.unix_timestamp).
Proof.
  intros Hok mark before after. unfold update_amm_oracle_twap in Hok. cbv zeta in Hok.
  apply bind_ok in Hok as ([] & _ & Hok). apply bind_ok in Hok as ([] & _ & Hok).
  apply bind_ok in Hok as ([twap|] & _ & Hok); [|done].
  apply bind_ok in Hok as (mk & Hm & Hok). apply cast_ok in Hm as [-> _].
  apply bind_ok in Hok as (x & Hx & Hok). apply csub_ok in Hx as [-> _].
  apply bind_ok in Hok as (y & Hy & Hok). apply csub_ok in Hy as [-> _].
  subst mark before after. unfold unsigned_abs in Hok.
  destruct (_ || _) eqn:Hflip; [|destruct (Z.leb_spec (Z.abs (AMM.last_mark_price_twap
    (Market.amm m) - twap)) (Z.abs (AMM.last_mark_price_twap (Market.amm m)
    - AMM.last_oracle_price_twap (Market.amm m)))); [|done]];
    apply Ok_inj in Hok as <-; cbn; split_and!; try done; try lia.
Qed.

(** ** Margin ratios *)

(** The margin ratios of an update are checked, all three of them. *)
Theorem update_margin_ratio_checked m initial partial maintenance m' :
  update_margin_ratio m initial partial maintenance = Ok m' →
  m.(Market.initialized) = true
  ∧ MINIMUM_MARGIN_RATIO ≤ maintenance ≤ partial ∧ partial ≤ initial ≤ MAXIMUM_MARGIN_RATIO
  ∧ m'.(Market.margin_ratio_initial) = initial ∧ m'.(Market.margin_ratio_partial) = partial
  ∧ m'.(Market.margin_ratio_maintenance) = maintenance.
Proof.
  intros Hok. unfold update_margin_ratio in Hok.
  apply bind_ok in Hok as ([] & Hi & Hok). apply validate_ok in Hi.
  apply bind_ok in Hok as ([] & Hv & Hok). apply Ok_inj in Hok as <-.
  unfold validate_margin in Hv. cbv zeta in Hv. inv_ok. bool_prop. split_and!; done || lia.
Qed.

(** The partial margin ratio of a new market is not checked at all: with any other
    one the market is created just the same. *)
Theorem initialize_market_ignores_partial_ratio st p clock st' m partial :
  initialize_market st p clock = Ok (st', m) →
  initialize_market st (MarketParams.mk _ p.(MarketParams.market_pubkey)
    p.(MarketParams.oracle) p.(MarketParams.amm_base_asset_reserve)
    p.(MarketParams.amm_quote_asset_reserve) p.(MarketParams.amm_periodicity)
    p.(MarketParams.amm_peg_multiplier) p.(MarketParams.oracle_source)
    p.(MarketParams.margin_ratio_initial) partial p.(MarketParams.margin_ratio_maintenance))
    clock = Ok (st', m <| Market.margin_ratio_partial := partial |>).
Proof.
  unfold initialize_market. destruct p as [pk oracle base quote per peg src ri rp rm].
  unfold new_amm.
  cbn [MarketParams.amm_base_asset_reserve MarketParams.amm_quote_asset_reserve
    MarketParams.amm_peg_multiplier MarketParams.oracle_source MarketParams.oracle
    MarketParams.margin_ratio_initial MarketParams.margin_ratio_maintenance
    MarketParams.margin_ratio_partial MarketParams.market_pubkey MarketParams.amm_periodicity].
  destruct (negb _); [done|]. intros Hok.
  do 4 (apply bind_ok in Hok as (? & -> & Hok); cbn [bind]).
  apply bind_ok in Hok as ([] & -> & Hok). apply bind_ok in Hok as (n & Hn & Hok).
  cbn [bind]. rewrite Hn. cbn [bind].
  apply Ok_inj in Hok. by injection Hok as <- <-.
Qed.

(** A new market starts at the price of its parameters, with equal reserves, no positions
    and no fees, under the next index. *)
Theorem initialize_market_ok `{!BnLaws} st p clock st' m :
  has_type U128 p.(MarketParams.amm_base_asset_reserve) →
  initialize_market st p clock = Ok (st', m) →
  m.(Market.market_index) = st.(State.number_of_markets)
  ∧ st'.(State.number_of_markets) = st.(State.number_of_markets) + 1
  ∧ m.(Market.amm).(AMM.base_asset_reserve) = m.(Market.amm).(AMM.quote_asset_reserve)
  ∧ m.(Market.amm).(AMM.sqrt_k) = m.(Market.amm).(AMM.base_asset_reserve)
  ∧ mark_price m.(Market.amm) = Ok m.(Market.amm).(AMM.last_mark_price_twap)
  ∧ m.(Market.amm).(AMM.last_mark_price_twap)
    = p.(MarketParams.amm_peg_multiplier) * PRICE_TO_PEG_PRECISION_RATIO
  ∧ MINIMUM_MARGIN_RATIO ≤ m.(Market.margin_ratio_maintenance) ≤ m.(Market.margin_ratio_initial)
  ∧ m.(Market.margin_ratio_initial) ≤ MAXIMUM_MARGIN_RATIO.
Proof.
  intros Hb Hok. unfold initialize_market in Hok.
  destruct (Z.eqb_spec (MarketParams.amm_base_asset_reserve p)
    (MarketParams.amm_quote_asset_reserve p)) as [Heq|]; [|done]. cbn [negb] in Hok.
  apply bind_ok in Hok as (price & Hprice & Hok). apply bind_ok in Hok as (k & _ & Hok).
  apply bind_ok in Hok as (od & _ & Hok). apply bind_ok in Hok as (twap & _ & Hok).
  apply bind_ok in Hok as ([] & Hv & Hok).
  apply bind_ok in Hok as (n & Hn & Hok). apply cadd_ok in Hn as [-> _].
  apply Ok_inj in Hok; injection Hok as <- <-.
  pose proof (calculate_price_ok _ _ _ _ Hb Hprice) as (_ & Hpos & _ & Hp).
  unfold validate_margin in Hv. cbv zeta in Hv. inv_ok. bool_prop.
  cbn -[PRICE_TO_PEG_PRECISION_RATIO]. split_and!; try done; try lia.
  rewrite <-Heq, (Z.mul_comm _ (MarketParams.amm_peg_multiplier p)), <-Z.mul_assoc.
  rewrite (Z.mul_comm (MarketParams.amm_base_asset_reserve p)), Z.mul_assoc.
  apply Z.div_mul. lia.
Qed.
End Fees.
