(* ===== verification/Exposure.v ===== *)
(** * Positions and the totals of the markets

    Every trade moves the net position of its market together with the position of the
    user, and every other operation moves neither: for one market [j], the frame of every
    function says so.  The frames are local to this file, where they take the place of
    those of [Frames]; what it gives to the others is what an instruction does to
    [exposed], the difference of a market's net position and the positions of the users
    in it. *)

From stdpp Require Import base numbers list gmap.
From S2P Require Import Prelude Constants Bn State Value AmmMath BankBalance Twap Oracle.
From S2P Require Import Maps PositionMath CurveMath Repeg AmmController OrdersMath Position.
From S2P Require Import Funding Fees Margin OrderValidation Orders Addresses Tokens BankHandlers.
From S2P Require Import BankLedger BankOrders Loading Trading Liquidation TradingProps Frames.
From S2P Require Import LiquidationProps Admin.
Local Open Scope Z_scope.

(** ** Definitions *)

Definition net_base (m : Market) : Z := m.(Market.amm).(AMM.net_base_asset_amount).

(** The long and the short positions of a market beyond its net position. *)
Definition skew (m : Market) : Z :=
  m.(Market.base_asset_amount_long) + m.(Market.base_asset_amount_short) - net_base m.

(** What a position, and what a user, has in the market [j]. *)
Definition slot_base (j : Z) (p : MarketPosition) : Z :=
  if p.(MarketPosition.market_index) =? j then p.(MarketPosition.base_asset_amount) else 0.
Definition base_in (j : Z) (u : User) : Z := sum_of (slot_base j) u.(User.positions).

(** The net position of the market [j]; of none it is zero. *)
Definition net_of (j : Z) (markets : MarketMap) : Z :=
  match markets !! j with Some c => cell_value net_base c | None => 0 end.

(** What the market [j] counts beyond the positions of the users. *)
Definition exposed (j : Z) (users : UserMap) (markets : MarketMap) : Z :=
  net_of j markets - cell_sum (base_in j) users.

(** The market of a slot. *)
Definition slot_market (ps : list MarketPosition) (k : nat) : option Z :=
  MarketPosition.market_index <$> ps !! k.

(** ** Positions *)

Lemma base_same m m' : market_base m' = market_base m → net_base m' = net_base m ∧ skew m' = skew m.
Proof. unfold market_base, skew, net_base. intros [= Hl Hs Hn]. lia. Qed.

(** What a trade does to its market and to its position. *)
Definition moves (m m' : Market) (p p' : MarketPosition) : Prop :=
  net_base m' - net_base m
    = p'.(MarketPosition.base_asset_amount) - p.(MarketPosition.base_asset_amount)
  ∧ skew m' = skew m.

(** Reads the totals off the frames of the steps. *)
Ltac keep_moves :=
  unfold moves, amm_idle, market_base, skew, net_base in *; cbn in *;
  repeat match goal with H : (_, _) = (_, _) |- _ => injection H as ? ? end;
  try lia.

#[local] Instance cadd_value t a b : Frame (cadd t a b) (λ c, c = a + b).
Proof. intros c Hok. by apply cadd_ok in Hok as [-> _]. Qed.
#[local] Instance csub_value t a b : Frame (csub t a b) (λ c, c = a - b).
Proof. intros c Hok. by apply csub_ok in Hok as [-> _]. Qed.

#[local] Instance open_if_new_moves d m p :
  Frame (open_if_new d m p) (λ r, market_base r.1 = market_base m
    ∧ r.2.(MarketPosition.base_asset_amount) = p.(MarketPosition.base_asset_amount)).
Proof. intros r Hok. unfold open_if_new in Hok. frame_steps; done. Qed.

#[local] Instance add_base_asset_amount_moves m after x :
  Frame (add_base_asset_amount m after x)
    (λ r, net_base r = net_base m + x ∧ skew r = skew m).
Proof.
  intros r Hok. unfold add_base_asset_amount in Hok.
  frame_steps; keep_moves.
Qed.

#[local] Instance add_quote_asset_amount_moves m after x :
  Frame (add_quote_asset_amount m after x) (λ r, market_base r = market_base m).
Proof. intros r Hok. unfold add_quote_asset_amount in Hok. frame_steps; done. Qed.

#[local] Instance close_open_interest_moves m after :
  Frame (close_open_interest m after) (λ r, market_base r = market_base m).
Proof. intros r Hok. unfold close_open_interest in Hok. frame_steps; done. Qed.

Section Exposure.
Context `{BnLib} `{OracleAccounts} `{TokenProgram} `{Roots} (j : Z).

#[local] Instance increase_moves d q m p now mark :
  Frame (increase d q m p now mark) (λ r, moves m r.1.1 p r.1.2).
Proof. intros r Hok. unfold increase in Hok. frame_steps; keep_moves. Qed.

#[local] Instance increase_with_base_asset_amount_moves d b m p now limit mark :
  Frame (increase_with_base_asset_amount d b m p now limit mark) (λ r, moves m r.1.1 p r.1.2).
Proof. intros r Hok. unfold increase_with_base_asset_amount in Hok. frame_steps; keep_moves. Qed.

#[local] Instance reduce_moves d q m p now mark spread :
  Frame (reduce d q m p now mark spread) (λ r, moves m r.1.1 p r.1.2).
Proof. intros r Hok. unfold reduce in Hok. frame_steps; keep_moves. Qed.

#[local] Instance reduce_with_base_asset_amount_moves d b m p now limit mark :
  Frame (reduce_with_base_asset_amount d b m p now limit mark) (λ r, moves m r.1.1 p r.1.2).
Proof. intros r Hok. unfold reduce_with_base_asset_amount in Hok. frame_steps; keep_moves. Qed.

#[local] Instance close_moves m p now limit mark spread :
  Frame (close m p now limit mark spread) (λ r, moves m r.1.1 p r.1.2).
Proof. intros r Hok. unfold close in Hok. frame_steps; keep_moves. Qed.

#[local] Instance trade_base_asset_amount_moves b d m p mark now limit :
  Frame (trade_base_asset_amount b d m p mark now limit) (λ r, moves m r.1.1 p r.1.2).
Proof. intros r Hok. unfold trade_base_asset_amount in Hok. frame_steps; keep_moves. Qed.

#[local] Instance trade_quote_asset_amount_moves q d m p mark now :
  Frame (trade_quote_asset_amount q d m p mark now) (λ r, moves m r.1.1 p r.1.2).
Proof. intros r Hok. unfold trade_quote_asset_amount in Hok. frame_steps; keep_moves. Qed.
(** ** Users *)

Lemma base_in_positions u u' :
  u'.(User.positions) = u.(User.positions) → base_in j u' = base_in j u.
Proof. unfold base_in. by intros ->. Qed.

Lemma base_in_set u k p p' :
  u.(User.positions) !! k = Some p →
  base_in j (set_position u k p') = base_in j u - slot_base j p + slot_base j p'.
Proof. intros Hp. unfold base_in. cbn. by apply sum_of_insert. Qed.

Lemma base_in_set_same u k p p' :
  u.(User.positions) !! k = Some p → slot_base j p' = slot_base j p →
  base_in j (set_position u k p') = base_in j u.
Proof. intros Hp Hs. rewrite (base_in_set _ _ _ _ Hp). lia. Qed.

#[local] Instance get_position_value u k :
  Frame (get_position u k) (λ p, u.(User.positions) !! k = Some p).
Proof. intros p Hok. by apply unwrap_ok in Hok. Qed.

#[local] Instance get_position_index_market ps i :
  Frame (get_position_index ps i) (λ k, slot_market ps k = Some i).
Proof.
  intros k Hok. apply get_position_index_ok in Hok as (p & Hp & Hf).
  apply is_for_spec in Hf as [<- _]. unfold slot_market. by rewrite Hp.
Qed.

(** Goes through the updates of a user that keep what it has in the market. *)
Ltac keep_base_step :=
  match goal with
  | |- ?x = ?x => reflexivity
  | H : base_in j ?u = _ |- base_in j ?u = _ => etransitivity; [exact H|]
  | |- base_in j (set_position ?u ?k _) = _ =>
      etransitivity; [eapply base_in_set_same; [eassumption|reflexivity]|]
  | |- base_in j (set_order ?u _ _) = _ =>
      etransitivity; [apply (base_in_positions u); reflexivity|]
  | |- base_in j (set_bank_balance ?u _ _) = _ =>
      etransitivity; [apply (base_in_positions u); reflexivity|]
  | |- base_in j (@put _ _ _ _ _ ?u) = _ =>
      etransitivity; [apply (base_in_positions u); reflexivity|]
  end.
Ltac keep_base := cbn [fst snd]; repeat keep_base_step.

#[local] Instance settle_funding_payment_base u mm :
  Frame (settle_funding_payment u mm) (λ r, base_in j r = base_in j u).
Proof.
  intros r Hok. unfold settle_funding_payment in Hok.
  apply bind_ok in Hok as (ps & Hps & Hok). apply Ok_inj in Hok as <-.
  apply map_result_lookup in Hps. unfold base_in. cbn.
  induction Hps as [|p q ps1 ps2 Hq _ IH]; [done|].
  apply settle_position_funding_slot in Hq as (Hm & _ & Hb & _). unfold sum_of in *. cbn.
  rewrite IH. unfold slot_base. by rewrite Hm, Hb.
Qed.

#[local] Instance get_or_add_position_base u i :
  Frame (get_or_add_position u i)
    (λ r, base_in j r.1 = base_in j u ∧ slot_market r.1.(User.positions) r.2 = Some i).
Proof.
  intros r Hok. unfold get_or_add_position in Hok.
  destruct (get_position_index _ i) as [k| |] eqn:Hk.
  { apply Ok_inj in Hok as <-. split; [done|]. exact (frame _ Hk). }
  all: unfold add_new_position in Hok; cbn [bind] in Hok.
  all: apply bind_ok in Hok as ([ps k'] & Hadd & Hok); apply Ok_inj in Hok as <-.
  all: apply bind_ok in Hadd as (k & Hs & Hadd); apply ok_or_ok, iter_position_some in Hs
         as (p & Hp & Ha & _).
  all: apply Ok_inj in Hadd; injection Hadd as <- <-.
  all: apply is_available_spec in Ha as (Hb & _).
  all: split; [|unfold slot_market; cbn; by rewrite list_lookup_insert_eq
                  by (by eapply lookup_lt_Some)].
  all: unfold base_in; cbn; rewrite (sum_of_insert _ _ _ _ _ Hp); unfold slot_base; cbn.
  all: rewrite Hb; repeat case_match; lia.
Qed.

#[local] Instance add_unsettled_pnl_base u k x :
  Frame (add_unsettled_pnl u k x) (λ r, base_in j r = base_in j u).
Proof. intros r Hok. unfold add_unsettled_pnl in Hok. frame_steps. keep_base. Qed.

#[local] Instance charge_user_base u i fee td rd :
  Frame (charge_user u i fee td rd) (λ r, base_in j r = base_in j u).
Proof. intros r Hok. unfold charge_user in Hok. frame_steps; keep_base. Qed.

#[local] Instance charge_trade_base u k pnl fee td rd :
  Frame (charge_trade u k pnl fee td rd) (λ r, base_in j r = base_in j u).
Proof. intros r Hok. unfold charge_trade in Hok. frame_steps. keep_base. Qed.

#[local] Instance release_order_if_filled_base u n i :
  Frame (release_order_if_filled u n i) (λ r, base_in j r = base_in j u).
Proof.
  intros r Hok. unfold release_order_if_filled, release_order in Hok. frame_steps; keep_base.
Qed.

(** What is put back into a map of users has in the market what it had. *)
Ltac keep_users_step :=
  match goal with
  | |- view _ ?m = view _ ?m => reflexivity
  | H : view ?f ?m' = view ?f ?m |- view ?f ?m' = _ => etransitivity; [exact H|]
  | |- view _ (drop_mut _ _ _) = _ => eapply view_drop; [eassumption|eassumption|keep_base]
  | |- view _ (<[_ := Loaded _]> _) = _ =>
      etransitivity; [eapply view_put; [eassumption|keep_base]|]
  end.
Ltac keep_users := cbn [fst snd] in *; end_borrows; repeat keep_users_step.

#[local] Instance pay_filler_base users k i x :
  Frame (pay_filler users k i x) (λ r, view (base_in j) r = view (base_in j) users).
Proof. intros r Hok. unfold pay_filler in Hok. frame_steps. keep_users. Qed.

#[local] Instance reward_referrer_base users k x :
  Frame (reward_referrer users k x) (λ r, view (base_in j) r = view (base_in j) users).
Proof. intros r Hok. unfold reward_referrer in Hok. frame_steps. keep_users. Qed.

(** *** Trades of a user in a market *)

(** The slot [k] is of the market that is traded: what the user has in the market [j]
    changes with the net position of that market. *)
Definition traded (k : nat) (m m' : Market) (u u' : User) : Prop :=
  skew m' = skew m
  ∧ (∀ i, slot_market u.(User.positions) k = Some i →
       base_in j u' - base_in j u = if i =? j then net_base m' - net_base m else 0)
  ∧ slot_market u'.(User.positions) k = slot_market u.(User.positions) k.

Lemma set_position_traded k m m' u p p' :
  u.(User.positions) !! k = Some p → moves m m' p p' → same_slot p p' →
  traded k m m' u (set_position u k p').
Proof.
  intros Hp [Hn Hs] (Hi & _). split; [done|]. split.
  - intros i Hk. unfold slot_market in Hk. rewrite Hp in Hk. injection Hk as <-.
    rewrite (base_in_set _ _ _ _ Hp). unfold slot_base. rewrite Hi.
    destruct (_ =? j); lia.
  - unfold slot_market. cbn. rewrite list_lookup_insert_eq by (by eapply lookup_lt_Some).
    rewrite Hp. cbn. by rewrite Hi.
Qed.

#[local] Instance update_position_with_base_asset_amount_traded b d m u k mark now
    limit :
  Frame (update_position_with_base_asset_amount b d m u k mark now limit)
    (λ r, traded k m r.1.1 u r.1.2).
Proof.
  intros r Hok. unfold update_position_with_base_asset_amount in Hok.
  apply bind_ok in Hok as (p & Hp & Hok). apply unwrap_ok in Hp.
  apply bind_ok in Hok as ([[m' p'] upd] & Ht & Hok). apply Ok_inj in Hok as <-.
  apply (set_position_traded k m m' u p p' Hp); [exact (frame _ Ht)|].
  by eapply trade_base_asset_amount_slot.
Qed.

#[local] Instance update_position_with_quote_asset_amount_traded q d m u k mark now :
  Frame (update_position_with_quote_asset_amount q d m u k mark now)
    (λ r, traded k m r.1.1 u r.1.2).
Proof.
  intros r Hok. unfold update_position_with_quote_asset_amount in Hok.
  apply bind_ok in Hok as (p & Hp & Hok). apply unwrap_ok in Hp.
  apply bind_ok in Hok as ([[m' p'] upd] & Ht & Hok). apply Ok_inj in Hok as <-.
  apply (set_position_traded k m m' u p p' Hp); [exact (frame _ Ht)|].
  by eapply trade_quote_asset_amount_slot.
Qed.

(** ** Markets *)

Lemma net_of_insert mm i m m' :
  mm !! i = Some (Loaded m) →
  net_of j (<[i:=Loaded m']> mm)
  = net_of j mm + if i =? j then net_base m' - net_base m else 0.
Proof.
  intros Hi. unfold net_of. destruct (Z.eqb_spec i j) as [->|Hne].
  - rewrite lookup_insert_eq, Hi. cbn. lia.
  - rewrite lookup_insert_ne by done. lia.
Qed.

(** What an execution keeps: the net position of the market less what the user has in
    it, and the skew of every market. *)
Definition executed (mm mm' : MarketMap) (u u' : User) : Prop :=
  net_of j mm' - base_in j u' = net_of j mm - base_in j u
  ∧ view skew mm' = view skew mm.

Lemma traded_executed i k mm m m' u u' :
  mm !! i = Some (Loaded m) → slot_market u.(User.positions) k = Some i →
  traded k m m' u u' → executed mm (<[i:=Loaded m']> mm) u u'.
Proof.
  intros Hi Hk (Hs & Hb & _). split; [|by eapply view_put].
  rewrite (net_of_insert _ _ _ _ Hi). specialize (Hb _ Hk). lia.
Qed.

Lemma executed_user mm mm' u u1 u' :
  executed mm mm' u u1 → base_in j u' = base_in j u1 → executed mm mm' u u'.
Proof. intros [Hn Hs] Hb. split; [lia|done]. Qed.

(** *** Orders *)

#[local] Instance execute_market_order_executed u n mm i mark now :
  Frame (execute_market_order u n mm i mark now) (λ r, executed mm r.1.2 u r.1.1).
Proof.
  intros r Hok. unfold execute_market_order in Hok. frame_steps; end_borrows;
    (eapply executed_user; [by eapply traded_executed|done]).
Qed.

#[local] Instance execute_non_market_order_executed u n mm bm om i mark now v :
  Frame (execute_non_market_order u n mm bm om i mark now v)
    (λ r, executed mm r.1.1.2 u r.1.1.1).
Proof.
  intros r Hok. unfold execute_non_market_order in Hok. frame_steps; try done; end_borrows;
    (eapply executed_user; [by eapply traded_executed|done]).
Qed.

#[local] Instance execute_order_executed u n mm bm om i mark now v :
  Frame (execute_order u n mm bm om i mark now v) (λ r, executed mm r.1.1.2 u r.1.1.1).
Proof.
  intros r Hok. unfold execute_order in Hok. apply bind_ok in Hok as (o & _ & Hok).
  destruct (Order.order_type o); by frame_steps.
Qed.

(** The market totals of a map. *)
#[local] Instance settle_fill_base st ost users u uk fk referrer mm i n o now fill :
  Frame (settle_fill st ost users u uk fk referrer mm i n o now fill)
    (λ r, view (base_in j) r.1.1 = view (base_in j) users ∧ base_in j r.1.2 = base_in j u
          ∧ view market_base r.2 = view market_base mm).
Proof.
  intros r Hok. unfold settle_fill in Hok. frame_steps;
    (split_and!; [keep_users|keep_base|keep_view]).
Qed.

(** ** Maps of users and markets *)

Lemma view_base_skew mm mm' :
  view market_base mm' = view market_base mm → view skew mm' = view skew mm.
Proof. apply (view_part (λ t, t.1.1 + t.1.2 - t.2) market_base). Qed.

Lemma view_net_of mm mm' :
  view market_base mm' = view market_base mm → net_of j mm' = net_of j mm.
Proof.
  intros Hv. apply (f_equal (.!! j)) in Hv. unfold view in Hv. rewrite !lookup_fmap in Hv.
  unfold net_of. destruct (mm !! j) as [[m|]|], (mm' !! j) as [[m'|]|]; cbn in *; try done.
  unfold market_base, net_base in *. congruence.
Qed.

Lemma put_base mm i m m' :
  mm !! i = Some (Loaded m) → market_base m' = market_base m →
  view market_base (<[i:=Loaded m']> mm) = view market_base mm.
Proof. apply view_put. Qed.

Lemma view_cell_sum users users' :
  view (base_in j) users' = view (base_in j) users →
  cell_sum (base_in j) users' = cell_sum (base_in j) users.
Proof.
  intros Hv. transitivity (cell_sum (λ x, x) (view (base_in j) users'));
    [|rewrite Hv; symmetry]; apply (cell_sum_view (λ x, x) (base_in j)).
Qed.

(** The end of an instruction on the user [k]. *)
Lemma cell_sum_end users users' k u u' :
  users !! k = Some (Loaded u) →
  view (base_in j) users' = view (base_in j) (<[k:=MutBorrowed]> users) →
  cell_sum (base_in j) (<[k:=Loaded u']> users')
  = cell_sum (base_in j) users - base_in j u + base_in j u'.
Proof.
  intros Hk Hv. assert (users' !! k = Some MutBorrowed) as Hk'.
  { apply (f_equal (.!! k)) in Hv. unfold view in Hv.
    rewrite !lookup_fmap, lookup_insert_eq in Hv. destruct (users' !! k) as [[]|]; done. }
  rewrite (cell_sum_insert _ _ _ _ _ Hk'), (view_cell_sum _ _ Hv).
  rewrite (cell_sum_insert _ _ _ _ _ Hk). cbn. lia.
Qed.

(** What an instruction keeps. *)
Definition keeps_exposed (users users' : UserMap) (mm mm' : MarketMap) : Prop :=
  exposed j users' mm' = exposed j users mm ∧ view skew mm' = view skew mm.

Lemma executed_end users users' k u u1 u2 u' mm mm1 mm2 mm' :
  users !! k = Some (Loaded u) →
  executed mm1 mm2 u1 u2 →
  view (base_in j) users' = view (base_in j) (<[k:=MutBorrowed]> users) →
  base_in j u1 = base_in j u → base_in j u' = base_in j u2 →
  view market_base mm1 = view market_base mm → view market_base mm' = view market_base mm2 →
  keeps_exposed users (drop_mut users' k u') mm mm'.
Proof.
  intros Hk [Hn Hs] Hv Hu1 Hu' Hmm1 Hmm'. unfold drop_mut. split.
  - unfold exposed. rewrite (cell_sum_end _ _ _ _ _ Hk Hv), (view_net_of _ _ Hmm').
    rewrite <-(view_net_of _ _ Hmm1). lia.
  - by rewrite (view_base_skew _ _ Hmm'), Hs, (view_base_skew _ _ Hmm1).
Qed.

#[local] Instance fill_order_exposed id st ost users uk mm bm om oracle fk referrer clock :
  Frame (fill_order id st ost users uk mm bm om oracle fk referrer clock)
    (λ r, keeps_exposed users r.1.1.1 mm r.1.1.2).
Proof.
  intros r Hok. unfold fill_order in Hok. cbv zeta in Hok. frame_steps; cbn [fst snd].
  all: (eapply executed_end; [eassumption|eassumption|keep_users|keep_base|keep_base| |];
        end_borrows; [keep_view..]).
Qed.

(** *** Trades *)

#[local] Instance settle_trade_base st users m u k token referrer q s pnl :
  Frame (settle_trade st users m u k token referrer q s pnl)
    (λ r, view (base_in j) r.1.1 = view (base_in j) users
          ∧ market_base r.1.2 = market_base m ∧ base_in j r.2 = base_in j u).
Proof.
  intros r Hok. unfold settle_trade in Hok.
  frame_steps; (split_and!; [keep_users|keep_terms|keep_base]).
Qed.

(** A trade between changes of the user and of the market that keep what is counted. *)
Lemma traded_end users users' key k i u u1 u2 u' mm m m1 m2 m3 :
  users !! key = Some (Loaded u) → mm !! i = Some (Loaded m) → traded k m1 m2 u1 u2 →
  slot_market u1.(User.positions) k = Some i →
  view (base_in j) users' = view (base_in j) (<[key:=MutBorrowed]> users) →
  base_in j u1 = base_in j u → base_in j u' = base_in j u2 →
  market_base m1 = market_base m → market_base m3 = market_base m2 →
  keeps_exposed users (drop_mut users' key u') mm (<[i:=Loaded m3]> mm).
Proof.
  intros Hk Hi (Hs & Hb & _) Hslot Hv Hu1 Hu' [Hn1 Hs1]%base_same [Hn3 Hs3]%base_same.
  eapply (executed_end _ _ _ _ u1 u2); [done| |done..].
  split; [|eapply view_put; [done|congruence]].
  rewrite (net_of_insert _ _ _ _ Hi). specialize (Hb _ Hslot). repeat case_match; lia.
Qed.

Ltac keep_traded :=
  cbn [fst snd] in *; end_borrows;
  eapply traded_end; [eassumption|eassumption|eassumption|..];
    [eassumption|keep_users|keep_base|keep_base|keep_terms|keep_terms].

#[local] Instance open_position_exposed st users bm mm om accounts uk auth oracle clock d q i
    limit optional :
  Frame (open_position st users bm mm om accounts uk auth oracle clock d q i limit optional)
    (λ r, keeps_exposed users r.1.1 mm r.1.2).
Proof.
  intros r Hok. unfold open_position in Hok. cbv zeta in Hok.
  frame_steps; keep_traded.
Qed.

#[local] Instance close_position_exposed st users mm accounts uk auth oracle clock i optional :
  Frame (close_position st users mm accounts uk auth oracle clock i optional)
    (λ r, keeps_exposed users r.1 mm r.2).
Proof.
  intros r Hok. unfold close_position in Hok. cbv zeta in Hok.
  apply bind_ok in Hok as ([] & _ & Hok).
  apply bind_ok in Hok as ([u us] & Hu & Hok). apply bind_ok in Hok as (u1 & Hf & Hok).
  apply bind_ok in Hok as (k & Hk & Hok). apply bind_ok in Hok as ([m ms] & Hm & Hok).
  apply bind_ok in Hok as (mark & _ & Hok). apply bind_ok in Hok as (od & _ & Hok).
  apply bind_ok in Hok as (before & _ & Hok). apply bind_ok in Hok as (p & Hp & Hok).
  apply unwrap_ok in Hp.
  apply bind_ok in Hok as ([[m1 p1] [[[qa ba] sur] pnl]] & Hc & Hok).
  pose proof (set_position_traded k m m1 u1 p p1 Hp (frame _ Hc) (close_slot _ _ _ _ _ _ _ _ _ Hc))
    as Ht. clear Hc.
  frame_steps; keep_traded.
Qed.

(** *** Liquidations *)

Lemma executed_refl mm u : executed mm mm u u.
Proof. done. Qed.

(** A change of the markets after an execution. *)
Lemma executed_base mm mm2 mm3 u u' :
  executed mm mm2 u u' → view market_base mm3 = view market_base mm2 → executed mm mm3 u u'.
Proof.
  intros [Hn Hs] Hv. split; [by rewrite (view_net_of _ _ Hv)|].
  by rewrite (view_base_skew _ _ Hv).
Qed.

Lemma executed_trans mm1 mm2 mm3 u1 u2 u3 :
  executed mm1 mm2 u1 u2 → executed mm2 mm3 u2 u3 → executed mm1 mm3 u1 u3.
Proof. intros [] []. split; [lia|congruence]. Qed.

(** The progress of a liquidation. *)
Definition progressed (a b : Progress) : Prop :=
  executed a.(liquidated_markets) b.(liquidated_markets) a.(liquidated_user)
    b.(liquidated_user).

#[local] Instance liquidate_fully_moves m p status slippage now :
  Frame (liquidate_fully m p status slippage now) (λ r, moves m r.1.1 p r.1.2).
Proof. intros r Hok. unfold liquidate_fully in Hok. frame_steps; done. Qed.

Lemma record_liquidation_progressed progress status k m m' p p' value quote pnl req maxfee base
    coll always progress' stop :
  record_liquidation progress m'
    (<[status.(MarketStatus.market_index) := MutBorrowed]> progress.(liquidated_markets))
    (set_position progress.(liquidated_user) k p') status k value quote pnl req maxfee base
    coll always = Ok (progress', stop) →
  progress.(liquidated_markets) !! status.(MarketStatus.market_index) = Some (Loaded m) →
  slot_market progress.(liquidated_user).(User.positions) k
    = Some status.(MarketStatus.market_index) →
  progress.(liquidated_user).(User.positions) !! k = Some p →
  moves m m' p p' → same_slot p p' → progressed progress progress'.
Proof.
  intros Hok Hm Hi Hp Hmoves Hslot.
  pose proof (set_position_traded _ _ _ _ _ _ Hp Hmoves Hslot) as Ht.
  pose proof (traded_executed _ _ _ _ _ _ _ Hm Hi Ht) as He.
  unfold record_liquidation in Hok. frame_steps. end_borrows. unfold progressed.
  cbn [liquidated_user liquidated_markets].
  eapply executed_user; [|eassumption].
  eapply executed_base; [exact He|].
  rewrite <-(insert_insert_eq _ _ _ (Loaded m')).
  eapply put_base; [by rewrite lookup_insert_eq|done].
Qed.

Lemma full_liquidation_step_progressed st now dust fee value coll a status b stop :
  full_liquidation_step st now dust fee value coll a status = Ok (b, stop) → progressed a b.
Proof.
  intros Hok. unfold full_liquidation_step in Hok. cbv zeta in Hok.
  destruct (_ =? 0); [apply Ok_inj in Hok; injection Hok as <- _; apply executed_refl|].
  apply bind_ok in Hok as ([m ms] & Hm & Hok). apply load_cell_mut_ok in Hm as [Hm ->].
  apply bind_ok in Hok as (blocked & _ & Hok).
  destruct blocked; [apply Ok_inj in Hok; injection Hok as <- _; apply executed_refl|].
  apply bind_ok in Hok as (k & Hk & Hok). apply bind_ok in Hok as (p & Hp & Hok).
  apply unwrap_ok in Hp. do 4 (apply bind_ok in Hok as (? & _ & Hok)).
  apply bind_ok in Hok as (worse & _ & Hok).
  destruct worse; [apply Ok_inj in Hok; injection Hok as <- _; apply executed_refl|].
  apply bind_ok in Hok as ([[m1 p1] [q pnl]] & Hl & Hok).
  apply bind_ok in Hok as (v & _ & Hok).
  eapply record_liquidation_progressed; [exact Hok|exact Hm|exact (frame _ Hk)|exact Hp|
    exact (frame _ Hl)|by eapply liquidate_fully_slot].
Qed.

Lemma partial_liquidation_step_progressed st now fee closed coll a status b stop :
  partial_liquidation_step st now fee closed coll a status = Ok (b, stop) → progressed a b.
Proof.
  intros Hok. unfold partial_liquidation_step in Hok. cbv zeta in Hok.
  destruct (_ =? 0); [apply Ok_inj in Hok; injection Hok as <- _; apply executed_refl|].
  apply bind_ok in Hok as ([m ms] & Hm & Hok). apply load_cell_mut_ok in Hm as [Hm ->].
  apply bind_ok in Hok as (blocked & _ & Hok).
  destruct blocked; [apply Ok_inj in Hok; injection Hok as <- _; apply executed_refl|].
  apply bind_ok in Hok as (k & Hk & Hok). apply bind_ok in Hok as (p & Hp & Hok).
  apply unwrap_ok in Hp. do 6 (apply bind_ok in Hok as (? & _ & Hok)).
  apply bind_ok in Hok as (worse & _ & Hok). destruct worse; [done|].
  apply bind_ok in Hok as (q & _ & Hok). apply bind_ok in Hok as (v & _ & Hok).
  apply bind_ok in Hok as ([[m1 p1] [[b1 s1] pnl]] & Hl & Hok).
  eapply record_liquidation_progressed; [exact Hok|exact Hm|exact (frame _ Hk)|exact Hp|
    exact (frame _ Hl)|by eapply reduce_slot].
Qed.

#[local] Instance liquidate_positions_executed st u mm now status :
  Frame (liquidate_positions st u mm now status)
    (λ r, executed mm r.(liquidated_markets) u r.(liquidated_user)).
Proof.
  intros r Hok. unfold liquidate_positions in Hok. cbv zeta in Hok.
  set (start := mk_progress u mm 0 0 _) in *. change (progressed start r).
  destruct (is_full_liquidation status); repeat (apply bind_ok in Hok as (? & _ & Hok));
    (eapply loop_inv; [|apply executed_refl|exact Hok]);
    intros b ms b' stop Hb Hstep; (eapply executed_trans; [exact Hb|]);
    [by eapply full_liquidation_step_progressed|by eapply partial_liquidation_step_progressed].
Qed.

(** *** Balances *)

#[local] Instance get_or_add_bank_balance_base u bank i :
  Frame (get_or_add_bank_balance u bank i) (λ r, base_in j r.1 = base_in j u).
Proof.
  intros r Hok. unfold get_or_add_bank_balance in Hok.
  destruct (get_bank_balance_mut _ _); [by frame_steps|].
  unfold add_bank_balance in Hok. frame_steps. keep_base.
Qed.

#[local] Instance update_user_bank_balance_base x d bank u k :
  Frame (update_user_bank_balance x d bank u k) (λ r, base_in j r.2 = base_in j u).
Proof. intros r Hok. unfold update_user_bank_balance in Hok. frame_steps. keep_base. Qed.

#[local] Instance deposit_base users bm mm ledger key token vault auth clock i amount ro :
  Frame (deposit users bm mm ledger key token vault auth clock i amount ro)
    (λ r, view (base_in j) r.1.1 = view (base_in j) users).
Proof. intros r Hok. unfold deposit in Hok. frame_steps. keep_users. Qed.

#[local] Instance withdraw_base st users bm mm om ledger key token vault auth clock i amount
    ro :
  Frame (withdraw st users bm mm om ledger key token vault auth clock i amount ro)
    (λ r, view (base_in j) r.1.1.1 = view (base_in j) users).
Proof. intros r Hok. unfold withdraw in Hok. cbv zeta in Hok. frame_steps. keep_users. Qed.

#[local] Instance transfer_deposit_base users bm mm om from to clock i amount :
  Frame (transfer_deposit users bm mm om from to clock i amount)
    (λ r, view (base_in j) r.1.1 = view (base_in j) users).
Proof.
  intros r Hok. unfold transfer_deposit in Hok. frame_steps. cbn [fst snd].
  eapply view_drop; [eassumption| |keep_base].
  subst. eapply view_drop; [eassumption|reflexivity|keep_base].
Qed.

Lemma view_keeps_exposed users users' mm mm' :
  view (base_in j) users' = view (base_in j) users →
  view market_base mm' = view market_base mm → keeps_exposed users users' mm mm'.
Proof.
  intros Hu Hm. split; [|by apply view_base_skew].
  unfold exposed. by rewrite (view_cell_sum _ _ Hu), (view_net_of _ _ Hm).
Qed.

#[local] Instance settle_pnl_exposed st users bm mm key auth i :
  Frame (settle_pnl st users bm mm key auth i) (λ r, keeps_exposed users r.1.1 mm r.2).
Proof.
  intros [[users' bm'] mm'] Hok. apply settle_pnl_inv in Hok
    as (u & k & p & bank & m & u' & bank' & m' & Hu & _ & Hm & _ & Hp & -> & _ & -> & Hcase).
  cbn [fst snd]. cbv zeta in Hcase.
  assert (base_in j u' = base_in j u ∧ market_base m' = market_base m) as [Hbu Hbm].
  { destruct (_ =? 0); [by destruct Hcase as (_ & -> & ->)|]. destruct (0 <? _).
    - unfold settle_profit in Hcase. frame_steps; try done; (split; [keep_base|done]).
    - unfold settle_loss in Hcase. frame_steps. split; [keep_base|done]. }
  apply view_keeps_exposed; by eapply view_put.
Qed.

#[local] Instance pay_liquidator_base users bm u key liquidator fee :
  Frame (pay_liquidator users bm u key liquidator fee)
    (λ r, view (base_in j) r.1.1 = view (base_in j) users ∧ base_in j r.2 = base_in j u).
Proof.
  intros r Hok. unfold pay_liquidator in Hok.
  frame_steps; try done; (split; [keep_users|keep_base]).
Qed.

#[local] Instance liquidate_exposed st users bm mm om ledger key liquidator vault insurance
    auth clock :
  Frame (liquidate st users bm mm om ledger key liquidator vault insurance auth clock)
    (λ r, keeps_exposed users r.1.1.1 mm r.1.2).
Proof.
  intros [[[users' bm'] mm'] l'] Hok. apply liquidate_inv in Hok as (u & u1 & om1 & status
    & progress & t & us2 & bm2 & u2 & bank & k & bank3 & u3 & _ & Hu & Hf & _ & _ & Hl & _ & _
    & _ & Hpay & _ & _ & Hup & _ & -> & _ & ->).
  pose proof (frame _ Hf) as Hbu1. pose proof (frame _ Hl) as He.
  pose proof (frame _ Hpay) as [Hv Hbu2]. pose proof (frame _ Hup) as Hbu3. cbn [fst snd] in *.
  eapply executed_end; [exact Hu|exact He|exact Hv|exact Hbu1|congruence|done|done].
Qed.

(** *** Placements and cancellations *)

#[local] Instance place_order_base st ost users k mm token referrer clock params oracle :
  Frame (place_order st ost users k mm token referrer clock params oracle)
    (λ r, view (base_in j) r = view (base_in j) users).
Proof.
  intros r Hok. unfold place_order, place_order_for in Hok. cbv zeta in Hok.
  frame_steps; keep_users.
Qed.

#[local] Instance cancel_order_base st n u mm bm om clock oracle best :
  Frame (cancel_order st n u mm bm om clock oracle best) (λ r, base_in j r.1 = base_in j u).
Proof. intros r Hok. unfold cancel_order in Hok. cbv zeta in Hok. frame_steps; keep_base. Qed.

#[local] Instance cancel_first_order_base p st users k mm bm om clock oracle :
  Frame (cancel_first_order p st users k mm bm om clock oracle)
    (λ r, view (base_in j) r.1 = view (base_in j) users).
Proof. intros r Hok. unfold cancel_first_order in Hok. frame_steps; keep_users. Qed.

#[local] Instance settle_funding_payment_ix_base st users mm k :
  Frame (settle_funding_payment_ix st users mm k)
    (λ r, view (base_in j) r = view (base_in j) users).
Proof. intros r Hok. unfold settle_funding_payment_ix in Hok. frame_steps. keep_users. Qed.
End Exposure.
