(* ===== verification/System.v ===== *)
(** * The whole program as a step relation

    The accounts of the exchange and the instructions on them, each with the checks of its
    account context on who signs (all of context.rs is in Contexts and Transactions).  An
    instruction loads some of the banks and markets; the others stay as they are.  The theorems hold for whatever
    sequence of instructions, by whoever, with whatever oracle accounts and clocks. *)

From stdpp Require Import base numbers list gmap.
From S2P Require Import Prelude Constants Bn State Value AmmMath BankBalance Twap Oracle.
From S2P Require Import Maps PositionMath CurveMath Repeg AmmController OrdersMath Position.
From S2P Require Import Funding Fees Margin OrderValidation Orders Addresses Tokens BankHandlers.
From S2P Require Import BankLedger BankOrders Loading Trading Liquidation TradingProps Frames.
From S2P Require Import LiquidationProps BankTypes Admin.
Local Open Scope Z_scope.

(** ** Definitions *)

Module World.
Record World := mk {
  state : State;
  order_state : OrderState;
  users : UserMap;
  banks : BankMap;
  markets : MarketMap;
  ledger : Ledger;
}.
#[export] Instance World_eta : Eta World := λ r,
  mk r.(state) r.(order_state) r.(users) r.(banks) r.(markets) r.(ledger).
End World.
Abbreviation World := World.World.
Export (hints) World.

(** The instructions, as far as the theorems tell them apart. *)
Inductive Instruction :=
| InitializeUser | InitializeBank | InitializeMarket | InitializeOrderState
| Deposit_ | Withdraw | TransferDeposit | UpdateBankCumulativeInterest | SettlePNL
| OpenPosition | ClosePosition | PlaceOrder | CancelOrder | FillOrder | PlaceAndFillOrder
| Liquidate | SettleFundingPayment | UpdateFundingRate
| AdminMarket | AdminState | WithdrawFees | WithdrawFromInsuranceVault
| WithdrawFromInsuranceVaultToMarket | OtherPrograms.

#[export] Instance Instruction_eq_dec : EqDecision Instruction.
Proof. solve_decision. Defined.

(** [has_one = authority] on the account of a user. *)
Definition owned_by (users : UserMap) (key signer : Pubkey) : Prop :=
  ∃ u, users !! key = Some (Loaded u) ∧ has_one_authority u signer = true.

Section Steps.
Context `{BnLib} `{OracleAccounts} `{TokenProgram} `{ProgramAddresses} `{Roots}.

(** The instructions of the administrator on one market, apart from those that move
    tokens. *)
Inductive admin_market (st : State) (m m' : Market) : Prop :=
| admin_move_amm_price base quote :
    move_amm_price st m base quote = Ok m' →
    has_type U128 base → has_type U128 quote → admin_market st m m'
| admin_repeg_amm_curve oracle clock peg :
    repeg_amm_curve st m oracle clock peg = Ok m' → has_type U128 peg → admin_market st m m'
| admin_update_amm_oracle_twap oracle clock :
    update_amm_oracle_twap m oracle clock = Ok m' → Clock.typed clock → admin_market st m m'
| admin_reset_amm_oracle_twap oracle clock :
    reset_amm_oracle_twap st m oracle clock = Ok m' → Clock.typed clock → admin_market st m m'
| admin_update_k oracle sqrt_k :
    update_k_ix st m oracle sqrt_k = Ok m' → admin_market st m m'
| admin_update_margin_ratio initial partial maintenance :
    update_margin_ratio m initial partial maintenance = Ok m' →
    has_type U32 initial → has_type U32 partial → has_type U32 maintenance →
    admin_market st m m'
| admin_update_curve_update_intensity x :
    update_curve_update_intensity m x = Ok m' → has_type U8 x → admin_market st m m'
| admin_update_market_oracle oracle source :
    update_market_oracle m oracle source = Ok m' → admin_market st m m'
| admin_update_market_minimum_quote_asset_trade_size x :
    update_market_minimum_quote_asset_trade_size m x = Ok m' → has_type U128 x →
    admin_market st m m'
| admin_update_market_minimum_base_asset_trade_size x :
    update_market_minimum_base_asset_trade_size m x = Ok m' → has_type U128 x →
    admin_market st m m'
| admin_update_market_base_spread x :
    update_market_base_spread m x = Ok m' → has_type U16 x → admin_market st m m'.

(** The setters of the state. *)
Inductive admin_state (st : State) : State → Prop :=
| admin_partial_close n d :
    has_type U128 n → has_type U128 d →
    admin_state st (update_partial_liquidation_close_percentage st n d)
| admin_partial_penalty n d :
    has_type U128 n → has_type U128 d →
    admin_state st (update_partial_liquidation_penalty_percentage st n d)
| admin_full_penalty n d :
    has_type U128 n → has_type U128 d →
    admin_state st (update_full_liquidation_penalty_percentage st n d)
| admin_partial_share d :
    has_type U64 d →
    admin_state st (update_partial_liquidation_liquidator_share_denominator st d)
| admin_full_share d :
    has_type U64 d →
    admin_state st (update_full_liquidation_liquidator_share_denominator st d)
| admin_fee fees : FeeStructure.typed fees → admin_state st (update_fee st fees)
| admin_oracle_guard_rails rails :
    OracleGuardRails.typed rails → admin_state st (update_oracle_guard_rails st rails)
| admin_admin admin : admin_state st (update_admin st admin)
| admin_whitelist_mint mint : admin_state st (update_whitelist_mint st mint)
| admin_discount_mint mint : admin_state st (update_discount_mint st mint)
| admin_exchange_paused b : admin_state st (update_exchange_paused st b)
| admin_disable_admin_controls_prices : admin_state st (disable_admin_controls_prices st)
| admin_funding_paused b : admin_state st (update_funding_paused st b).

(** An account that an instruction is given, when the program owns it, is one of the
    program's. *)
Definition presented (w : World) (a : Remaining) : Prop :=
  a.(owned) = true →
  match a.(contents) with
  | BankData bank => w.(World.banks) !! bank.(Bank.bank_index) = Some (Loaded bank)
  | MarketData m => w.(World.markets) !! m.(Market.market_index) = Some (Loaded m)
  | _ => True
  end.

(** One instruction, whose arguments are values of their types as far as they are stored;
    the last rule is for the transactions of other programs, which can only change the
    ledger. *)
Inductive step (w : World) (signer : Pubkey) : Instruction → World → Prop :=
| step_initialize_user key id name users' :
    initialize_user w.(World.users) key signer id name = Ok users' →
    has_type U8 id →
    step w signer InitializeUser (w <| World.users := users' |>)
| step_initialize_bank p clock state' bank :
    has_one_admin w.(World.state) signer = true →
    initialize_bank w.(World.state) p clock = Ok (state', bank) →
    w.(World.banks) !! bank.(Bank.bank_index) = None →
    BankParams.typed p →
    step w signer InitializeBank
      (w <| World.state := state' |>
         <| World.banks := <[bank.(Bank.bank_index) := Loaded bank]> w.(World.banks) |>)
| step_initialize_market p clock state' m :
    has_one_admin w.(World.state) signer = true →
    initialize_market w.(World.state) p clock = Ok (state', m) →
    w.(World.markets) !! m.(Market.market_index) = None →
    MarketParams.typed p → Clock.typed clock →
    step w signer InitializeMarket
      (w <| World.state := state' |>
         <| World.markets := <[m.(Market.market_index) := Loaded m]> w.(World.markets) |>)
| step_initialize_order_state key state' order_state' :
    has_one_admin w.(World.state) signer = true →
    initialize_order_state w.(World.state) key = Ok (state', order_state') →
    step w signer InitializeOrderState
      (w <| World.state := state' |> <| World.order_state := order_state' |>)
| step_deposit bm mm key token vault clock i amount ro users' bm' ledger' :
    owned_by w.(World.users) key signer → bm ⊆ w.(World.banks) → mm ⊆ w.(World.markets) →
    deposit w.(World.users) bm mm w.(World.ledger) key token vault signer clock i amount ro
      = Ok (users', bm', ledger') →
    has_type U64 i →
    step w signer Deposit_
      (w <| World.users := users' |> <| World.banks := bm' ∪ w.(World.banks) |>
         <| World.ledger := ledger' |>)
| step_withdraw bm mm om key token vault auth clock i amount ro users' bm' om' ledger' :
    owned_by w.(World.users) key signer → bm ⊆ w.(World.banks) → mm ⊆ w.(World.markets) →
    withdraw w.(World.state) w.(World.users) bm mm om w.(World.ledger) key token vault auth
      clock i amount ro = Ok (users', bm', om', ledger') →
    has_type U64 i →
    step w signer Withdraw
      (w <| World.users := users' |> <| World.banks := bm' ∪ w.(World.banks) |>
         <| World.ledger := ledger' |>)
| step_transfer_deposit bm mm om from to clock i amount users' bm' om' :
    owned_by w.(World.users) from signer → owned_by w.(World.users) to signer →
    bm ⊆ w.(World.banks) → mm ⊆ w.(World.markets) →
    transfer_deposit w.(World.users) bm mm om from to clock i amount
      = Ok (users', bm', om') →
    has_type U64 i →
    step w signer TransferDeposit
      (w <| World.users := users' |> <| World.banks := bm' ∪ w.(World.banks) |>)
| step_update_bank_cumulative_interest i bank clock bank' :
    w.(World.banks) !! i = Some (Loaded bank) →
    update_bank_cumulative_interest_ix bank clock = Ok bank' →
    step w signer UpdateBankCumulativeInterest
      (w <| World.banks := <[i := Loaded bank']> w.(World.banks) |>)
| step_settle_pnl bm mm key i users' bm' mm' :
    bm ⊆ w.(World.banks) → mm ⊆ w.(World.markets) →
    settle_pnl w.(World.state) w.(World.users) bm mm key signer i
      = Ok (users', bm', mm') →
    step w signer SettlePNL
      (w <| World.users := users' |> <| World.banks := bm' ∪ w.(World.banks) |>
         <| World.markets := mm' ∪ w.(World.markets) |>)
| step_open_position bm mm om accounts key oracle clock d q i limit opt users' mm' om' :
    owned_by w.(World.users) key signer → bm ⊆ w.(World.banks) → mm ⊆ w.(World.markets) →
    open_position w.(World.state) w.(World.users) bm mm om accounts key signer oracle clock
      d q i limit opt = Ok (users', mm', om') →
    Clock.typed clock → has_type U64 i →
    step w signer OpenPosition
      (w <| World.users := users' |> <| World.markets := mm' ∪ w.(World.markets) |>)
| step_close_position mm accounts key oracle clock i opt users' mm' :
    owned_by w.(World.users) key signer → mm ⊆ w.(World.markets) →
    close_position w.(World.state) w.(World.users) mm accounts key signer oracle clock i opt
      = Ok (users', mm') →
    Clock.typed clock →
    step w signer ClosePosition
      (w <| World.users := users' |> <| World.markets := mm' ∪ w.(World.markets) |>)
| step_place_order accounts key oracle clock params opt users' :
    owned_by w.(World.users) key signer → Forall (presented w) accounts →
    place_order_ix w.(World.state) w.(World.order_state) w.(World.users) accounts key signer
      oracle clock params opt = Ok users' →
    Clock.typed clock → OrderParams.typed params →
    step w signer PlaceOrder (w <| World.users := users' |>)
| step_cancel_order accounts key oracle clock id users' :
    owned_by w.(World.users) key signer → Forall (presented w) accounts →
    cancel_order_ix w.(World.state) w.(World.users) accounts key oracle clock id
      = Ok users' →
    step w signer CancelOrder (w <| World.users := users' |>)
| step_cancel_order_by_user_id accounts key oracle clock id users' :
    owned_by w.(World.users) key signer → Forall (presented w) accounts →
    cancel_order_by_user_id w.(World.state) w.(World.users) accounts key oracle clock id
      = Ok users' →
    step w signer CancelOrder (w <| World.users := users' |>)
| step_fill_order accounts key filler oracle clock id users' mm' :
    owned_by w.(World.users) filler signer → Forall (presented w) accounts →
    fill_order_ix w.(World.state) w.(World.order_state) w.(World.users) accounts key filler
      oracle clock id = Ok (users', mm') →
    Clock.typed clock →
    step w signer FillOrder
      (w <| World.users := users' |> <| World.markets := mm' ∪ w.(World.markets) |>)
| step_place_and_fill_order accounts key oracle clock params opt users' mm' :
    owned_by w.(World.users) key signer → Forall (presented w) accounts →
    place_and_fill_order w.(World.state) w.(World.order_state) w.(World.users) accounts key
      signer oracle clock params opt = Ok (users', mm') →
    Clock.typed clock → OrderParams.typed params →
    step w signer PlaceAndFillOrder
      (w <| World.users := users' |> <| World.markets := mm' ∪ w.(World.markets) |>)
| step_liquidate bm mm om key liquidator vault auth clock users' bm' mm' ledger' :
    owned_by w.(World.users) liquidator signer →
    bm ⊆ w.(World.banks) → mm ⊆ w.(World.markets) →
    liquidate w.(World.state) w.(World.users) bm mm om w.(World.ledger) key liquidator vault
      w.(World.state).(State.insurance_vault) auth clock = Ok (users', bm', mm', ledger') →
    Clock.typed clock →
    step w signer Liquidate
      (w <| World.users := users' |> <| World.banks := bm' ∪ w.(World.banks) |>
         <| World.markets := mm' ∪ w.(World.markets) |> <| World.ledger := ledger' |>)
| step_settle_funding_payment mm key users' :
    mm ⊆ w.(World.markets) →
    settle_funding_payment_ix w.(World.state) w.(World.users) mm key = Ok users' →
    step w signer SettleFundingPayment (w <| World.users := users' |>)
| step_update_funding_rate i m oracle clock m' :
    w.(World.markets) !! i = Some (Loaded m) →
    update_funding_rate_ix w.(World.state) m oracle clock = Ok m' →
    Clock.typed clock →
    step w signer UpdateFundingRate
      (w <| World.markets := <[i := Loaded m']> w.(World.markets) |>)
| step_admin_market i m m' :
    has_one_admin w.(World.state) signer = true →
    w.(World.markets) !! i = Some (Loaded m) → admin_market w.(World.state) m m' →
    step w signer AdminMarket
      (w <| World.markets := <[i := Loaded m']> w.(World.markets) |>)
| step_admin_state state' :
    has_one_admin w.(World.state) signer = true → admin_state w.(World.state) state' →
    step w signer AdminState (w <| World.state := state' |>)
| step_update_order_filler_reward_structure rewards :
    has_one_admin w.(World.state) signer = true →
    OrderFillerRewardStructure.typed rewards →
    step w signer AdminState
      (w <| World.order_state :=
              update_order_filler_reward_structure w.(World.order_state) rewards |>)
| step_withdraw_fees i m bank vault recipient auth amount m' ledger' :
    has_one_admin w.(World.state) signer = true →
    w.(World.markets) !! i = Some (Loaded m) → w.(World.banks) !! 0 = Some (Loaded bank) →
    withdraw_fees m bank w.(World.ledger) vault recipient auth amount = Ok (m', ledger') →
    step w signer WithdrawFees
      (w <| World.markets := <[i := Loaded m']> w.(World.markets) |>
         <| World.ledger := ledger' |>)
| step_withdraw_from_insurance_vault recipient amount ledger' :
    has_one_admin w.(World.state) signer = true →
    withdraw_from_insurance_vault w.(World.state) w.(World.ledger)
      w.(World.state).(State.insurance_vault) recipient
      w.(World.state).(State.insurance_vault_authority) amount = Ok ledger' →
    step w signer WithdrawFromInsuranceVault (w <| World.ledger := ledger' |>)
| step_withdraw_from_insurance_vault_to_market i m vault amount m' ledger' :
    has_one_admin w.(World.state) signer = true →
    w.(World.markets) !! i = Some (Loaded m) →
    withdraw_from_insurance_vault_to_market w.(World.state) m w.(World.ledger)
      w.(World.state).(State.insurance_vault) vault
      w.(World.state).(State.insurance_vault_authority) amount = Ok (m', ledger') →
    step w signer WithdrawFromInsuranceVaultToMarket
      (w <| World.markets := <[i := Loaded m']> w.(World.markets) |>
         <| World.ledger := ledger' |>)
| step_other_programs ledger' :
    step w signer OtherPrograms (w <| World.ledger := ledger' |>).

(** The exchange as [initialize] leaves it. *)
Definition new_world (st : State) (ost : OrderState) (ledger : Ledger) : World :=
  World.mk st ost ∅ ∅ ∅ ledger.

(** Any instruction by anyone, and any but the settlement of profit and loss. *)
Definition any_step (w w' : World) : Prop := ∃ signer i, step w signer i w'.
Definition any_step_but_settle_pnl (w w' : World) : Prop :=
  ∃ signer i, i ≠ SettlePNL ∧ step w signer i w'.
End Steps.

(** ** Loading *)

Section Loading.
Context `{OracleAccounts}.

Lemma load_oracles_rest w accounts os os' rest :
  Forall (presented w) accounts → load_oracles accounts os = (os', rest) →
  Forall (presented w) rest.
Proof.
  intros Hall. revert os. induction Hall as [|a accounts Ha Hall IH]; intros os Hok; cbn in Hok.
  - injection Hok as <- <-. constructor.
  - destruct (contents a); try (injection Hok as <- <-; by constructor). eauto.
Qed.

Lemma load_oracle_map_rest w accounts slot om rest :
  Forall (presented w) accounts → load_oracle_map accounts slot = (om, rest) →
  Forall (presented w) rest.
Proof.
  intros Hall Hok. unfold load_oracle_map in Hok.
  destruct (load_oracles accounts ∅) as [os r] eqn:Hl. injection Hok as <- <-.
  by eapply load_oracles_rest.
Qed.

(** What is loaded is among the accounts of the program. *)
Lemma load_banks_sub w wb accounts bm bm' rest :
  Forall (presented w) accounts → bm ⊆ w.(World.banks) →
  load_banks wb accounts bm = Ok (bm', rest) →
  bm' ⊆ w.(World.banks) ∧ Forall (presented w) rest.
Proof.
  intros Hall. revert bm. induction Hall as [|a accounts Ha Hall IH]; intros bm Hbm Hok;
    cbn in Hok; [apply Ok_inj in Hok; injection Hok as <- <-; by split; [|constructor]|].
  unfold presented in Ha. destruct (contents a) as [|bank|m| | | |] eqn:Hc;
    try (apply Ok_inj in Hok; injection Hok as <- <-; split; [done|]; constructor; [|done];
         unfold presented; by rewrite Hc); [|done].
  destruct (owned a) eqn:Howned; cbn [negb] in Hok; [|done]. destruct (_ && _); [done|].
  apply IH in Hok; [done|]. apply insert_subseteq_l; [by apply Ha|done].
Qed.

Lemma load_markets_sub w wm oracles accounts mm mm' rest :
  Forall (presented w) accounts → mm ⊆ w.(World.markets) →
  load_markets wm oracles accounts mm = Ok (mm', rest) →
  mm' ⊆ w.(World.markets) ∧ Forall (presented w) rest.
Proof.
  intros Hall. revert mm. induction Hall as [|a accounts Ha Hall IH]; intros mm Hmm Hok;
    cbn in Hok; [apply Ok_inj in Hok; injection Hok as <- <-; by split; [|constructor]|].
  unfold presented in Ha. destruct (contents a) as [|bank|m| | | |] eqn:Hc;
    try (apply Ok_inj in Hok; injection Hok as <- <-; split; [done|]; constructor; [|done];
         unfold presented; by rewrite Hc); [|done].
  destruct (owned a) eqn:Howned; cbn [negb] in Hok; [|done]. destruct (_ && _); [done|].
  destruct (negb _); [done|]. destruct (match oracles !! _ with Some _ => _ | None => _ end);
    [done|].
  apply IH in Hok; [done|]. apply insert_subseteq_l; [by apply Ha|done].
Qed.

Lemma load_bank_map_sub w wb accounts bm rest :
  Forall (presented w) accounts → load_bank_map wb accounts = Ok (bm, rest) →
  bm ⊆ w.(World.banks) ∧ Forall (presented w) rest.
Proof. intros Hall. apply load_banks_sub; [done|apply map_empty_subseteq]. Qed.

Lemma load_market_map_sub w wm oracles accounts mm rest :
  Forall (presented w) accounts → load_market_map wm oracles accounts = Ok (mm, rest) →
  mm ⊆ w.(World.markets) ∧ Forall (presented w) rest.
Proof. intros Hall. apply load_markets_sub; [done|apply map_empty_subseteq]. Qed.

(** The markets that an instruction on orders loads, after its oracles and its banks. *)
Lemma loaded_markets w accounts slot om acc wb bm acc1 wm oracles mm acc2 :
  load_oracle_map accounts slot = (om, acc) → load_bank_map wb acc = Ok (bm, acc1) →
  load_market_map wm oracles acc1 = Ok (mm, acc2) → Forall (presented w) accounts →
  mm ⊆ w.(World.markets).
Proof.
  intros Hom Hbm Hmm Hall. apply (load_oracle_map_rest w) in Hom; [|done].
  apply (load_bank_map_sub w) in Hbm as [_ Hacc]; [|done].
  by apply (load_market_map_sub w) in Hmm as [Hmm _].
Qed.
End Loading.

(** Markets that are put back show what they showed. *)
Lemma view_loaded {A B} (f : A → B) (m m' base : gmap Z (loader A)) :
  view f m' = view f m → m ⊆ base → view f (m' ∪ base) = view f base.
Proof. intros Hv Hm. by rewrite view_union, Hv, <-view_union, map_subseteq_union. Qed.

(** ** The orders of an instruction *)

Section Instructions.
Context `{BnLib} `{OracleAccounts} `{TokenProgram} `{ProgramAddresses} `{Roots}.

Lemma place_order_ix_inv st ost users accounts key auth oracle clock params opt users' :
  place_order_ix st ost users accounts key auth oracle clock params opt = Ok users' →
  ∃ mm token referrer,
    (∀ w, Forall (presented w) accounts → mm ⊆ w.(World.markets))
    ∧ place_order st ost users key mm token referrer clock params (Some oracle) = Ok users'.
Proof.
  intros Hok. unfold place_order_ix in Hok.
  destruct (load_oracle_map _ _) as [om acc] eqn:Hom.
  apply bind_ok in Hok as ([bm acc1] & Hbm & Hok).
  apply bind_ok in Hok as ([mm acc2] & Hmm & Hok).
  apply bind_ok in Hok as ([token acc3] & _ & Hok).
  apply bind_ok in Hok as ([referrer acc4] & _ & Hok).
  destruct (bool_decide _); [done|]. destruct (OrderParams.immediate_or_cancel params); [done|].
  eexists mm, _, _. split; [|exact Hok]. intros w Hall. by eapply loaded_markets.
Qed.

Lemma place_order_ix_ok st ost users accounts key auth oracle clock params opt users' :
  place_order_ix st ost users accounts key auth oracle clock params opt = Ok users' →
  order_step users users' ∧ view user_terms users' = view user_terms users.
Proof.
  intros (mm & token & referrer & _ & Hok)%place_order_ix_inv.
  split; [by eapply step_place|exact (frame _ Hok)].
Qed.

Lemma cancel_with_inv find cancel users accounts key oracle clock users' :
  cancel_with find cancel users accounts key oracle clock = Ok users' →
  ∃ mm bm om om', (∀ w, Forall (presented w) accounts → mm ⊆ w.(World.markets))
    ∧ cancel mm bm om = Ok (users', om').
Proof.
  intros Hok. unfold cancel_with in Hok. apply bind_ok in Hok as (i & _ & Hok).
  destruct (load_oracle_map _ _) as [om acc] eqn:Hom.
  apply bind_ok in Hok as ([bm acc1] & Hbm & Hok). apply bind_ok in Hok as ([mm acc2] & Hmm & Hok).
  apply bind_ok in Hok as ([us om'] & Hc & Hok). apply Ok_inj in Hok as <-.
  exists mm, bm, om, om'. split; [|exact Hc]. intros w Hall. by eapply loaded_markets.
Qed.

Lemma cancel_order_ix_ok st users accounts key oracle clock id users' :
  cancel_order_ix st users accounts key oracle clock id = Ok users' →
  order_step users users' ∧ view user_terms users' = view user_terms users.
Proof.
  intros (mm & bm & om & om' & _ & Hok)%cancel_with_inv.
  split; [by eapply step_cancel_by_order_id|].
  unfold cancel_order_by_order_id in Hok. exact (frame _ Hok).
Qed.

Lemma cancel_order_by_user_id_ok st users accounts key oracle clock id users' :
  cancel_order_by_user_id st users accounts key oracle clock id = Ok users' →
  order_step users users' ∧ view user_terms users' = view user_terms users.
Proof.
  intros (mm & bm & om & om' & _ & Hok)%cancel_with_inv.
  split; [by eapply step_cancel_by_user_order_id|].
  unfold cancel_order_by_user_order_id in Hok. exact (frame _ Hok).
Qed.

(** The markets of an instruction after it has run, with the others, show what they
    showed before. *)
Definition keeps_terms (users users' : UserMap) (markets mm' : MarketMap) : Prop :=
  view user_terms users' = view user_terms users
  ∧ view market_terms (mm' ∪ markets) = view market_terms markets.

Lemma fill_order_ix_inv w st ost users accounts key filler oracle clock id users' mm' :
  Forall (presented w) accounts →
  fill_order_ix st ost users accounts key filler oracle clock id = Ok (users', mm') →
  ∃ mm bm om om' referrer x, mm ⊆ w.(World.markets)
    ∧ fill_order id st ost users key mm bm om oracle filler referrer clock
      = Ok (users', mm', om', x).
Proof.
  intros Hall Hok. unfold fill_order_ix in Hok. apply bind_ok in Hok as ([] & _ & Hok).
  apply bind_ok in Hok as (i & _ & Hok).
  destruct (load_oracle_map _ _) as [om acc] eqn:Hom.
  apply bind_ok in Hok as ([bm acc1] & Hbm & Hok).
  apply bind_ok in Hok as ([mm acc2] & Hmm & Hok).
  assert (mm ⊆ w.(World.markets)) by (by eapply loaded_markets). clear Hmm.
  apply bind_ok in Hok as (referrer & _ & Hok).
  apply bind_ok in Hok as ([[[us mm1] om1] x] & Hf & Hok). destruct (x =? 0); [done|].
  apply Ok_inj in Hok; injection Hok as <- <-. by eexists mm, bm, om, om1, referrer, x.
Qed.

Lemma fill_order_ix_ok w st ost users accounts key filler oracle clock id users' mm' :
  Forall (presented w) accounts →
  fill_order_ix st ost users accounts key filler oracle clock id = Ok (users', mm') →
  order_step users users' ∧ keeps_terms users users' w.(World.markets) mm'.
Proof.
  intros Hall (mm & bm & om & om' & referrer & x & Hmm & Hf)%(fill_order_ix_inv w); [|done].
  pose proof (frame (r := fill_order _ _ _ _ _ _ _ _ _ _ _ _) _ Hf) as [Hus Hms].
  split; [by eapply step_fill|]. split; [done|]. by eapply view_loaded.
Qed.

(** A placement, a fill of that order and, perhaps, its cancellation. *)
Lemma place_and_fill_order_inv w st ost users accounts key auth oracle clock params opt users'
    mm' :
  Forall (presented w) accounts →
  place_and_fill_order st ost users accounts key auth oracle clock params opt
    = Ok (users', mm') →
  ∃ mm bm om om' token referrer id x users1 users2, mm ⊆ w.(World.markets)
    ∧ place_order st ost users key mm token referrer clock params (Some oracle) = Ok users1
    ∧ fill_order id st ost users1 key mm bm om oracle key referrer clock
      = Ok (users2, mm', om', x)
    ∧ (users' = users2
       ∨ ∃ om3, cancel_order_by_order_id st id users2 key mm' bm om' clock (Some oracle)
                = Ok (users', om3)).
Proof.
  intros Hall Hok. unfold place_and_fill_order in Hok. cbv zeta in Hok.
  apply bind_ok in Hok as ([] & _ & Hok).
  destruct (load_oracle_map _ _) as [om acc] eqn:Hom.
  apply bind_ok in Hok as ([bm acc1] & Hbm & Hok).
  apply bind_ok in Hok as ([mm acc2] & Hmm & Hok).
  assert (mm ⊆ w.(World.markets)) by (by eapply loaded_markets). clear Hmm.
  apply bind_ok in Hok as ([token acc3] & _ & Hok).
  apply bind_ok in Hok as ([referrer acc4] & _ & Hok).
  apply bind_ok in Hok as (us1 & Hp & Hok). apply bind_ok in Hok as (id & _ & Hok).
  apply bind_ok in Hok as ([[[us2 mm2] om2] x] & Hf & Hok).
  destruct (_ && _).
  - apply bind_ok in Hok as ([us3 om3] & Hc & Hok). apply Ok_inj in Hok; injection Hok as <- <-.
    eexists mm, bm, om, om2, _, referrer, id, x, us1, us2. split_and!; try done. right. by exists om3.
  - apply Ok_inj in Hok; injection Hok as <- <-.
    eexists mm, bm, om, om2, _, referrer, id, x, us1, us2. split_and!; try done. by left.
Qed.

Lemma place_and_fill_order_ok w st ost users accounts key auth oracle clock params opt users'
    mm' :
  Forall (presented w) accounts →
  place_and_fill_order st ost users accounts key auth oracle clock params opt
    = Ok (users', mm') →
  rtc order_step users users' ∧ keeps_terms users users' w.(World.markets) mm'.
Proof.
  intros Hall (mm & bm & om & om' & token & referrer & id & x & us1 & us2 & Hmm & Hp & Hf &
    Hend)%(place_and_fill_order_inv w); [|done].
  pose proof (frame (r := place_order _ _ _ _ _ _ _ _ _ _) _ Hp) as Hus1.
  pose proof (frame (r := fill_order _ _ _ _ _ _ _ _ _ _ _ _) _ Hf) as [Hus2 Hms2].
  cbn [fst snd] in *. pose proof (view_loaded _ _ _ _ Hms2 Hmm) as Hms.
  assert (rtc order_step users us2) as Hsteps
    by (eapply rtc_l; [by eapply step_place|]; eapply rtc_once; by eapply step_fill).
  destruct Hend as [->|[om3 Hc]]; [split; [done|]; split; [congruence|done]|].
  split; [eapply rtc_r; [exact Hsteps|]; by eapply step_cancel_by_order_id|].
  split; [|done]. unfold cancel_order_by_order_id in Hc. pose proof (frame _ Hc) as Hus3.
  cbn [fst] in Hus3. congruence.
Qed.
End Instructions.

(** ** The ledger of the world *)

Section Administration.
Context `{BnLib} `{OracleAccounts} `{TokenProgram} `{ProgramAddresses}.

#[export] Instance settle_funding_payment_ix_terms st users mm k :
  Frame (settle_funding_payment_ix st users mm k)
    (λ r, view user_terms r = view user_terms users).
Proof. intros r Hok. unfold settle_funding_payment_ix in Hok. frame_steps. keep_view. Qed.

#[export] Instance update_funding_rate_ix_terms st m oracle clock :
  Frame (update_funding_rate_ix st m oracle clock) (λ r, market_idle r = market_idle m).
Proof. intros r Hok. unfold update_funding_rate_ix in Hok. by frame_steps. Qed.

#[export] Instance apply_k_cost_terms m c :
  Frame (apply_k_cost m c) (λ r, market_idle r = market_idle m).
Proof. intros r Hok. unfold apply_k_cost in Hok. cbv zeta in Hok. by frame_steps. Qed.

#[export] Instance update_k_ix_terms st m oracle k :
  Frame (update_k_ix st m oracle k) (λ r, market_idle r = market_idle m).
Proof.
  intros r Hok. unfold update_k_ix in Hok.
  frame_steps; match goal with E : update_k _ _ = _ |- _ => apply update_k_terms in E end;
    unfold next_curve_record; keep_terms.
Qed.

(** The administrator moves no profit pool and no positions. *)
Lemma admin_market_keeps st m m' :
  admin_market st m m' →
  m'.(Market.pnl_pool) = m.(Market.pnl_pool) ∧ market_base m' = market_base m.
Proof.
  assert (∀ m1, market_idle m1 = market_idle m →
    m1.(Market.pnl_pool) = m.(Market.pnl_pool) ∧ market_base m1 = market_base m) as Hidle
    by (intros m1 Hm1; split; [by apply terms_pool, idle_terms|by apply idle_base]).
  intros [base quote Hok|oracle clock peg Hok|oracle clock Hok|oracle clock Hok|oracle k Hok|
    x y z Hok|x Hok|oracle source Hok|x Hok|x Hok|x Hok].
  - unfold move_amm_price in Hok. frame_steps. split; [done|]. keep_terms.
  - unfold repeg_amm_curve in Hok. frame_steps. unfold next_curve_record. by apply Hidle.
  - unfold update_amm_oracle_twap in Hok. cbv zeta in Hok. by frame_steps.
  - unfold reset_amm_oracle_twap in Hok. by frame_steps.
  - apply Hidle. exact (frame _ Hok).
  - unfold update_margin_ratio in Hok. by frame_steps.
  - unfold update_curve_update_intensity, set_amm in Hok. by frame_steps.
  - unfold update_market_oracle, set_amm in Hok. by frame_steps.
  - unfold update_market_minimum_quote_asset_trade_size, set_amm in Hok. by frame_steps.
  - unfold update_market_minimum_base_asset_trade_size, set_amm in Hok. by frame_steps.
  - unfold update_market_base_spread, set_amm in Hok. by frame_steps.
Qed.

Lemma withdraw_fees_pool m bank l vault recipient auth x m' l' :
  withdraw_fees m bank l vault recipient auth x = Ok (m', l') →
  m'.(Market.pnl_pool) = m.(Market.pnl_pool).
Proof. intros Hok. unfold withdraw_fees in Hok. cbv zeta in Hok. by frame_steps. Qed.

Lemma withdraw_to_market_pool st m l vault to auth x m' l' :
  withdraw_from_insurance_vault_to_market st m l vault to auth x = Ok (m', l') →
  m'.(Market.pnl_pool) = m.(Market.pnl_pool).
Proof.
  intros Hok. unfold withdraw_from_insurance_vault_to_market in Hok. by frame_steps.
Qed.

(** A market starts with an empty pool. *)
Lemma initialize_market_ledger {d} st p clock st' m users banks markets :
  initialize_market st p clock = Ok (st', m) → ledger_ok d users banks markets →
  markets !! m.(Market.market_index) = None →
  ledger_ok d users banks (<[m.(Market.market_index) := Loaded m]> markets).
Proof.
  intros Hok [Hus Hbs Hps Htot Hno] Hnew.
  assert (m.(Market.pnl_pool) = PNLPool.mk 0) as Hpool.
  { unfold initialize_market in Hok. destruct (negb _); [done|]. cbv zeta in Hok.
    by frame_steps. }
  assert (∀ i t, accounted users (<[m.(Market.market_index) := Loaded m]> markets) i t
    = accounted users markets i t) as Ha.
  { intros i t. unfold accounted. rewrite (cell_sum_new _ _ _ _ Hnew). cbn [cell_value].
    unfold pool_part. rewrite Hpool. unfold balance_part. simpl. repeat case_match; lia. }
  split; try setoid_rewrite Ha; try done.
  intros i m1 Hi. apply lookup_insert_Some in Hi as [[_ [= <-]]|[_ Hi]]; [|eauto].
  by rewrite Hpool.
Qed.
End Administration.

(** What holds of every world: the banks' totals are the sums of the balances, up to an
    excess in the deposits of the quote asset, and the positions of every user are in
    step with its orders. *)
Record world_ok (excess : Z) (w : World) : Prop := {
  world_ledger : ledger_ok excess w.(World.users) w.(World.banks) w.(World.markets);
  world_orders : users_wf w.(World.users);
}.

(** The cases of a step: [Hok] is the run of the handler, [Hauth] the check of the
    signer. *)
Ltac step_destruct H :=
  destruct H as [key id name users' Hok|p clock st' bank Hauth Hok Hnew|
    p clock st' m Hauth Hok Hnew|key st' ost' Hauth Hok|bm mm key token vault clock i amount ro
    users' bm' l' Hauth Hbm Hmm Hok|bm mm om key token vault auth clock i amount ro users' bm'
    om' l' Hauth Hbm Hmm Hok|bm mm om from to clock i amount users' bm' om' Hauth Hauth' Hbm Hmm
    Hok|i bank clock bank' Hi Hok|bm mm key i users' bm' mm' Hbm Hmm Hok|bm mm om accounts key
    oracle clock dir q i limit opt users' mm' om' Hauth Hbm Hmm Hok|mm accounts key oracle clock
    i opt users' mm' Hauth Hmm Hok|accounts key oracle clock params opt users' Hauth Hall Hok|
    accounts key oracle clock id users' Hauth Hall Hok|accounts key oracle clock id users' Hauth
    Hall Hok|accounts key filler oracle clock id users' mm' Hauth Hall Hok|accounts key oracle
    clock params opt users' mm' Hauth Hall Hok|bm mm om key liquidator vault auth clock users'
    bm' mm' l' Hauth Hbm Hmm Hok|mm key users' Hmm Hok|i m oracle clock m' Hi Hok|
    i m m' Hauth Hi Hadmin|st' Hauth Hok|rewards Hauth|i m bank vault recipient auth x m' l'
    Hauth Hi Hb Hok|recipient x l' Hauth Hok|i m vault x m' l' Hauth Hi Hok|l'].
Ltac step_cases H := step_destruct H; cbn in *.

Section System.
Context `{BnLib} `{OracleAccounts} `{TokenProgram} `{ProgramAddresses} `{Roots}.

(** What keeps the terms of users and markets keeps the ledger. *)
Lemma ledger_terms {d} users users' banks markets markets' :
  view user_terms users' = view user_terms users →
  view market_terms markets' = view market_terms markets →
  ledger_ok d users banks markets → ledger_ok d users' banks markets'.
Proof. intros Hu Hm. apply ledger_view; [by apply terms_users|by apply terms_pools]. Qed.

Lemma ledger_market {d} users banks markets i m m' :
  markets !! i = Some (Loaded m) → m'.(Market.pnl_pool) = m.(Market.pnl_pool) →
  ledger_ok d users banks markets → ledger_ok d users banks (<[i:=Loaded m']> markets).
Proof. intros Hi Hp. apply ledger_view; [done|by eapply view_put]. Qed.

Lemma ledger_balanced {d} users users' bm bm' banks mm mm' markets :
  rtc balanced (users, bm, mm) (users', bm', mm') → bm ⊆ banks → mm ⊆ markets →
  ledger_ok d users banks markets → ledger_ok d users' (bm' ∪ banks) (mm' ∪ markets).
Proof.
  intros Hsteps Hb Hm Hl. pose proof (balanced_loaded _ _ _ _ _ _ _ _ Hsteps Hb Hm) as Hs.
  exact (balanced_moves_ok d _ _ Hs Hl).
Qed.

(** Instructions that leave the markets they have loaded as they are. *)
Lemma ledger_balanced_banks {d} users users' bm bm' banks mm markets :
  rtc balanced (users, bm, mm) (users', bm', mm) → bm ⊆ banks → mm ⊆ markets →
  ledger_ok d users banks markets → ledger_ok d users' (bm' ∪ banks) markets.
Proof.
  intros Hsteps Hb Hm Hl. rewrite <-(map_subseteq_union mm markets) by done.
  by eapply ledger_balanced.
Qed.

(** Every instruction keeps the ledger; the settlement of profit and loss may increase
    the excess. *)
Lemma step_ledger d w signer i w' :
  step w signer i w' → ledger_ok d w.(World.users) w.(World.banks) w.(World.markets) →
  ∃ d', d ≤ d' ∧ (i ≠ SettlePNL → d' = d)
    ∧ ledger_ok d' w'.(World.users) w'.(World.banks) w'.(World.markets).
Proof.
  intros Hstep Hl.
  assert (∀ d', d' = d → ledger_ok d' w'.(World.users) w'.(World.banks) w'.(World.markets) →
    ∃ d', d ≤ d' ∧ (i ≠ SettlePNL → d' = d)
      ∧ ledger_ok d' w'.(World.users) w'.(World.banks) w'.(World.markets)) as Hsame
    by (intros ? -> ?; by exists d).
  step_cases Hstep; try (by apply (Hsame d)).
  - apply (Hsame d); [done|]. by eapply initialize_user_ledger.
  - apply (Hsame d); [done|]. by eapply initialize_bank_ledger.
  - apply (Hsame d); [done|]. by eapply initialize_market_ledger.
  - apply (Hsame d); [done|]. eapply ledger_balanced_banks; [|done..].
    by eapply rtc_once, deposit_balanced.
  - apply (Hsame d); [done|]. eapply ledger_balanced_banks; [|done..].
    by eapply rtc_once, withdraw_balanced.
  - apply (Hsame d); [done|]. eapply ledger_balanced_banks; [|done..].
    by eapply transfer_deposit_balanced.
  - apply (Hsame d); [done|]. by eapply interest_ledger.
  - destruct (settle_pnl_ledger (d := d) _ _ _ _ _ _ _ _ _ _ _ _ Hbm Hmm Hok Hl)
      as (g & Hg & Hl' & _). exists (d + 2 * g). by split_and!; [lia|..].
  - apply (Hsame d); [done|]. pose proof (frame _ Hok) as [Hu Hm].
    eapply ledger_terms; [done| |done]. by eapply view_loaded.
  - apply (Hsame d); [done|]. pose proof (frame _ Hok) as [Hu Hm].
    eapply ledger_terms; [done| |done]. by eapply view_loaded.
  - apply (Hsame d); [done|]. apply place_order_ix_ok in Hok as [_ Hu].
    by eapply ledger_terms.
  - apply (Hsame d); [done|]. apply cancel_order_ix_ok in Hok as [_ Hu].
    by eapply ledger_terms.
  - apply (Hsame d); [done|]. apply cancel_order_by_user_id_ok in Hok as [_ Hu].
    by eapply ledger_terms.
  - apply (Hsame d); [done|]. apply (fill_order_ix_ok w) in Hok as [_ []]; [|done].
    by eapply ledger_terms.
  - apply (Hsame d); [done|]. apply (place_and_fill_order_ok w) in Hok as [_ []]; [|done].
    by eapply ledger_terms.
  - apply (Hsame d); [done|]. eapply ledger_balanced; [|done..].
    by eapply liquidate_balanced.
  - apply (Hsame d); [done|]. eapply ledger_terms; [exact (frame _ Hok)|done|done].
  - apply (Hsame d); [done|]. eapply ledger_market; [done| |done].
    apply terms_pool, idle_terms. exact (frame _ Hok).
  - apply (Hsame d); [done|]. eapply ledger_market; [done| |done].
    by eapply admin_market_keeps.
  - apply (Hsame d); [done|]. eapply ledger_market; [done| |done].
    by eapply withdraw_fees_pool.
  - apply (Hsame d); [done|]. eapply ledger_market; [done| |done].
    by eapply withdraw_to_market_pool.
Qed.

Lemma step_orders w signer i w' :
  step w signer i w' → users_wf w.(World.users) → users_wf w'.(World.users).
Proof.
  intros Hstep Hwf. step_cases Hstep; try done.
  - by eapply initialize_user_wf.
  - by eapply deposit_wf.
  - by eapply withdraw_wf.
  - by eapply transfer_deposit_wf.
  - by eapply settle_pnl_wf.
  - by eapply open_position_wf.
  - by eapply close_position_wf.
  - apply place_order_ix_ok in Hok as [Hs _]. by eapply order_step_wf.
  - apply cancel_order_ix_ok in Hok as [Hs _]. by eapply order_step_wf.
  - apply cancel_order_by_user_id_ok in Hok as [Hs _]. by eapply order_step_wf.
  - apply (fill_order_ix_ok w) in Hok as [Hs _]; [|done]. by eapply order_step_wf.
  - apply (place_and_fill_order_ok w) in Hok as [Hs _]; [|done].
    clear -Hs Hwf. induction Hs; eauto using order_step_wf.
  - by eapply liquidate_wf.
  - unfold settle_funding_payment_ix in Hok. apply bind_ok in Hok as ([] & _ & Hok).
    apply bind_ok in Hok as ([u us] & Hu & Hok). apply load_cell_mut_ok in Hu as [Hu ->].
    apply bind_ok in Hok as (u1 & Hf & Hok). apply Ok_inj in Hok as <-.
    apply users_wf_insert; [by apply users_wf_borrow|].
    apply settle_funding_wf in Hf as (_ & _ & Hf). apply Hf. by eapply Hwf.
Qed.

(** One instruction. *)
Lemma step_ok d w signer i w' :
  step w signer i w' → world_ok d w →
  ∃ d', d ≤ d' ∧ (i ≠ SettlePNL → d' = d) ∧ world_ok d' w'.
Proof.
  intros Hstep [Hl Hwf]. destruct (step_ledger _ _ _ _ _ Hstep Hl) as (d' & ? & ? & Hl').
  exists d'. split_and!; [done|done|]. split; [done|by eapply step_orders].
Qed.

(** The exchange starts without users, banks and markets. *)
Lemma new_world_ok st ost ledger : world_ok 0 (new_world st ost ledger).
Proof.
  assert (∀ A i (c : loader A), (∅ : gmap Z (loader A)) !! i = Some c → False) as Hnone
    by (intros A i c Hi; by rewrite lookup_empty in Hi).
  split; [split|]; cbn -[accounted]; try (by intros ? ? ?%Hnone);
    [by intros ? ? ? ?%Hnone|].
  intros i t _. unfold beyond, accounted. cbn. by destruct (_ && _).
Qed.

(** C1. Whatever instructions are run, by whoever and with whatever oracles, from the
    creation of the exchange on: the positions of every user count its open orders, with
    one position for a market; no balance is negative; and the totals of every bank
    are the sums of the balances of all users and profit pools, apart from an excess in
    the deposits of the quote asset that the users and pools have together beyond what
    the bank knows of. *)
Theorem system_invariant st ost ledger w :
  rtc any_step (new_world st ost ledger) w → ∃ excess, 0 ≤ excess ∧ world_ok excess w.
Proof.
  revert w. apply rtc_ind_r; [exists 0; split; [done|apply new_world_ok]|].
  intros w1 w2 _ (signer & i & Hstep) (d & Hd & Hw).
  destruct (step_ok _ _ _ _ _ Hstep Hw) as (d' & ? & _ & Hw'). exists d'. split; [lia|done].
Qed.

(** C2. Without settlements of profit and loss the books are exact: what the accounts
    have is what the banks know of. *)
Theorem system_books_exact st ost ledger w i bank t :
  rtc any_step_but_settle_pnl (new_world st ost ledger) w →
  w.(World.banks) !! i = Some (Loaded bank) →
  accounted w.(World.users) w.(World.markets) i t = bank_total bank t.
Proof.
  intros Hsteps Hi. assert (world_ok 0 w) as [Hl _].
  { clear Hi. revert w Hsteps. apply rtc_ind_r; [apply new_world_ok|].
    intros w1 w2 _ (signer & j & Hj & Hstep) Hw.
    destruct (step_ok _ _ _ _ _ Hstep Hw) as (d' & _ & Heq & Hw'). by rewrite Heq in Hw'. }
  rewrite (ledger_totals _ _ _ Hl _ _ t Hi). unfold beyond. destruct (_ && _); lia.
Qed.

(** ** Who changes what *)

(** Of a market, what identifies it and what only the administrator sets. *)
Definition market_params (m : Market) :=
  (m.(Market.market_index), m.(Market.pubkey), m.(Market.initialized),
   m.(Market.margin_ratio_initial), m.(Market.margin_ratio_partial),
   m.(Market.margin_ratio_maintenance), amm_terms m.(Market.amm)).

Lemma terms_params mm mm' :
  view market_terms mm' = view market_terms mm →
  view market_params mm' = view market_params mm.
Proof.
  apply (view_part (λ t, (t.1.1.1.1.1.1.1, t.1.1.1.1.1.1.2, t.1.1.1.1.1.2, t.1.1.1.1.2,
                          t.1.1.1.2, t.1.1.2, t.2)) market_terms).
Qed.

Lemma settle_pnl_params st users bm mm key auth i users' bm' mm' :
  settle_pnl st users bm mm key auth i = Ok (users', bm', mm') →
  view market_params mm' = view market_params mm.
Proof.
  intros Hok. apply settle_pnl_inv in Hok
    as (u & k & p & bank & m & u' & bank' & m' & _ & _ & Hm & _ & _ & _ & _ & -> & Hcase).
  eapply view_put; [exact Hm|]. cbv zeta in Hcase.
  destruct (_ =? 0); [by destruct Hcase as (_ & -> & _)|]. destruct (0 <? _).
  - unfold settle_profit in Hcase. by frame_steps.
  - unfold settle_loss in Hcase. by frame_steps.
Qed.

Lemma liquidate_markets_terms st users bm mm om ledger key liquidator vault insurance auth
    clock users' bm' mm' ledger' :
  liquidate st users bm mm om ledger key liquidator vault insurance auth clock
    = Ok (users', bm', mm', ledger') →
  view market_terms mm' = view market_terms mm.
Proof.
  intros Hok. apply liquidate_inv in Hok as (u & u1 & om1 & status & progress & t & us2
    & bm2 & u2 & bank & k & bank3 & u3 & _ & _ & _ & _ & _ & Hl & _ & _ & _ & _ & _
    & _ & _ & _ & _ & _ & ->).
  by destruct (frame (r := liquidate_positions _ _ _ _ _) _ Hl).
Qed.

(** C12. Nobody but the administrator changes the state of the exchange, the order
    parameters, or the parameters of a market: no trade, fill, liquidation, settlement,
    deposit or withdrawal does. *)
Theorem params_change_by_admin w signer i w' :
  step w signer i w' → has_one_admin w.(World.state) signer = false →
  w'.(World.state) = w.(World.state) ∧ w'.(World.order_state) = w.(World.order_state)
  ∧ view market_params w'.(World.markets) = view market_params w.(World.markets).
Proof.
  intros Hstep Hnot. step_cases Hstep; try congruence; split_and!; try done.
  - eapply view_loaded; [by eapply settle_pnl_params|done].
  - pose proof (frame _ Hok) as [_ Hm]. eapply view_loaded; [by apply terms_params|done].
  - pose proof (frame _ Hok) as [_ Hm]. eapply view_loaded; [by apply terms_params|done].
  - apply (fill_order_ix_ok w) in Hok as [_ []]; [|done]. by apply terms_params.
  - apply (place_and_fill_order_ok w) in Hok as [_ []]; [|done]. by apply terms_params.
  - eapply view_loaded; [|done]. by eapply terms_params, liquidate_markets_terms.
  - apply terms_params. eapply view_put; [exact Hi|]. apply idle_terms. exact (frame _ Hok).
Qed.

Lemma step_owners w signer i w' k u :
  step w signer i w' → w.(World.users) !! k = Some (Loaded u) →
  ∃ u', w'.(World.users) !! k = Some (Loaded u') ∧ user_owner u' = user_owner u.
Proof.
  intros Hstep Hk.
  assert (view user_owner w'.(World.users) = view user_owner w.(World.users) →
    ∃ u', w'.(World.users) !! k = Some (Loaded u') ∧ user_owner u' = user_owner u) as Hview.
  { intros Hv. destruct (view_lookup _ _ _ _ _ (eq_sym Hv) Hk) as (u' & ? & ?). by exists u'. }
  step_cases Hstep; try (by eauto); [|apply Hview..].
  - unfold initialize_user in Hok. case_bool_decide as Hnew; [|done].
    apply Ok_inj in Hok as <-. exists u. split; [|done].
    rewrite lookup_insert_ne; [done|]. intros ->. congruence.
  - by eapply deposit_owner.
  - by eapply withdraw_owner.
  - by eapply transfer_deposit_owner.
  - by eapply settle_pnl_owner.
  - pose proof (frame _ Hok) as [Hu _]. by apply terms_owners.
  - pose proof (frame _ Hok) as [Hu _]. by apply terms_owners.
  - apply place_order_ix_ok in Hok as [_ Hu]. by apply terms_owners.
  - apply cancel_order_ix_ok in Hok as [_ Hu]. by apply terms_owners.
  - apply cancel_order_by_user_id_ok in Hok as [_ Hu]. by apply terms_owners.
  - apply (fill_order_ix_ok w) in Hok as [_ [Hu _]]; [|done]. by apply terms_owners.
  - apply (place_and_fill_order_ok w) in Hok as [_ [Hu _]]; [|done]. by apply terms_owners.
  - by eapply liquidate_owner.
  - apply terms_owners. exact (frame _ Hok).
Qed.

(** C13. An account stays, and stays its owner's: no sequence of instructions deletes a
    user or changes its authority, id or name. *)
Theorem user_stays_owned w w' k u :
  rtc any_step w w' → w.(World.users) !! k = Some (Loaded u) →
  ∃ u', w'.(World.users) !! k = Some (Loaded u') ∧ user_owner u' = user_owner u.
Proof.
  intros Hsteps. revert u. induction Hsteps as [w|w1 w2 w3 (s & i & Hstep) _ IH]; intros u Hk;
    [by exists u|].
  destruct (step_owners _ _ _ _ _ _ Hstep Hk) as (u2 & Hk2 & Ho).
  destruct (IH _ Hk2) as (u3 & Hk3 & Ho'). exists u3. split; [done|congruence].
Qed.

(** The instructions that only trade, or only set parameters. *)
Definition keeps_funds (i : Instruction) : bool :=
  match i with
  | OpenPosition | ClosePosition | PlaceOrder | CancelOrder | FillOrder | PlaceAndFillOrder
  | SettleFundingPayment | UpdateFundingRate | AdminMarket | AdminState => true
  | _ => false
  end.

(** C14. Orders, trades, funding and administration move no funds: the balances of all
    users, the banks, the profit pools and the token accounts stay as they are. *)
Theorem trading_keeps_funds w signer i w' :
  step w signer i w' → keeps_funds i = true →
  view User.bank_balances w'.(World.users) = view User.bank_balances w.(World.users)
  ∧ w'.(World.banks) = w.(World.banks)
  ∧ view Market.pnl_pool w'.(World.markets) = view Market.pnl_pool w.(World.markets)
  ∧ w'.(World.ledger) = w.(World.ledger).
Proof.
  intros Hstep Hkeep.
  assert (∀ users users' markets mm',
    keeps_terms users users' markets mm' →
    view User.bank_balances users' = view User.bank_balances users
    ∧ view Market.pnl_pool (mm' ∪ markets) = view Market.pnl_pool markets) as Hterms
    by (intros * [Hu%terms_users Hm%terms_pools]; done).
  step_cases Hstep; try done.
  - pose proof (frame _ Hok) as [Hu Hm]. edestruct Hterms; [split; [exact Hu|]|done].
    by eapply view_loaded.
  - pose proof (frame _ Hok) as [Hu Hm]. edestruct Hterms; [split; [exact Hu|]|done].
    by eapply view_loaded.
  - apply place_order_ix_ok in Hok as [_ Hu%terms_users]. done.
  - apply cancel_order_ix_ok in Hok as [_ Hu%terms_users]. done.
  - apply cancel_order_by_user_id_ok in Hok as [_ Hu%terms_users]. done.
  - apply (fill_order_ix_ok w) in Hok as [_ [??]%Hterms]; [|done]. done.
  - apply (place_and_fill_order_ok w) in Hok as [_ [??]%Hterms]; [|done]. done.
  - split_and!; try done. apply terms_users. exact (frame _ Hok).
  - split_and!; try done. eapply view_put; [exact Hi|]. apply terms_pool.
    apply idle_terms. exact (frame _ Hok).
  - split_and!; try done. eapply view_put; [exact Hi|]. by eapply admin_market_keeps.
Qed.

Lemma step_banks w signer i w' :
  step w signer i w' → i ≠ InitializeBank → banks_evolve w.(World.banks) w'.(World.banks).
Proof.
  intros Hstep Hi'. step_cases Hstep; try done; try apply banks_evolve_refl.
  - eapply banks_evolve_loaded; [|done]. by eapply deposit_evolves.
  - eapply banks_evolve_loaded; [|done]. by eapply withdraw_evolves.
  - eapply banks_evolve_loaded; [|done]. by eapply transfer_deposit_evolves.
  - eapply banks_evolve_put; [exact Hi|]. exact (frame _ Hok).
  - eapply banks_evolve_loaded; [|done]. by eapply settle_pnl_evolves.
  - eapply banks_evolve_loaded; [|done]. by eapply liquidate_evolves.
Qed.

(** C16. Once a bank is created its parameters never change and its cumulative interest
    never falls, whatever instructions are run; and if all its numbers were of their Rust
    types then they still are. *)
Theorem banks_stay_typed w w' i b :
  rtc any_step w w' → w.(World.banks) !! i = Some (Loaded b) →
  ∃ b', w'.(World.banks) !! i = Some (Loaded b') ∧ bank_evolves b b'.
Proof.
  intros Hsteps. revert b. induction Hsteps as [w|w1 w2 w3 (s & j & Hstep) _ IH]; intros b Hb;
    [by exists b|].
  assert (∃ b2, w2.(World.banks) !! i = Some (Loaded b2) ∧ bank_evolves b b2)
    as (b2 & Hb2 & E2).
  { destruct (decide (j = InitializeBank)) as [->|Hj].
    - exists b. split; [|done]. inversion Hstep; subst. cbn.
      rewrite lookup_insert_ne; [done|]. intros <-. congruence.
    - destruct (step_banks _ _ _ _ Hstep Hj) as [_ Hs]. by apply Hs. }
  destruct (IH _ Hb2) as (b3 & Hb3 & E3). exists b3. split; [done|by etransitivity].
Qed.
End System.
