(* ===== verification/EventSystem.v ===== *)
(** * The log of the exchange

    The instructions of [step] with the records that they emit, as the relation
    [recorded].  It is [step] with the log added; along every run, the records of a market
    are numbered from 1 without a gap. *)

From stdpp Require Import base numbers list gmap.
From S2P Require Import Prelude Constants Bn State Value AmmMath BankBalance Twap Oracle.
From S2P Require Import Maps PositionMath CurveMath Repeg AmmController OrdersMath Position.
From S2P Require Import Funding Fees Margin OrderValidation Orders Events EventFunding.
From S2P Require Import Addresses Tokens BankHandlers BankLedger EventBanks Loading Trading.
From S2P Require Import EventOrders Liquidation EventTrades TradingProps Frames.
From S2P Require Import LiquidationProps Admin EventAdmin EventLog System.
Local Open Scope Z_scope.

(** ** Definitions *)

Section Records.
Context `{BnLib} `{OracleAccounts} `{TokenProgram} `{ProgramAddresses} `{Roots}.

(** The instructions on one market that emit records. *)
Inductive recorded_market (st : State) (i : Z) (m : Market)
    : Instruction → list Event → Market → Prop :=
| recorded_repeg_amm_curve oracle clock peg l m' :
    repeg_amm_curve_emits st m oracle clock peg = (l, Ok m') → has_type U128 peg →
    recorded_market st i m AdminMarket l m'
| recorded_update_k oracle clock sqrt_k l m' :
    update_k_ix_emits st m oracle clock sqrt_k = (l, Ok m') →
    recorded_market st i m AdminMarket l m'
| recorded_update_funding_rate oracle clock l m' :
    update_funding_rate_ix_emits st m oracle clock i = (l, Ok m') → Clock.typed clock →
    recorded_market st i m UpdateFundingRate l m'.

(** The other instructions of the administrator on a market emit none. *)
Inductive quiet_market (st : State) (m m' : Market) : Prop :=
| quiet_move_amm_price base quote :
    move_amm_price st m base quote = Ok m' →
    has_type U128 base → has_type U128 quote → quiet_market st m m'
| quiet_update_amm_oracle_twap oracle clock :
    update_amm_oracle_twap m oracle clock = Ok m' → Clock.typed clock → quiet_market st m m'
| quiet_reset_amm_oracle_twap oracle clock :
    reset_amm_oracle_twap st m oracle clock = Ok m' → Clock.typed clock → quiet_market st m m'
| quiet_update_margin_ratio initial partial maintenance :
    update_margin_ratio m initial partial maintenance = Ok m' →
    has_type U32 initial → has_type U32 partial → has_type U32 maintenance →
    quiet_market st m m'
| quiet_update_curve_update_intensity x :
    update_curve_update_intensity m x = Ok m' → has_type U8 x → quiet_market st m m'
| quiet_update_market_oracle oracle source :
    update_market_oracle m oracle source = Ok m' → quiet_market st m m'
| quiet_update_market_minimum_quote_asset_trade_size x :
    update_market_minimum_quote_asset_trade_size m x = Ok m' → has_type U128 x →
    quiet_market st m m'
| quiet_update_market_minimum_base_asset_trade_size x :
    update_market_minimum_base_asset_trade_size m x = Ok m' → has_type U128 x →
    quiet_market st m m'
| quiet_update_market_base_spread x :
    update_market_base_spread m x = Ok m' → has_type U16 x → quiet_market st m m'.

(** The instructions that have no record of their own; none of them calls one that has. *)
Definition emits_nothing (i : Instruction) : bool :=
  match i with
  | InitializeUser | InitializeBank | InitializeMarket | InitializeOrderState
  | UpdateBankCumulativeInterest | SettlePNL | AdminState | WithdrawFees
  | WithdrawFromInsuranceVault | WithdrawFromInsuranceVaultToMarket | OtherPrograms => true
  | _ => false
  end.

(** One instruction and what it emits. *)
Inductive recorded (w : World) (signer : Pubkey)
    : Instruction → list Event → World → Prop :=
| recorded_nothing i w' :
    emits_nothing i = true → step w signer i w' → recorded w signer i [] w'
| recorded_deposit bm mm key token vault clock i amount ro l users' bm' ledger' :
    owned_by w.(World.users) key signer → bm ⊆ w.(World.banks) → mm ⊆ w.(World.markets) →
    deposit_emits w.(World.users) bm mm w.(World.ledger) key token vault signer clock i amount
      ro = (l, Ok (users', bm', ledger')) →
    has_type U64 i →
    recorded w signer Deposit_ l
      (w <| World.users := users' |> <| World.banks := bm' ∪ w.(World.banks) |>
         <| World.ledger := ledger' |>)
| recorded_withdraw bm mm om key token vault auth clock i amount ro l users' bm' om' ledger' :
    owned_by w.(World.users) key signer → bm ⊆ w.(World.banks) → mm ⊆ w.(World.markets) →
    withdraw_emits w.(World.state) w.(World.users) bm mm om w.(World.ledger) key token vault
      auth clock i amount ro = (l, Ok (users', bm', om', ledger')) →
    has_type U64 i →
    recorded w signer Withdraw l
      (w <| World.users := users' |> <| World.banks := bm' ∪ w.(World.banks) |>
         <| World.ledger := ledger' |>)
| recorded_transfer_deposit bm mm om from to clock i amount l users' bm' om' :
    owned_by w.(World.users) from signer → owned_by w.(World.users) to signer →
    bm ⊆ w.(World.banks) → mm ⊆ w.(World.markets) →
    transfer_deposit_emits w.(World.users) bm mm om signer from to clock i amount
      = (l, Ok (users', bm', om')) →
    has_type U64 i →
    recorded w signer TransferDeposit l
      (w <| World.users := users' |> <| World.banks := bm' ∪ w.(World.banks) |>)
| recorded_open_position bm mm om accounts key oracle clock d q i limit opt l users' mm' om' :
    owned_by w.(World.users) key signer → bm ⊆ w.(World.banks) → mm ⊆ w.(World.markets) →
    open_position_emits w.(World.state) w.(World.users) bm mm om accounts key signer oracle
      clock d q i limit opt = (l, Ok (users', mm', om')) →
    Clock.typed clock → has_type U64 i →
    recorded w signer OpenPosition l
      (w <| World.users := users' |> <| World.markets := mm' ∪ w.(World.markets) |>)
| recorded_close_position mm accounts key oracle clock i opt l users' mm' :
    owned_by w.(World.users) key signer → mm ⊆ w.(World.markets) →
    close_position_emits w.(World.state) w.(World.users) mm accounts key signer oracle clock i
      opt = (l, Ok (users', mm')) →
    Clock.typed clock →
    recorded w signer ClosePosition l
      (w <| World.users := users' |> <| World.markets := mm' ∪ w.(World.markets) |>)
| recorded_place_order accounts key oracle clock params opt l users' :
    owned_by w.(World.users) key signer → Forall (presented w) accounts →
    place_order_ix_emits w.(World.state) w.(World.order_state) w.(World.users) accounts key
      signer oracle clock params opt = (l, Ok users') →
    Clock.typed clock → OrderParams.typed params →
    recorded w signer PlaceOrder l (w <| World.users := users' |>)
| recorded_cancel_order accounts key oracle clock id l users' :
    owned_by w.(World.users) key signer → Forall (presented w) accounts →
    cancel_order_ix_emits w.(World.state) w.(World.users) accounts key oracle clock id
      = (l, Ok users') →
    recorded w signer CancelOrder l (w <| World.users := users' |>)
| recorded_cancel_order_by_user_id accounts key oracle clock id l users' :
    owned_by w.(World.users) key signer → Forall (presented w) accounts →
    cancel_order_by_user_id_emits w.(World.state) w.(World.users) accounts key oracle clock id
      = (l, Ok users') →
    recorded w signer CancelOrder l (w <| World.users := users' |>)
| recorded_fill_order accounts key filler oracle clock id l users' mm' :
    owned_by w.(World.users) filler signer → Forall (presented w) accounts →
    fill_order_ix_emits w.(World.state) w.(World.order_state) w.(World.users) accounts key
      filler oracle clock id = (l, Ok (users', mm')) →
    Clock.typed clock →
    recorded w signer FillOrder l
      (w <| World.users := users' |> <| World.markets := mm' ∪ w.(World.markets) |>)
| recorded_place_and_fill_order accounts key oracle clock params opt l users' mm' :
    owned_by w.(World.users) key signer → Forall (presented w) accounts →
    place_and_fill_order_emits w.(World.state) w.(World.order_state) w.(World.users) accounts
      key signer oracle clock params opt = (l, Ok (users', mm')) →
    Clock.typed clock → OrderParams.typed params →
    recorded w signer PlaceAndFillOrder l
      (w <| World.users := users' |> <| World.markets := mm' ∪ w.(World.markets) |>)
| recorded_liquidate bm mm om key liquidator vault auth clock l users' bm' mm' ledger' :
    owned_by w.(World.users) liquidator signer →
    bm ⊆ w.(World.banks) → mm ⊆ w.(World.markets) →
    liquidate_emits w.(World.state) w.(World.users) bm mm om w.(World.ledger) key liquidator
      vault w.(World.state).(State.insurance_vault) auth clock
      = (l, Ok (users', bm', mm', ledger')) →
    Clock.typed clock →
    recorded w signer Liquidate l
      (w <| World.users := users' |> <| World.banks := bm' ∪ w.(World.banks) |>
         <| World.markets := mm' ∪ w.(World.markets) |> <| World.ledger := ledger' |>)
| recorded_settle_funding_payment mm key clock l users' :
    mm ⊆ w.(World.markets) →
    settle_funding_payment_ix_emits w.(World.state) w.(World.users) mm key clock
      = (l, Ok users') →
    recorded w signer SettleFundingPayment l (w <| World.users := users' |>)
| recorded_on_market i m instr l m' :
    (instr = AdminMarket → has_one_admin w.(World.state) signer = true) →
    w.(World.markets) !! i = Some (Loaded m) →
    recorded_market w.(World.state) i m instr l m' →
    recorded w signer instr l (w <| World.markets := <[i := Loaded m']> w.(World.markets) |>)
| recorded_quiet_market i m m' :
    has_one_admin w.(World.state) signer = true →
    w.(World.markets) !! i = Some (Loaded m) → quiet_market w.(World.state) m m' →
    recorded w signer AdminMarket []
      (w <| World.markets := <[i := Loaded m']> w.(World.markets) |>).

(** A run of the exchange and its log. *)
Inductive recorded_run (w : World) : list Event → World → Prop :=
| recorded_start : recorded_run w [] w
| recorded_more l w1 signer i l1 w2 :
    recorded_run w l w1 → recorded w1 signer i l1 w2 → recorded_run w (l ++ l1) w2.
End Records.

(** ** Without the log *)

(** A run of an instruction with its log is a run of the instruction. *)
Ltac without_log Hok lem := apply emits_erase in Hok; rewrite lem in Hok.

(** A run of the instruction has a log. *)
Ltac with_log Hok lem := rewrite <-lem in Hok; apply erase_emits in Hok as [l Hok].

Section Erasure.
Context `{BnLib} `{OracleAccounts} `{TokenProgram} `{ProgramAddresses} `{Roots}.

Lemma recorded_market_step st i m instr l m' :
  recorded_market st i m instr l m' →
  instr = AdminMarket ∧ admin_market st m m'
  ∨ instr = UpdateFundingRate
    ∧ ∃ oracle clock, Clock.typed clock ∧ update_funding_rate_ix st m oracle clock = Ok m'.
Proof.
  intros [oracle clock peg l' m2 Hok|oracle clock k l' m2 Hok|oracle clock l' m2 Hok].
  - without_log Hok repeg_amm_curve_erase. left. split; [done|]. by eapply admin_repeg_amm_curve.
  - without_log Hok update_k_ix_erase. left. split; [done|]. by eapply admin_update_k.
  - without_log Hok update_funding_rate_ix_erase. right. eauto.
Qed.

Lemma quiet_market_step st m m' : quiet_market st m m' → admin_market st m m'.
Proof.
  intros [?? Hok|?? Hok|?? Hok|??? Hok|? Hok|?? Hok|? Hok|? Hok|? Hok].
  - by eapply admin_move_amm_price.
  - by eapply admin_update_amm_oracle_twap.
  - by eapply admin_reset_amm_oracle_twap.
  - by eapply admin_update_margin_ratio.
  - by eapply admin_update_curve_update_intensity.
  - by eapply admin_update_market_oracle.
  - by eapply admin_update_market_minimum_quote_asset_trade_size.
  - by eapply admin_update_market_minimum_base_asset_trade_size.
  - by eapply admin_update_market_base_spread.
Qed.

Lemma recorded_step w signer i l w' : recorded w signer i l w' → step w signer i w'.
Proof.
  intros [i1 w1 _ Hstep|bm mm key token vault clock k amount ro l1 users' bm' l' Hauth Hbm Hmm Hok
    |bm mm om key token vault auth clock k amount ro l1 users' bm' om' l' Hauth Hbm Hmm Hok
    |bm mm om from to clock k amount l1 users' bm' om' Hauth Hauth' Hbm Hmm Hok
    |bm mm om accounts key oracle clock d q k limit opt l1 users' mm' om' Hauth Hbm Hmm Hok
    |mm accounts key oracle clock k opt l1 users' mm' Hauth Hmm Hok
    |accounts key oracle clock params opt l1 users' Hauth Hall Hok
    |accounts key oracle clock id l1 users' Hauth Hall Hok
    |accounts key oracle clock id l1 users' Hauth Hall Hok
    |accounts key filler oracle clock id l1 users' mm' Hauth Hall Hok
    |accounts key oracle clock params opt l1 users' mm' Hauth Hall Hok
    |bm mm om key liquidator vault auth clock l1 users' bm' mm' l' Hauth Hbm Hmm Hok
    |mm key clock l1 users' Hmm Hok|k m instr l1 m' Hauth Hk Hm|k m m' Hauth Hk Hm].
  - done.
  - without_log Hok deposit_erase. by eapply step_deposit.
  - without_log Hok withdraw_erase. by eapply step_withdraw.
  - without_log Hok transfer_deposit_erase.
    eapply step_transfer_deposit; [exact Hauth|exact Hauth'|exact Hbm|exact Hmm|exact Hok|done].
  - without_log Hok open_position_erase. by eapply step_open_position.
  - without_log Hok close_position_erase. by eapply step_close_position.
  - without_log Hok place_order_ix_erase. by eapply step_place_order.
  - without_log Hok cancel_order_ix_erase. by eapply step_cancel_order.
  - without_log Hok cancel_order_by_user_id_erase. by eapply step_cancel_order_by_user_id.
  - without_log Hok fill_order_ix_erase. by eapply step_fill_order.
  - without_log Hok place_and_fill_order_erase. by eapply step_place_and_fill_order.
  - without_log Hok liquidate_erase. by eapply step_liquidate.
  - without_log Hok settle_funding_payment_ix_erase. by eapply step_settle_funding_payment.
  - apply recorded_market_step in Hm as [[-> Hm]|[-> (oracle & clock & Hclock & Hok)]].
    + eapply step_admin_market; [by apply Hauth|exact Hk|exact Hm].
    + by eapply step_update_funding_rate.
  - eapply step_admin_market; [done|exact Hk|by apply quiet_market_step].
Qed.

Lemma admin_market_recorded w signer i m m' :
  has_one_admin w.(World.state) signer = true → w.(World.markets) !! i = Some (Loaded m) →
  admin_market w.(World.state) m m' →
  ∃ l, recorded w signer AdminMarket l
         (w <| World.markets := <[i := Loaded m']> w.(World.markets) |>).
Proof.
  intros Hauth Hi Hm.
  assert (quiet_market w.(World.state) m m' → ∃ l, recorded w signer AdminMarket l
            (w <| World.markets := <[i := Loaded m']> w.(World.markets) |>)) as Hquiet
    by (intros Hq; exists []; by eapply recorded_quiet_market).
  destruct Hm as [?? Hok|oracle clock peg Hok|?? Hok|?? Hok|oracle k Hok|??? Hok|? Hok|?? Hok|
    ? Hok|? Hok|? Hok].
  - apply Hquiet. by eapply quiet_move_amm_price.
  - with_log Hok repeg_amm_curve_erase. exists l. eapply recorded_on_market; [done|exact Hi|].
    by eapply recorded_repeg_amm_curve.
  - apply Hquiet. by eapply quiet_update_amm_oracle_twap.
  - apply Hquiet. by eapply quiet_reset_amm_oracle_twap.
  - rewrite <-(update_k_ix_erase _ _ _ (Clock.mk 0 0)) in Hok.
    apply erase_emits in Hok as [l Hok]. exists l.
    eapply recorded_on_market; [done|exact Hi|]. by eapply recorded_update_k.
  - apply Hquiet. by eapply quiet_update_margin_ratio.
  - apply Hquiet. by eapply quiet_update_curve_update_intensity.
  - apply Hquiet. by eapply quiet_update_market_oracle.
  - apply Hquiet. by eapply quiet_update_market_minimum_quote_asset_trade_size.
  - apply Hquiet. by eapply quiet_update_market_minimum_base_asset_trade_size.
  - apply Hquiet. by eapply quiet_update_market_base_spread.
Qed.

(** Every instruction has a log. *)
Lemma step_recorded w signer i w' : step w signer i w' → ∃ l, recorded w signer i l w'.
Proof.
  intros Hstep.
  assert (emits_nothing i = true → ∃ l, recorded w signer i l w') as Hnone
    by (intros Hn; exists []; by apply recorded_nothing).
  step_cases Hstep; try (by apply Hnone); clear Hnone.
  - with_log Hok deposit_erase. exists l. by eapply recorded_deposit.
  - with_log Hok withdraw_erase. exists l. by eapply recorded_withdraw.
  - rewrite <-(transfer_deposit_erase _ _ _ _ signer) in Hok.
    apply erase_emits in Hok as [l Hok]. exists l.
    eapply recorded_transfer_deposit; [exact Hauth|exact Hauth'|exact Hbm|exact Hmm|exact Hok|done].
  - with_log Hok open_position_erase. exists l. by eapply recorded_open_position.
  - with_log Hok close_position_erase. exists l. by eapply recorded_close_position.
  - with_log Hok place_order_ix_erase. exists l. by eapply recorded_place_order.
  - with_log Hok cancel_order_ix_erase. exists l. by eapply recorded_cancel_order.
  - with_log Hok cancel_order_by_user_id_erase. exists l.
    by eapply recorded_cancel_order_by_user_id.
  - with_log Hok fill_order_ix_erase. exists l. by eapply recorded_fill_order.
  - with_log Hok place_and_fill_order_erase. exists l. by eapply recorded_place_and_fill_order.
  - with_log Hok liquidate_erase. exists l. by eapply recorded_liquidate.
  - rewrite <-(settle_funding_payment_ix_erase _ _ _ _ (Clock.mk 0 0)) in Hok.
    apply erase_emits in Hok as [l Hok]. exists l. by eapply recorded_settle_funding_payment.
  - rewrite <-(update_funding_rate_ix_erase _ _ _ _ i) in Hok.
    apply erase_emits in Hok as [l Hok]. exists l.
    eapply recorded_on_market; [done|exact Hi|by eapply recorded_update_funding_rate].
  - by eapply admin_market_recorded.
Qed.

End Erasure.

(** ** The numbers of the records *)

Section Numbers.
Context `{BnLib} `{OracleAccounts} `{TokenProgram} `{ProgramAddresses} `{Roots}.

Lemma fill_order_ix_logged w st ost users accounts key filler oracle clock id l users' mm' :
  Forall (presented w) accounts →
  fill_order_ix_emits st ost users accounts key filler oracle clock id
    = (l, Ok (users', mm')) →
  map_log w.(World.markets) l (mm' ∪ w.(World.markets)).
Proof.
  intros Hall Hok. unfold fill_order_ix_emits in Hok.
  apply then_quiet_ok in Hok as ([] & _ & Hok). apply then_quiet_ok in Hok as (i & _ & Hok).
  destruct (load_oracle_map _ _) as [om acc] eqn:Hom.
  apply (load_oracle_map_rest w) in Hom; [|done].
  apply then_quiet_ok in Hok as ([bm acc1] & Hbm & Hok).
  apply (load_bank_map_sub w) in Hbm as [_ Hacc1]; [|done].
  apply then_quiet_ok in Hok as ([mm acc2] & Hmm & Hok).
  apply (load_market_map_sub w) in Hmm as [Hmm _]; [|done].
  apply then_quiet_ok in Hok as (referrer & _ & Hok).
  apply then_ok in Hok as ([[[us mm1] om1] x] & l1 & l2 & Hf & Hok & ->).
  apply quiet_ok in Hok as [-> Hok]. destruct (x =? 0); [done|].
  apply Ok_inj in Hok; injection Hok as <- <-. rewrite app_nil_r.
  apply (map_log_loaded mm); [exact (logged _ _ Hf)|done].
Qed.

Lemma place_and_fill_order_logged w st ost users accounts key auth oracle clock params opt l users'
    mm' :
  Forall (presented w) accounts →
  place_and_fill_order_emits st ost users accounts key auth oracle clock params opt
    = (l, Ok (users', mm')) →
  map_log w.(World.markets) l (mm' ∪ w.(World.markets)).
Proof.
  intros Hall Hok. unfold place_and_fill_order_emits in Hok. cbv zeta in Hok.
  apply then_quiet_ok in Hok as ([] & _ & Hok).
  destruct (load_oracle_map _ _) as [om acc] eqn:Hom.
  apply (load_oracle_map_rest w) in Hom; [|done].
  apply then_quiet_ok in Hok as ([bm acc1] & Hbm & Hok).
  apply (load_bank_map_sub w) in Hbm as [_ Hacc1]; [|done].
  apply then_quiet_ok in Hok as ([mm acc2] & Hmm & Hok).
  apply (load_market_map_sub w) in Hmm as [Hmm _]; [|done].
  apply then_quiet_ok in Hok as ([token acc3] & _ & Hok).
  apply then_quiet_ok in Hok as ([referrer acc4] & _ & Hok).
  apply then_ok in Hok as (us1 & l1 & l2 & Hp & Hok & ->). apply logged in Hp.
  apply then_quiet_ok in Hok as (id & _ & Hok).
  apply then_ok in Hok as ([[[us2 mm2] om2] x] & l3 & l4 & Hf & Hok & ->).
  apply logged in Hf. cbn [fst snd] in *.
  assert (uncounted l4 ∧ mm' = mm2) as [Hl4 ->].
  { destruct (_ && _);
      [|apply quiet_ok in Hok as [-> Hok]; apply Ok_inj in Hok; by injection Hok as _ ->].
    log_steps. split; [count_none|done]. }
  apply (map_log_loaded mm); [|done].
  refine (map_log_trans _ mm _ _ _ _ (map_log_trans _ mm2 _ _ _ Hf _)); by apply map_log_uncounted.
Qed.

(** *** Instructions that emit nothing *)

Lemma quiet_market_ids st m m' : quiet_market st m m' → record_ids m' = record_ids m.
Proof.
  intros [?? Hok|?? Hok|?? Hok|??? Hok|? Hok|?? Hok|? Hok|? Hok|? Hok].
  - unfold move_amm_price in Hok. by frame_steps.
  - unfold update_amm_oracle_twap in Hok. cbv zeta in Hok. by frame_steps.
  - unfold reset_amm_oracle_twap in Hok. by frame_steps.
  - unfold update_margin_ratio in Hok. by frame_steps.
  - unfold update_curve_update_intensity, set_amm in Hok. by frame_steps.
  - unfold update_market_oracle, set_amm in Hok. by frame_steps.
  - unfold update_market_minimum_quote_asset_trade_size, set_amm in Hok. by frame_steps.
  - unfold update_market_minimum_base_asset_trade_size, set_amm in Hok. by frame_steps.
  - unfold update_market_base_spread, set_amm in Hok. by frame_steps.
Qed.

Lemma settle_pnl_ids st users bm mm key auth i users' bm' mm' :
  settle_pnl st users bm mm key auth i = Ok (users', bm', mm') →
  view record_ids mm' = view record_ids mm.
Proof.
  intros Hok. apply settle_pnl_inv in Hok
    as (u & k & p & bank & m & u' & bank' & m' & _ & _ & Hm & _ & _ & _ & _ & -> & Hcase).
  eapply view_put; [exact Hm|]. cbv zeta in Hcase.
  destruct (_ =? 0); [by destruct Hcase as (_ & -> & _)|]. destruct (0 <? _).
  - unfold settle_profit in Hcase. by frame_steps.
  - unfold settle_loss in Hcase. by frame_steps.
Qed.

(** What [InitializeMarket] adds: a market of its own index, which counts from 1. *)
Lemma initialize_market_ids st p clock st' m :
  initialize_market st p clock = Ok (st', m) → ∀ c, next_id c m = 1.
Proof.
  intros Hok. unfold initialize_market in Hok. destruct (negb _); [done|]. cbv zeta in Hok.
  frame_steps; by intros [].
Qed.

(** *** One instruction *)

(** What an instruction does to the markets, as the log tells it: it adds a market, or the
    counters of the markets go on as the records are numbered. *)
Definition markets_logged (mm : MarketMap) (l : list Event) (mm' : MarketMap) : Prop :=
  map_log mm l mm'
  ∨ l = [] ∧ ∃ m, mm !! m.(Market.market_index) = None ∧ (∀ c, next_id c m = 1)
                  ∧ mm' = <[m.(Market.market_index) := Loaded m]> mm.

(** The record of a curve has the index that the market itself has. *)
Definition indexed (mm : MarketMap) : Prop :=
  ∀ i m, mm !! i = Some (Loaded m) → m.(Market.market_index) = i.

Lemma recorded_market_logged st i m instr l m' :
  recorded_market st i m instr l m' → m.(Market.market_index) = i → market_log i m l m'.
Proof.
  intros [oracle clock peg l' m2 Hok|oracle clock k l' m2 Hok|oracle clock l' m2 Hok] Hi;
    apply logged in Hok; by rewrite ?Hi in Hok.
Qed.

Lemma nothing_logged w signer i w' :
  emits_nothing i = true → step w signer i w' →
  markets_logged w.(World.markets) [] w'.(World.markets).
Proof.
  intros Hnone Hstep.
  assert (∀ mm, view record_ids mm = view record_ids w.(World.markets) →
    markets_logged w.(World.markets) [] mm) as Hview
    by (intros mm Hv; left; by apply map_log_ids).
  step_cases Hstep; try done; try (by apply Hview).
  - right. split; [done|]. exists m. split_and!; [done|by eapply initialize_market_ids|done].
  - apply Hview. eapply view_loaded; [by eapply settle_pnl_ids|done].
  - apply Hview. eapply view_put; [exact Hi|]. unfold withdraw_fees in Hok. cbv zeta in Hok.
    by frame_steps.
  - apply Hview. eapply view_put; [exact Hi|].
    unfold withdraw_from_insurance_vault_to_market in Hok. by frame_steps.
Qed.

Lemma recorded_logged w signer i l w' :
  recorded w signer i l w' → indexed w.(World.markets) →
  markets_logged w.(World.markets) l w'.(World.markets).
Proof.
  intros Hrec Hidx.
  destruct Hrec as [i1 w1 Hi Hstep
    |bm mm key token vault clock k amount ro l1 users' bm' l' Hauth Hbm Hmm Hok
    |bm mm om key token vault auth clock k amount ro l1 users' bm' om' l' Hauth Hbm Hmm Hok
    |bm mm om from to clock k amount l1 users' bm' om' Hauth Hauth' Hbm Hmm Hok
    |bm mm om accounts key oracle clock d q k limit opt l1 users' mm' om' Hauth Hbm Hmm Hok
    |mm accounts key oracle clock k opt l1 users' mm' Hauth Hmm Hok
    |accounts key oracle clock params opt l1 users' Hauth Hall Hok
    |accounts key oracle clock id l1 users' Hauth Hall Hok
    |accounts key oracle clock id l1 users' Hauth Hall Hok
    |accounts key filler oracle clock id l1 users' mm' Hauth Hall Hok
    |accounts key oracle clock params opt l1 users' mm' Hauth Hall Hok
    |bm mm om key liquidator vault auth clock l1 users' bm' mm' l' Hauth Hbm Hmm Hok
    |mm key clock l1 users' Hmm Hok|k m instr l1 m' Hauth Hk Hm|k m m' Hauth Hk Hm];
    [by eapply nothing_logged|left..]; cbn.
  1-3: apply map_log_uncounted; exact (logged _ _ Hok).
  - apply (map_log_loaded mm); [exact (logged _ _ Hok)|done].
  - apply (map_log_loaded mm); [exact (logged _ _ Hok)|done].
  - apply map_log_uncounted. unfold place_order_ix_emits in Hok. log_steps; count_none.
  - apply map_log_uncounted. unfold cancel_order_ix_emits, cancel_first_ix_emits,
      cancel_with_emits in Hok. log_steps; count_none.
  - apply map_log_uncounted. unfold cancel_order_by_user_id_emits, cancel_first_ix_emits,
      cancel_with_emits in Hok. log_steps; count_none.
  - by eapply fill_order_ix_logged.
  - by eapply place_and_fill_order_logged.
  - apply (map_log_loaded mm); [exact (logged _ _ Hok)|done].
  - apply map_log_uncounted. exact (logged _ _ Hok).
  - eapply map_log_put; [exact Hk|]. eapply recorded_market_logged; [exact Hm|by apply Hidx].
  - eapply map_log_put; [exact Hk|]. apply market_log_same; [done|].
    apply record_ids_next. by eapply quiet_market_ids.
Qed.

(** *** Runs *)

Lemma admin_market_index st m m' :
  admin_market st m m' → m'.(Market.market_index) = m.(Market.market_index).
Proof.
  assert (∀ m1, market_idle m1 = market_idle m →
    m1.(Market.market_index) = m.(Market.market_index)) as Hidle by (by intros m1 [=]).
  intros [?? Hok|? clock peg Hok|?? Hok|?? Hok|? k Hok|??? Hok|? Hok|?? Hok|? Hok|? Hok|? Hok].
  - unfold move_amm_price in Hok. by frame_steps.
  - unfold repeg_amm_curve in Hok. frame_steps. by apply Hidle.
  - unfold update_amm_oracle_twap in Hok. cbv zeta in Hok. by frame_steps.
  - unfold reset_amm_oracle_twap in Hok. by frame_steps.
  - apply Hidle. exact (frame _ Hok).
  - unfold update_margin_ratio in Hok. by frame_steps.
  - unfold update_curve_update_intensity, set_amm in Hok. by frame_steps.
  - unfold update_market_oracle, set_amm in Hok. by frame_steps.
  - unfold update_market_minimum_quote_asset_trade_size, set_amm in Hok. by frame_steps.
  - unfold update_market_minimum_base_asset_trade_size, set_amm in Hok. by frame_steps.
  - unfold update_market_base_spread, set_amm in Hok. by frame_steps.
Qed.

(** Markets stay at their index. *)
Lemma view_indexed mm mm' :
  view Market.market_index mm' = view Market.market_index mm → indexed mm → indexed mm'.
Proof.
  intros Hv Hidx i m Hi. apply (f_equal (.!! i)) in Hv. unfold view in Hv.
  rewrite !lookup_fmap, Hi in Hv. destruct (mm !! i) as [[m1|]|] eqn:Hm; cbn in Hv; try done.
  injection Hv as ->. by apply Hidx.
Qed.

Lemma terms_indexed mm mm' base :
  view market_terms mm' = view market_terms mm → mm ⊆ base → indexed base →
  indexed (mm' ∪ base).
Proof.
  intros Hv Hm. apply view_indexed. eapply view_loaded; [|exact Hm].
  revert Hv. apply (view_part (λ t, t.1.1.1.1.1.1.1) market_terms).
Qed.

Lemma put_indexed mm i m m' :
  mm !! i = Some (Loaded m) → m'.(Market.market_index) = m.(Market.market_index) →
  indexed mm → indexed (<[i:=Loaded m']> mm).
Proof. intros Hi Hm. apply view_indexed. by eapply view_put. Qed.

Lemma step_indexed w signer i w' :
  step w signer i w' → indexed w.(World.markets) → indexed w'.(World.markets).
Proof.
  intros Hstep Hidx. step_cases Hstep; try done.
  - intros j m1 Hj. apply lookup_insert_Some in Hj as [[<- [= <-]]|[_ Hj]]; [done|by apply Hidx].
  - refine (view_indexed _ _ (view_loaded _ _ _ _ _ Hmm) Hidx).
    eapply (view_part (λ t, t.1.1.1) record_ids). by eapply settle_pnl_ids.
  - eapply terms_indexed; [|exact Hmm|done]. exact (proj2 (frame _ Hok)).
  - eapply terms_indexed; [|exact Hmm|done]. exact (proj2 (frame _ Hok)).
  - apply (fill_order_ix_inv w) in Hok as (mm & bm & om & om' & rf & x & Hmm & Hf); [|done].
    eapply terms_indexed; [|exact Hmm|done]. exact (proj2 (frame _ Hf)).
  - apply (place_and_fill_order_inv w) in Hok as (mm & bm & om & om' & token & rf & id & x & us1
      & us2 & Hmm & _ & Hf & _); [|done].
    eapply terms_indexed; [|exact Hmm|done]. exact (proj2 (frame _ Hf)).
  - eapply terms_indexed; [|exact Hmm|done]. by eapply liquidate_markets_terms.
  - eapply put_indexed; [exact Hi| |done]. pose proof (frame _ Hok) as Ht. by injection Ht.
  - eapply put_indexed; [exact Hi| |done]. by eapply admin_market_index.
  - eapply put_indexed; [exact Hi| |done]. unfold withdraw_fees in Hok. cbv zeta in Hok.
    by frame_steps.
  - eapply put_indexed; [exact Hi| |done].
    unfold withdraw_from_insurance_vault_to_market in Hok. by frame_steps.
Qed.

(** The log of a run from the creation of the exchange on, against the counters. *)
Definition counted (log : list Event) (mm : MarketMap) : Prop :=
  ∀ i, match mm !! i with
       | Some (Loaded m) => ∀ c, numbered 1 (ids c i log) = Some (next_id c m)
       | Some MutBorrowed => True
       | None => ∀ c, ids c i log = []
       end.

Lemma markets_logged_counted log mm l mm' :
  markets_logged mm l mm' → counted log mm → counted (log ++ l) mm'.
Proof.
  intros [Hl|(-> & m & Hnew & Hone & ->)] Hc i; specialize (Hc i).
  - specialize (Hl i). unfold cell_log in Hl.
    destruct (mm !! i) as [[m1|]|], (mm' !! i) as [[m2|]|]; try done; intros c;
      rewrite ids_app; [by rewrite numbered_app, Hc|by rewrite Hc, Hl].
  - rewrite app_nil_r. destruct (decide (i = m.(Market.market_index))) as [->|Hi].
    + rewrite lookup_insert_eq. rewrite Hnew in Hc. intros c. by rewrite Hc, Hone.
    + by rewrite lookup_insert_ne.
Qed.

Lemma run_counted st ost ledger log w :
  recorded_run (new_world st ost ledger) log w →
  indexed w.(World.markets) ∧ counted log w.(World.markets).
Proof.
  intros Hrun. induction Hrun as [|l w1 signer i l1 w2 _ [Hidx Hc] Hrec].
  - split; [by intros i m|]. intros i. cbn. by rewrite lookup_empty.
  - split; [by eapply step_indexed; [eapply recorded_step|]|].
    eapply markets_logged_counted; [by eapply recorded_logged|done].
Qed.

(** C8. Whatever instructions are run from the creation of the exchange on, the trade records
    of a market are numbered 1, 2, 3, ... in the order in which they are emitted, and the
    market's counter is the number of the next one; so are its records of funding rates and
    of curves.  The counters start again at 1 when they are full. *)
Theorem records_are_numbered st ost ledger log w i m c :
  recorded_run (new_world st ost ledger) log w →
  w.(World.markets) !! i = Some (Loaded m) →
  numbered 1 (ids c i log) = Some (next_id c m)
  ∧ (1 + Z.of_nat (length (ids c i log)) ≤ int_max U64 →
     next_id c m = 1 + Z.of_nat (length (ids c i log))
     ∧ ∀ k id, ids c i log !! k = Some id → id = 1 + Z.of_nat k).
Proof.
  intros Hrun Hi. destruct (run_counted _ _ _ _ _ Hrun) as [_ Hc].
  specialize (Hc i). rewrite Hi in Hc. split; [done|]. intros Hle.
  split; [|intros k id Hk];
    [destruct (numbered_nth _ _ _ 0%nat 0 (Hc c) Hle ltac:(done)); done|].
  destruct (numbered_nth _ _ _ k id (Hc c) Hle ltac:(done)) as [_ Hid]. by apply Hid.
Qed.
End Numbers.
