(* ===== verification/EventKinds.v ===== *)
(** * Which records an instruction emits

    The records by their kind, and the kinds of records that each instruction emits. *)

From stdpp Require Import base numbers list gmap.
From S2P Require Import Prelude Constants Bn State Value AmmMath BankBalance Twap Oracle.
From S2P Require Import Maps PositionMath CurveMath Repeg AmmController OrdersMath Position.
From S2P Require Import Funding Fees Margin OrderValidation Orders Events EventFunding.
From S2P Require Import Addresses Tokens BankHandlers BankLedger EventBanks Loading Trading.
From S2P Require Import EventOrders Liquidation EventTrades TradingProps Frames Admin EventAdmin.
From S2P Require Import EventLog System EventSystem.
Local Open Scope Z_scope.

(** ** Definitions *)

Inductive Kind :=
| DepositKind | TradeKind | PaymentKind | RateKind | CurveKind | LiquidationKind | OrderKind.
#[export] Instance Kind_eq_dec : EqDecision Kind.
Proof. solve_decision. Defined.

Definition kind_of (e : Event) : Kind :=
  match e with
  | EDeposit _ => DepositKind
  | ETrade _ => TradeKind
  | EFundingPayment _ => PaymentKind
  | EFundingRate _ => RateKind
  | ECurve _ => CurveKind
  | ELiquidation _ => LiquidationKind
  | EOrder _ => OrderKind
  end.

(** The records of a kind. *)
Definition deposits : list Event → list DepositRecord :=
  omap (λ e, match e with EDeposit r => Some r | _ => None end).
Definition trades : list Event → list TradeRecord :=
  omap (λ e, match e with ETrade r => Some r | _ => None end).
Definition payments : list Event → list FundingPaymentRecord :=
  omap (λ e, match e with EFundingPayment r => Some r | _ => None end).
Definition curves : list Event → list CurveRecord :=
  omap (λ e, match e with ECurve r => Some r | _ => None end).
Definition liquidations : list Event → list LiquidationRecord :=
  omap (λ e, match e with ELiquidation r => Some r | _ => None end).
Definition order_records : list Event → list OrderRecord :=
  omap (λ e, match e with EOrder r => Some r | _ => None end).

(** The kinds of records that an instruction emits. *)
Definition kinds (i : Instruction) : list Kind :=
  match i with
  | Deposit_ | Withdraw => [PaymentKind; DepositKind]
  | TransferDeposit => [DepositKind]
  | OpenPosition | ClosePosition => [PaymentKind; TradeKind; RateKind]
  | PlaceOrder | CancelOrder => [PaymentKind; OrderKind]
  | FillOrder | PlaceAndFillOrder => [PaymentKind; OrderKind; TradeKind; RateKind]
  | Liquidate => [PaymentKind; TradeKind; LiquidationKind]
  | SettleFundingPayment => [PaymentKind]
  | UpdateFundingRate => [RateKind]
  | AdminMarket => [CurveKind]
  | _ => []
  end.

Definition only (ks : list Kind) (l : list Event) : Prop := Forall (λ e, kind_of e ∈ ks) l.

(** ** Properties *)

Lemma only_mono ks ks' l : only ks l → ks ⊆ ks' → only ks' l.
Proof. intros Hl Hks. eapply Forall_impl; [exact Hl|]. intros e. apply Hks. Qed.

Lemma only_app ks l1 l2 : only ks l1 → only ks l2 → only ks (l1 ++ l2).
Proof. intros. by apply Forall_app. Qed.

Lemma only_cons ks e l : kind_of e ∈ ks → only ks l → only ks (e :: l).
Proof. by constructor. Qed.

Lemma only_nil ks : only ks [].
Proof. constructor. Qed.

Ltac only_steps :=
  repeat first
    [ apply only_nil
    | apply only_cons; [cbn; set_solver|]
    | apply only_app
    | assumption
    | match goal with Hl : only _ ?l |- only _ ?l => eapply only_mono; [exact Hl|set_solver] end ].

(** A kind that is not among those of the log has no records in it. *)
Lemma omap_none {A B} (f : A → option B) l : Forall (λ x, f x = None) l → omap f l = [].
Proof. induction 1 as [|x l Hx _ IH]; [done|]. cbn. by rewrite Hx. Qed.

Ltac none_of :=
  intros Hl Hk; apply omap_none; eapply Forall_impl; [exact Hl|];
  intros [] He; try done; exfalso; exact (Hk He).

Lemma only_deposits ks l : only ks l → DepositKind ∉ ks → deposits l = [].
Proof. none_of. Qed.
Lemma only_trades ks l : only ks l → TradeKind ∉ ks → trades l = [].
Proof. none_of. Qed.
Lemma only_payments ks l : only ks l → PaymentKind ∉ ks → payments l = [].
Proof. none_of. Qed.
Lemma only_curves ks l : only ks l → CurveKind ∉ ks → curves l = [].
Proof. none_of. Qed.
Lemma only_liquidations ks l : only ks l → LiquidationKind ∉ ks → liquidations l = [].
Proof. none_of. Qed.
Lemma only_orders ks l : only ks l → OrderKind ∉ ks → order_records l = [].
Proof. none_of. Qed.

(** The selectors over a log that is put together. *)
Lemma deposits_app l1 l2 : deposits (l1 ++ l2) = deposits l1 ++ deposits l2.
Proof. apply omap_app. Qed.
Lemma trades_app l1 l2 : trades (l1 ++ l2) = trades l1 ++ trades l2.
Proof. apply omap_app. Qed.
Lemma payments_app l1 l2 : payments (l1 ++ l2) = payments l1 ++ payments l2.
Proof. apply omap_app. Qed.
Lemma liquidations_app l1 l2 : liquidations (l1 ++ l2) = liquidations l1 ++ liquidations l2.
Proof. apply omap_app. Qed.
Lemma order_records_app l1 l2 : order_records (l1 ++ l2) = order_records l1 ++ order_records l2.
Proof. apply omap_app. Qed.

(** *** The kinds that the functions emit *)

Section Kinds.
Context `{BnLib} `{OracleAccounts} `{TokenProgram} `{Roots}.

#[export] Instance settle_position_funding_kinds authority key mm now p :
  Logged (settle_position_funding_emits authority key mm now p)
    (λ l _, only [PaymentKind] l).
Proof.
  intros l r Hok. unfold settle_position_funding_emits in Hok. cbv zeta in Hok.
  log_steps; only_steps.
Qed.

#[export] Instance settle_funding_payment_kinds u key mm now :
  Logged (settle_funding_payment_emits u key mm now) (λ l _, only [PaymentKind] l).
Proof.
  intros l r Hok. unfold settle_funding_payment_emits in Hok.
  apply then_ok in Hok as (ps & l1 & l2 & Hps & Hok & ->). apply quiet_ok in Hok as [-> _].
  rewrite app_nil_r.
  refine (map_emits_logged _ (only [PaymentKind]) _ _ _ _ _ _ Hps);
    [apply only_nil|apply only_app|]. intros x l3 y Hx. exact (logged _ _ Hx).
Qed.

#[export] Instance update_funding_rate_kinds i m oracle now slot g paused mark :
  Logged (update_funding_rate_emits i m oracle now slot g paused mark)
    (λ l _, only [RateKind] l).
Proof.
  intros l r Hok. unfold update_funding_rate_emits in Hok. cbv zeta in Hok.
  log_steps; only_steps.
Qed.

#[export] Instance place_order_kinds st ost users k mm token referrer clock params oracle :
  Logged (place_order_emits st ost users k mm token referrer clock params oracle)
    (λ l _, only [PaymentKind; OrderKind] l).
Proof.
  intros l r Hok. unfold place_order_emits, place_order_for_emits in Hok. cbv zeta in Hok.
  log_steps; only_steps.
Qed.

#[export] Instance cancel_order_kinds st n u key mm bm om clock oracle best :
  Logged (cancel_order_emits st n u key mm bm om clock oracle best)
    (λ l _, only [PaymentKind; OrderKind] l).
Proof.
  intros l r Hok. unfold cancel_order_emits in Hok. cbv zeta in Hok. log_steps; only_steps.
Qed.

#[export] Instance cancel_first_order_kinds p st users key mm bm om clock oracle :
  Logged (cancel_first_order_emits p st users key mm bm om clock oracle)
    (λ l _, only [PaymentKind; OrderKind] l).
Proof.
  intros l r Hok. unfold cancel_first_order_emits in Hok. log_steps; only_steps.
Qed.

#[export] Instance settle_fill_kinds st ost users u uk fk referrer mm i n o now before after price
    fill :
  Logged (settle_fill_emits st ost users u uk fk referrer mm i n o now before after price fill)
    (λ l _, only [OrderKind; TradeKind] l).
Proof.
  intros l r Hok. unfold settle_fill_emits in Hok. cbv zeta in Hok. log_steps; only_steps.
Qed.

#[export] Instance fill_order_kinds id st ost users uk mm bm om oracle fk referrer clock :
  Logged (fill_order_emits id st ost users uk mm bm om oracle fk referrer clock)
    (λ l _, only (kinds FillOrder) l).
Proof.
  intros l r Hok. unfold fill_order_emits in Hok. cbv zeta in Hok. log_steps; only_steps.
Qed.

#[export] Instance open_position_kinds st users bm mm om accounts key auth oracle clock d q i
    limit opt :
  Logged (open_position_emits st users bm mm om accounts key auth oracle clock d q i limit opt)
    (λ l _, only (kinds OpenPosition) l).
Proof.
  intros l r Hok. unfold open_position_emits in Hok. cbv zeta in Hok. log_steps; only_steps.
Qed.

#[export] Instance close_position_kinds st users mm accounts key auth oracle clock i opt :
  Logged (close_position_emits st users mm accounts key auth oracle clock i opt)
    (λ l _, only (kinds ClosePosition) l).
Proof.
  intros l r Hok. unfold close_position_emits in Hok. cbv zeta in Hok. log_steps; only_steps.
Qed.

#[export] Instance record_liquidation_kinds a m ms u key now d b status k v q pnl req fee base coll
    always :
  Logged (record_liquidation_emits a m ms u key now d b status k v q pnl req fee base coll
            always) (λ l _, only [TradeKind] l).
Proof.
  intros l r Hok. unfold record_liquidation_emits in Hok. cbv zeta in Hok.
  log_steps; only_steps.
Qed.

#[export] Instance full_liquidation_step_kinds st key now dust fee value coll a status :
  Logged (full_liquidation_step_emits st key now dust fee value coll a status)
    (λ l _, only [TradeKind] l).
Proof.
  intros l r Hok. unfold full_liquidation_step_emits in Hok. cbv zeta in Hok.
  log_steps; only_steps.
Qed.

#[export] Instance partial_liquidation_step_kinds st key now fee closed coll a status :
  Logged (partial_liquidation_step_emits st key now fee closed coll a status)
    (λ l _, only [TradeKind] l).
Proof.
  intros l r Hok. unfold partial_liquidation_step_emits in Hok. cbv zeta in Hok.
  log_steps; only_steps.
Qed.

#[export] Instance liquidate_positions_kinds st u key mm now status :
  Logged (liquidate_positions_emits st u key mm now status) (λ l _, only [TradeKind] l).
Proof.
  intros l r Hok. unfold liquidate_positions_emits in Hok. cbv zeta in Hok.
  destruct (is_full_liquidation status);
    repeat (apply then_ok in Hok as (? & ? & ? & Hx & Hok & ->);
            apply quiet_ok in Hx as [-> _]; cbn [app]);
    refine (loop_emits_logged _ (λ l _, only [TradeKind] l) [] _ _ _ _ _ (only_nil _) Hok);
    intros l1 b status1 l2 b1 stop Hb Hs; (apply only_app; [exact Hb|exact (logged _ _ Hs)]).
Qed.

#[export] Instance liquidate_kinds st users bm mm om ledger key liquidator vault insurance auth
    clock :
  Logged (liquidate_emits st users bm mm om ledger key liquidator vault insurance auth clock)
    (λ l _, only (kinds Liquidate) l).
Proof.
  intros l r Hok. unfold liquidate_emits in Hok. cbv zeta in Hok. log_steps; only_steps.
Qed.

#[export] Instance deposit_kinds users bm mm ledger key token vault auth clock i amount ro :
  Logged (deposit_emits users bm mm ledger key token vault auth clock i amount ro)
    (λ l _, only (kinds Deposit_) l).
Proof.
  intros l r Hok. unfold deposit_emits in Hok. cbv zeta in Hok. log_steps; only_steps.
Qed.

#[export] Instance withdraw_kinds st users bm mm om ledger key token vault auth clock i amount ro :
  Logged (withdraw_emits st users bm mm om ledger key token vault auth clock i amount ro)
    (λ l _, only (kinds Withdraw) l).
Proof.
  intros l r Hok. unfold withdraw_emits in Hok. cbv zeta in Hok. log_steps; only_steps.
Qed.

#[export] Instance transfer_deposit_kinds users bm mm om auth from to clock i amount :
  Logged (transfer_deposit_emits users bm mm om auth from to clock i amount)
    (λ l _, only (kinds TransferDeposit) l).
Proof.
  intros l r Hok. unfold transfer_deposit_emits in Hok. cbv zeta in Hok.
  log_steps; only_steps.
Qed.
End Kinds.

Section System.
Context `{BnLib} `{OracleAccounts} `{TokenProgram} `{ProgramAddresses} `{Roots}.

Lemma recorded_market_kinds st i m instr l m' :
  recorded_market st i m instr l m' → only (kinds instr) l.
Proof.
  intros [oracle clock peg l' m2 Hok|oracle clock k l' m2 Hok|oracle clock l' m2 Hok].
  - unfold repeg_amm_curve_emits in Hok. log_steps; only_steps.
  - unfold update_k_ix_emits in Hok. cbv zeta in Hok. log_steps; only_steps.
  - unfold update_funding_rate_ix_emits in Hok. by log_steps.
Qed.

Lemma recorded_kinds w signer i l w' : recorded w signer i l w' → only (kinds i) l.
Proof.
  intros Hrec.
  destruct Hrec as [i1 w1 Hi Hstep
    |bm mm key token vault clock k amount ro l1 users' bm' l' Hauth Hbm Hmm Hok
    |bm mm om key token vault auth clock k amount ro l1 users' bm' om' l' Hauth Hbm Hmm Hok
    |bm mm om from to clock k amount l1 users' bm' om' Hauth Hauth' Hbm Hmm Hok
    |bm mm om accounts key oracle clock d q k limit opt l1 users' mm' om' Hauth Hbm Hmm Hok
    |mm accounts key oracle clock k opt l1 users' mm' Hauth Hmm Hok
    |accounts key oracle clock params opt l1 users' Hauth Hall Hok
    |accounts key oracle clock id l1 users' Hauth Hall Hok
    |accounts key oracle clock id l1 users' Hauth Hall Hok
    |accounts key filler oracle clock id l1 users' mm' Hauth Hall Hok
    |accounts key oracle clock params opt l1 users' mm' Hauth Hall Hok
    |bm mm om key liquidator vault auth clock l1 users' bm' mm' l' Hauth Hbm Hmm Hok
    |mm key clock l1 users' Hmm Hok|k m instr l1 m' Hauth Hk Hm|k m m' Hauth Hk Hm];
    try (by apply only_nil); try exact (logged _ _ Hok).
  - unfold place_order_ix_emits in Hok. log_steps; only_steps.
  - unfold cancel_order_ix_emits, cancel_first_ix_emits, cancel_with_emits in Hok.
    log_steps; only_steps.
  - unfold cancel_order_by_user_id_emits, cancel_first_ix_emits, cancel_with_emits in Hok.
    log_steps; only_steps.
  - unfold fill_order_ix_emits in Hok. cbv zeta in Hok. log_steps; only_steps.
  - unfold place_and_fill_order_emits in Hok. cbv zeta in Hok. log_steps; only_steps.
  - unfold settle_funding_payment_ix_emits in Hok. log_steps; only_steps.
  - by eapply recorded_market_kinds.
Qed.
End System.
