(* ===== verification/EventProps.v ===== *)
(** * What the records tell

    The records of an instruction account for what the instruction did: the payments of
    funding for what the user is owed, those of deposits and withdrawals for the tokens
    that moved, those of a fill for the order, those of a liquidation for its fees. *)

From stdpp Require Import base numbers list gmap.
From S2P Require Import Prelude Constants Bn State Value AmmMath BankBalance Twap Oracle.
From S2P Require Import Maps PositionMath CurveMath Repeg AmmController OrdersMath Position.
From S2P Require Import Funding Fees Margin OrderValidation Orders Events EventFunding.
From S2P Require Import Addresses Tokens BankHandlers BankLedger BankOrders EventBanks Loading.
From S2P Require Import Trading EventOrders Liquidation EventTrades TradingProps Frames Admin.
From S2P Require Import EventAdmin EventLog LiquidationProps System EventSystem EventKinds.
Local Open Scope Z_scope.

(** ** Payments of funding *)

(** What a payment tells of the position [p] that it is for. *)
Definition payment_of (u : User) (key : Pubkey) (now : Z) (p : MarketPosition)
    (r : FundingPaymentRecord) : Prop :=
  r.(FundingPaymentRecord.ts) = now ∧ r.(FundingPaymentRecord.user) = key
  ∧ r.(FundingPaymentRecord.user_authority) = u.(User.authority)
  ∧ r.(FundingPaymentRecord.market_index) = p.(MarketPosition.market_index)
  ∧ r.(FundingPaymentRecord.base_asset_amount) = p.(MarketPosition.base_asset_amount)
  ∧ r.(FundingPaymentRecord.user_last_cumulative_funding)
    = p.(MarketPosition.last_cumulative_funding_rate).

Section Funding.
Context `{BnLib} `{OracleAccounts}.

#[local] Instance settle_position_funding_logged u key mm now p :
  Logged (settle_position_funding_emits u.(User.authority) key mm now p)
    (λ l p',
      (∀ t, settle_position_funding_emits u.(User.authority) key mm t p' = ([], Ok p'))
      ∧ only [PaymentKind] l ∧ Forall (payment_of u key now p) (payments l)
      ∧ p'.(MarketPosition.unsettled_pnl) = p.(MarketPosition.unsettled_pnl)
        + sum_of FundingPaymentRecord.funding_payment (payments l)).
Proof.
  intros l p' Hok. unfold settle_position_funding_emits in *. cbv zeta in *.
  destruct (Z.eqb_spec (MarketPosition.base_asset_amount p) 0) as [Hz|Hz].
  { apply quiet_ok in Hok as [-> Hok]. apply Ok_inj in Hok as <-.
    split_and!; [|apply only_nil|done|unfold sum_of; cbn; lia]. intros t. by rewrite Hz. }
  apply then_quiet_ok in Hok as (m & Hm & Hok). destruct (negb _) eqn:Hne.
  - apply then_quiet_ok in Hok as (x & _ & Hok). apply then_quiet_ok in Hok as (y & _ & Hok).
    apply then_emit_ok in Hok as (l' & Hok & ->). apply then_quiet_ok in Hok as (v & Hv & Hok).
    apply cadd_ok in Hv as [-> _]. apply quiet_ok in Hok as [-> Hok]. apply Ok_inj in Hok as <-.
    split_and!; [|only_steps|by constructor|unfold sum_of; cbn; lia].
    intros t. cbn. by rewrite (proj2 (Z.eqb_neq _ _) Hz), Hm, then_quiet, Z.eqb_refl.
  - apply quiet_ok in Hok as [-> Hok]. apply Ok_inj in Hok as <-.
    split_and!; [|apply only_nil|done|unfold sum_of; cbn; lia].
    intros t. by rewrite (proj2 (Z.eqb_neq _ _) Hz), Hm, then_quiet, Hne.
Qed.

Lemma map_payments u key mm now ps l ps' :
  map_emits (settle_position_funding_emits u.(User.authority) key mm now) ps = (l, Ok ps') →
  (∀ t, map_emits (settle_position_funding_emits u.(User.authority) key mm t) ps'
        = ([], Ok ps'))
  ∧ only [PaymentKind] l
  ∧ Forall (λ r, ∃ p, p ∈ ps ∧ payment_of u key now p r) (payments l)
  ∧ sum_of MarketPosition.unsettled_pnl ps'
    = sum_of MarketPosition.unsettled_pnl ps
      + sum_of FundingPaymentRecord.funding_payment (payments l).
Proof.
  revert l ps'. induction ps as [|p ps IH]; intros l ps' Hok; cbn in Hok.
  { apply quiet_ok in Hok as [-> Hok]. apply Ok_inj in Hok as <-. split_and!; by constructor. }
  apply then_ok in Hok as (q & l1 & l2 & Hq & Hok & ->).
  apply then_ok in Hok as (qs & l3 & l4 & Hqs & Hok & ->). apply quiet_ok in Hok as [-> Hok].
  apply Ok_inj in Hok as <-. rewrite app_nil_r.
  apply logged in Hq as (Hq & Hl1 & Hr1 & Hu1). apply IH in Hqs as (Hqs & Hl3 & Hr3 & Hu3).
  rewrite payments_app. split_and!.
  - intros t. cbn [map_emits]. by rewrite Hq, then_silent, Hqs, then_silent.
  - by apply only_app.
  - apply Forall_app. split; [|eapply Forall_impl; [exact Hr3|]].
    + eapply Forall_impl; [exact Hr1|]. intros r Hr. exists p. split; [by left|done].
    + intros r (p' & Hp' & Hr). exists p'. split; [by right|done].
  - rewrite sum_of_app. unfold sum_of in *. cbn. lia.
Qed.

(** C33. Funding is paid as the log tells: what the user's positions have unsettled changes by
    the sum of the recorded payments, each of which is for a position of the user as it was;
    and settling again, at whatever time, emits nothing and changes nothing. *)
Theorem funding_payments_recorded u key mm now l u' :
  settle_funding_payment_emits u key mm now = (l, Ok u') →
  only [PaymentKind] l
  ∧ sum_of MarketPosition.unsettled_pnl u'.(User.positions)
    = sum_of MarketPosition.unsettled_pnl u.(User.positions)
      + sum_of FundingPaymentRecord.funding_payment (payments l)
  ∧ Forall (λ r, ∃ p, p ∈ u.(User.positions) ∧ payment_of u key now p r) (payments l)
  ∧ ∀ now', settle_funding_payment_emits u' key mm now' = ([], Ok u').
Proof.
  intros Hok. unfold settle_funding_payment_emits in *.
  apply then_ok in Hok as (ps & l1 & l2 & Hps & Hok & ->). apply quiet_ok in Hok as [-> Hok].
  apply Ok_inj in Hok as <-. rewrite app_nil_r. cbn.
  apply map_payments in Hps as (Hps & Hl & Hr & Hu). split_and!; try done.
  intros t. by rewrite Hps, then_silent.
Qed.
End Funding.

(** ** Deposits and withdrawals *)

Section Banks.
Context `{BnLib} `{OracleAccounts} `{TokenProgram} `{ProgramAddresses} `{Roots}.

Lemma deposit_recorded users bm mm ledger key token vault auth clock i amount ro l users' bm'
    ledger' :
  deposit_emits users bm mm ledger key token vault auth clock i amount ro
    = (l, Ok (users', bm', ledger')) →
  ∃ r u', deposits l = [r] ∧ users' !! key = Some (Loaded u')
    ∧ r.(DepositRecord.ts) = clock.(Clock.unix_timestamp) ∧ r.(DepositRecord.user) = key
    ∧ r.(DepositRecord.user_authority) = u'.(User.authority)
    ∧ r.(DepositRecord.direction) = DepositDirection.DEPOSIT
    ∧ r.(DepositRecord.bank_index) = i ∧ r.(DepositRecord.from) = None
    ∧ r.(DepositRecord.to) = None
    ∧ token_transfer CallerSigns ledger token vault auth r.(DepositRecord.amount)
      = Some ledger'.
Proof.
  intros Hok. unfold deposit_emits in Hok. cbv zeta in Hok.
  apply then_quiet_ok in Hok as ([u us] & _ & Hok). destruct (amount =? 0); [done|].
  apply then_quiet_ok in Hok as ([bank bs] & _ & Hok).
  apply then_quiet_ok in Hok as (bank1 & _ & Hok). apply then_quiet_ok in Hok as ([u1 k] & _ & Hok).
  apply then_quiet_ok in Hok as (x & _ & Hok). apply then_quiet_ok in Hok as ([bank2 u2] & _ & Hok).
  apply then_ok in Hok as (u3 & l1 & l2 & Hf & Hok & ->). 
  pose proof (logged (m := settle_funding_payment_emits _ _ _ _) _ _ Hf) as Hl1.
  apply then_quiet_ok in Hok as (l' & Ht & Hok). apply unwrap_ok in Ht.
  apply then_emit_ok in Hok as (l3 & Hok & ->). apply quiet_ok in Hok as [-> Hok].
  apply Ok_inj in Hok; injection Hok as <- <- <-.
  rewrite deposits_app, (only_deposits _ _ Hl1) by set_solver. eexists _, u3. split; [reflexivity|].
  split; [unfold drop_mut; by rewrite lookup_insert_eq|]. done.
Qed.

Lemma withdraw_recorded st users bm mm om ledger key token vault auth clock i amount ro l users'
    bm' om' ledger' :
  withdraw_emits st users bm mm om ledger key token vault auth clock i amount ro
    = (l, Ok (users', bm', om', ledger')) →
  ∃ r u' nonce, deposits l = [r] ∧ users' !! key = Some (Loaded u')
    ∧ r.(DepositRecord.ts) = clock.(Clock.unix_timestamp) ∧ r.(DepositRecord.user) = key
    ∧ r.(DepositRecord.user_authority) = u'.(User.authority)
    ∧ r.(DepositRecord.direction) = DepositDirection.WITHDRAW
    ∧ r.(DepositRecord.bank_index) = i ∧ r.(DepositRecord.from) = None
    ∧ r.(DepositRecord.to) = None
    ∧ token_transfer (BankVaultSigns i nonce) ledger vault token auth r.(DepositRecord.amount)
      = Some ledger'.
Proof.
  intros Hok. unfold withdraw_emits in Hok. cbv zeta in Hok.
  apply then_quiet_ok in Hok as ([] & _ & Hok). apply then_quiet_ok in Hok as ([u us] & _ & Hok).
  apply then_ok in Hok as (u3 & l1 & l2 & Hf & Hok & ->). 
  pose proof (logged (m := settle_funding_payment_emits _ _ _ _) _ _ Hf) as Hl1.
  apply then_quiet_ok in Hok as ([bank bs] & _ & Hok).
  apply then_quiet_ok in Hok as (bank1 & _ & Hok). apply then_quiet_ok in Hok as ([u1 k] & _ & Hok).
  apply then_quiet_ok in Hok as (x & _ & Hok). apply then_quiet_ok in Hok as ([bank2 u2] & _ & Hok).
  apply then_quiet_ok in Hok as ([om1 meets] & _ & Hok). destruct (negb meets); [done|].
  apply then_quiet_ok in Hok as (bank3 & _ & Hok).
  apply then_quiet_ok in Hok as (l' & Ht & Hok). apply unwrap_ok in Ht.
  apply then_emit_ok in Hok as (l3 & Hok & ->). apply quiet_ok in Hok as [-> Hok].
  apply Ok_inj in Hok; injection Hok as <- <- <- <-.
  rewrite deposits_app, (only_deposits _ _ Hl1) by set_solver. eexists _, u2, _. split; [reflexivity|].
  split; [unfold drop_mut; by rewrite lookup_insert_eq|]. done.
Qed.

Lemma transfer_deposit_recorded users bm mm om auth from to clock i amount l users' bm' om' :
  transfer_deposit_emits users bm mm om auth from to clock i amount
    = (l, Ok (users', bm', om')) →
  deposits l =
    [DepositRecord.mk clock.(Clock.unix_timestamp) auth from DepositDirection.WITHDRAW amount i
       None (Some to);
     DepositRecord.mk clock.(Clock.unix_timestamp) auth to DepositDirection.DEPOSIT amount i
       (Some from) None].
Proof.
  intros Hok. unfold transfer_deposit_emits in Hok. cbv zeta in Hok.
  repeat (apply then_quiet_ok in Hok as ([] & _ & Hok)).
  apply then_emit_ok in Hok as (l1 & Hok & ->).
  repeat (apply then_quiet_ok in Hok as ([] & _ & Hok)).
  apply then_emit_ok in Hok as (l2 & Hok & ->). by apply quiet_ok in Hok as [-> _].
Qed.

(** What a record of a deposit or of a withdrawal tells of the tokens: those of the record
    moved, for the caller or, out of the vault of the bank, for the program. *)
Definition tokens_moved (signer : Pubkey) (r : DepositRecord) (ledger ledger' : Ledger)
    : Prop :=
  ∃ from to,
  match r.(DepositRecord.direction) with
  | DepositDirection.DEPOSIT =>
      token_transfer CallerSigns ledger from to signer r.(DepositRecord.amount) = Some ledger'
  | DepositDirection.WITHDRAW => ∃ authority nonce,
      token_transfer (BankVaultSigns r.(DepositRecord.bank_index) nonce) ledger from to
        authority r.(DepositRecord.amount) = Some ledger'
  end.

(** The user of the record is, after it, one whose authority has signed. *)
Definition of_signer (signer : Pubkey) (users : UserMap) (r : DepositRecord) : Prop :=
  r.(DepositRecord.user_authority) = signer ∧ owned_by users r.(DepositRecord.user) signer.

Lemma kept_owner users users' key signer :
  view user_owner users' = view user_owner users → owned_by users key signer →
  owned_by users' key signer.
Proof.
  intros Hv (u & Hu & Ha). apply (f_equal (.!! key)) in Hv. unfold view in Hv.
  rewrite !lookup_fmap, Hu in Hv. unfold owned_by.
  destruct (users' !! key) as [[u'|]|]; try done. exists u'. split; [done|].
  injection Hv as Hk _ _. unfold has_one_authority in *. by rewrite Hk.
Qed.

Lemma owner_of users key signer u :
  owned_by users key signer → users !! key = Some (Loaded u) → u.(User.authority) = signer.
Proof.
  intros (u' & Hu' & Ha) Hu. unfold has_one_authority in Ha. apply Z.eqb_eq in Ha. congruence.
Qed.

(** C9. The records of deposits account for the tokens.  Each deposit and each withdrawal emits
    one, of the amount that moved between the caller and the vaults; a transfer between
    users emits two, for the same amount and with each other as counterpart, and moves no
    tokens.  They name the signer and a user of the signer.  No other instruction emits
    such a record. *)
Theorem deposits_recorded w signer i l w' :
  recorded w signer i l w' →
  Forall (of_signer signer w'.(World.users)) (deposits l)
  ∧ match i with
    | Deposit_ | Withdraw => ∃ r, deposits l = [r]
        ∧ r.(DepositRecord.direction) = (if decide (i = Deposit_) then DepositDirection.DEPOSIT
                                         else DepositDirection.WITHDRAW)
        ∧ r.(DepositRecord.from) = None ∧ r.(DepositRecord.to) = None
        ∧ tokens_moved signer r w.(World.ledger) w'.(World.ledger)
    | TransferDeposit => ∃ from to, deposits l = [from; to]
        ∧ from.(DepositRecord.direction) = DepositDirection.WITHDRAW
        ∧ to.(DepositRecord.direction) = DepositDirection.DEPOSIT
        ∧ from.(DepositRecord.amount) = to.(DepositRecord.amount)
        ∧ from.(DepositRecord.bank_index) = to.(DepositRecord.bank_index)
        ∧ from.(DepositRecord.to) = Some to.(DepositRecord.user)
        ∧ to.(DepositRecord.from) = Some from.(DepositRecord.user)
        ∧ w'.(World.ledger) = w.(World.ledger)
    | _ => deposits l = []
    end.
Proof.
  intros Hrec. pose proof (recorded_kinds _ _ _ _ _ Hrec) as Hl.
  assert (DepositKind ∉ kinds i → deposits l = []) as Hnone by apply only_deposits, Hl.
  destruct (decide (DepositKind ∈ kinds i)) as [Hi|Hi];
    [|rewrite Hnone by done; split; [constructor|]; destruct i; cbn in Hi |- *; set_solver].
  clear Hnone Hl.
  destruct Hrec as [i1 w1 Hq Hstep
    |bm mm key token vault clock k amount ro l1 users' bm' l' Hauth Hbm Hmm Hok
    |bm mm om key token vault auth clock k amount ro l1 users' bm' om' l' Hauth Hbm Hmm Hok
    |bm mm om from to clock k amount l1 users' bm' om' Hauth Hauth' Hbm Hmm Hok
    | | | | | | | | | |k m instr l1 m' Hauth Hk Hm|]; cbn in Hi |- *; try (by set_solver).
  - exfalso. destruct i1; cbn in Hi; first [done|set_solver].
  - pose proof (deposit_recorded _ _ _ _ _ _ _ _ _ _ _ _ _ _ _ _ Hok)
      as (r & u & Hl & Hu & _ & Hr & Ha & Hd & Hb & Hf & Ht & Hm). without_log Hok deposit_erase.
    eapply kept_owner in Hauth; [|by eapply deposit_owner].
    rewrite Hl. split; [constructor; [split; [|by rewrite Hr]|done]|].
    { rewrite Ha. by eapply owner_of. }
    exists r. split_and!; try done. exists token, vault. by rewrite Hd.
  - pose proof (withdraw_recorded _ _ _ _ _ _ _ _ _ _ _ _ _ _ _ _ _ _ _ Hok)
      as (r & u & n & Hl & Hu & _ & Hr & Ha & Hd & Hb & Hf & Ht & Hm).
    without_log Hok withdraw_erase. eapply kept_owner in Hauth; [|by eapply withdraw_owner].
    rewrite Hl. split; [constructor; [split; [|by rewrite Hr]|done]|].
    { rewrite Ha. by eapply owner_of. }
    exists r. split_and!; try done. exists vault, token. rewrite Hd, Hb. by exists auth, n.
  - rewrite (transfer_deposit_recorded _ _ _ _ _ _ _ _ _ _ _ _ _ _ Hok).
    without_log Hok transfer_deposit_erase. pose proof (transfer_deposit_owner _ _ _ _ _ _ _ _ _
      _ _ _ Hok) as Hown. split; [|by eexists _, _].
    repeat constructor; by eapply kept_owner.
  - exfalso. destruct Hm; cbn in Hi; set_solver.
Qed.
End Banks.
