(* ===== verification/EventFills.v ===== *)
(** * What the records of fills, liquidations and curves tell

    The records of a fill account for the order, those of a liquidation for its fees and
    the positions that it closes, those of a curve for the market before and after. *)

From stdpp Require Import base numbers list gmap.
From S2P Require Import Prelude Constants Bn State Value AmmMath BankBalance Twap Oracle.
From S2P Require Import Maps PositionMath CurveMath Repeg AmmController OrdersMath Position.
From S2P Require Import Funding Fees Margin OrderValidation Orders Events EventFunding.
From S2P Require Import Addresses Tokens BankHandlers BankLedger BankOrders EventBanks Loading.
From S2P Require Import Trading EventOrders Liquidation EventTrades TradingProps Frames Admin.
From S2P Require Import EventAdmin EventLog LiquidationProps System EventSystem EventKinds.
Local Open Scope Z_scope.

(** ** Fills *)

(** The two records of a fill of [x] of the order [o] of the user [u]. *)
Definition records_fill (u : User) (key filler : Pubkey) (o : Order) (now x : Z)
    (t : TradeRecord) (r : OrderRecord) : Prop :=
  t.(TradeRecord.ts) = now ∧ r.(OrderRecord.ts) = now
  ∧ t.(TradeRecord.user) = key ∧ r.(OrderRecord.user) = key
  ∧ t.(TradeRecord.user_authority) = u.(User.authority)
  ∧ r.(OrderRecord.authority) = u.(User.authority)
  ∧ r.(OrderRecord.filler) = filler ∧ r.(OrderRecord.action) = OrderAction.Fill
  ∧ r.(OrderRecord.trade_record_id) = t.(TradeRecord.record_id)
  ∧ t.(TradeRecord.liquidation) = false
  ∧ t.(TradeRecord.direction) = o.(Order.direction)
  ∧ t.(TradeRecord.market_index) = o.(Order.market_index)
  ∧ t.(TradeRecord.base_asset_amount) = x
  ∧ r.(OrderRecord.base_asset_amount_filled) = x
  ∧ r.(OrderRecord.quote_asset_amount_filled) = t.(TradeRecord.quote_asset_amount)
  ∧ r.(OrderRecord.fee) = t.(TradeRecord.fee)
  ∧ r.(OrderRecord.quote_asset_amount_surplus) = t.(TradeRecord.quote_asset_amount_surplus).

(** The order of the record is the order with the fill added. *)
Definition order_filled (o : Order) (r : OrderRecord) : Prop :=
  let o' := r.(OrderRecord.order) in
  o'.(Order.order_id) = o.(Order.order_id)
  ∧ o'.(Order.market_index) = o.(Order.market_index)
  ∧ o'.(Order.base_asset_amount) = o.(Order.base_asset_amount)
  ∧ o'.(Order.base_asset_amount_filled)
    = o.(Order.base_asset_amount_filled) + r.(OrderRecord.base_asset_amount_filled)
  ∧ o'.(Order.quote_asset_amount_filled)
    = o.(Order.quote_asset_amount_filled) + r.(OrderRecord.quote_asset_amount_filled)
  ∧ o'.(Order.fee) = o.(Order.fee) + r.(OrderRecord.fee).

(** What the slot of an order holds after the fill. *)
Definition kept_order (o : Order) : Order :=
  if (o.(Order.base_asset_amount) =? o.(Order.base_asset_amount_filled))
     || bool_decide (o.(Order.order_type) = OrderType.Market)
  then Order_default else o.

Section Fills.
Context `{BnLib} `{OracleAccounts} `{Roots}.

Lemma release_order_if_filled_orders u n i o u' :
  u.(User.orders) !! n = Some o → release_order_if_filled u n i = Ok u' →
  u'.(User.orders) = <[n := kept_order o]> u.(User.orders).
Proof.
  intros Hn Hok. unfold release_order_if_filled in Hok.
  apply bind_ok in Hok as (o' & Ho & Hok). apply unwrap_ok in Ho. simplify_eq.
  unfold kept_order. destruct (_ || _).
  - unfold release_order in Hok. by inv_ok.
  - apply Ok_inj in Hok as <-. by rewrite list_insert_id.
Qed.

Lemma update_order_after_trade_id o minimum b q fee o' :
  update_order_after_trade o minimum b q fee = Ok o' → o'.(Order.order_id) = o.(Order.order_id).
Proof. unfold update_order_after_trade. intros Hok. by inv_ok. Qed.

Lemma settle_fill_recorded st ost users u uk fk referrer mm n o now before after price fill l
    users' u' mm' :
  settle_fill_emits st ost users u uk fk referrer mm o.(Order.market_index) n o now before after
    price fill = (l, Ok (users', u', mm')) →
  u.(User.orders) !! n = Some o →
  ∃ t r, l = [ETrade t; EOrder r] ∧ records_fill u' uk fk o now fill.(fill_base) t r
    ∧ order_filled o r
    ∧ u'.(User.orders) = <[n := kept_order r.(OrderRecord.order)]> u.(User.orders).
Proof.
  intros Hok Hn. unfold settle_fill_emits in Hok. cbv zeta in Hok.
  apply then_quiet_ok in Hok as ([[[[[fee fm] td] fr] rr] rd] & _ & Hok).
  apply then_quiet_ok in Hok as ([m mmb] & _ & Hok).
  apply then_quiet_ok in Hok as (m1 & _ & Hok).
  apply then_quiet_ok in Hok as (u1 & Hcharge & Hok).
  apply charge_user_trades in Hcharge as [Hos _].
  apply then_quiet_ok in Hok as (users1 & _ & Hok).
  apply then_quiet_ok in Hok as (users2 & _ & Hok).
  apply then_quiet_ok in Hok as (m2 & _ & Hok). apply then_quiet_ok in Hok as (o0 & Ho & Hok).
  apply unwrap_ok in Ho. assert (o0 = o) as -> by congruence.
  apply then_quiet_ok in Hok as (o1 & Hupd & Hok).
  pose proof (update_order_after_trade_id _ _ _ _ _ _ Hupd) as Hid.
  apply update_order_after_trade_inv in Hupd
    as (Hfilled & Hquote & Hfee & _ & _ & Hindex & _ & Hbase).
  apply then_quiet_ok in Hok as ([m3 mmb'] & _ & Hok). destruct (get_then_update_id _) as [rid nid].
  apply then_emit_ok in Hok as (l1 & Hok & ->). apply then_emit_ok in Hok as (l2 & Hok & ->).
  apply then_quiet_ok in Hok as (u2 & Hrel & Hok). apply quiet_ok in Hok as [-> Hok].
  apply Ok_inj in Hok; injection Hok as <- <- <-.
  pose proof (frame (r := release_order_if_filled _ _ _) _ Hrel) as Hterms. cbv beta in Hterms.
  injection Hterms as Hauth _ _ _.
  assert (n < length (User.orders u1))%nat as Hlt by (rewrite Hos; by eapply lookup_lt_Some).
  apply (release_order_if_filled_orders _ _ _ o1) in Hrel; [|by apply list_lookup_insert_eq].
  eexists _, _. split; [reflexivity|]. split; [by split_and!|]. split; [by split_and!|].
  rewrite Hrel. cbn. by rewrite list_insert_insert_eq, Hos.
Qed.

(** C10. A fill is recorded by a trade and an order that agree: on the amounts, the fee, the
    market and the trade's number.  The order of the record is the user's open order of the
    id with the fill added to it, which the user keeps unless nothing is left or it is a
    market order.  When nothing is filled, neither is recorded. *)
Theorem fill_order_recorded id st ost users uk mm bm om oracle fk referrer clock l users' mm' om'
    x :
  fill_order_emits id st ost users uk mm bm om oracle fk referrer clock
    = (l, Ok (users', mm', om', x)) →
  ∃ u u' n o, users !! uk = Some (Loaded u) ∧ users' !! uk = Some (Loaded u')
    ∧ u.(User.orders) !! n = Some o ∧ o.(Order.order_id) = id ∧ o.(Order.status) = Open
    ∧ if x =? 0 then
        trades l = [] ∧ order_records l = [] ∧ u'.(User.orders) = u.(User.orders)
      else ∃ t r, trades l = [t] ∧ order_records l = [r]
             ∧ records_fill u' uk fk o clock.(Clock.unix_timestamp) x t r ∧ order_filled o r
             ∧ u'.(User.orders) = <[n := kept_order r.(OrderRecord.order)]> u.(User.orders).
Proof.
  intros Hok. unfold fill_order_emits in Hok. cbv zeta in Hok.
  apply then_quiet_ok in Hok as ([u us] & Hu & Hok). apply load_cell_mut_ok in Hu as [Hu ->].
  apply then_ok in Hok as (u1 & l1 & l2 & Hf & Hok & ->).
  pose proof (logged (m := settle_funding_payment_emits _ _ _ _) _ _ Hf) as Hl1.
  apply emits_erase in Hf. rewrite settle_funding_payment_erase in Hf.
  apply settle_funding_wf in Hf as (Hos & _ & _).
  apply then_quiet_ok in Hok as (n & Hn & Hok). apply ok_or_ok, iter_position_some in Hn
    as (o & Hn & Hid & _). apply Z.eqb_eq in Hid.
  apply then_quiet_ok in Hok as (o0 & Ho & Hok). apply unwrap_ok in Ho.
  assert (o0 = o) as -> by congruence.
  destruct (bool_decide (Order.status o ≠ Open)) eqn:Hopen; [done|].
  apply bool_decide_eq_false, dec_stable in Hopen.
  apply then_quiet_ok in Hok as ([m mmb] & _ & Hok).
  apply then_quiet_ok in Hok as ([m1 [[[mark spread] valid] price]] & _ & Hok).
  apply then_quiet_ok in Hok as ([[[u2 mm2] om2] fill] & Hexec & Hok).
  apply (execute_order_inv _ _ _ _ _ _ _ _ _ _ _ _ _ o) in Hexec as (Hos2 & _); [|done].
  rewrite Hos in Hos2, Hn. exists u.
  rewrite trades_app, order_records_app, (only_trades _ _ Hl1), (only_orders _ _ Hl1)
    by set_solver. cbn [app].
  destruct (Z.eqb_spec (fill_base fill) 0).
  - apply quiet_ok in Hok as [-> Hok]. apply Ok_inj in Hok; injection Hok as <- <- <- <-.
    exists u2, n, o. unfold drop_mut. by rewrite lookup_insert_eq.
  - apply then_quiet_ok in Hok as ([om3 [after price']] & _ & Hok).
    apply then_ok in Hok as ([[us3 u3] mm3] & l3 & l4 & Hsf & Hok & ->).
    apply then_quiet_ok in Hok as ([m3 mmb'] & _ & Hok).
    apply then_ok in Hok as (m4 & l5 & l6 & Hfr & Hok & ->).
    pose proof (logged (m := update_funding_rate_emits _ _ _ _ _ _ _ _) _ _ Hfr) as Hl5.
    apply quiet_ok in Hok as [-> Hok]. apply Ok_inj in Hok; injection Hok as <- <- <- <-.
    apply settle_fill_recorded in Hsf as (t & r & -> & Hrec & Hr & Hos3); [|by rewrite Hos2].
    exists u3, n, o. rewrite (proj2 (Z.eqb_neq (fill_base fill) 0)) by done.
    rewrite app_nil_r, trades_app, order_records_app, (only_trades _ _ Hl5),
      (only_orders _ _ Hl5), <-Hos2 by set_solver.
    unfold drop_mut. rewrite lookup_insert_eq, Hos2. rewrite Hos2 in Hos3.
    do 5 (split; [done|]). by exists t, r.
Qed.
End Fills.

(** ** Liquidations *)

(** The trade of a liquidation: of the user that is liquidated, without a fee. *)
Definition records_close (key authority now : Z) (t : TradeRecord) : Prop :=
  t.(TradeRecord.ts) = now ∧ t.(TradeRecord.user) = key
  ∧ t.(TradeRecord.user_authority) = authority ∧ t.(TradeRecord.liquidation) = true
  ∧ t.(TradeRecord.fee) = 0.

(** The trades of a log close as much as the progress has counted. *)
Definition closes (key authority now : Z) (l : list Event) (a b : Progress) : Prop :=
  Forall (records_close key authority now) (trades l)
  ∧ b.(liquidated_user).(User.authority) = authority
  ∧ b.(base_asset_value_closed)
    = a.(base_asset_value_closed) + sum_of TradeRecord.quote_asset_amount (trades l).

Section Liquidations.
Context `{BnLib} `{OracleAccounts} `{TokenProgram}.

#[local] Instance record_liquidation_recorded a m ms u key now d b status k v q pnl req fee base
    coll always :
  Logged (record_liquidation_emits a m ms u key now d b status k v q pnl req fee base coll
            always)
    (λ l r, ∃ t, l = [ETrade t] ∧ records_close key u.(User.authority) now t
                 ∧ t.(TradeRecord.quote_asset_amount) = q
                 ∧ r.1.(liquidated_user).(User.authority) = u.(User.authority)
                 ∧ r.1.(base_asset_value_closed) = v).
Proof.
  intros l r Hok. unfold record_liquidation_emits in Hok. cbv zeta in Hok.
  log_steps. cbn [app fst liquidated_user base_asset_value_closed].
  match goal with Hu : user_terms _ = user_terms _ |- _ => injection Hu as Hu _ _ _ end.
  eexists. split; [reflexivity|]. by split_and!.
Qed.

Lemma closes_nothing key now a b :
  b.(liquidated_user) = a.(liquidated_user) →
  b.(base_asset_value_closed) = a.(base_asset_value_closed) →
  closes key a.(liquidated_user).(User.authority) now [] a b.
Proof. intros Hu Hv. split; [by constructor|]. rewrite Hu, Hv. split; [done|]. unfold sum_of. cbn. lia. Qed.

Lemma closes_one key now authority a b t v :
  records_close key authority now t →
  v = a.(base_asset_value_closed) + t.(TradeRecord.quote_asset_amount) →
  b.(liquidated_user).(User.authority) = authority → b.(base_asset_value_closed) = v →
  closes key authority now [ETrade t] a b.
Proof.
  intros Ht -> Hb Hv. split; [by apply Forall_singleton|].
  split; [done|]. rewrite Hv. unfold sum_of. cbn. lia.
Qed.

Lemma closes_trans key authority now l1 l2 a b c :
  closes key authority now l1 a b → closes key authority now l2 b c →
  closes key authority now (l1 ++ l2) a c.
Proof.
  intros (Hl1 & _ & Hv1) (Hl2 & Hc & Hv2). unfold closes. rewrite trades_app. split_and!.
  - by apply Forall_app.
  - done.
  - rewrite sum_of_app. lia.
Qed.

#[local] Instance cadd_sum t x y : Frame (cadd t x y) (λ r, r = x + y).
Proof. by intros r [-> _]%cadd_ok. Qed.

Ltac one_close :=
  match goal with Hl : ∃ _, _ |- _ => destruct Hl as (? & -> & ? & <- & ? & <-) end;
  eapply closes_one; [eassumption|eassumption|eassumption|reflexivity].

#[local] Instance full_liquidation_step_recorded st key now dust fee value coll a status :
  Logged (full_liquidation_step_emits st key now dust fee value coll a status)
    (λ l r, closes key a.(liquidated_user).(User.authority) now l a r.1).
Proof.
  intros l r Hok. unfold full_liquidation_step_emits in Hok. cbv zeta in Hok.
  log_steps; cbn [fst app]; first [one_close|by apply closes_nothing].
Qed.

#[local] Instance partial_liquidation_step_recorded st key now fee closed coll a status :
  Logged (partial_liquidation_step_emits st key now fee closed coll a status)
    (λ l r, closes key a.(liquidated_user).(User.authority) now l a r.1).
Proof.
  intros l r Hok. unfold partial_liquidation_step_emits in Hok. cbv zeta in Hok.
  log_steps; cbn [fst app]; first [one_close|by apply closes_nothing].
Qed.

Lemma liquidate_positions_recorded st u key mm now status l p :
  liquidate_positions_emits st u key mm now status = (l, Ok p) →
  Forall (records_close key u.(User.authority) now) (trades l)
  ∧ p.(liquidated_user).(User.authority) = u.(User.authority)
  ∧ p.(base_asset_value_closed) = sum_of TradeRecord.quote_asset_amount (trades l).
Proof.
  intros Hok. unfold liquidate_positions_emits in Hok. cbv zeta in Hok.
  set (start := mk_progress u mm 0 0 _) in *.
  cut (closes key u.(User.authority) now ([] ++ l) start p); [done|].
  pose proof (closes_nothing key now start start eq_refl eq_refl) as Hstart.
  destruct (is_full_liquidation status);
    repeat (apply then_ok in Hok as (? & ? & ? & Hx & Hok & ->);
            apply quiet_ok in Hx as [-> _]; cbn [app] in Hok |- *);
    refine (loop_emits_logged _ (λ l b, closes key u.(User.authority) now l start b) [] _ _ _ _ _
              Hstart Hok);
    intros l1 b status1 l2 b1 stop Hb Hs; apply logged in Hs;
    (eapply closes_trans; [exact Hb|]); destruct Hb as (_ & <- & _); exact Hs.
Qed.

#[local] Instance pay_liquidator_owner users bm u key liquidator fee :
  Frame (pay_liquidator users bm u key liquidator fee) (λ r, user_owner r.2 = user_owner u).
Proof. intros r Hok. unfold pay_liquidator in Hok. by frame_steps. Qed.

(** What the record of a liquidation tells, given the trades that it made: they are the
    user's, without fees, and close the value that is recorded; the fee is split between
    the liquidator and the insurance fund. *)
Definition records_liquidation (key liquidator now : Z) (ts : list TradeRecord)
    (r : LiquidationRecord) : Prop :=
  r.(LiquidationRecord.ts) = now ∧ r.(LiquidationRecord.user) = key
  ∧ r.(LiquidationRecord.liquidator) = liquidator
  ∧ Forall (records_close key r.(LiquidationRecord.user_authority) now) ts
  ∧ r.(LiquidationRecord.base_asset_value_closed)
    = sum_of TradeRecord.quote_asset_amount ts
  ∧ r.(LiquidationRecord.base_asset_value_closed) ≠ 0
  ∧ r.(LiquidationRecord.fee_to_liquidator) + r.(LiquidationRecord.fee_to_insurance_fund)
    = r.(LiquidationRecord.liquidation_fee).

Lemma liquidate_records st users bm mm om ledger key liquidator vault insurance auth clock l users'
    bm' mm' ledger' :
  liquidate_emits st users bm mm om ledger key liquidator vault insurance auth clock
    = (l, Ok (users', bm', mm', ledger')) →
  ∃ l1 l2 r u u', l = l1 ++ l2 ++ [ELiquidation r] ∧ only [PaymentKind] l1 ∧ only [TradeKind] l2
    ∧ users !! key = Some (Loaded u) ∧ users' !! key = Some (Loaded u')
    ∧ records_liquidation key liquidator clock.(Clock.unix_timestamp) (trades l2) r
    ∧ r.(LiquidationRecord.user_authority) = u.(User.authority)
    ∧ u'.(User.authority) = u.(User.authority)
    ∧ if 0 <? r.(LiquidationRecord.fee_to_insurance_fund) then
        ∃ nonce, token_transfer (BankVaultSigns 0 nonce) ledger vault insurance auth
                   r.(LiquidationRecord.fee_to_insurance_fund) = Some ledger'
      else ledger' = ledger.
Proof.
  intros Hok. unfold liquidate_emits in Hok. cbv zeta in Hok.
  apply then_quiet_ok in Hok as ([] & _ & Hok). apply then_quiet_ok in Hok as ([u us] & Hu & Hok).
  apply load_cell_mut_ok in Hu as [Hu ->].
  apply then_ok in Hok as (u1 & l1 & l2 & Hf & Hok & ->).
  pose proof (logged (m := settle_funding_payment_emits _ _ _ _) _ _ Hf) as Hl1.
  apply emits_erase in Hf. rewrite settle_funding_payment_erase in Hf.
  pose proof (frame (r := settle_funding_payment _ _) _ Hf) as Hu1%terms_owner.
  apply then_quiet_ok in Hok as ([om1 status] & _ & Hok).
  apply then_quiet_ok in Hok as (bank & _ & Hok). apply then_quiet_ok in Hok as (k & _ & Hok).
  apply then_quiet_ok in Hok as (b & _ & Hok). apply then_quiet_ok in Hok as (coll & _ & Hok).
  destruct (bool_decide (_ = NONE)); [done|].
  apply then_ok in Hok as (p & l3 & l4 & Hp & Hok & ->).
  pose proof (logged (m := liquidate_positions_emits _ _ _ _ _ _) _ _ Hp) as Hl3.
  apply liquidate_positions_recorded in Hp as (Hcl & Hau & Hv).
  destruct (Z.eqb_spec (base_asset_value_closed p) 0) as [|Hne]; [done|].
  apply then_quiet_ok in Hok as (amount & Hcast & Hok). apply cast_ok in Hcast as [-> _].
  apply then_quiet_ok in Hok as (tl & _ & Hok). apply then_quiet_ok in Hok as (ti & Hti & Hok).
  apply csub_ok in Hti as [-> _].
  apply then_quiet_ok in Hok as ([[us2 bm2] u2] & Hpay & Hok).
  pose proof (frame (r := pay_liquidator _ _ _ _ _ _) _ Hpay) as Hu2. cbv beta in Hu2.
  apply then_quiet_ok in Hok as ([bank1 bs1] & _ & Hok). apply then_quiet_ok in Hok as (k1 & _ & Hok).
  apply then_quiet_ok in Hok as ([bank2 u3] & Hup & Hok).
  pose proof (frame (r := update_user_bank_balance _ _ _ _ _) _ Hup) as Hu3. cbv beta in Hu3.
  assert (u3.(User.authority) = u.(User.authority) ∧ u1.(User.authority) = u.(User.authority))
    as [Ha3 Ha1] by (unfold user_owner in *; cbn [snd] in *; split; congruence).
  apply then_quiet_ok in Hok as (led & Ht & Hok). apply then_emit_ok in Hok as (l5 & Hok & ->).
  apply quiet_ok in Hok as [-> Hok]. apply Ok_inj in Hok; injection Hok as <- <- <- <-.
  eexists l1, l3, _, u, u3. split; [reflexivity|]. do 2 (split; [done|]). split; [done|].
  split; [unfold drop_mut; by rewrite lookup_insert_eq|]. cbn.
  split_and!; [|done|done|].
  - rewrite Ha1 in Hcl. split_and!; cbn; try done; [by rewrite Ha3|lia].
  - destruct (0 <? _); [|by apply Ok_inj in Ht].
    apply bind_ok in Ht as (b0 & _ & Ht). apply unwrap_ok in Ht. by eexists.
Qed.

(** C11. A liquidation emits one record of itself and one of each trade.  The trades close, to
    the unit, the value of the record; its fee is what the liquidator and the insurance
    fund get, and the tokens that leave the bank's vault are exactly the insurance fund's
    part.  The authority of the records is that of the user, which keeps it. *)
Theorem liquidation_recorded st users bm mm om ledger key liquidator vault insurance auth clock l
    users' bm' mm' ledger' :
  liquidate_emits st users bm mm om ledger key liquidator vault insurance auth clock
    = (l, Ok (users', bm', mm', ledger')) →
  ∃ r u u', liquidations l = [r] ∧ users !! key = Some (Loaded u)
    ∧ users' !! key = Some (Loaded u')
    ∧ records_liquidation key liquidator clock.(Clock.unix_timestamp) (trades l) r
    ∧ r.(LiquidationRecord.user_authority) = u.(User.authority)
    ∧ u'.(User.authority) = u.(User.authority)
    ∧ deposits l = [] ∧ order_records l = []
    ∧ if 0 <? r.(LiquidationRecord.fee_to_insurance_fund) then
        ∃ nonce, token_transfer (BankVaultSigns 0 nonce) ledger vault insurance auth
                   r.(LiquidationRecord.fee_to_insurance_fund) = Some ledger'
      else ledger' = ledger.
Proof.
  intros Hok. pose proof (logged (m := liquidate_emits _ _ _ _ _ _ _ _ _ _ _ _) _ _ Hok) as Hl.
  assert (deposits l = [] ∧ order_records l = []) as [Hd Ho]
    by (split; [eapply only_deposits|eapply only_orders]; [exact Hl|set_solver|exact Hl|set_solver]).
  apply liquidate_records in Hok as (l1 & l2 & r & u & u' & -> & Hl1 & Hl2 & Hu & Hu' & Hr & Ha & Ha'
    & Ht). exists r, u, u'.
  rewrite !liquidations_app, !trades_app, (only_liquidations _ _ Hl1), (only_trades _ _ Hl1),
    (only_liquidations _ _ Hl2) by set_solver. cbn. rewrite app_nil_r. by split_and!.
Qed.
End Liquidations.

(** ** Curves *)

(** The record of a change of a market's curve: it has the market before and after, and
    the fees that the market has left have paid for the cost.  Positions and fees are as
    they were; the number of the record is the market's. *)
Definition records_curve (m m' : Market) (r : CurveRecord) : Prop :=
  let a := m.(Market.amm) in
  let a' := m'.(Market.amm) in
  r.(CurveRecord.market_index) = m.(Market.market_index)
  ∧ r.(CurveRecord.record_id) = m.(Market.next_curve_record_id)
  ∧ m'.(Market.next_curve_record_id) = (get_then_update_id r.(CurveRecord.record_id)).2
  ∧ (r.(CurveRecord.peg_multiplier_before), r.(CurveRecord.sqrt_k_before),
     r.(CurveRecord.base_asset_reserve_before), r.(CurveRecord.quote_asset_reserve_before))
    = (a.(AMM.peg_multiplier), a.(AMM.sqrt_k), a.(AMM.base_asset_reserve),
       a.(AMM.quote_asset_reserve))
  ∧ (r.(CurveRecord.peg_multiplier_after), r.(CurveRecord.sqrt_k_after),
     r.(CurveRecord.base_asset_reserve_after), r.(CurveRecord.quote_asset_reserve_after))
    = (a'.(AMM.peg_multiplier), a'.(AMM.sqrt_k), a'.(AMM.base_asset_reserve),
       a'.(AMM.quote_asset_reserve))
  ∧ r.(CurveRecord.total_fee_minus_distributions)
    = a.(AMM.total_fee_minus_distributions) - r.(CurveRecord.adjustment_cost)
  ∧ a'.(AMM.total_fee_minus_distributions) = r.(CurveRecord.total_fee_minus_distributions)
  ∧ r.(CurveRecord.total_fee) = a.(AMM.total_fee) ∧ a'.(AMM.total_fee) = a.(AMM.total_fee)
  ∧ r.(CurveRecord.open_interest) = m.(Market.open_interest)
  ∧ m'.(Market.open_interest) = m.(Market.open_interest)
  ∧ r.(CurveRecord.base_asset_amount) = a.(AMM.net_base_asset_amount)
  ∧ market_base m' = market_base m.

(** What is not part of a curve. *)
Definition off_curve (m : Market) :=
  (market_base m, m.(Market.open_interest), m.(Market.market_index),
   m.(Market.next_curve_record_id), m.(Market.amm).(AMM.total_fee)).

Section Curves.
Context `{BnLib} `{OracleAccounts}.

Lemma apply_cost_paid m cost m1 b :
  apply_cost_to_market m cost = Ok (m1, b) → b = true →
  m1 = set_total_fee_minus_distributions m
         (m.(Market.amm).(AMM.total_fee_minus_distributions) - cost).
Proof.
  intros Hok Hb. unfold apply_cost_to_market, unsigned_abs in Hok. inv_ok; try done;
    f_equal; lia.
Qed.

Lemma apply_k_cost_paid m cost m1 :
  apply_k_cost m cost = Ok m1 →
  m1 = set_total_fee_minus_distributions m
         (m.(Market.amm).(AMM.total_fee_minus_distributions) - cost).
Proof.
  intros Hok. unfold apply_k_cost, unsigned_abs in Hok. cbv zeta in Hok. inv_ok;
    f_equal; lia.
Qed.

Lemma repeg_paid m oracle peg slot g m1 cost :
  repeg m oracle peg slot g = Ok (m1, cost) →
  m1 = set_peg (set_total_fee_minus_distributions m
                  (m.(Market.amm).(AMM.total_fee_minus_distributions) - cost)) peg.
Proof.
  intros Hok. unfold repeg in Hok. destruct (_ =? _); [done|].
  apply bind_ok in Hok as ([[t x] y] & _ & Hok). apply bind_ok in Hok as ([m2 c] & _ & Hok).
  apply bind_ok in Hok as ([[[v1 v2] v3] v4] & _ & Hok).
  destruct (negb v1), (negb v2), (negb v3), (negb v4); try done.
  apply bind_ok in Hok as ([m3 paid] & Hpay & Hok). destruct paid; [|done].
  apply apply_cost_paid in Hpay as ->; [|done]. by apply Ok_inj in Hok; injection Hok as <- <-.
Qed.

Lemma update_k_off m k m' r :
  update_k m k = (m', r) →
  off_curve m' = off_curve m
  ∧ m'.(Market.amm).(AMM.total_fee_minus_distributions)
    = m.(Market.amm).(AMM.total_fee_minus_distributions)
  ∧ m'.(Market.amm).(AMM.peg_multiplier) = m.(Market.amm).(AMM.peg_multiplier).
Proof.
  unfold update_k. destruct (calculate_swap_output _ _ _ _) as [[]| |]; by intros [= <- <-].
Qed.

Lemma repeg_recorded st m oracle clock peg l m' :
  repeg_amm_curve_emits st m oracle clock peg = (l, Ok m') →
  ∃ r, l = [ECurve r] ∧ records_curve m m' r ∧ r.(CurveRecord.peg_multiplier_after) = peg
    ∧ r.(CurveRecord.sqrt_k_after) = r.(CurveRecord.sqrt_k_before).
Proof.
  intros Hok. unfold repeg_amm_curve_emits in Hok.
  apply then_quiet_ok in Hok as ([] & _ & Hok). apply then_quiet_ok in Hok as ([] & _ & Hok).
  apply then_quiet_ok in Hok as ([] & _ & Hok). apply then_quiet_ok in Hok as (d & _ & Hok).
  cbv zeta in Hok. apply then_quiet_ok in Hok as ([m1 cost] & Hr & Hok).
  apply repeg_paid in Hr as ->.
  apply then_emit_ok in Hok as (l1 & Hok & ->). apply quiet_ok in Hok as [-> Hok].
  apply Ok_inj in Hok as <-. eexists. split; [reflexivity|]. by split.
Qed.

Lemma update_k_recorded st m oracle clock k l m' :
  update_k_ix_emits st m oracle clock k = (l, Ok m') →
  ∃ r, l = [ECurve r] ∧ records_curve m m' r
    ∧ r.(CurveRecord.peg_multiplier_after) = r.(CurveRecord.peg_multiplier_before).
Proof.
  intros Hok. unfold update_k_ix_emits in Hok.
  apply then_quiet_ok in Hok as ([] & _ & Hok). apply then_quiet_ok in Hok as ([] & _ & Hok).
  apply then_quiet_ok in Hok as ([] & _ & Hok). cbv zeta in Hok.
  apply then_quiet_ok in Hok as (p & _ & Hok). apply then_quiet_ok in Hok as (kr & _ & Hok).
  apply then_quiet_ok in Hok as (cost & _ & Hok). destruct (update_k m kr) as [m1 r1] eqn:Hk.
  apply update_k_off in Hk as (Hoff & Hfees & Hpeg).
  unfold off_curve in Hoff. injection Hoff as Hbl Hbs Hn Ho Hi Hid Htf.
  apply then_quiet_ok in Hok as ([] & _ & Hok). apply then_quiet_ok in Hok as (m2 & Hc & Hok).
  apply apply_k_cost_paid in Hc as ->. rewrite Hfees in Hok.
  apply then_quiet_ok in Hok as ([] & _ & Hok). apply then_quiet_ok in Hok as (d & _ & Hok).
  apply then_emit_ok in Hok as (l1 & Hok & ->). apply quiet_ok in Hok as [-> Hok].
  apply Ok_inj in Hok as <-. eexists. split; [reflexivity|]. split; [|done].
  unfold records_curve, market_base. cbn. rewrite Hbl, Hbs, Hn, Ho, Hi, Hid, Htf. by split_and!.
Qed.

(** The curve itself. *)
Definition amm_curve (a : AMM) :=
  (a.(AMM.peg_multiplier), a.(AMM.sqrt_k), a.(AMM.base_asset_reserve),
   a.(AMM.quote_asset_reserve)).
Definition curve_of (m : Market) := amm_curve m.(Market.amm).

#[local] Instance update_oracle_price_twap_curve amm now d p :
  Frame (update_oracle_price_twap amm now d p) (λ r, amm_curve r.1 = amm_curve amm).
Proof. intros r Hok. unfold update_oracle_price_twap in Hok. frame_steps; done. Qed.

(** An instruction of the administrator that emits nothing leaves the curve alone, but for
    a move of the price, which keeps the peg. *)
Lemma quiet_market_curve st m m' :
  quiet_market st m m' →
  curve_of m' = curve_of m
  ∨ m'.(Market.amm).(AMM.peg_multiplier) = m.(Market.amm).(AMM.peg_multiplier)
    ∧ ∃ base quote, move_amm_price st m base quote = Ok m'.
Proof.
  intros [base quote Hok|?? Hok|?? Hok|??? Hok|? Hok|?? Hok|? Hok|? Hok|? Hok].
  { right. split; [|by exists base, quote]. unfold move_amm_price, move_price in Hok. inv_ok.
    skip_steps Hok. done. }
  all: left; unfold curve_of.
  - unfold update_amm_oracle_twap in Hok. cbv zeta in Hok. by frame_steps.
  - unfold reset_amm_oracle_twap in Hok. by frame_steps.
  - unfold update_margin_ratio in Hok. by frame_steps.
  - unfold update_curve_update_intensity, set_amm in Hok. by frame_steps.
  - unfold update_market_oracle, set_amm in Hok. by frame_steps.
  - unfold update_market_minimum_quote_asset_trade_size, set_amm in Hok. by frame_steps.
  - unfold update_market_minimum_base_asset_trade_size, set_amm in Hok. by frame_steps.
  - unfold update_market_base_spread, set_amm in Hok. by frame_steps.
Qed.

Lemma recorded_market_curve st i m l m' :
  recorded_market st i m AdminMarket l m' →
  ∃ r, l = [ECurve r] ∧ records_curve m m' r
    ∧ (r.(CurveRecord.sqrt_k_after) = r.(CurveRecord.sqrt_k_before)
       ∨ r.(CurveRecord.peg_multiplier_after) = r.(CurveRecord.peg_multiplier_before)).
Proof.
  intros Hrec. inversion Hrec as [oracle clock peg l' m2 Hok|oracle clock k l' m2 Hok|]; subst.
  - apply repeg_recorded in Hok as (r & Hl & Hr & _ & Hk). eauto.
  - apply update_k_recorded in Hok as (r & Hl & Hr & Hp). eauto.
Qed.

(** C34. What the administrator does to the curve of a market is recorded as it is, unless it
    moves the price: an instruction of the administrator on a market changes this market
    alone, and either it emits one curve record, or it emits nothing and leaves the peg, k
    and the reserves as they are, or it is [move_amm_price], which sets the reserves and k
    without a record and keeps the peg.  The record has the curve before and after, and the
    fees that are left for the market have paid exactly the recorded cost; a recorded move
    of the peg keeps k, and a recorded change of k keeps the peg. *)
Theorem curve_changes_recorded `{TokenProgram} `{ProgramAddresses} `{Roots} w signer l w' :
  recorded w signer AdminMarket l w' →
  has_one_admin w.(World.state) signer = true
  ∧ ∃ i m m', w.(World.markets) !! i = Some (Loaded m)
    ∧ w' = w <| World.markets := <[i := Loaded m']> w.(World.markets) |>
    ∧ ((∃ r, l = [ECurve r] ∧ records_curve m m' r
          ∧ (r.(CurveRecord.sqrt_k_after) = r.(CurveRecord.sqrt_k_before)
             ∨ r.(CurveRecord.peg_multiplier_after) = r.(CurveRecord.peg_multiplier_before)))
       ∨ l = [] ∧ curve_of m' = curve_of m
       ∨ l = [] ∧ m'.(Market.amm).(AMM.peg_multiplier) = m.(Market.amm).(AMM.peg_multiplier)
         ∧ ∃ base quote, move_amm_price w.(World.state) m base quote = Ok m').
Proof.
  intros Hrec. inversion Hrec as [? ? Hnone| | | | | | | | | | | | |
    i m instr l1 m' Hadmin Hm Hr|i m m' Hadmin Hm Hq]; subst; [done| |].
  - split; [by apply Hadmin|]. exists i, m, m'. split; [done|]. split; [done|].
    left. by eapply recorded_market_curve.
  - split; [done|]. exists i, m, m'. split; [done|]. split; [done|]. right.
    apply quiet_market_curve in Hq as [Hq|[Hp Hq]]; [by left|by right].
Qed.
End Curves.
