(* ===== verification/Typing.v ===== *)
(** * Values of their types

    What a computation guarantees of the types of its result, and the automation that
    goes through the steps of a computation and shows it.  The hints [typed] have the
    types of the fields of every account. *)

From stdpp Require Import base numbers list gmap.
From S2P Require Import Prelude Constants Bn State OrderValidation Orders.
Local Open Scope Z_scope.

(** ** Judgements *)

(** What a computation tells of its result; the instances are about types. *)
Class Typed {A} (r : result A) (P : A → Prop) : Prop := typed : ∀ a, r = Ok a → P a.
#[global] Hint Mode Typed - ! - : typeclass_instances.

Create HintDb typed.
#[export] Hint Constants Opaque : typed.
#[export] Hint Variables Opaque : typed.

(** A closed literal has a type when the comparison of its bounds says so. *)
Lemma literal_typed t z : in_range t z = true → has_type t z.
Proof. apply in_range_true. Qed.

Lemma min_typed t a b : has_type t a → has_type t b → has_type t (Z.min a b).
Proof. unfold has_type. lia. Qed.
Lemma max_typed t a b : has_type t a → has_type t b → has_type t (Z.max a b).
Proof. unfold has_type. lia. Qed.
Lemma unsigned_abs_typed z : has_type I128 z → has_type U128 (unsigned_abs z).
Proof. unfold has_type, unsigned_abs. cbn [int_min int_max]. lia. Qed.
Lemma if_typed t (c : bool) a b : has_type t a → has_type t b → has_type t (if c then a else b).
Proof. by destruct c. Qed.

#[export] Hint Resolve wrap_range min_typed max_typed unsigned_abs_typed if_typed : typed.

Ltac literal :=
  match goal with |- has_type _ ?z =>
    let z' := eval vm_compute in z in
    match z' with Z0 => idtac | Zpos _ => idtac | Zneg _ => idtac end;
    apply literal_typed; vm_compute; reflexivity
  end.
#[export] Hint Extern 3 (has_type _ _) => literal : typed.

#[export] Hint Resolve OraclePriceData.price_ty OraclePriceData.confidence_ty
  OraclePriceData.delay_ty PNLPool.balance_ty AMM.base_asset_reserve_ty
  AMM.quote_asset_reserve_ty AMM.terminal_quote_asset_reserve_ty
  AMM.cumulative_repeg_rebate_long_ty AMM.cumulative_repeg_rebate_short_ty
  AMM.cumulative_funding_rate_long_ty AMM.cumulative_funding_rate_short_ty
  AMM.cumulative_funding_rate_lp_ty AMM.last_funding_rate_ty AMM.last_funding_rate_ts_ty
  AMM.funding_period_ty AMM.last_oracle_price_twap_ty AMM.last_mark_price_twap_ty
  AMM.last_mark_price_twap_ts_ty AMM.sqrt_k_ty AMM.peg_multiplier_ty AMM.total_fee_ty
  AMM.total_fee_minus_distributions_ty AMM.total_mm_fee_ty AMM.total_exchange_fee_ty
  AMM.net_revenue_since_last_funding_ty AMM.total_fee_withdrawn_ty
  AMM.minimum_quote_asset_trade_size_ty AMM.last_oracle_price_twap_ts_ty
  AMM.last_oracle_normalised_price_ty AMM.last_oracle_price_ty AMM.last_oracle_conf_ty
  AMM.last_oracle_delay_ty AMM.last_oracle_mark_spread_pct_ty
  AMM.minimum_base_asset_trade_size_ty AMM.base_spread_ty AMM.long_spread_ty AMM.short_spread_ty
  AMM.last_bid_price_twap_ty AMM.last_ask_price_twap_ty AMM.net_base_asset_amount_ty
  AMM.quote_asset_amount_long_ty AMM.quote_asset_amount_short_ty AMM.mark_std_ty
  AMM.long_intensity_time_ty AMM.long_intensity_count_ty AMM.long_intensity_volume_ty
  AMM.short_intensity_time_ty AMM.short_intensity_count_ty AMM.short_intensity_volume_ty
  AMM.curve_update_intensity_ty Market.market_index_ty Market.base_asset_amount_long_ty
  Market.base_asset_amount_short_ty Market.open_interest_ty Market.margin_ratio_initial_ty
  Market.margin_ratio_partial_ty Market.margin_ratio_maintenance_ty
  Market.next_trade_record_id_ty Market.next_funding_rate_record_id_ty
  Market.next_curve_record_id_ty Market.amm_ty Market.pnl_pool_ty UserBankBalance.bank_index_ty
  UserBankBalance.balance_ty MarketPosition.market_index_ty MarketPosition.base_asset_amount_ty
  MarketPosition.quote_asset_amount_ty MarketPosition.last_cumulative_funding_rate_ty
  MarketPosition.last_cumulative_repeg_rebate_ty MarketPosition.last_funding_rate_ts_ty
  MarketPosition.open_orders_ty MarketPosition.unsettled_pnl_ty Order.ts_ty Order.order_id_ty
  Order.user_order_id_ty Order.market_index_ty Order.price_ty Order.user_base_asset_amount_ty
  Order.quote_asset_amount_ty Order.base_asset_amount_ty Order.base_asset_amount_filled_ty
  Order.quote_asset_amount_filled_ty Order.fee_ty Order.trigger_price_ty
  Order.oracle_price_offset_ty User.user_id_ty User.total_fee_paid_ty User.total_fee_rebate_ty
  User.total_token_discount_ty User.total_referral_reward_ty User.total_referee_discount_ty
  User.next_order_id_ty User.bank_balances_ty User.positions_ty User.orders_ty
  Bank.bank_index_ty Bank.vault_authority_nonce_ty Bank.decimals_ty Bank.optimal_utilization_ty
  Bank.optimal_borrow_rate_ty Bank.max_borrow_rate_ty Bank.deposit_balance_ty
  Bank.borrow_balance_ty Bank.cumulative_deposit_interest_ty Bank.cumulative_borrow_interest_ty
  Bank.last_updated_ty Bank.initial_asset_weight_ty Bank.maintenance_asset_weight_ty
  Bank.initial_liability_weight_ty Bank.maintenance_liability_weight_ty
  PriceDivergenceGuardRails.mark_oracle_divergence_numerator_ty
  PriceDivergenceGuardRails.mark_oracle_divergence_denominator_ty
  ValidityGuardRails.slots_before_stale_ty ValidityGuardRails.confidence_interval_max_size_ty
  ValidityGuardRails.too_volatile_ratio_ty OracleGuardRails.price_divergence_ty
  OracleGuardRails.validity_ty DiscountTokenTier.minimum_balance_ty
  DiscountTokenTier.discount_numerator_ty DiscountTokenTier.discount_denominator_ty
  DiscountTokenTiers.first_tier_ty DiscountTokenTiers.second_tier_ty
  DiscountTokenTiers.third_tier_ty DiscountTokenTiers.fourth_tier_ty
  ReferralDiscount.referrer_reward_numerator_ty ReferralDiscount.referrer_reward_denominator_ty
  ReferralDiscount.referee_discount_numerator_ty
  ReferralDiscount.referee_discount_denominator_ty FeeStructure.fee_numerator_ty
  FeeStructure.fee_denominator_ty FeeStructure.discount_token_tiers_ty
  FeeStructure.referral_discount_ty State.insurance_vault_nonce_ty State.margin_ratio_initial_ty
  State.margin_ratio_maintenance_ty State.margin_ratio_partial_ty
  State.partial_liquidation_close_percentage_numerator_ty
  State.partial_liquidation_close_percentage_denominator_ty
  State.partial_liquidation_penalty_percentage_numerator_ty
  State.partial_liquidation_penalty_percentage_denominator_ty
  State.full_liquidation_penalty_percentage_numerator_ty
  State.full_liquidation_penalty_percentage_denominator_ty
  State.partial_liquidation_liquidator_share_denominator_ty
  State.full_liquidation_liquidator_share_denominator_ty State.number_of_markets_ty
  State.number_of_banks_ty State.fee_structure_ty State.oracle_guard_rails_ty
  OrderFillerRewardStructure.reward_numerator_ty
  OrderFillerRewardStructure.reward_denominator_ty
  OrderFillerRewardStructure.time_based_reward_lower_bound_ty
  Clock.unix_timestamp_ty OrderParams.user_order_id_ty OrderParams.quote_asset_amount_ty
  OrderParams.base_asset_amount_ty OrderParams.price_ty OrderParams.market_index_ty
  OrderParams.trigger_price_ty OrderParams.oracle_price_offset_ty
  OrderState.min_order_quote_asset_amount_ty OrderState.order_filler_reward_structure_ty : typed.

(** ** Automation *)

(** Uses what a step tells as soon as its premises are known. *)
Ltac use_typed F :=
  repeat match type of F with ?P → _ =>
    let p := fresh in assert (p : P) by (solve [eauto 3 with typed nocore]);
    specialize (F p); clear p end.

(** Goes through the steps of a computation. *)
Ltac type_step :=
  match goal with
  | H : _ ∧ _ |- _ => destruct H
  | H : Ok _ = Ok _ |- _ => apply Ok_inj in H; (first [injection H as | idtac]); subst
  | H : Err _ = Ok _ |- _ => discriminate H
  | H : Panic = Ok _ |- _ => discriminate H
  | H : bind _ _ = Ok _ |- _ =>
      apply bind_ok in H as (? & ? & H); cbv beta in H; move H at top
  | H : (let '(_, _) := ?p in _) = Ok _ |- _ => first [is_var p; destruct p | destruct p eqn:?]
  | H : (let '() := ?u in _) = Ok _ |- _ => destruct u
  | H : (if ?b then _ else _) = Ok _ |- _ => destruct b
  | H : match ?x with _ => _ end = Ok _ |- _ => is_var x; destruct x
  | H : ?r = Ok _ |- _ => let F := fresh "Ht" in pose proof (typed (r := r) _ H) as F;
                          cbv beta in F; cbn [fst snd] in F; clear H; use_typed F
  | H : _ = Ok _ |- _ => clear H
  end.
Ltac type_steps := repeat type_step.

Arguments get_then_update_id : simpl never.

(** The fields of a record. *)
Ltac type_fields := split; cbn; eauto 3 with typed nocore.

(** An update of a record, which has the type of its fields. *)
Ltac put_typed := solve [split; cbn; eauto 4 with typed nocore].
#[export] Hint Extern 4 (AMM.typed (put _ _)) => put_typed : typed.
#[export] Hint Extern 4 (Market.typed (put _ _)) => put_typed : typed.
#[export] Hint Extern 4 (MarketPosition.typed (put _ _)) => put_typed : typed.
#[export] Hint Extern 4 (Order.typed (put _ _)) => put_typed : typed.
#[export] Hint Extern 4 (User.typed (put _ _)) => put_typed : typed.
#[export] Hint Extern 4 (UserBankBalance.typed (put _ _)) => put_typed : typed.
#[export] Hint Extern 4 (Bank.typed (put _ _)) => put_typed : typed.
#[export] Hint Extern 4 (State.typed (put _ _)) => put_typed : typed.
#[export] Hint Extern 4 (PNLPool.typed _) => put_typed : typed.
#[export] Hint Resolve User.bank_balances_len User.positions_len User.orders_len : typed.

(** A step of the automation for the instances: the types of [f], by its steps. *)
Ltac finish_typed :=
  cbn [fst snd];
  repeat match goal with
         | |- _ ∧ _ => split
         | |- context [if ?b then _ else _] => destruct b
         end;
  first [solve [eauto 4 with typed nocore] | solve [type_fields]
        | eauto 9 with typed nocore].
Tactic Notation "typed_by" reference(f) :=
  intros r Hok; intros; unfold f in Hok; cbv zeta in Hok; type_steps; finish_typed.

(** ** The arithmetic of the program *)

#[export] Instance cadd_typed t a b : Typed (cadd t a b) (λ r, has_type t r).
Proof. by intros r [-> ?]%cadd_ok. Qed.
#[export] Instance csub_typed t a b : Typed (csub t a b) (λ r, has_type t r).
Proof. by intros r [-> ?]%csub_ok. Qed.
#[export] Instance cmul_typed t a b : Typed (cmul t a b) (λ r, has_type t r).
Proof. by intros r [-> ?]%cmul_ok. Qed.
#[export] Instance cdiv_typed t a b : Typed (cdiv t a b) (λ r, has_type t r).
Proof. by intros r (_ & -> & ?)%cdiv_ok. Qed.
#[export] Instance op_div_typed t a b : Typed (op_div t a b) (λ r, has_type t r).
Proof. intros r [_ ->]%op_div_ok. apply wrap_range. Qed.
#[export] Instance cast_typed t z : Typed (cast t z) (λ r, has_type t r).
Proof. by intros r [-> ?]%cast_ok. Qed.
#[export] Instance cast_to_i128_typed z : Typed (cast_to_i128 z) (λ r, has_type I128 r).
Proof. apply cast_typed. Qed.
#[export] Instance cast_to_u128_typed z : Typed (cast_to_u128 z) (λ r, has_type U128 r).
Proof. apply cast_typed. Qed.
#[export] Instance cast_to_i64_typed z : Typed (cast_to_i64 z) (λ r, has_type I64 r).
Proof. apply cast_typed. Qed.
#[export] Instance cast_to_u64_typed z : Typed (cast_to_u64 z) (λ r, has_type U64 r).
Proof. apply cast_typed. Qed.

#[export] Instance unwrap_result_typed {A} (r : result A) P :
  Typed r P → Typed (unwrap_result r) P.
Proof. intros Hr a Ha. apply Hr. by apply unwrap_result_ok. Qed.

(** Conversions of big integers give values of the type. *)
Class BnTypes `{BnLib} : Prop :=
  bn_try_into_typed w t z r : bn_try_into w t z = Some r → has_type t r.
#[export] Instance Z_bn_types : BnTypes.
Proof. intros w t z r Hr. by apply checked_some in Hr as [-> ?]. Qed.

#[export] Instance try_to_u128_typed `{BnTypes} w z :
  Typed (try_to_u128 w z) (λ r, has_type U128 r).
Proof. intros r Hr%ok_or_ok. by eapply bn_try_into_typed. Qed.

Lemma next_id_typed z n i : get_then_update_id z = (n, i) → has_type U64 i.
Proof.
  unfold get_then_update_id. intros [= _ <-]. destruct (checked_add U64 z 1) as [r|] eqn:Hr.
  - by apply checked_some in Hr as [-> ?].
  - by apply literal_typed.
Qed.

Lemma this_id_typed z n i : get_then_update_id z = (n, i) → has_type U64 z → has_type U64 n.
Proof. by intros [= <- _]. Qed.
