(* ===== verification/TypedCurves.v ===== *)
(** * The types of curves

    The functions that change a market's curve, its averages and its funding keep the
    market's numbers within their types. *)

From stdpp Require Import base numbers list gmap.
From S2P Require Import Prelude Constants Bn State Value AmmMath Twap Oracle Maps.
From S2P Require Import PositionMath CurveMath Repeg AmmController OrdersMath Funding Typing.
Local Open Scope Z_scope.
#[local] Hint Constants Opaque : typeclass_instances.

Section Curves.
Context `{BnTypes} `{OracleAccounts}.

(** ** Prices and swaps *)

#[export] Instance calculate_price_typed q b peg :
  Typed (calculate_price q b peg) (λ r, has_type U128 r).
Proof. typed_by calculate_price. Qed.

#[export] Instance mark_price_typed amm : Typed (mark_price amm) (λ r, has_type U128 r).
Proof. typed_by mark_price. Qed.

#[export] Instance bid_ask_price_typed amm p :
  Typed (bid_ask_price amm p) (λ r, has_type U128 r.1 ∧ has_type U128 r.2).
Proof. typed_by bid_ask_price. Qed.

#[export] Instance calculate_swap_output_typed x y d k :
  Typed (calculate_swap_output x y d k) (λ r, has_type U128 r.1 ∧ has_type U128 r.2).
Proof. typed_by calculate_swap_output. Qed.

#[export] Instance reserve_to_asset_amount_typed q peg :
  Typed (reserve_to_asset_amount q peg) (λ r, has_type U128 r).
Proof. typed_by reserve_to_asset_amount. Qed.

#[export] Instance calculate_quote_asset_amount_swapped_typed q0 q1 d peg :
  Typed (calculate_quote_asset_amount_swapped q0 q1 d peg) (λ r, has_type U128 r).
Proof. typed_by calculate_quote_asset_amount_swapped. Qed.

#[export] Instance calculate_quote_asset_amount_surplus_typed q0 q1 d peg q down :
  Typed (calculate_quote_asset_amount_surplus q0 q1 d peg q down) (λ r, has_type U128 r).
Proof. typed_by calculate_quote_asset_amount_surplus. Qed.

#[export] Instance calculate_quote_swap_output_without_spread_typed amm q d :
  Typed (calculate_quote_swap_output_without_spread amm q d)
    (λ r, has_type U128 r.1.1.1 ∧ has_type U128 r.1.1.2 ∧ has_type I128 r.1.2
          ∧ has_type U128 r.2).
Proof. typed_by calculate_quote_swap_output_without_spread. Qed.

#[export] Instance calculate_quote_swap_output_with_spread_typed amm q d :
  Typed (calculate_quote_swap_output_with_spread amm q d)
    (λ r, has_type U128 r.1.1.1 ∧ has_type U128 r.1.1.2 ∧ has_type I128 r.1.2
          ∧ has_type U128 r.2).
Proof. typed_by calculate_quote_swap_output_with_spread. Qed.

#[export] Instance calculate_base_swap_output_without_spread_typed amm x d :
  Typed (calculate_base_swap_output_without_spread amm x d)
    (λ r, has_type U128 r.1.1.1 ∧ has_type U128 r.1.1.2 ∧ has_type U128 r.1.2
          ∧ has_type U128 r.2).
Proof. typed_by calculate_base_swap_output_without_spread. Qed.

#[export] Instance calculate_base_swap_output_with_spread_typed amm x d :
  Typed (calculate_base_swap_output_with_spread amm x d)
    (λ r, has_type U128 r.1.1.1 ∧ has_type U128 r.1.1.2 ∧ has_type U128 r.1.2
          ∧ has_type U128 r.2).
Proof. typed_by calculate_base_swap_output_with_spread. Qed.

(** ** Averages *)

#[export] Instance calculate_new_twap_typed amm now p last :
  Typed (calculate_new_twap amm now p last) (λ r, has_type U128 r).
Proof. typed_by calculate_new_twap. Qed.

#[export] Instance calculate_weighted_average_typed x y v w :
  Typed (calculate_weighted_average x y v w) (λ r, has_type I128 r).
Proof. typed_by calculate_weighted_average. Qed.

Lemma mid_typed x : has_type U128 x → has_type U128 (int_quot U128 x 2).
Proof.
  unfold has_type, int_quot. cbn [is_signed int_min int_max]. intros.
  pose proof (div_nonneg_le x 2). lia.
Qed.
#[local] Hint Resolve mid_typed : typed.

#[export] Instance update_mark_twap_typed amm now p :
  Typed (update_mark_twap amm now p)
    (λ r, AMM.typed amm → has_type I64 now → AMM.typed r.1 ∧ has_type U128 r.2).
Proof. typed_by update_mark_twap. Qed.

#[export] Instance swap_quote_asset_typed amm q d now p s :
  Typed (swap_quote_asset amm q d now p s)
    (λ r, AMM.typed amm → has_type I64 now →
          AMM.typed r.1 ∧ has_type I128 r.2.1 ∧ has_type U128 r.2.2).
Proof. typed_by swap_quote_asset. Qed.

#[export] Instance swap_base_asset_typed amm x d now p s :
  Typed (swap_base_asset amm x d now p s)
    (λ r, AMM.typed amm → has_type I64 now →
          AMM.typed r.1 ∧ has_type U128 r.2.1 ∧ has_type U128 r.2.2).
Proof. typed_by swap_base_asset. Qed.

#[export] Instance move_price_typed amm b q :
  Typed (move_price amm b q)
    (λ r, AMM.typed amm → has_type U128 b → has_type U128 q → AMM.typed r).
Proof. typed_by move_price. Qed.

(** *** Oracles *)

#[export] Instance scale_price_typed p s : Typed (scale_price p s) (λ r, has_type I128 r).
Proof. typed_by scale_price. Qed.

#[export] Instance convert_switchboard_decimal_typed d :
  Typed (convert_switchboard_decimal d) (λ r, has_type I128 r).
Proof. typed_by convert_switchboard_decimal. Qed.

#[export] Instance get_pyth_price_typed a slot :
  Typed (get_pyth_price a slot) OraclePriceData.typed.
Proof. typed_by get_pyth_price. Qed.

#[export] Instance get_switchboard_price_typed a slot :
  Typed (get_switchboard_price a slot) OraclePriceData.typed.
Proof. typed_by get_switchboard_price. Qed.

#[export] Instance amm_get_oracle_price_typed amm a slot :
  Typed (amm_get_oracle_price amm a slot) OraclePriceData.typed.
Proof.
  intros r Hok. unfold amm_get_oracle_price in Hok.
  destruct (AMM.oracle_source amm); type_steps; done.
Qed.

#[export] Instance get_oracle_price_typed source a slot :
  Typed (get_oracle_price source a slot) OraclePriceData.typed.
Proof. typed_by get_oracle_price. Qed.

#[export] Instance block_operation_typed amm a slot rails p :
  Typed (block_operation amm a slot rails p) (λ r, OraclePriceData.typed r.2).
Proof. intros r Hok. unfold block_operation, get_oracle_status in Hok. by type_steps. Qed.

#[export] Instance normalise_oracle_price_typed amm d p :
  Typed (normalise_oracle_price amm d p)
    (λ r, OraclePriceData.typed d → has_type I128 r).
Proof. typed_by normalise_oracle_price. Qed.

#[export] Instance capped_oracle_update_price_typed amm x :
  Typed (capped_oracle_update_price amm x) (λ r, has_type I128 x → has_type I128 r).
Proof. typed_by capped_oracle_update_price. Qed.

#[export] Instance calculate_new_oracle_price_twap_typed amm now x :
  Typed (calculate_new_oracle_price_twap amm now x) (λ r, has_type I128 r).
Proof. typed_by calculate_new_oracle_price_twap. Qed.

#[export] Instance calculate_oracle_mark_spread_pct_typed amm d p :
  Typed (calculate_oracle_mark_spread_pct amm d p) (λ r, has_type I128 r).
Proof. typed_by calculate_oracle_mark_spread_pct. Qed.

#[export] Instance update_oracle_price_twap_typed amm now d p :
  Typed (update_oracle_price_twap amm now d p)
    (λ r, AMM.typed amm → has_type I64 now → OraclePriceData.typed d →
          AMM.typed r.1 ∧ has_type I128 r.2).
Proof. typed_by update_oracle_price_twap. Qed.

(** ** The peg and k *)

Definition k_result_typed (r : UpdateKResult) : Prop :=
  has_type U128 r.(UpdateKResult.sqrt_k)
  ∧ has_type U128 r.(UpdateKResult.base_asset_reserve)
  ∧ has_type U128 r.(UpdateKResult.quote_asset_reserve).

#[export] Instance get_update_k_result_typed m k :
  Typed (get_update_k_result m k)
    k_result_typed.
Proof.
  intros r Hok. unfold get_update_k_result in Hok. cbv zeta in Hok.
  apply bind_ok in Hok as (x & _ & Hok). apply bind_ok in Hok as (ratio & _ & Hok).
  destruct (_ <? _); [done|]. apply bind_ok in Hok as (k' & Hk & Hok).
  apply (proj1 (unwrap_result_ok _ _)) in Hk. type_steps. by split_and!.
Qed.

Lemma update_k_typed m k m' r :
  update_k m k = (m', r) → k_result_typed k → Market.typed m → Market.typed m'.
Proof.
  intros Hok (Hk & Hb & Hq) Hm. unfold update_k in Hok.
  assert (AMM.typed (set_k m k).(Market.amm)) as Hset by (type_fields).
  destruct (calculate_swap_output _ _ _ _) as [[q b]| |] eqn:Hs; injection Hok as <- _;
    [|type_fields..].
  apply typed in Hs as [Hq' _]. type_fields.
Qed.

Lemma set_peg_typed m peg : Market.typed m → has_type U128 peg → Market.typed (set_peg m peg).
Proof. intros. type_fields. Qed.

Lemma set_fees_typed m x :
  Market.typed m → has_type U128 x → Market.typed (set_total_fee_minus_distributions m x).
Proof. intros. type_fields. Qed.
#[local] Hint Resolve set_peg_typed set_fees_typed update_k_typed : typed.

#[export] Instance adjust_peg_cost_typed m peg :
  Typed (adjust_peg_cost m peg)
    (λ r, Market.typed m → has_type U128 peg → Market.typed r.1).
Proof. typed_by adjust_peg_cost. Qed.

#[export] Instance apply_cost_to_market_typed m c :
  Typed (apply_cost_to_market m c) (λ r, Market.typed m → Market.typed r.1).
Proof. typed_by apply_cost_to_market. Qed.

#[export] Instance repeg_typed m a peg slot rails :
  Typed (repeg m a peg slot rails)
    (λ r, Market.typed m → has_type U128 peg → Market.typed r.1).
Proof. typed_by repeg. Qed.

#[export] Instance calculate_peg_from_target_price_typed q b p :
  Typed (calculate_peg_from_target_price q b p) (λ r, has_type U128 r).
Proof. typed_by calculate_peg_from_target_price. Qed.

#[export] Instance calculate_full_budget_peg_typed amm q budget peg :
  Typed (calculate_full_budget_peg amm q budget peg)
    (λ r, has_type U128 peg → has_type U128 r).
Proof. typed_by calculate_full_budget_peg. Qed.

#[export] Instance calculate_budgeted_peg_typed m q budget peg :
  Typed (calculate_budgeted_peg m q budget peg)
    (λ r, Market.typed m → has_type U128 peg → has_type U128 r.1.1).
Proof. typed_by calculate_budgeted_peg. Qed.

#[export] Instance prepeg_over_budget_typed m p budget peg cost :
  Typed (prepeg_over_budget m p budget peg cost)
    (λ r, Market.typed m → has_type U128 peg → Market.typed r.1.1 ∧ has_type U128 r.1.2).
Proof. typed_by prepeg_over_budget. Qed.

#[export] Instance prepeg_typed m p d budget :
  Typed (prepeg m p d budget)
    (λ r, Market.typed m → Market.typed r.1).
Proof. typed_by prepeg. Qed.

#[export] Instance formulaic_update_k_typed m c p :
  Typed (formulaic_update_k m c p) (λ r, Market.typed m → Market.typed r).
Proof. typed_by formulaic_update_k. Qed.

(** ** Funding *)

#[export] Instance _calculate_funding_payment_typed rate b :
  Typed (_calculate_funding_payment rate b) (λ r, has_type I128 r).
Proof. typed_by _calculate_funding_payment. Qed.

#[export] Instance calculate_funding_rate_typed mid p period :
  Typed (calculate_funding_rate mid p period) (λ r, has_type I128 r).
Proof. typed_by calculate_funding_rate. Qed.

#[export] Instance calculate_funding_rate_long_short_typed m rate :
  Typed (calculate_funding_rate_long_short m rate)
    (λ r, Market.typed m → Market.typed r.1).
Proof. typed_by calculate_funding_rate_long_short. Qed.

Lemma set_amm_typed m amm :
  Market.typed m → AMM.typed amm → Market.typed (m <| Market.amm := amm |>).
Proof. intros. type_fields. Qed.
#[local] Hint Resolve set_amm_typed next_id_typed this_id_typed : typed.

#[export] Instance update_funding_rate_typed m a now slot rails paused p :
  Typed (update_funding_rate m a now slot rails paused p)
    (λ r, Market.typed m → has_type I64 now → Market.typed r).
Proof. typed_by update_funding_rate. Qed.
End Curves.

#[export] Hint Resolve set_peg_typed set_fees_typed set_amm_typed next_id_typed this_id_typed
  update_k_typed : typed.
