(* ===== verification/TypedUsers.v ===== *)
(** * The types of users

    The functions that change positions and orders keep the numbers of the users and the
    markets within their types. *)

From stdpp Require Import base numbers list gmap.
From S2P Require Import Prelude Constants Bn State Value AmmMath BankBalance Twap Oracle.
From S2P Require Import Maps PositionMath CurveMath Repeg AmmController OrdersMath Position.
From S2P Require Import Funding Fees Margin OrderValidation Orders Typing TypedCurves.
Local Open Scope Z_scope.
#[local] Hint Constants Opaque : typeclass_instances.

(** ** Maps of accounts *)

(** Every account of the map that is not borrowed. *)
Definition all_typed {A} (P : A → Prop) (m : gmap Z (loader A)) : Prop :=
  ∀ i a, m !! i = Some (Loaded a) → P a.

Lemma all_typed_insert {A} (P : A → Prop) m i a :
  all_typed P m → P a → all_typed P (<[i := Loaded a]> m).
Proof. intros Hm Ha j b Hj. apply lookup_insert_Some in Hj as [[_ [= <-]]|[_ Hj]]; eauto. Qed.

Lemma all_typed_drop {A} (P : A → Prop) m i a :
  all_typed P m → P a → all_typed P (drop_mut m i a).
Proof. apply all_typed_insert. Qed.

Lemma all_typed_subset {A} (P : A → Prop) (m m' : gmap Z (loader A)) :
  m ⊆ m' → all_typed P m' → all_typed P m.
Proof. intros Hm H i a Hi. eapply H. by eapply lookup_weaken. Qed.

Lemma all_typed_union {A} (P : A → Prop) m m' :
  all_typed P m → all_typed P m' → all_typed P (m ∪ m').
Proof. intros H H' i a Hi. apply lookup_union_Some_raw in Hi as [Hi|[_ Hi]]; eauto. Qed.

#[export] Instance load_cell_typed {A} (P : A → Prop) m i e1 e2 :
  Typed (load_cell m i e1 e2) (λ a, all_typed P m → P a).
Proof.
  intros a Hok Hm. unfold load_cell in Hok. destruct (m !! i) as [[b|]|] eqn:Hi; try done.
  apply Ok_inj in Hok as <-. by eapply Hm.
Qed.

Lemma load_cell_mut_typed {A} (P : A → Prop) m i e1 e2 :
  Typed (load_cell_mut m i e1 e2) (λ r, all_typed P m → P r.1 ∧ all_typed P r.2).
Proof.
  intros [a m'] Hok Hm. unfold load_cell_mut in Hok. apply bind_ok in Hok as (b & Hb & Hok).
  apply Ok_inj in Hok. injection Hok as <- <-. split; [by eapply load_cell_typed|].
  cbn [snd]. intros j c Hj. apply lookup_insert_Some in Hj as [[_ Hj]|[_ Hj]]; [done|by eapply Hm].
Qed.

Abbreviation markets_typed := (all_typed Market.typed).
Abbreviation users_typed := (all_typed User.typed).
Abbreviation banks_typed := (all_typed Bank.typed).

#[export] Instance load_mut_typed users key :
  Typed (load_mut users key) (λ r, users_typed users → User.typed r.1 ∧ users_typed r.2).
Proof. apply load_cell_mut_typed. Qed.
#[export] Instance market_get_ref_typed mm i :
  Typed (market_get_ref mm i) (λ r, markets_typed mm → Market.typed r).
Proof. apply load_cell_typed. Qed.
#[export] Instance market_get_ref_mut_typed mm i :
  Typed (market_get_ref_mut mm i)
    (λ r, markets_typed mm → Market.typed r.1 ∧ markets_typed r.2).
Proof. apply load_cell_mut_typed. Qed.
#[export] Instance bank_get_ref_typed bm i :
  Typed (bank_get_ref bm i) (λ r, banks_typed bm → Bank.typed r).
Proof. apply load_cell_typed. Qed.
#[export] Instance bank_get_ref_mut_typed bm i :
  Typed (bank_get_ref_mut bm i) (λ r, banks_typed bm → Bank.typed r.1 ∧ banks_typed r.2).
Proof. apply load_cell_mut_typed. Qed.
#[export] Instance get_quote_asset_bank_typed bm :
  Typed (get_quote_asset_bank bm) (λ r, banks_typed bm → Bank.typed r).
Proof. apply bank_get_ref_typed. Qed.
#[export] Instance get_quote_asset_bank_mut_typed bm :
  Typed (get_quote_asset_bank_mut bm) (λ r, banks_typed bm → Bank.typed r.1 ∧ banks_typed r.2).
Proof. apply bank_get_ref_mut_typed. Qed.

#[export] Hint Resolve all_typed_insert all_typed_drop all_typed_union : typed.

(** ** Slots *)

Lemma insert_len {A} (l : list A) n k x : length l = n → length (<[k := x]> l) = n.
Proof. by rewrite length_insert. Qed.
Lemma insert_typed {A} (P : A → Prop) l k x : Forall P l → P x → Forall P (<[k := x]> l).
Proof. apply Forall_insert. Qed.
#[export] Hint Resolve insert_len insert_typed : typed.

Lemma set_position_typed u k p :
  User.typed u → MarketPosition.typed p → User.typed (set_position u k p).
Proof. intros. type_fields. Qed.
Lemma set_order_typed u k o : User.typed u → Order.typed o → User.typed (set_order u k o).
Proof. intros. type_fields. Qed.
#[export] Hint Resolve set_position_typed set_order_typed : typed.

Lemma Order_default_typed : Order.typed Order_default.
Proof. split; by apply literal_typed. Qed.
Lemma MarketPosition_default_typed : MarketPosition.typed MarketPosition_default.
Proof. split; by apply literal_typed. Qed.
#[export] Hint Resolve Order_default_typed MarketPosition_default_typed : typed.

Lemma position_typed u k p :
  User.typed u → u.(User.positions) !! k = Some p → MarketPosition.typed p.
Proof. intros Hu. eapply Forall_lookup_1. apply Hu. Qed.

#[export] Instance get_position_typed u k :
  Typed (get_position u k) (λ p, User.typed u → MarketPosition.typed p).
Proof. intros p Hp%unwrap_ok Hu. by eapply position_typed. Qed.

#[export] Instance unwrap_position_typed u k :
  Typed (unwrap (u.(User.positions) !! k)) (λ p, User.typed u → MarketPosition.typed p).
Proof. apply get_position_typed. Qed.

#[export] Instance get_order_typed u k :
  Typed (get_order u k) (λ o, User.typed u → Order.typed o).
Proof. intros o Ho%unwrap_ok Hu. eapply Forall_lookup_1; [apply Hu|done]. Qed.

Lemma set_positions_typed u ps :
  User.typed u → Forall MarketPosition.typed ps → length ps = 5%nat →
  User.typed (u <| User.positions := ps |>).
Proof. intros Hu Hps Hl. split; cbn; eauto 3 with typed nocore. Qed.

#[export] Instance get_or_add_position_typed u i :
  Typed (get_or_add_position u i) (λ r, User.typed u → has_type U64 i → User.typed r.1).
Proof.
  intros [u' k] Hok Hu Hi. unfold get_or_add_position in Hok.
  destruct (get_position_index _ i); [by apply Ok_inj in Hok; injection Hok as <- _|..];
    apply bind_ok in Hok as ([ps k'] & Hadd & Hok); apply Ok_inj in Hok; injection Hok as <- _;
    unfold add_new_position in Hadd; apply bind_ok in Hadd as (n & _ & Hadd);
    apply Ok_inj in Hadd; injection Hadd as <- _; cbn [fst];
    (apply set_positions_typed;
     [done|apply Forall_insert; [apply Hu|eauto 4 with typed nocore]
     |rewrite length_insert; apply Hu]).
Qed.

(** ** Trades *)

Section Trades.
Context `{BnTypes}.

#[export] Instance open_if_new_typed d m p :
  Typed (open_if_new d m p)
    (λ r, Market.typed m → MarketPosition.typed p →
          Market.typed r.1 ∧ MarketPosition.typed r.2).
Proof. typed_by open_if_new. Qed.

#[export] Instance add_base_asset_amount_typed m after b :
  Typed (add_base_asset_amount m after b) (λ r, Market.typed m → Market.typed r).
Proof. typed_by add_base_asset_amount. Qed.

#[export] Instance add_quote_asset_amount_typed m after q :
  Typed (add_quote_asset_amount m after q) (λ r, Market.typed m → Market.typed r).
Proof. typed_by add_quote_asset_amount. Qed.

#[export] Instance close_open_interest_typed m after :
  Typed (close_open_interest m after) (λ r, Market.typed m → Market.typed r).
Proof. typed_by close_open_interest. Qed.

#[export] Instance calculate_quote_for_maker_typed b p d :
  Typed (calculate_quote_asset_amount_for_maker_order b p d) (λ r, has_type U128 r).
Proof. typed_by calculate_quote_asset_amount_for_maker_order. Qed.

#[export] Instance maker_quote_asset_amount_surplus_typed d q b p :
  Typed (maker_quote_asset_amount_surplus d q b p)
    (λ r, has_type U128 r.1 ∧ has_type U128 r.2).
Proof. typed_by maker_quote_asset_amount_surplus. Qed.

#[export] Instance quote_amount_at_limit_typed p d q s b :
  Typed (quote_amount_at_limit p d q s b)
    (λ r, has_type U128 q → has_type U128 s → has_type U128 r.1 ∧ has_type U128 r.2).
Proof. typed_by quote_amount_at_limit. Qed.

#[export] Instance increase_typed d q m p now price :
  Typed (increase d q m p now price)
    (λ r, Market.typed m → MarketPosition.typed p → has_type I64 now →
          Market.typed r.1.1 ∧ MarketPosition.typed r.1.2
          ∧ has_type I128 r.2.1 ∧ has_type U128 r.2.2).
Proof. typed_by increase. Qed.

#[export] Instance increase_with_base_asset_amount_typed d b m p now limit price :
  Typed (increase_with_base_asset_amount d b m p now limit price)
    (λ r, Market.typed m → MarketPosition.typed p → has_type I64 now →
          Market.typed r.1.1 ∧ MarketPosition.typed r.1.2
          ∧ has_type U128 r.2.1 ∧ has_type U128 r.2.2).
Proof. typed_by increase_with_base_asset_amount. Qed.

#[export] Instance reduce_typed d q m p now price s :
  Typed (reduce d q m p now price s)
    (λ r, Market.typed m → MarketPosition.typed p → has_type I64 now →
          Market.typed r.1.1 ∧ MarketPosition.typed r.1.2
          ∧ has_type I128 r.2.1.1 ∧ has_type U128 r.2.1.2 ∧ has_type I128 r.2.2).
Proof. typed_by reduce. Qed.

#[export] Instance reduce_with_base_asset_amount_typed d b m p now limit price :
  Typed (reduce_with_base_asset_amount d b m p now limit price)
    (λ r, Market.typed m → MarketPosition.typed p → has_type I64 now →
          Market.typed r.1.1 ∧ MarketPosition.typed r.1.2
          ∧ has_type U128 r.2.1.1 ∧ has_type U128 r.2.1.2 ∧ has_type I128 r.2.2).
Proof. typed_by reduce_with_base_asset_amount. Qed.

#[export] Instance calculate_pnl_typed x y d :
  Typed (calculate_pnl x y d) (λ r, has_type I128 r).
Proof. typed_by calculate_pnl. Qed.

#[export] Instance close_typed m p now limit price s :
  Typed (close m p now limit price s)
    (λ r, Market.typed m → MarketPosition.typed p → has_type I64 now →
          Market.typed r.1.1 ∧ MarketPosition.typed r.1.2
          ∧ has_type U128 r.2.1.1.1 ∧ has_type I128 r.2.1.1.2
          ∧ has_type U128 r.2.1.2 ∧ has_type I128 r.2.2).
Proof. typed_by close. Qed.
End Trades.
