(* ===== verification/TypedTrades.v ===== *)
(** * The types of trades

    Positions that trade, orders that are placed, cancelled and filled, and the
    entry points of orders keep the numbers of users and markets within their types. *)

From stdpp Require Import base numbers list gmap.
From S2P Require Import Prelude Constants Bn State Value AmmMath BankBalance Twap Oracle.
From S2P Require Import Maps PositionMath CurveMath Repeg AmmController OrdersMath Position.
From S2P Require Import Funding Fees Margin OrderValidation Orders Typing TypedCurves.
From S2P Require Import TypedUsers.
Local Open Scope Z_scope.
#[local] Hint Constants Opaque : typeclass_instances.

Section Trades.
Context `{BnTypes} `{OracleAccounts} `{Roots}.

(** ** Trades of positions *)

#[export] Instance trade_base_asset_amount_typed b d m p price now limit :
  Typed (trade_base_asset_amount b d m p price now limit)
    (λ r, Market.typed m → MarketPosition.typed p → has_type I64 now →
          Market.typed r.1.1 ∧ MarketPosition.typed r.1.2).
Proof. typed_by trade_base_asset_amount. Qed.

#[export] Instance trade_quote_asset_amount_typed q d m p price now :
  Typed (trade_quote_asset_amount q d m p price now)
    (λ r, Market.typed m → MarketPosition.typed p → has_type I64 now →
          Market.typed r.1.1 ∧ MarketPosition.typed r.1.2).
Proof. typed_by trade_quote_asset_amount. Qed.

#[export] Instance update_position_with_base_typed b d m u k price now limit :
  Typed (update_position_with_base_asset_amount b d m u k price now limit)
    (λ r, Market.typed m → User.typed u → has_type I64 now →
          Market.typed r.1.1 ∧ User.typed r.1.2).
Proof. typed_by update_position_with_base_asset_amount. Qed.

#[export] Instance update_position_with_quote_typed q d m u k price now :
  Typed (update_position_with_quote_asset_amount q d m u k price now)
    (λ r, Market.typed m → User.typed u → has_type I64 now →
          Market.typed r.1.1 ∧ User.typed r.1.2).
Proof. typed_by update_position_with_quote_asset_amount. Qed.

#[export] Instance add_unsettled_pnl_typed u k x :
  Typed (add_unsettled_pnl u k x) (λ r, User.typed u → User.typed r).
Proof. typed_by add_unsettled_pnl. Qed.

(** ** Funding of users *)

#[export] Instance settle_position_funding_typed mm p :
  Typed (settle_position_funding mm p)
    (λ r, MarketPosition.typed p → markets_typed mm → MarketPosition.typed r).
Proof. typed_by settle_position_funding. Qed.

Lemma map_result_typed {A} (P : A → Prop) (f : A → result A) l l' :
  (∀ x y, f x = Ok y → P x → P y) →
  map_result f l = Ok l' → Forall P l → Forall P l' ∧ length l' = length l.
Proof.
  intros Hf. revert l'. induction l as [|x l IH]; intros l' Hok Hl; cbn [map_result] in Hok.
  { by apply Ok_inj in Hok as <-. }
  apply bind_ok in Hok as (y & Hy & Hok). apply bind_ok in Hok as (ys & Hys & Hok).
  apply Ok_inj in Hok as <-. inversion Hl. destruct (IH ys Hys) as [? ?]; [done|].
  cbn. split; [constructor; [by eapply Hf|done]|lia].
Qed.

#[export] Instance settle_funding_payment_typed u mm :
  Typed (settle_funding_payment u mm)
    (λ r, User.typed u → markets_typed mm → User.typed r).
Proof.
  intros r Hok Hu Hm. unfold settle_funding_payment in Hok.
  apply bind_ok in Hok as (ps & Hps & Hok). apply Ok_inj in Hok as <-.
  apply (map_result_typed MarketPosition.typed) in Hps as [? Hl];
    [|intros x y Hxy Hx; by apply settle_position_funding_typed in Hxy; apply Hxy|apply Hu].
  apply set_positions_typed; [done..|]. rewrite Hl. apply Hu.
Qed.

(** ** Steps of a fill *)

#[export] Instance update_order_after_trade_typed o minimum b q fee :
  Typed (update_order_after_trade o minimum b q fee) (λ r, Order.typed o → Order.typed r).
Proof. typed_by update_order_after_trade. Qed.

#[export] Instance add_market_fee_typed m fee :
  Typed (add_market_fee m fee) (λ r, Market.typed m → Market.typed r).
Proof. typed_by add_market_fee. Qed.

#[export] Instance charge_user_typed u i fee td rd :
  Typed (charge_user u i fee td rd) (λ r, User.typed u → User.typed r).
Proof. typed_by charge_user. Qed.

#[export] Instance pay_filler_typed users key i x :
  Typed (pay_filler users key i x)
    (λ r, users_typed users → has_type U64 i → users_typed r).
Proof. typed_by pay_filler. Qed.

#[export] Instance reward_referrer_typed users key x :
  Typed (reward_referrer users key x) (λ r, users_typed users → users_typed r).
Proof. typed_by reward_referrer. Qed.

#[export] Instance release_order_typed u k i :
  Typed (release_order u k i) (λ r, User.typed u → User.typed r).
Proof. typed_by release_order. Qed.

#[export] Instance release_order_if_filled_typed u k i :
  Typed (release_order_if_filled u k i) (λ r, User.typed u → User.typed r).
Proof. typed_by release_order_if_filled. Qed.

(** ** Orders *)

Lemma order_amount_typed params m p :
  OrderParams.typed params → MarketPosition.typed p →
  has_type U128 (get_base_asset_amount_for_order params m p).
Proof.
  intros. unfold get_base_asset_amount_for_order. cbv zeta.
  repeat case_match; eauto with typed nocore.
Qed.

Lemma new_order_typed params now id user_base base tier referrer :
  OrderParams.typed params → has_type I64 now → has_type U64 id → has_type I128 user_base →
  has_type U128 base → Order.typed (new_order params now id user_base base tier referrer).
Proof. intros. type_fields. Qed.
#[local] Hint Resolve order_amount_typed new_order_typed : typed.

#[export] Instance place_order_for_typed st ost u mm dt referrer clock params oracle :
  Typed (place_order_for st ost u mm dt referrer clock params oracle)
    (λ r, User.typed u → markets_typed mm → OrderParams.typed params →
          Clock.typed clock → User.typed r).
Proof. typed_by place_order_for. Qed.

#[export] Instance place_order_typed st ost users key mm dt referrer clock params oracle :
  Typed (place_order st ost users key mm dt referrer clock params oracle)
    (λ r, users_typed users → markets_typed mm → OrderParams.typed params →
          Clock.typed clock → users_typed r).
Proof. typed_by place_order. Qed.

#[export] Instance cancel_order_typed st k u mm bm om clock oracle b :
  Typed (cancel_order st k u mm bm om clock oracle b)
    (λ r, User.typed u → markets_typed mm → User.typed r.1).
Proof. typed_by cancel_order. Qed.

#[export] Instance cancel_first_order_typed f st users key mm bm om clock oracle :
  Typed (cancel_first_order f st users key mm bm om clock oracle)
    (λ r, users_typed users → markets_typed mm → users_typed r.1).
Proof. typed_by cancel_first_order. Qed.

(** ** Fills *)

Lemma half_spread_typed x : has_type U16 x → has_type U128 (int_quot U16 x 2).
Proof.
  unfold has_type, int_quot. cbn [is_signed int_min int_max]. intros.
  pose proof (div_nonneg_le x 2). lia.
Qed.
#[local] Hint Resolve half_spread_typed : typed.

#[export] Instance calculate_spreads_typed amm :
  Typed (calculate_spreads amm) (λ r, AMM.typed amm → AMM.typed r.1).
Proof. typed_by calculate_spreads; split; cbn; eauto 6 with typed nocore. Qed.

#[export] Instance prepare_market_typed st m oracle clock :
  Typed (prepare_market st m oracle clock)
    (λ r, Market.typed m → Clock.typed clock → Market.typed r.1).
Proof. typed_by prepare_market. Qed.

#[export] Instance execute_market_order_typed u k mm i price now :
  Typed (execute_market_order u k mm i price now)
    (λ r, User.typed u → markets_typed mm → has_type I64 now →
          User.typed r.1.1 ∧ markets_typed r.1.2).
Proof. typed_by execute_market_order. Qed.

#[export] Instance execute_non_market_order_typed u k mm bm om i price now oracle :
  Typed (execute_non_market_order u k mm bm om i price now oracle)
    (λ r, User.typed u → markets_typed mm → has_type I64 now →
          User.typed r.1.1.1 ∧ markets_typed r.1.1.2).
Proof. typed_by execute_non_market_order. Qed.

#[export] Instance execute_order_typed u k mm bm om i price now oracle :
  Typed (execute_order u k mm bm om i price now oracle)
    (λ r, User.typed u → markets_typed mm → has_type I64 now →
          User.typed r.1.1.1 ∧ markets_typed r.1.1.2).
Proof.
  intros r Hok; intros. unfold execute_order in Hok.
  apply bind_ok in Hok as (o & _ & Hok).
  destruct (Order.order_type o); type_steps; finish_typed.
Qed.

#[export] Instance settle_fill_typed st ost users u key fk rf mm i k o now fill :
  Typed (settle_fill st ost users u key fk rf mm i k o now fill)
    (λ r, User.typed u → users_typed users → markets_typed mm → has_type U64 i →
          users_typed r.1.1 ∧ User.typed r.1.2 ∧ markets_typed r.2).
Proof. typed_by settle_fill. Qed.

#[export] Instance fill_order_typed id st ost users key mm bm om oracle fk rf clock :
  Typed (fill_order id st ost users key mm bm om oracle fk rf clock)
    (λ r, users_typed users → markets_typed mm → Clock.typed clock →
          users_typed r.1.1.1 ∧ markets_typed r.1.1.2).
Proof. typed_by fill_order. Qed.
End Trades.
