(* ===== verification/TypedBanks.v ===== *)
(** * The types of banks

    Deposits, withdrawals, transfers and settlements keep the numbers of the banks, the
    users and the markets within their types. *)

From stdpp Require Import base numbers list gmap.
From S2P Require Import Prelude Constants Bn State Value AmmMath BankBalance Twap Oracle.
From S2P Require Import Maps PositionMath CurveMath Repeg AmmController OrdersMath Position.
From S2P Require Import Funding Fees Margin OrderValidation Orders Addresses Tokens BankHandlers.
From S2P Require Import BankTypes Typing TypedCurves TypedUsers TypedTrades.
Local Open Scope Z_scope.
#[local] Hint Constants Opaque : typeclass_instances.

(** ** Balances *)

(** A type of balances whose numbers stay within their types. *)
Class BalanceTypes (B : Type) `{BankBalance B} (P : B → Prop) : Prop := {
  #[global] increase_balance_typed (b : B) x ::
    Typed (increase_balance b x) (λ r, P b → P r);
  #[global] decrease_balance_typed (b : B) x ::
    Typed (decrease_balance b x) (λ r, P b → P r);
  #[global] update_balance_type_typed (b : B) t ::
    Typed (update_balance_type b t) (λ r, P b → P r);
}.
#[global] Hint Mode BalanceTypes ! - - : typeclass_instances.

#[export] Instance UserBankBalance_types : BalanceTypes UserBankBalance UserBankBalance.typed.
Proof. split; intros b x r Hok; cbn in Hok; type_steps; intros; finish_typed. Qed.
#[export] Instance PNLPool_types : BalanceTypes PNLPool PNLPool.typed.
Proof. split; intros b x r Hok; cbn in Hok; type_steps; intros; finish_typed. Qed.

#[export] Instance increase_bank_balance_typed x b t :
  Typed (increase_bank_balance x b t) (λ r, Bank.typed b → Bank.typed r).
Proof. typed_by increase_bank_balance. Qed.
#[export] Instance decrease_bank_balance_typed x b t :
  Typed (decrease_bank_balance x b t) (λ r, Bank.typed b → Bank.typed r).
Proof. typed_by decrease_bank_balance. Qed.

Section Balances.
Context `{BalanceTypes B P}.

#[export] Instance increase_both_typed x d bank (b : B) :
  Typed (increase_both x d bank b) (λ r, Bank.typed bank → P b → Bank.typed r.1 ∧ P r.2).
Proof. typed_by increase_both. Qed.

#[export] Instance reduce_existing_typed x bank (b : B) :
  Typed (reduce_existing x bank b) (λ r, Bank.typed bank → P b → Bank.typed r.1.2 ∧ P r.2).
Proof. typed_by reduce_existing. Qed.

#[export] Instance update_bank_balances_typed x d bank (b : B) :
  Typed (update_bank_balances x d bank b)
    (λ r, Bank.typed bank → P b → Bank.typed r.1 ∧ P r.2).
Proof. typed_by update_bank_balances. Qed.
End Balances.

#[export] Instance update_bank_cumulative_interest_typed bank now :
  Typed (update_bank_cumulative_interest bank now) (λ r, Bank.typed bank → Bank.typed r).
Proof. typed_by update_bank_cumulative_interest. Qed.

(** ** Slots *)

Lemma set_bank_balance_typed u k b :
  User.typed u → UserBankBalance.typed b → User.typed (set_bank_balance u k b).
Proof. intros. type_fields. Qed.
Lemma new_bank_balance_typed i t :
  has_type U64 i → UserBankBalance.typed (UserBankBalance.mk i t 0).
Proof. intros. type_fields. Qed.
#[export] Hint Resolve set_bank_balance_typed new_bank_balance_typed : typed.

#[export] Instance get_user_bank_balance_typed u k :
  Typed (get_user_bank_balance u k) (λ b, User.typed u → UserBankBalance.typed b).
Proof. intros b Hb%unwrap_ok Hu. eapply Forall_lookup_1; [apply Hu|done]. Qed.

#[export] Instance add_bank_balance_typed u i t :
  Typed (add_bank_balance u i t) (λ r, User.typed u → has_type U64 i → User.typed r.1).
Proof. typed_by add_bank_balance. Qed.

#[export] Instance get_or_add_bank_balance_typed u bank i :
  Typed (get_or_add_bank_balance u bank i)
    (λ r, User.typed u → has_type U64 i → User.typed r.1).
Proof.
  intros r Hok; intros. unfold get_or_add_bank_balance in Hok.
  destruct (get_bank_balance_mut _ _); type_steps; finish_typed.
Qed.

#[export] Instance update_user_bank_balance_typed x d bank u k :
  Typed (update_user_bank_balance x d bank u k)
    (λ r, Bank.typed bank → User.typed u → Bank.typed r.1 ∧ User.typed r.2).
Proof. typed_by update_user_bank_balance. Qed.

(** ** Instructions *)

Section Instructions.
Context `{BnTypes} `{OracleAccounts} `{TokenProgram}.

#[export] Instance deposit_typed users bm mm ledger key token vault auth clock i x ro :
  Typed (deposit users bm mm ledger key token vault auth clock i x ro)
    (λ r, users_typed users → banks_typed bm → markets_typed mm → has_type U64 i →
          users_typed r.1.1 ∧ banks_typed r.1.2).
Proof. typed_by deposit. Qed.

#[export] Instance withdraw_typed st users bm mm om ledger key token vault auth clock i x ro :
  Typed (withdraw st users bm mm om ledger key token vault auth clock i x ro)
    (λ r, users_typed users → banks_typed bm → markets_typed mm → has_type U64 i →
          users_typed r.1.1.1 ∧ banks_typed r.1.1.2).
Proof. typed_by withdraw. Qed.

#[export] Instance transfer_deposit_typed users bm mm om from to clock i x :
  Typed (transfer_deposit users bm mm om from to clock i x)
    (λ r, users_typed users → banks_typed bm → has_type U64 i →
          users_typed r.1.1 ∧ banks_typed r.1.2).
Proof. typed_by transfer_deposit. Qed.

#[export] Instance settle_profit_typed bank m u auth k x :
  Typed (settle_profit bank m u auth k x)
    (λ r, Bank.typed bank → Market.typed m → User.typed u →
          Bank.typed r.1.1 ∧ Market.typed r.1.2 ∧ User.typed r.2).
Proof. typed_by settle_profit. Qed.

#[export] Instance settle_loss_typed bank m u k x :
  Typed (settle_loss bank m u k x)
    (λ r, Bank.typed bank → Market.typed m → User.typed u →
          Bank.typed r.1.1 ∧ Market.typed r.1.2 ∧ User.typed r.2).
Proof. typed_by settle_loss. Qed.

#[export] Instance settle_pnl_typed st users bm mm key auth i :
  Typed (settle_pnl st users bm mm key auth i)
    (λ r, users_typed users → banks_typed bm → markets_typed mm →
          users_typed r.1.1 ∧ banks_typed r.1.2 ∧ markets_typed r.2).
Proof. typed_by settle_pnl. Qed.
End Instructions.

(** ** New accounts *)

#[export] Instance initialize_user_typed users key auth id name :
  Typed (initialize_user users key auth id name)
    (λ r, users_typed users → has_type U8 id → users_typed r).
Proof.
  intros r Hok; intros. unfold initialize_user in Hok.
  case_bool_decide; [|done]. apply Ok_inj in Hok as <-.
  apply all_typed_insert; [done|]. split; cbn; eauto 4 with typed nocore.
  all: first [done|by repeat (apply Forall_cons; split; [eauto 4 with typed nocore|])].
Qed.

(** The nonces that [find_program_address] finds are bytes. *)
Class AddressTypes `{ProgramAddresses} : Prop :=
  find_program_address_typed s : has_type U8 (find_program_address s).2.

#[export] Instance example_address_types : AddressTypes.
Proof. intros s. by apply literal_typed. Qed.

#[export] Instance initialize_bank_typed_ix `{OracleAccounts} `{AddressTypes} st p clock :
  Typed (initialize_bank st p clock)
    (λ r, State.typed st → BankParams.typed p → State.typed r.1 ∧ Bank.typed r.2).
Proof.
  intros [st' bank] Hok Hst Hp. cbn [fst snd]. split; cycle 1.
  - refine (initialize_bank_typed _ _ _ _ _ _ _ _ _ Hok); [apply Hst| |apply Hp|].
    + apply find_program_address_typed.
    + repeat (apply Forall_cons; split; [apply Hp|]). constructor.
  - unfold initialize_bank in Hok. destruct (find_bank_vault_authority _) as [va nonce].
    destruct (negb _); [done|]. destruct (get_then_update_id _) as [x next] eqn:Hid.
    type_steps; type_fields.
Qed.
