(* ===== verification/TypedSystem.v ===== *)
(** * The types of the exchange

    Every account of the exchange holds values of the types of its fields, whatever
    instructions are run. *)

From stdpp Require Import base numbers list gmap.
From S2P Require Import Prelude Constants Bn State Value AmmMath BankBalance Twap Oracle.
From S2P Require Import Maps PositionMath CurveMath Repeg AmmController OrdersMath Position.
From S2P Require Import Funding Fees Margin OrderValidation Orders Addresses Tokens BankHandlers.
From S2P Require Import Loading Trading Liquidation Admin System.
From S2P Require Import Typing TypedCurves TypedUsers TypedTrades TypedBanks.
Local Open Scope Z_scope.
#[local] Hint Constants Opaque : typeclass_instances.

(** ** The numbers of records *)

Lemma next_record_typed z : has_type U64 (get_then_update_id z).2.
Proof. destruct (get_then_update_id z) as [n i] eqn:Hid. exact (next_id_typed _ _ _ Hid). Qed.
#[export] Hint Resolve next_record_typed : typed.

Lemma next_trade_record_typed m : Market.typed m → Market.typed (next_trade_record m).
Proof. intros. type_fields. Qed.
Lemma next_curve_record_typed m : Market.typed m → Market.typed (next_curve_record m).
Proof. intros. type_fields. Qed.
#[export] Hint Resolve next_trade_record_typed next_curve_record_typed : typed.

(** ** Trades at market *)

Section Trades.
Context `{BnTypes} `{OracleAccounts} `{TokenProgram} `{Roots}.

#[export] Instance charge_trade_typed u k pnl fee td rd :
  Typed (charge_trade u k pnl fee td rd) (λ r, User.typed u → User.typed r).
Proof. typed_by charge_trade. Qed.

#[export] Instance settle_trade_typed st users m u k dt rf q s pnl :
  Typed (settle_trade st users m u k dt rf q s pnl)
    (λ r, users_typed users → Market.typed m → User.typed u →
          users_typed r.1.1 ∧ Market.typed r.1.2 ∧ User.typed r.2).
Proof. typed_by settle_trade. Qed.

#[export] Instance observe_market_typed st m oracle clock :
  Typed (observe_market st m oracle clock)
    (λ r, Market.typed m → Clock.typed clock → Market.typed r.1).
Proof. typed_by observe_market. Qed.

#[export] Instance open_position_typed st users bm mm om accounts key auth oracle clock d q i
    limit opt :
  Typed (open_position st users bm mm om accounts key auth oracle clock d q i limit opt)
    (λ r, users_typed users → markets_typed mm → Clock.typed clock → has_type U64 i →
          users_typed r.1.1 ∧ markets_typed r.1.2).
Proof. typed_by open_position. Qed.

#[export] Instance close_position_typed st users mm accounts key auth oracle clock i opt :
  Typed (close_position st users mm accounts key auth oracle clock i opt)
    (λ r, users_typed users → markets_typed mm → Clock.typed clock →
          users_typed r.1 ∧ markets_typed r.2).
Proof. typed_by close_position. Qed.

(** ** Liquidation *)

Record progress_typed (p : Progress) : Prop := {
  progress_user_ty : User.typed p.(liquidated_user);
  progress_markets_ty : markets_typed p.(liquidated_markets);
}.
#[local] Hint Resolve progress_user_ty progress_markets_ty : typed.

#[export] Instance record_liquidation_typed pr m mm u status k v q pnl req fee base coll b :
  Typed (record_liquidation pr m mm u status k v q pnl req fee base coll b)
    (λ r, Market.typed m → markets_typed mm → User.typed u → progress_typed r.1).
Proof. typed_by record_liquidation. Qed.

#[export] Instance liquidate_fully_typed m p status slippage now :
  Typed (liquidate_fully m p status slippage now)
    (λ r, Market.typed m → MarketPosition.typed p → has_type I64 now →
          Market.typed r.1.1 ∧ MarketPosition.typed r.1.2).
Proof. typed_by liquidate_fully. Qed.

#[export] Instance full_liquidation_step_typed st now dust fee base coll pr status :
  Typed (full_liquidation_step st now dust fee base coll pr status)
    (λ r, progress_typed pr → has_type I64 now → progress_typed r.1).
Proof. typed_by full_liquidation_step. Qed.

#[export] Instance partial_liquidation_step_typed st now fee closed coll pr status :
  Typed (partial_liquidation_step st now fee closed coll pr status)
    (λ r, progress_typed pr → has_type I64 now → progress_typed r.1).
Proof. typed_by partial_liquidation_step. Qed.

Lemma loop_typed {A B} (P : B → Prop) (step : B → A → result (B * bool)) acc l :
  (∀ acc x r, step acc x = Ok r → P acc → P r.1) →
  ∀ r, loop step acc l = Ok r → P acc → P r.
Proof.
  intros Hstep. revert acc. induction l as [|x l IH]; intros acc r Hok Hacc; cbn [loop] in Hok.
  { by apply Ok_inj in Hok as <-. }
  apply bind_ok in Hok as ([acc' b] & Hx & Hok). apply Hstep in Hx; [|done].
  destruct b; [by apply Ok_inj in Hok as <-|by eapply IH].
Qed.

#[export] Instance liquidate_positions_typed st u mm now status :
  Typed (liquidate_positions st u mm now status)
    (λ r, User.typed u → markets_typed mm → has_type I64 now → progress_typed r).
Proof.
  intros r Hok Hu Hm Hnow. unfold liquidate_positions in Hok. cbv zeta in Hok.
  assert (progress_typed (mk_progress u mm 0 0
            status.(LiquidationStatus.margin_requirement))) as Hstart by done.
  destruct (is_full_liquidation status).
  - apply bind_ok in Hok as (fee & _ & Hok). revert Hok Hstart. apply loop_typed.
    intros acc x r' Hx Hacc. apply full_liquidation_step_typed in Hx. by apply Hx.
  - apply bind_ok in Hok as (fee & _ & Hok). apply bind_ok in Hok as (closed & _ & Hok).
    revert Hok Hstart. apply loop_typed.
    intros acc x r' Hx Hacc. apply partial_liquidation_step_typed in Hx. by apply Hx.
Qed.

#[export] Instance pay_liquidator_typed users bm u key liquidator fee :
  Typed (pay_liquidator users bm u key liquidator fee)
    (λ r, users_typed users → banks_typed bm → User.typed u →
          users_typed r.1.1 ∧ banks_typed r.1.2 ∧ User.typed r.2).
Proof. typed_by pay_liquidator. Qed.

#[export] Instance liquidate_typed st users bm mm om ledger key liquidator vault insurance auth
    clock :
  Typed (liquidate st users bm mm om ledger key liquidator vault insurance auth clock)
    (λ r, users_typed users → banks_typed bm → markets_typed mm → Clock.typed clock →
          users_typed r.1.1.1 ∧ banks_typed r.1.1.2 ∧ markets_typed r.1.2).
Proof. typed_by liquidate. Qed.
End Trades.

(** ** Administration *)

Section Administration.
Context `{BnTypes} `{OracleAccounts} `{TokenProgram} `{AddressTypes} `{Roots}.

#[export] Instance get_pyth_twap_typed a : Typed (get_pyth_twap a) (λ r, has_type I128 r).
Proof. typed_by get_pyth_twap. Qed.

#[export] Instance get_oracle_twap_typed amm a :
  Typed (get_oracle_twap amm a) (λ r, ∀ t, r = Some t → has_type I128 t).
Proof.
  intros r Hok t ->. unfold get_oracle_twap in Hok.
  destruct (AMM.oracle_source amm); type_steps; done.
Qed.

#[export] Instance move_amm_price_typed st m b q :
  Typed (move_amm_price st m b q)
    (λ r, Market.typed m → has_type U128 b → has_type U128 q → Market.typed r).
Proof. typed_by move_amm_price. Qed.

#[export] Instance repeg_amm_curve_typed st m oracle clock peg :
  Typed (repeg_amm_curve st m oracle clock peg)
    (λ r, Market.typed m → has_type U128 peg → Market.typed r).
Proof. typed_by repeg_amm_curve. Qed.

Lemma set_oracle_twap_typed m t now :
  Market.typed m → has_type I128 t → has_type I64 now → Market.typed (set_oracle_twap m t now).
Proof. intros. type_fields. Qed.
#[local] Hint Resolve set_oracle_twap_typed eq_refl : typed.

#[export] Instance update_amm_oracle_twap_typed m oracle clock :
  Typed (update_amm_oracle_twap m oracle clock)
    (λ r, Market.typed m → Clock.typed clock → Market.typed r).
Proof. typed_by update_amm_oracle_twap. Qed.

#[export] Instance reset_amm_oracle_twap_typed st m oracle clock :
  Typed (reset_amm_oracle_twap st m oracle clock)
    (λ r, Market.typed m → Clock.typed clock → Market.typed r).
Proof. typed_by reset_amm_oracle_twap. Qed.

#[export] Instance settle_funding_payment_ix_typed st users mm key :
  Typed (settle_funding_payment_ix st users mm key)
    (λ r, users_typed users → markets_typed mm → users_typed r).
Proof. typed_by settle_funding_payment_ix. Qed.

#[export] Instance update_funding_rate_ix_typed st m oracle clock :
  Typed (update_funding_rate_ix st m oracle clock)
    (λ r, Market.typed m → Clock.typed clock → Market.typed r).
Proof. typed_by update_funding_rate_ix. Qed.

#[export] Instance apply_k_cost_typed m c :
  Typed (apply_k_cost m c) (λ r, Market.typed m → Market.typed r).
Proof. typed_by apply_k_cost. Qed.

#[export] Instance update_k_ix_typed st m oracle k :
  Typed (update_k_ix st m oracle k) (λ r, Market.typed m → Market.typed r).
Proof. typed_by update_k_ix. Qed.

#[export] Instance update_margin_ratio_typed m i p x :
  Typed (update_margin_ratio m i p x)
    (λ r, Market.typed m → has_type U32 i → has_type U32 p → has_type U32 x →
          Market.typed r).
Proof. typed_by update_margin_ratio. Qed.

#[export] Instance set_amm_typed_ix m f :
  Typed (set_amm m f) (λ r, Market.typed m → AMM.typed (f m.(Market.amm)) → Market.typed r).
Proof. typed_by set_amm. Qed.

#[export] Instance withdraw_fees_typed m bank ledger vault recipient auth amount :
  Typed (withdraw_fees m bank ledger vault recipient auth amount)
    (λ r, Market.typed m → Market.typed r.1).
Proof. typed_by withdraw_fees. Qed.

#[export] Instance withdraw_to_market_typed st m ledger insurance vault auth amount :
  Typed (withdraw_from_insurance_vault_to_market st m ledger insurance vault auth amount)
    (λ r, Market.typed m → Market.typed r.1).
Proof. typed_by withdraw_from_insurance_vault_to_market. Qed.

Lemma admin_market_typed st m m' : admin_market st m m' → Market.typed m → Market.typed m'.
Proof.
  intros [b q Hok Hb Hq|? ? ? Hok|? ? Hok|? ? Hok|? ? Hok|? ? ? Hok|? Hok|? ? Hok|? Hok|? Hok|? Hok]
    Hm; [| | | | | |unfold update_curve_update_intensity in Hok|unfold update_market_oracle in Hok
    |unfold update_market_minimum_quote_asset_trade_size in Hok
    |unfold update_market_minimum_base_asset_trade_size in Hok
    |unfold update_market_base_spread in Hok];
    apply typed in Hok; cbv beta in Hok; eauto 6 with typed nocore.
Qed.
End Administration.

(** ** The exchange *)

(** Every account holds values of the types of its fields. *)
Record world_typed (w : World) : Prop := {
  world_state_ty : State.typed w.(World.state);
  world_order_state_ty : OrderState.typed w.(World.order_state);
  world_users_ty : users_typed w.(World.users);
  world_banks_ty : banks_typed w.(World.banks);
  world_markets_ty : markets_typed w.(World.markets);
}.
#[export] Hint Resolve world_state_ty world_order_state_ty world_users_ty world_banks_ty
  world_markets_ty : typed.

Section Exchange.
Context `{BnTypes} `{OracleAccounts} `{TokenProgram} `{AddressTypes} `{Roots}.

Lemma new_amm_typed p now price twap oracle :
  MarketParams.typed p → has_type I64 now → has_type U128 price → has_type I128 twap →
  OraclePriceData.typed oracle → AMM.typed (new_amm p now price twap oracle).
Proof. intros [] ? ? ? ?. split; cbn; eauto 3 with typed nocore. Qed.
#[local] Hint Resolve new_amm_typed : typed.

#[export] Instance initialize_market_typed st p clock :
  Typed (initialize_market st p clock)
    (λ r, State.typed st → MarketParams.typed p → Clock.typed clock →
          State.typed r.1 ∧ Market.typed r.2).
Proof.
  intros [st' m] Hok Hst Hp Hc. unfold initialize_market in Hok.
  destruct (negb _); [done|]. cbv zeta in Hok. apply bind_ok in Hok as (price & Hprice & Hok).
  apply typed in Hprice. cbv beta in Hprice. apply bind_ok in Hok as (k & _ & Hok).
  apply bind_ok in Hok as (oracle & Ho & Hok). apply bind_ok in Hok as (twap & Ht & Hok).
  assert (OraclePriceData.typed oracle ∧ has_type I128 twap) as [Ho' Ht'].
  { clear Hok. destruct (MarketParams.oracle_source p); type_steps; split;
      eauto 3 with typed nocore. }
  clear Ho Ht. type_steps. cbn [fst snd].
  split; [split; cbn; eauto 5 with typed nocore|].
  destruct Hp. split; cbn -[new_amm]; eauto 5 with typed nocore.
  apply new_amm_typed; eauto with typed nocore. by split.
Qed.

(** The instructions on orders load their markets themselves. *)
Lemma place_order_ix_typed w st ost users accounts key auth oracle clock params opt users' :
  place_order_ix st ost users accounts key auth oracle clock params opt = Ok users' →
  Forall (presented w) accounts → users_typed users → markets_typed w.(World.markets) →
  Clock.typed clock → OrderParams.typed params → users_typed users'.
Proof.
  intros (mm & token & referrer & Hmm & Hok)%place_order_ix_inv Hall Hu Hm Hc Hp.
  apply place_order_typed in Hok. apply Hok; [done| |done..].
  by eapply all_typed_subset, Hm; apply Hmm.
Qed.

Lemma cancel_with_typed w find f st users accounts key oracle clock users' :
  cancel_with find (λ mm bm om, cancel_first_order f st users key mm bm om clock (Some oracle))
    users accounts key oracle clock = Ok users' →
  Forall (presented w) accounts → users_typed users → markets_typed w.(World.markets) →
  users_typed users'.
Proof.
  intros (mm & bm & om & om' & Hmm & Hok)%cancel_with_inv Hall Hu Hm.
  apply cancel_first_order_typed in Hok. apply Hok; [done|].
  by eapply all_typed_subset, Hm; apply Hmm.
Qed.

Lemma fill_order_ix_typed w st ost users accounts key filler oracle clock id users' mm' :
  fill_order_ix st ost users accounts key filler oracle clock id = Ok (users', mm') →
  Forall (presented w) accounts → users_typed users → markets_typed w.(World.markets) →
  Clock.typed clock → users_typed users' ∧ markets_typed mm'.
Proof.
  intros Hok Hall Hu Hm Hc.
  apply (fill_order_ix_inv w) in Hok as (mm & bm & om & om' & rf & x & Hmm & Hok); [|done].
  apply fill_order_typed in Hok. apply Hok; [done| |done]. by eapply all_typed_subset.
Qed.

Lemma place_and_fill_order_typed w st ost users accounts key auth oracle clock params opt users'
    mm' :
  place_and_fill_order st ost users accounts key auth oracle clock params opt
    = Ok (users', mm') →
  Forall (presented w) accounts → users_typed users → markets_typed w.(World.markets) →
  Clock.typed clock → OrderParams.typed params → users_typed users' ∧ markets_typed mm'.
Proof.
  intros Hok Hall Hu Hm Hc Hp.
  apply (place_and_fill_order_inv w) in Hok as (mm & bm & om & om' & token & rf & id & x & us1
    & us2 & Hmm & Hplace & Hfill & Hend); [|done].
  assert (markets_typed mm) as Hm' by (by eapply all_typed_subset).
  apply place_order_typed in Hplace. apply fill_order_typed in Hfill.
  destruct Hfill as [Hu2 Hm2]; [by apply Hplace|done|done|]. cbn [fst snd] in *.
  split; [|done]. destruct Hend as [->|[om3 Hc3]]; [done|].
  unfold cancel_order_by_order_id in Hc3. apply cancel_first_order_typed in Hc3. by apply Hc3.
Qed.
End Exchange.

(** What is loaded has its types. *)
Lemma market_typed w i m :
  w.(World.markets) !! i = Some (Loaded m) → world_typed w → Market.typed m.
Proof. intros Hi Hw. by eapply (world_markets_ty _ Hw). Qed.
Lemma bank_typed w i b :
  w.(World.banks) !! i = Some (Loaded b) → world_typed w → Bank.typed b.
Proof. intros Hi Hw. by eapply (world_banks_ty _ Hw). Qed.
#[local] Hint Resolve all_typed_subset market_typed bank_typed : typed.

Section Steps.
Context `{BnTypes} `{OracleAccounts} `{TokenProgram} `{AddressTypes} `{Roots}.

Ltac world_types :=
  repeat match goal with H : _ ∧ _ |- _ => destruct H end; split; cbn; eauto 5 with typed nocore.
Ltac typed_instruction Hok :=
  apply typed in Hok; cbv beta in Hok; cbn [fst snd] in Hok; use_typed Hok; world_types.

#[export] Instance initialize_order_state_typed st key :
  Typed (initialize_order_state st key)
    (λ r, State.typed st → State.typed r.1 ∧ OrderState.typed r.2).
Proof. typed_by initialize_order_state. repeat type_fields. Qed.

#[export] Instance update_bank_cumulative_interest_ix_typed bank clock :
  Typed (update_bank_cumulative_interest_ix bank clock) (λ r, Bank.typed bank → Bank.typed r).
Proof. typed_by update_bank_cumulative_interest_ix. Qed.

Lemma admin_state_typed st st' : admin_state st st' → State.typed st → State.typed st'.
Proof. intros [] Hst; type_fields. Qed.

Lemma rewards_typed ost rewards :
  OrderState.typed ost → OrderFillerRewardStructure.typed rewards →
  OrderState.typed (update_order_filler_reward_structure ost rewards).
Proof. intros. type_fields. Qed.
#[local] Hint Resolve admin_state_typed admin_market_typed rewards_typed : typed.

Lemma step_typed w signer i w' : step w signer i w' → world_typed w → world_typed w'.
Proof.
  intros Hstep Hw. step_destruct Hstep; try (typed_instruction Hok).
  - eapply place_order_ix_typed in Hok; [world_types|eauto 3 with typed nocore..].
  - eapply cancel_with_typed in Hok; [world_types|eauto 3 with typed nocore..].
  - eapply cancel_with_typed in Hok; [world_types|eauto 3 with typed nocore..].
  - eapply fill_order_ix_typed in Hok; [world_types|eauto 3 with typed nocore..].
  - eapply place_and_fill_order_typed in Hok; [world_types|eauto 3 with typed nocore..].
  - world_types.
  - world_types.
  - world_types.
  - world_types.
  - world_types.
Qed.

#[export] Instance initialize_typed admin vault owner b :
  Typed (initialize admin vault owner b) State.typed.
Proof.
  intros st Hok. unfold initialize in Hok.
  pose proof (find_program_address_typed (seeds (InsuranceVaultAuthorityAddress vault))) as Hn.
  unfold find_insurance_vault_authority in Hok.
  destruct (find_program_address _) as [authority nonce]. destruct (negb _); [done|].
  apply Ok_inj in Hok as <-. split; cbn; eauto 3 with typed nocore; repeat (split; try literal).
Qed.

Lemma new_world_typed admin vault owner b st ost ledger :
  initialize admin vault owner b = Ok st → OrderState.typed ost →
  world_typed (new_world st ost ledger).
Proof. intros Hst%typed Host. by split. Qed.

Lemma run_typed w w' : rtc any_step w w' → world_typed w → world_typed w'.
Proof.
  induction 1 as [|w1 w2 w3 (signer & i & Hs) _ IH]; [done|]. intros Hw.
  apply IH. by eapply step_typed.
Qed.
End Steps.
