(* ===== verification/SystemExposure.v ===== *)
(** * The market is the other side of its users

    The curve of a market takes the other side of every trade.  Whatever instructions are
    run, the net position that a market counts is the sum of the positions of all users
    in it, and of its long and short totals. *)

From stdpp Require Import base numbers list gmap.
From S2P Require Import Prelude Constants Bn State Value AmmMath BankBalance Twap Oracle.
From S2P Require Import Maps PositionMath CurveMath Repeg AmmController OrdersMath Position.
From S2P Require Import Funding Fees Margin OrderValidation Orders Addresses Tokens BankHandlers.
From S2P Require Import BankLedger BankOrders Loading Trading Liquidation TradingProps Frames.
From S2P Require Import LiquidationProps BankTypes Admin Exposure System.
Local Open Scope Z_scope.

Section Exposure.
Context `{BnLib} `{OracleAccounts} `{TokenProgram} `{ProgramAddresses} `{Roots} (j : Z).

#[local] Existing Instances deposit_base withdraw_base transfer_deposit_base settle_pnl_exposed
  open_position_exposed close_position_exposed place_order_base cancel_first_order_base
  fill_order_exposed liquidate_exposed settle_funding_payment_ix_base.

(** The markets that an instruction has loaded are put back among the others. *)
Lemma keeps_exposed_loaded users users' mm mm' markets :
  keeps_exposed j users users' mm mm' → mm ⊆ markets →
  keeps_exposed j users users' markets (mm' ∪ markets).
Proof.
  intros [He Hs] Hsub. split; [|by eapply view_loaded].
  assert (net_of j (mm' ∪ markets) - net_of j markets = net_of j mm' - net_of j mm) as Hnet.
  { pose proof (view_none skew mm mm' j Hs) as Hnone. unfold net_of.
    destruct (mm !! j) as [c|] eqn:Hj.
    - rewrite (lookup_weaken _ _ _ _ Hj Hsub).
      destruct (mm' !! j) as [c'|] eqn:Hj'; [by rewrite (lookup_union_Some_l _ _ _ _ Hj')|].
      discriminate (proj1 Hnone eq_refl).
    - rewrite (lookup_union_r _ _ _ (proj2 Hnone eq_refl)).
      rewrite (proj2 Hnone eq_refl). lia. }
  unfold exposed in *. lia.
Qed.

Lemma keeps_exposed_trans users1 users2 users3 mm1 mm2 mm3 :
  keeps_exposed j users1 users2 mm1 mm2 → keeps_exposed j users2 users3 mm2 mm3 →
  keeps_exposed j users1 users3 mm1 mm3.
Proof. intros [] []. split; congruence. Qed.

Lemma users_keep_exposed users users' markets :
  view (base_in j) users' = view (base_in j) users → keeps_exposed j users users' markets markets.
Proof. intros Hu. by apply view_keeps_exposed. Qed.

Lemma market_keeps_exposed users markets i m m' :
  markets !! i = Some (Loaded m) → market_base m' = market_base m →
  keeps_exposed j users users markets (<[i:=Loaded m']> markets).
Proof. intros Hi Hm. apply view_keeps_exposed; [done|by eapply view_put]. Qed.

(** The positions of a user that is new, and of a market that is new. *)
Lemma initialize_user_base users key auth id name users' :
  initialize_user users key auth id name = Ok users' →
  cell_sum (base_in j) users' = cell_sum (base_in j) users.
Proof.
  unfold initialize_user. case_bool_decide as Hnew; [|done]. intros Hok%Ok_inj. subst users'.
  rewrite (cell_sum_new _ _ _ _ Hnew). cbn [cell_value].
  enough (base_in j (User_zeroed) = 0) as Hz by (unfold base_in in *; cbn in *; lia).
  unfold base_in, sum_of, slot_base. cbn. by destruct j.
Qed.

Lemma initialize_market_base st p clock st' m :
  initialize_market st p clock = Ok (st', m) → market_base m = (0, 0, 0).
Proof.
  intros Hok. unfold initialize_market in Hok. destruct (negb _); [done|]. cbv zeta in Hok.
  by frame_steps.
Qed.

Lemma step_exposed w signer i w' :
  step w signer i w' → i ≠ InitializeUser → i ≠ InitializeMarket →
  keeps_exposed j w.(World.users) w'.(World.users) w.(World.markets) w'.(World.markets).
Proof.
  intros Hstep Hnu Hnm. step_cases Hstep; try done.
  - apply users_keep_exposed. exact (frame _ Hok).
  - apply users_keep_exposed. exact (frame _ Hok).
  - apply users_keep_exposed. exact (frame _ Hok).
  - eapply keeps_exposed_loaded; [exact (frame _ Hok)|done].
  - eapply keeps_exposed_loaded; [exact (frame _ Hok)|done].
  - eapply keeps_exposed_loaded; [exact (frame _ Hok)|done].
  - apply place_order_ix_inv in Hok as (mm & token & referrer & _ & Hok).
    apply users_keep_exposed. exact (frame _ Hok).
  - apply cancel_with_inv in Hok as (mm & bm & om & om' & _ & Hok).
    apply users_keep_exposed. unfold cancel_order_by_order_id in Hok. exact (frame _ Hok).
  - apply cancel_with_inv in Hok as (mm & bm & om & om' & _ & Hok).
    apply users_keep_exposed. unfold cancel_order_by_user_order_id in Hok. exact (frame _ Hok).
  - apply (fill_order_ix_inv w) in Hok as (mm & bm & om & om' & ref & x & Hmm & Hok); [|done].
    eapply keeps_exposed_loaded; [exact (frame _ Hok)|done].
  - apply (place_and_fill_order_inv w) in Hok as (mm & bm & om & om' & token & ref & id & x
      & us1 & us2 & Hmm & Hp & Hf & Hend); [|done].
    eapply keeps_exposed_trans; [apply users_keep_exposed; exact (frame _ Hp)|].
    eapply keeps_exposed_trans;
      [eapply keeps_exposed_loaded; [exact (frame _ Hf)|done]|].
    destruct Hend as [->|[om3 Hc]]; [done|]. cbn [fst snd].
    apply users_keep_exposed. unfold cancel_order_by_order_id in Hc. exact (frame _ Hc).
  - eapply keeps_exposed_loaded; [exact (frame _ Hok)|done].
  - apply users_keep_exposed. exact (frame _ Hok).
  - eapply market_keeps_exposed; [exact Hi|]. apply idle_base. exact (frame _ Hok).
  - eapply market_keeps_exposed; [exact Hi|]. by eapply admin_market_keeps.
  - eapply market_keeps_exposed; [exact Hi|]. unfold withdraw_fees in Hok. cbv zeta in Hok.
    by frame_steps.
  - eapply market_keeps_exposed; [exact Hi|].
    unfold withdraw_from_insurance_vault_to_market in Hok. by frame_steps.
Qed.
End Exposure.

Section System.
Context `{BnLib} `{OracleAccounts} `{TokenProgram} `{ProgramAddresses} `{Roots}.

(** What holds of every world. *)
Definition positions_exact (w : World) : Prop :=
  ∀ j, exposed j w.(World.users) w.(World.markets) = 0
       ∧ ∀ m, w.(World.markets) !! j = Some (Loaded m) → skew m = 0.

Lemma step_positions w signer i w' :
  step w signer i w' → positions_exact w → positions_exact w'.
Proof.
  intros Hstep Hw j. destruct (Hw j) as [He Hs].
  destruct (decide (i = InitializeUser)) as [->|Hnu]; [|destruct (decide (i = InitializeMarket))
    as [->|Hnm]].
  - inversion Hstep as [? ? ? ? Hok | | | | | | | | | | | | | | | | | | | | | | | | |]; subst.
    cbn. split; [|done]. unfold exposed in *.
    by rewrite (initialize_user_base _ _ _ _ _ _ _ Hok).
  - inversion Hstep as [| |p clock st' m Hauth Hok Hnew
      | | | | | | | | | | | | | | | | | | | | | | |]; subst. cbn.
    apply initialize_market_base in Hok. unfold market_base in Hok.
    injection Hok as Hl Hsh Hn. unfold exposed, net_of in *.
    destruct (decide (m.(Market.market_index) = j)) as [<-|Hne].
    + rewrite lookup_insert_eq. rewrite Hnew in He. cbn. unfold net_base. split; [lia|].
      intros m' [= <-]. unfold skew, net_base. lia.
    + rewrite lookup_insert_ne by done. done.
  - destruct (step_exposed j _ _ _ _ Hstep Hnu Hnm) as [He' Hs']. split; [congruence|].
    intros m' Hm'. destruct (view_lookup _ _ _ _ _ Hs' Hm') as (m & Hm & ->). eauto.
Qed.

(** C3. Whatever instructions are run, by whoever, from the creation of the exchange on,
    the net position that a market counts, which its curve is the other side of, is the
    sum of the positions of all users in that market; and it is the sum of the market's
    long and short totals. *)
Theorem market_counts_positions st ost ledger w i m :
  rtc any_step (new_world st ost ledger) w →
  w.(World.markets) !! i = Some (Loaded m) →
  m.(Market.amm).(AMM.net_base_asset_amount) = cell_sum (base_in i) w.(World.users)
  ∧ m.(Market.amm).(AMM.net_base_asset_amount)
    = m.(Market.base_asset_amount_long) + m.(Market.base_asset_amount_short).
Proof.
  intros Hsteps Hi. assert (positions_exact w) as Hw.
  { clear Hi. revert w Hsteps. apply rtc_ind_r; [split; [done|]; done|].
    intros w1 w2 _ (signer & k & Hstep). by eapply step_positions. }
  destruct (Hw i) as [He Hs]. specialize (Hs m Hi). unfold exposed, net_of in He.
  rewrite Hi in He. unfold skew, net_base in *. cbn in He. unfold net_base in He. lia.
Qed.
End System.
