(* ===== verification/Contexts.v ===== *)
(** * The accounts of an instruction (context.rs)

    The accounts that the caller gives to an instruction and the checks that the Anchor
    framework makes of them, by the attributes of context.rs: [has_one], [constraint],
    [seeds], [init], [token::mint], [Signer].  An account that has to be of a type of the
    program is one of those that the program has created: there is one [State], at its
    address, the users are those of the world, and a bank or market is at the address of
    its index.  The programs and the rent, which are checked to be the ones of the
    cluster, are left out, and so is [mut]. *)

From stdpp Require Import base numbers list gmap.
From S2P Require Import Prelude Constants Bn State Addresses Maps Orders Tokens BankHandlers.
From S2P Require Import Admin System.
Local Open Scope Z_scope.

(** ** The checks *)

Section Checks.
Context `{ProgramAddresses} (w : World) (signed : list Pubkey).

(** [Signer<'info>], for the keys that have signed the transaction. *)
Definition is_signer (key : Pubkey) : bool := bool_decide (key ∈ signed).

(** [Account<'info, State>], and with [has_one = admin]. *)
Definition is_state (key : Pubkey) : bool := key =? address ClearingHouseAddress.
Definition state_has_admin (state admin : Pubkey) : bool :=
  is_state state && has_one_admin w.(World.state) admin.

(** [Account<'info, OrderState>] with the constraint that it is the one of the state. *)
Definition is_order_state (key : Pubkey) : bool :=
  (key =? address OrderStateAddress) && (w.(World.state).(State.order_state) =? key).

(** [AccountLoader<'info, User>], and with [has_one = authority]. *)
Definition is_user (key : Pubkey) : bool := bool_decide (is_Some (w.(World.users) !! key)).
Definition user_has_authority (user authority : Pubkey) : bool :=
  match w.(World.users) !! user with
  | Some (Loaded u) => has_one_authority u authority
  | _ => false
  end.

(** [AccountLoader<'info, Bank>] and [AccountLoader<'info, Market>], for the account of
    an index. *)
Definition is_bank (key : Pubkey) (bank_index : Z) : bool :=
  (key =? address (BankAddress bank_index))
  && bool_decide (is_Some (w.(World.banks) !! bank_index)).
Definition is_market (key : Pubkey) (market_index : Z) : bool :=
  (key =? address (MarketAddress market_index))
  && bool_decide (is_Some (w.(World.markets) !! market_index)).

(** [Account<'info, TokenAccount>]; two of the same mint. *)
Definition is_token_account (key : Pubkey) : bool :=
  bool_decide (is_Some (w.(World.ledger) !! key)).
Definition same_mint (key key' : Pubkey) : bool :=
  match w.(World.ledger) !! key, w.(World.ledger) !! key' with
  | Some t, Some t' => t.(TokenAccount.mint) =? t'.(TokenAccount.mint)
  | _, _ => false
  end.

(** [seeds = .., bump] *)
Definition is_at (key : Pubkey) (a : Address) : bool := key =? address a.
End Checks.

(** A token account that [init] creates, with [token::mint] and [token::authority]. *)
Definition new_token_account (mint authority : Pubkey) : TokenAccount :=
  TokenAccount.mk true mint authority 0 None.

(** ** The contexts *)

(** The state does not exist yet. *)
Module Initialize.
Record Accounts := mk {
  admin : Pubkey; state : Pubkey; quote_asset_mint : Pubkey; insurance_vault : Pubkey;
  insurance_vault_authority : Pubkey;
}.
Definition check `{ProgramAddresses} (ledger : Ledger) (signed : list Pubkey)
    (a : Accounts) : bool :=
  is_signer signed a.(admin) && is_at a.(state) ClearingHouseAddress
  && is_at a.(insurance_vault) InsuranceVaultAddress
  && bool_decide (ledger !! a.(insurance_vault) = None).
End Initialize.

Module InitializeOrderState.
Record Accounts := mk { admin : Pubkey; state : Pubkey; order_state : Pubkey }.
Definition check `{ProgramAddresses} (w : World) (signed : list Pubkey) (a : Accounts)
    : bool :=
  is_signer signed a.(admin) && state_has_admin w a.(state) a.(admin)
  && is_at a.(order_state) OrderStateAddress.
End InitializeOrderState.

Module InitializeBank.
Record Accounts := mk {
  bank : Pubkey; bank_mint : Pubkey; bank_vault : Pubkey; bank_vault_authority : Pubkey;
  state : Pubkey; oracle : Pubkey; admin : Pubkey;
}.
Definition check `{ProgramAddresses} (w : World) (signed : list Pubkey) (a : Accounts)
    : bool :=
  let i := w.(World.state).(State.number_of_banks) in
  is_at a.(bank) (BankAddress i) && bool_decide (w.(World.banks) !! i = None)
  && is_at a.(bank_vault) (BankVaultAddress i)
  && bool_decide (w.(World.ledger) !! a.(bank_vault) = None)
  && is_at a.(bank_vault_authority) (BankVaultAuthorityAddress i)
  && state_has_admin w a.(state) a.(admin) && is_signer signed a.(admin).
End InitializeBank.

(** That the account is new is checked by [initialize_user]. *)
Module InitializeUser.
Record Accounts := mk { user : Pubkey; state : Pubkey; authority : Pubkey; payer : Pubkey }.
Definition check `{ProgramAddresses} (signed : list Pubkey) (user_id : Z) (a : Accounts)
    : bool :=
  is_at a.(user) (UserAddress a.(authority) user_id) && is_state a.(state)
  && is_signer signed a.(authority) && is_signer signed a.(payer).
End InitializeUser.

Module InitializeMarket.
Record Accounts := mk { admin : Pubkey; state : Pubkey; market : Pubkey; oracle : Pubkey }.
Definition check `{ProgramAddresses} (w : World) (signed : list Pubkey) (a : Accounts)
    : bool :=
  let i := w.(World.state).(State.number_of_markets) in
  is_signer signed a.(admin) && state_has_admin w a.(state) a.(admin)
  && is_at a.(market) (MarketAddress i) && bool_decide (w.(World.markets) !! i = None).
End InitializeMarket.

Module Deposit.
Record Accounts := mk {
  state : Pubkey; user : Pubkey; authority : Pubkey; bank_vault : Pubkey;
  user_token_account : Pubkey;
}.
Definition check `{ProgramAddresses} (w : World) (signed : list Pubkey) (bank_index : Z)
    (a : Accounts) : bool :=
  is_state a.(state) && user_has_authority w a.(user) a.(authority)
  && is_signer signed a.(authority) && is_at a.(bank_vault) (BankVaultAddress bank_index)
  && same_mint w a.(bank_vault) a.(user_token_account).
End Deposit.

Module Withdraw.
Record Accounts := mk {
  state : Pubkey; user : Pubkey; authority : Pubkey; bank_vault : Pubkey;
  bank_vault_authority : Pubkey; user_token_account : Pubkey;
}.
Definition check `{ProgramAddresses} (w : World) (signed : list Pubkey) (bank_index : Z)
    (a : Accounts) : bool :=
  is_state a.(state) && user_has_authority w a.(user) a.(authority)
  && is_signer signed a.(authority) && is_at a.(bank_vault) (BankVaultAddress bank_index)
  && is_at a.(bank_vault_authority) (BankVaultAuthorityAddress bank_index)
  && same_mint w a.(bank_vault) a.(user_token_account).
End Withdraw.

(** Whether a user with a profit has the authority is checked by [settle_pnl]. *)
Module SettlePNL.
Record Accounts := mk { state : Pubkey; user : Pubkey; authority : Pubkey }.
Definition check `{ProgramAddresses} (w : World) (signed : list Pubkey) (a : Accounts)
    : bool :=
  is_state a.(state) && is_user w a.(user) && is_signer signed a.(authority).
End SettlePNL.

Module TransferDeposit.
Record Accounts := mk { from_user : Pubkey; to_user : Pubkey; authority : Pubkey }.
Definition check (w : World) (signed : list Pubkey) (a : Accounts) : bool :=
  user_has_authority w a.(from_user) a.(authority)
  && user_has_authority w a.(to_user) a.(authority) && is_signer signed a.(authority).
End TransferDeposit.

Module UpdateBankCumulativeInterest.
Record Accounts := mk { bank : Pubkey }.
Definition check `{ProgramAddresses} (w : World) (bank_index : Z) (a : Accounts) : bool :=
  is_bank w a.(bank) bank_index.
End UpdateBankCumulativeInterest.

Module WithdrawFees.
Record Accounts := mk {
  state : Pubkey; admin : Pubkey; bank : Pubkey; bank_vault : Pubkey;
  bank_vault_authority : Pubkey; market : Pubkey; recipient : Pubkey;
}.
Definition check `{ProgramAddresses} (w : World) (signed : list Pubkey) (market_index : Z)
    (a : Accounts) : bool :=
  state_has_admin w a.(state) a.(admin) && is_signer signed a.(admin)
  && is_bank w a.(bank) 0 && is_at a.(bank_vault) (BankVaultAddress 0)
  && is_at a.(bank_vault_authority) (BankVaultAuthorityAddress 0)
  && is_market w a.(market) market_index && same_mint w a.(bank_vault) a.(recipient).
End WithdrawFees.

Module WithdrawFromInsuranceVault.
Record Accounts := mk {
  state : Pubkey; admin : Pubkey; insurance_vault : Pubkey;
  insurance_vault_authority : Pubkey; recipient : Pubkey;
}.
Definition check `{ProgramAddresses} (w : World) (signed : list Pubkey) (a : Accounts)
    : bool :=
  state_has_admin w a.(state) a.(admin) && is_signer signed a.(admin)
  && (w.(World.state).(State.insurance_vault) =? a.(insurance_vault))
  && (w.(World.state).(State.insurance_vault_authority) =? a.(insurance_vault_authority))
  && same_mint w a.(insurance_vault) a.(recipient).
End WithdrawFromInsuranceVault.

Module WithdrawFromInsuranceVaultToMarket.
Record Accounts := mk {
  state : Pubkey; market : Pubkey; admin : Pubkey; insurance_vault : Pubkey;
  insurance_vault_authority : Pubkey; bank_vault : Pubkey;
}.
Definition check `{ProgramAddresses} (w : World) (signed : list Pubkey) (market_index : Z)
    (a : Accounts) : bool :=
  state_has_admin w a.(state) a.(admin) && is_market w a.(market) market_index
  && is_signer signed a.(admin)
  && (w.(World.state).(State.insurance_vault) =? a.(insurance_vault))
  && (w.(World.state).(State.insurance_vault_authority) =? a.(insurance_vault_authority))
  && is_at a.(bank_vault) (BankVaultAddress 0)
  && same_mint w a.(insurance_vault) a.(bank_vault).
End WithdrawFromInsuranceVaultToMarket.

(** The oracles of this and the following contexts are checked by the handlers. *)
Module OpenPosition.
Record Accounts := mk { state : Pubkey; user : Pubkey; authority : Pubkey; oracle : Pubkey }.
Definition check `{ProgramAddresses} (w : World) (signed : list Pubkey) (a : Accounts)
    : bool :=
  is_state a.(state) && user_has_authority w a.(user) a.(authority)
  && is_signer signed a.(authority).
End OpenPosition.

Module FillOrder.
Record Accounts := mk {
  state : Pubkey; order_state : Pubkey; authority : Pubkey; filler : Pubkey;
  user : Pubkey; oracle : Pubkey;
}.
Definition check `{ProgramAddresses} (w : World) (signed : list Pubkey) (a : Accounts)
    : bool :=
  is_state a.(state) && is_order_state w a.(order_state) && is_signer signed a.(authority)
  && user_has_authority w a.(filler) a.(authority) && is_user w a.(user).
End FillOrder.

Module PlaceOrder.
Record Accounts := mk {
  state : Pubkey; order_state : Pubkey; user : Pubkey; authority : Pubkey; oracle : Pubkey;
}.
Definition check `{ProgramAddresses} (w : World) (signed : list Pubkey) (a : Accounts)
    : bool :=
  is_state a.(state) && is_order_state w a.(order_state)
  && user_has_authority w a.(user) a.(authority) && is_signer signed a.(authority).
End PlaceOrder.

Module PlaceAndFillOrder.
Record Accounts := mk {
  state : Pubkey; order_state : Pubkey; user : Pubkey; authority : Pubkey; oracle : Pubkey;
}.
Definition check `{ProgramAddresses} (w : World) (signed : list Pubkey) (a : Accounts)
    : bool :=
  is_state a.(state) && is_order_state w a.(order_state)
  && user_has_authority w a.(user) a.(authority) && is_signer signed a.(authority).
End PlaceAndFillOrder.

Module CancelOrder.
Record Accounts := mk {
  state : Pubkey; order_state : Pubkey; user : Pubkey; authority : Pubkey; oracle : Pubkey;
}.
Definition check `{ProgramAddresses} (w : World) (signed : list Pubkey) (a : Accounts)
    : bool :=
  is_state a.(state) && is_order_state w a.(order_state)
  && user_has_authority w a.(user) a.(authority) && is_signer signed a.(authority).
End CancelOrder.

(** No instruction has this context and the next. *)
Module CancelAllOrders.
Record Accounts := mk { state : Pubkey; order_state : Pubkey; user : Pubkey; authority : Pubkey }.
Definition check `{ProgramAddresses} (w : World) (signed : list Pubkey) (a : Accounts)
    : bool :=
  is_state a.(state) && is_order_state w a.(order_state)
  && user_has_authority w a.(user) a.(authority) && is_signer signed a.(authority).
End CancelAllOrders.

Module ExpireOrder.
Record Accounts := mk {
  state : Pubkey; order_state : Pubkey; authority : Pubkey; filler : Pubkey; user : Pubkey;
}.
Definition check `{ProgramAddresses} (w : World) (signed : list Pubkey) (a : Accounts)
    : bool :=
  is_state a.(state) && is_order_state w a.(order_state) && is_signer signed a.(authority)
  && user_has_authority w a.(filler) a.(authority) && is_user w a.(user).
End ExpireOrder.

Module ClosePosition.
Record Accounts := mk { state : Pubkey; user : Pubkey; authority : Pubkey; oracle : Pubkey }.
Definition check `{ProgramAddresses} (w : World) (signed : list Pubkey) (a : Accounts)
    : bool :=
  is_state a.(state) && user_has_authority w a.(user) a.(authority)
  && is_signer signed a.(authority).
End ClosePosition.

Module Liquidate.
Record Accounts := mk {
  state : Pubkey; authority : Pubkey; liquidator : Pubkey; user : Pubkey;
  bank_vault : Pubkey; bank_vault_authority : Pubkey; insurance_vault : Pubkey;
}.
Definition check `{ProgramAddresses} (w : World) (signed : list Pubkey) (a : Accounts)
    : bool :=
  is_state a.(state) && is_signer signed a.(authority)
  && user_has_authority w a.(liquidator) a.(authority) && is_user w a.(user)
  && is_at a.(bank_vault) (BankVaultAddress 0) && is_token_account w a.(bank_vault)
  && is_at a.(bank_vault_authority) (BankVaultAuthorityAddress 0)
  && (w.(World.state).(State.insurance_vault) =? a.(insurance_vault))
  && is_token_account w a.(insurance_vault).
End Liquidate.

Module SettleFunding.
Record Accounts := mk { state : Pubkey; user : Pubkey; market : Pubkey }.
Definition check `{ProgramAddresses} (w : World) (market_index : Z) (a : Accounts) : bool :=
  is_state a.(state) && is_user w a.(user) && is_market w a.(market) market_index.
End SettleFunding.

Module UpdateFundingRate.
Record Accounts := mk { state : Pubkey; market : Pubkey; oracle : Pubkey }.
Definition check `{ProgramAddresses} (w : World) (market_index : Z) (a : Accounts) : bool :=
  is_state a.(state) && is_market w a.(market) market_index.
End UpdateFundingRate.

Module RepegCurve.
Record Accounts := mk { state : Pubkey; market : Pubkey; oracle : Pubkey; admin : Pubkey }.
Definition check `{ProgramAddresses} (w : World) (signed : list Pubkey) (market_index : Z)
    (a : Accounts) : bool :=
  state_has_admin w a.(state) a.(admin) && is_market w a.(market) market_index
  && is_signer signed a.(admin).
End RepegCurve.

Module MoveAMMPrice.
Record Accounts := mk { state : Pubkey; admin : Pubkey; market : Pubkey }.
Definition check `{ProgramAddresses} (w : World) (signed : list Pubkey) (market_index : Z)
    (a : Accounts) : bool :=
  state_has_admin w a.(state) a.(admin)
  && w.(World.state).(State.admin_controls_prices)
  && is_signer signed a.(admin) && is_market w a.(market) market_index.
End MoveAMMPrice.

Module AdminUpdateState.
Record Accounts := mk { admin : Pubkey; state : Pubkey }.
Definition check `{ProgramAddresses} (w : World) (signed : list Pubkey) (a : Accounts)
    : bool :=
  is_signer signed a.(admin) && state_has_admin w a.(state) a.(admin).
End AdminUpdateState.

Module AdminUpdateOrderState.
Record Accounts := mk { admin : Pubkey; state : Pubkey; order_state : Pubkey }.
Definition check `{ProgramAddresses} (w : World) (signed : list Pubkey) (a : Accounts)
    : bool :=
  is_signer signed a.(admin) && state_has_admin w a.(state) a.(admin)
  && is_order_state w a.(order_state).
End AdminUpdateOrderState.

Module AdminUpdateK.
Record Accounts := mk { admin : Pubkey; state : Pubkey; market : Pubkey; oracle : Pubkey }.
Definition check `{ProgramAddresses} (w : World) (signed : list Pubkey) (market_index : Z)
    (a : Accounts) : bool :=
  is_signer signed a.(admin) && state_has_admin w a.(state) a.(admin)
  && is_market w a.(market) market_index.
End AdminUpdateK.

Module AdminUpdateMarket.
Record Accounts := mk { admin : Pubkey; state : Pubkey; market : Pubkey }.
Definition check `{ProgramAddresses} (w : World) (signed : list Pubkey) (market_index : Z)
    (a : Accounts) : bool :=
  is_signer signed a.(admin) && state_has_admin w a.(state) a.(admin)
  && is_market w a.(market) market_index.
End AdminUpdateMarket.
