(* ===== verification/Transactions.v ===== *)
(** * Transactions

    The instructions as they are sent to the program: with the accounts of their context
    (context.rs), which pass its checks, and with the keys that have signed.  Every
    transaction is a step of [System]: the checks of the contexts are what the steps
    assume of who signs and which accounts are new. *)

From stdpp Require Import base numbers list gmap.
From S2P Require Import Prelude Constants Bn State Value AmmMath BankBalance Twap Oracle.
From S2P Require Import Addresses Maps PositionMath Position Funding Fees Margin.
From S2P Require Import OrderValidation Orders Tokens BankHandlers Loading Trading Liquidation.
From S2P Require Import Frames Admin System Contexts.
Local Open Scope Z_scope.

(** ** Definitions *)

Section Transactions.
Context `{BnLib} `{OracleAccounts} `{TokenProgram} `{ProgramAddresses} `{Roots}.

(** What the accounts of [initialize_bank] give to its handler. *)
Definition bank_params_from (a : InitializeBank.Accounts) (p : BankParams) : Prop :=
  p.(BankParams.bank_pubkey) = a.(InitializeBank.bank)
  ∧ p.(BankParams.bank_mint) = a.(InitializeBank.bank_mint)
  ∧ p.(BankParams.bank_vault) = a.(InitializeBank.bank_vault)
  ∧ p.(BankParams.bank_vault_owner) = a.(InitializeBank.bank_vault_authority)
  ∧ account_key p.(BankParams.oracle) = a.(InitializeBank.oracle).

(** What other programs can do to the token accounts that this one owns: add to them. *)
Definition keeps_owned (ledger ledger' : Ledger) : Prop :=
  ∀ k t a, ledger !! k = Some t → t.(TokenAccount.owner) = address a →
    t.(TokenAccount.delegate) = None →
    ∃ x, ledger' !! k = Some (t <| TokenAccount.amount := x |>) ∧ t.(TokenAccount.amount) ≤ x.

(** The instructions of the context [RepegCurve], and those of [AdminUpdateMarket]. *)
Inductive repeg_curve (st : State) (m : Market) (oracle : AccountInfo) (clock : Clock)
    (m' : Market) : Prop :=
| curve_repeg peg :
    repeg_amm_curve st m oracle clock peg = Ok m' → has_type U128 peg →
    repeg_curve st m oracle clock m'
| curve_update_oracle_twap :
    update_amm_oracle_twap m oracle clock = Ok m' → Clock.typed clock →
    repeg_curve st m oracle clock m'
| curve_reset_oracle_twap :
    reset_amm_oracle_twap st m oracle clock = Ok m' → Clock.typed clock →
    repeg_curve st m oracle clock m'.

Inductive admin_update_market (m m' : Market) : Prop :=
| set_margin_ratio initial partial maintenance :
    update_margin_ratio m initial partial maintenance = Ok m' →
    has_type U32 initial → has_type U32 partial → has_type U32 maintenance →
    admin_update_market m m'
| set_curve_update_intensity x :
    update_curve_update_intensity m x = Ok m' → has_type U8 x → admin_update_market m m'
| set_market_oracle oracle source :
    update_market_oracle m oracle source = Ok m' → admin_update_market m m'
| set_minimum_quote_asset_trade_size x :
    update_market_minimum_quote_asset_trade_size m x = Ok m' → has_type U128 x →
    admin_update_market m m'
| set_minimum_base_asset_trade_size x :
    update_market_minimum_base_asset_trade_size m x = Ok m' → has_type U128 x →
    admin_update_market m m'
| set_base_spread x :
    update_market_base_spread m x = Ok m' → has_type U16 x → admin_update_market m m'.

(** [transaction w signed i w']: an instruction of the kind [i], signed by the keys
    [signed]. *)
Inductive transaction (w : World) (signed : list Pubkey) : Instruction → World → Prop :=
| tx_initialize_user a id name users' :
    InitializeUser.check signed id a = true →
    initialize_user w.(World.users) a.(InitializeUser.user) a.(InitializeUser.authority) id
      name = Ok users' →
    has_type U8 id →
    transaction w signed InitializeUser (w <| World.users := users' |>)
| tx_initialize_bank a p clock state' bank :
    InitializeBank.check w signed a = true → bank_params_from a p →
    initialize_bank w.(World.state) p clock = Ok (state', bank) →
    BankParams.typed p →
    transaction w signed InitializeBank
      (w <| World.state := state' |>
         <| World.banks := <[bank.(Bank.bank_index) := Loaded bank]> w.(World.banks) |>
         <| World.ledger := <[a.(InitializeBank.bank_vault) :=
              new_token_account a.(InitializeBank.bank_mint)
                a.(InitializeBank.bank_vault_authority)]> w.(World.ledger) |>)
| tx_initialize_market a p clock state' m :
    InitializeMarket.check w signed a = true →
    p.(MarketParams.market_pubkey) = a.(InitializeMarket.market) →
    account_key p.(MarketParams.oracle) = a.(InitializeMarket.oracle) →
    initialize_market w.(World.state) p clock = Ok (state', m) →
    MarketParams.typed p → Clock.typed clock →
    transaction w signed InitializeMarket
      (w <| World.state := state' |>
         <| World.markets := <[m.(Market.market_index) := Loaded m]> w.(World.markets) |>)
| tx_initialize_order_state a state' order_state' :
    InitializeOrderState.check w signed a = true →
    initialize_order_state w.(World.state) a.(InitializeOrderState.order_state)
      = Ok (state', order_state') →
    transaction w signed InitializeOrderState
      (w <| World.state := state' |> <| World.order_state := order_state' |>)
| tx_deposit a bm mm clock i amount ro users' bm' ledger' :
    Deposit.check w signed i a = true → has_type U64 i →
    bm ⊆ w.(World.banks) → mm ⊆ w.(World.markets) →
    deposit w.(World.users) bm mm w.(World.ledger) a.(Deposit.user)
      a.(Deposit.user_token_account) a.(Deposit.bank_vault) a.(Deposit.authority) clock i
      amount ro = Ok (users', bm', ledger') →
    transaction w signed Deposit_
      (w <| World.users := users' |> <| World.banks := bm' ∪ w.(World.banks) |>
         <| World.ledger := ledger' |>)
| tx_withdraw a bm mm om clock i amount ro users' bm' om' ledger' :
    Withdraw.check w signed i a = true → has_type U64 i →
    bm ⊆ w.(World.banks) → mm ⊆ w.(World.markets) →
    withdraw w.(World.state) w.(World.users) bm mm om w.(World.ledger) a.(Withdraw.user)
      a.(Withdraw.user_token_account) a.(Withdraw.bank_vault)
      a.(Withdraw.bank_vault_authority) clock i amount ro = Ok (users', bm', om', ledger') →
    transaction w signed Withdraw
      (w <| World.users := users' |> <| World.banks := bm' ∪ w.(World.banks) |>
         <| World.ledger := ledger' |>)
| tx_transfer_deposit a bm mm om clock i amount users' bm' om' :
    TransferDeposit.check w signed a = true →
    bm ⊆ w.(World.banks) → mm ⊆ w.(World.markets) →
    transfer_deposit w.(World.users) bm mm om a.(TransferDeposit.from_user)
      a.(TransferDeposit.to_user) clock i amount = Ok (users', bm', om') →
    has_type U64 i →
    transaction w signed TransferDeposit
      (w <| World.users := users' |> <| World.banks := bm' ∪ w.(World.banks) |>)
| tx_update_bank_cumulative_interest a i bank clock bank' :
    UpdateBankCumulativeInterest.check w i a = true →
    w.(World.banks) !! i = Some (Loaded bank) →
    update_bank_cumulative_interest_ix bank clock = Ok bank' →
    transaction w signed UpdateBankCumulativeInterest
      (w <| World.banks := <[i := Loaded bank']> w.(World.banks) |>)
| tx_settle_pnl a bm mm i users' bm' mm' :
    SettlePNL.check w signed a = true → bm ⊆ w.(World.banks) → mm ⊆ w.(World.markets) →
    settle_pnl w.(World.state) w.(World.users) bm mm a.(SettlePNL.user)
      a.(SettlePNL.authority) i = Ok (users', bm', mm') →
    transaction w signed SettlePNL
      (w <| World.users := users' |> <| World.banks := bm' ∪ w.(World.banks) |>
         <| World.markets := mm' ∪ w.(World.markets) |>)
| tx_open_position a bm mm om accounts oracle clock d q i limit opt users' mm' om' :
    OpenPosition.check w signed a = true → account_key oracle = a.(OpenPosition.oracle) →
    bm ⊆ w.(World.banks) → mm ⊆ w.(World.markets) →
    open_position w.(World.state) w.(World.users) bm mm om accounts a.(OpenPosition.user)
      a.(OpenPosition.authority) oracle clock d q i limit opt = Ok (users', mm', om') →
    Clock.typed clock → has_type U64 i →
    transaction w signed OpenPosition
      (w <| World.users := users' |> <| World.markets := mm' ∪ w.(World.markets) |>)
| tx_close_position a mm accounts oracle clock i opt users' mm' :
    ClosePosition.check w signed a = true → account_key oracle = a.(ClosePosition.oracle) →
    mm ⊆ w.(World.markets) →
    close_position w.(World.state) w.(World.users) mm accounts a.(ClosePosition.user)
      a.(ClosePosition.authority) oracle clock i opt = Ok (users', mm') →
    Clock.typed clock →
    transaction w signed ClosePosition
      (w <| World.users := users' |> <| World.markets := mm' ∪ w.(World.markets) |>)
| tx_place_order a accounts oracle clock params opt users' :
    PlaceOrder.check w signed a = true → account_key oracle = a.(PlaceOrder.oracle) →
    Forall (presented w) accounts →
    place_order_ix w.(World.state) w.(World.order_state) w.(World.users) accounts
      a.(PlaceOrder.user) a.(PlaceOrder.authority) oracle clock params opt = Ok users' →
    Clock.typed clock → OrderParams.typed params →
    transaction w signed PlaceOrder (w <| World.users := users' |>)
| tx_cancel_order a accounts oracle clock id users' :
    CancelOrder.check w signed a = true → account_key oracle = a.(CancelOrder.oracle) →
    Forall (presented w) accounts →
    cancel_order_ix w.(World.state) w.(World.users) accounts a.(CancelOrder.user) oracle
      clock id = Ok users' →
    transaction w signed CancelOrder (w <| World.users := users' |>)
| tx_cancel_order_by_user_id a accounts oracle clock id users' :
    CancelOrder.check w signed a = true → account_key oracle = a.(CancelOrder.oracle) →
    Forall (presented w) accounts →
    cancel_order_by_user_id w.(World.state) w.(World.users) accounts a.(CancelOrder.user)
      oracle clock id = Ok users' →
    transaction w signed CancelOrder (w <| World.users := users' |>)
| tx_fill_order a accounts oracle clock id users' mm' :
    FillOrder.check w signed a = true → account_key oracle = a.(FillOrder.oracle) →
    Forall (presented w) accounts →
    fill_order_ix w.(World.state) w.(World.order_state) w.(World.users) accounts
      a.(FillOrder.user) a.(FillOrder.filler) oracle clock id = Ok (users', mm') →
    Clock.typed clock →
    transaction w signed FillOrder
      (w <| World.users := users' |> <| World.markets := mm' ∪ w.(World.markets) |>)
| tx_place_and_fill_order a accounts oracle clock params opt users' mm' :
    PlaceAndFillOrder.check w signed a = true →
    account_key oracle = a.(PlaceAndFillOrder.oracle) → Forall (presented w) accounts →
    place_and_fill_order w.(World.state) w.(World.order_state) w.(World.users) accounts
      a.(PlaceAndFillOrder.user) a.(PlaceAndFillOrder.authority) oracle clock params opt
      = Ok (users', mm') →
    Clock.typed clock → OrderParams.typed params →
    transaction w signed PlaceAndFillOrder
      (w <| World.users := users' |> <| World.markets := mm' ∪ w.(World.markets) |>)
| tx_liquidate a bm mm om clock users' bm' mm' ledger' :
    Liquidate.check w signed a = true → bm ⊆ w.(World.banks) → mm ⊆ w.(World.markets) →
    liquidate w.(World.state) w.(World.users) bm mm om w.(World.ledger) a.(Liquidate.user)
      a.(Liquidate.liquidator) a.(Liquidate.bank_vault) a.(Liquidate.insurance_vault)
      a.(Liquidate.bank_vault_authority) clock = Ok (users', bm', mm', ledger') →
    Clock.typed clock →
    transaction w signed Liquidate
      (w <| World.users := users' |> <| World.banks := bm' ∪ w.(World.banks) |>
         <| World.markets := mm' ∪ w.(World.markets) |> <| World.ledger := ledger' |>)
| tx_settle_funding_payment a i mm users' :
    SettleFunding.check w i a = true → mm ⊆ w.(World.markets) →
    settle_funding_payment_ix w.(World.state) w.(World.users) mm a.(SettleFunding.user)
      = Ok users' →
    transaction w signed SettleFundingPayment (w <| World.users := users' |>)
| tx_update_funding_rate a i m oracle clock m' :
    UpdateFundingRate.check w i a = true →
    account_key oracle = a.(UpdateFundingRate.oracle) →
    w.(World.markets) !! i = Some (Loaded m) →
    update_funding_rate_ix w.(World.state) m oracle clock = Ok m' →
    Clock.typed clock →
    transaction w signed UpdateFundingRate
      (w <| World.markets := <[i := Loaded m']> w.(World.markets) |>)
| tx_move_amm_price a i m base quote m' :
    MoveAMMPrice.check w signed i a = true → w.(World.markets) !! i = Some (Loaded m) →
    move_amm_price w.(World.state) m base quote = Ok m' →
    has_type U128 base → has_type U128 quote →
    transaction w signed AdminMarket
      (w <| World.markets := <[i := Loaded m']> w.(World.markets) |>)
| tx_repeg_curve a i m oracle clock m' :
    RepegCurve.check w signed i a = true → account_key oracle = a.(RepegCurve.oracle) →
    w.(World.markets) !! i = Some (Loaded m) →
    repeg_curve w.(World.state) m oracle clock m' →
    transaction w signed AdminMarket
      (w <| World.markets := <[i := Loaded m']> w.(World.markets) |>)
| tx_update_k a i m oracle sqrt_k m' :
    AdminUpdateK.check w signed i a = true → account_key oracle = a.(AdminUpdateK.oracle) →
    w.(World.markets) !! i = Some (Loaded m) →
    update_k_ix w.(World.state) m oracle sqrt_k = Ok m' →
    transaction w signed AdminMarket
      (w <| World.markets := <[i := Loaded m']> w.(World.markets) |>)
| tx_admin_update_market a i m m' :
    AdminUpdateMarket.check w signed i a = true → w.(World.markets) !! i = Some (Loaded m) →
    admin_update_market m m' →
    transaction w signed AdminMarket
      (w <| World.markets := <[i := Loaded m']> w.(World.markets) |>)
| tx_admin_update_state a state' :
    AdminUpdateState.check w signed a = true → admin_state w.(World.state) state' →
    transaction w signed AdminState (w <| World.state := state' |>)
| tx_update_order_filler_reward_structure a rewards :
    AdminUpdateOrderState.check w signed a = true →
    OrderFillerRewardStructure.typed rewards →
    transaction w signed AdminState
      (w <| World.order_state :=
              update_order_filler_reward_structure w.(World.order_state) rewards |>)
| tx_withdraw_fees a i m bank amount m' ledger' :
    WithdrawFees.check w signed i a = true → w.(World.markets) !! i = Some (Loaded m) →
    w.(World.banks) !! 0 = Some (Loaded bank) →
    withdraw_fees m bank w.(World.ledger) a.(WithdrawFees.bank_vault)
      a.(WithdrawFees.recipient) a.(WithdrawFees.bank_vault_authority) amount
      = Ok (m', ledger') →
    transaction w signed WithdrawFees
      (w <| World.markets := <[i := Loaded m']> w.(World.markets) |>
         <| World.ledger := ledger' |>)
| tx_withdraw_from_insurance_vault a amount ledger' :
    WithdrawFromInsuranceVault.check w signed a = true →
    withdraw_from_insurance_vault w.(World.state) w.(World.ledger)
      a.(WithdrawFromInsuranceVault.insurance_vault) a.(WithdrawFromInsuranceVault.recipient)
      a.(WithdrawFromInsuranceVault.insurance_vault_authority) amount = Ok ledger' →
    transaction w signed WithdrawFromInsuranceVault (w <| World.ledger := ledger' |>)
| tx_withdraw_from_insurance_vault_to_market a i m amount m' ledger' :
    WithdrawFromInsuranceVaultToMarket.check w signed i a = true →
    w.(World.markets) !! i = Some (Loaded m) →
    withdraw_from_insurance_vault_to_market w.(World.state) m w.(World.ledger)
      a.(WithdrawFromInsuranceVaultToMarket.insurance_vault)
      a.(WithdrawFromInsuranceVaultToMarket.bank_vault)
      a.(WithdrawFromInsuranceVaultToMarket.insurance_vault_authority) amount
      = Ok (m', ledger') →
    transaction w signed WithdrawFromInsuranceVaultToMarket
      (w <| World.markets := <[i := Loaded m']> w.(World.markets) |>
         <| World.ledger := ledger' |>)
| tx_other_programs ledger' :
    keeps_owned w.(World.ledger) ledger' →
    transaction w signed OtherPrograms (w <| World.ledger := ledger' |>).

(** The exchange as a transaction with [initialize] leaves it; the order state is not an
    account yet. *)
Inductive initialized (signed : list Pubkey) : World → Prop :=
| tx_initialize ledger a admin_controls_prices st order_state :
    Initialize.check ledger signed a = true →
    initialize a.(Initialize.admin) a.(Initialize.insurance_vault)
      a.(Initialize.insurance_vault_authority) admin_controls_prices = Ok st →
    initialized signed (new_world st order_state
      (<[a.(Initialize.insurance_vault) :=
           new_token_account a.(Initialize.quote_asset_mint)
             a.(Initialize.insurance_vault_authority)]> ledger)).

(** One transaction, which at least the payer of its fee has signed, and the states of the
    exchange. *)
Definition any_transaction (w w' : World) : Prop :=
  ∃ payer others i, transaction w (payer :: others) i w'.
Inductive reachable (w : World) : Prop :=
| reachable_from signed w0 : initialized signed w0 → rtc any_transaction w0 w → reachable w.
End Transactions.

(** ** The checks as propositions *)

(** Splits the checks of a context. *)
Ltac checks H :=
  unfold Initialize.check, InitializeOrderState.check, InitializeBank.check,
    InitializeUser.check, InitializeMarket.check, Deposit.check, Withdraw.check,
    SettlePNL.check, TransferDeposit.check, UpdateBankCumulativeInterest.check,
    WithdrawFees.check, WithdrawFromInsuranceVault.check,
    WithdrawFromInsuranceVaultToMarket.check, OpenPosition.check, FillOrder.check,
    PlaceOrder.check, PlaceAndFillOrder.check, CancelOrder.check, ClosePosition.check,
    Liquidate.check, SettleFunding.check, UpdateFundingRate.check, RepegCurve.check,
    MoveAMMPrice.check, AdminUpdateState.check, AdminUpdateOrderState.check,
    AdminUpdateK.check, AdminUpdateMarket.check, is_at, is_signer, state_has_admin in H;
  cbv zeta in H; rewrite ?andb_true_iff, ?Z.eqb_eq, ?bool_decide_eq_true in H;
  destruct_and? H.

Section Checks.
Context `{ProgramAddresses}.

Lemma user_has_authority_owned w user authority :
  user_has_authority w user authority = true → owned_by w.(World.users) user authority.
Proof.
  unfold user_has_authority, owned_by. destruct (World.users w !! user) as [[u|]|]; try done.
  by exists u.
Qed.
End Checks.

Section Refinement.
Context `{BnLib} `{OracleAccounts} `{TokenProgram} `{ProgramAddresses} `{Roots}.

Lemma initialize_bank_index st p clock st' b :
  initialize_bank st p clock = Ok (st', b) → b.(Bank.bank_index) = st.(State.number_of_banks).
Proof.
  intros Hok. unfold initialize_bank in Hok. destruct (find_bank_vault_authority _) as [va n].
  destruct (negb _); [done|]. destruct (get_then_update_id _) as [i next].
  apply bind_ok in Hok as ([] & _ & Hok). apply bind_ok in Hok as (t & _ & Hok).
  apply Ok_inj in Hok. by injection Hok as <- <-.
Qed.

Lemma initialize_market_index st p clock st' m :
  initialize_market st p clock = Ok (st', m) →
  m.(Market.market_index) = st.(State.number_of_markets).
Proof.
  intros Hok. unfold initialize_market in Hok. destruct (negb _); [done|]. cbv zeta in Hok.
  by frame_steps.
Qed.

Lemma repeg_curve_admin st m oracle clock m' :
  repeg_curve st m oracle clock m' → admin_market st m m'.
Proof. intros [peg Hok|Hok|Hok]; by econstructor; eauto. Qed.

Lemma admin_update_market_admin st m m' : admin_update_market m m' → admin_market st m m'.
Proof.
  intros [x y z Hok|x Hok|x y Hok|x Hok|x Hok|x Hok];
    [eapply admin_update_margin_ratio|eapply admin_update_curve_update_intensity
    |eapply admin_update_market_oracle|eapply admin_update_market_minimum_quote_asset_trade_size
    |eapply admin_update_market_minimum_base_asset_trade_size
    |eapply admin_update_market_base_spread]; done.
Qed.
End Refinement.

(** The cases of a transaction: [Hc] are the checks of the context, [Hok] is the run of
    the handler. *)
Ltac tx_cases H :=
  destruct H as [a id name users' Hc Hok|a p clock st' bank Hc Hp Hok|
    a p clock st' m Hc Hp Ho Hok|a st' ost' Hc Hok|a bm mm clock i amount ro users' bm' l' Hc Hi
    Hbm Hmm Hok|a bm mm om clock i amount ro users' bm' om' l' Hc Hi Hbm Hmm Hok|
    a bm mm om clock i amount users' bm' om' Hc Hbm Hmm Hok|a i bank clock bank' Hc Hi Hok|
    a bm mm i users' bm' mm' Hc Hbm Hmm Hok|a bm mm om accounts oracle clock d q i limit opt
    users' mm' om' Hc Ho Hbm Hmm Hok|a mm accounts oracle clock i opt users' mm' Hc Ho Hmm Hok|
    a accounts oracle clock params opt users' Hc Ho Hall Hok|a accounts oracle clock id users'
    Hc Ho Hall Hok|a accounts oracle clock id users' Hc Ho Hall Hok|a accounts oracle clock id
    users' mm' Hc Ho Hall Hok|a accounts oracle clock params opt users' mm' Hc Ho Hall Hok|
    a bm mm om clock users' bm' mm' l' Hc Hbm Hmm Hok|a i mm users' Hc Hmm Hok|
    a i m oracle clock m' Hc Ho Hi Hok|a i m base quote m' Hc Hi Hok|
    a i m oracle clock m' Hc Ho Hi Hok|a i m oracle k m' Hc Ho Hi Hok|a i m m' Hc Hi Hok|
    a st' Hc Hok|a rewards Hc|a i m bank x m' l' Hc Hi Hb Hok|a x l' Hc Hok|
    a i m x m' l' Hc Hi Hok|l' Hok];
  try (checks Hc).

Section Refinement.
Context `{BnLib} `{OracleAccounts} `{TokenProgram} `{ProgramAddresses} `{Roots}.

(** The step of a signer that the handler's run [Hok] gives. *)
#[local] Ltac run lem Hok Hsame := eapply Hsame; cycle 1; [eapply lem; try exact Hok; done|done].

(** The checks of the contexts are enough: who owns the user or is the administrator, and
    that created accounts are new.  The creation of a bank also adds its vault to the
    token accounts. *)
Lemma transaction_step w signed i w' payer :
  transaction w signed i w' → payer ∈ signed →
  ∃ signer w1, signer ∈ signed ∧ step w signer i w1
    ∧ (w' = w1 ∨ i = InitializeBank ∧ step w1 signer OtherPrograms w').
Proof.
  intros Htx Hpayer.
  assert (∀ signer, signer ∈ signed → step w signer i w' → ∃ signer w1, signer ∈ signed
    ∧ step w signer i w1 ∧ (w' = w1 ∨ i = InitializeBank ∧ step w1 signer OtherPrograms w'))
    as Hsame by (intros signer ??; exists signer, w'; auto).
  tx_cases Htx;
    try match goal with
    | Hu : user_has_authority _ _ _ = true, Hu' : user_has_authority _ _ _ = true |- _ =>
        apply user_has_authority_owned in Hu, Hu'
    | Hu : user_has_authority _ _ _ = true |- _ => apply user_has_authority_owned in Hu
    end.
  - run step_initialize_user Hok Hsame.
  - exists a.(InitializeBank.admin). eexists. split_and!; [done| |right; split; [done|]].
    + eapply step_initialize_bank; [done|exact Hok| |done].
      by rewrite (initialize_bank_index _ _ _ _ _ Hok).
    + eapply step_other_programs.
  - eapply Hsame; [|eapply step_initialize_market; [done|exact Hok| |done..]]; [done|].
    by rewrite (initialize_market_index _ _ _ _ _ Hok).
  - run step_initialize_order_state Hok Hsame.
  - run step_deposit Hok Hsame.
  - run step_withdraw Hok Hsame.
  - run step_transfer_deposit Hok Hsame.
  - specialize (Hsame payer Hpayer). apply Hsame. by eapply step_update_bank_cumulative_interest.
  - run step_settle_pnl Hok Hsame.
  - run step_open_position Hok Hsame.
  - run step_close_position Hok Hsame.
  - run step_place_order Hok Hsame.
  - run step_cancel_order Hok Hsame.
  - run step_cancel_order_by_user_id Hok Hsame.
  - run step_fill_order Hok Hsame.
  - run step_place_and_fill_order Hok Hsame.
  - eapply Hsame; [|eapply step_liquidate; [done..| |done]]; [done|].
    match goal with Hv : State.insurance_vault _ = _ |- _ => by rewrite Hv end.
  - specialize (Hsame payer Hpayer). apply Hsame. by eapply step_settle_funding_payment.
  - specialize (Hsame payer Hpayer). apply Hsame. by eapply step_update_funding_rate.
  - eapply Hsame; cycle 1;
      [eapply step_admin_market; [done|exact Hi|by eapply admin_move_amm_price]|done].
  - run step_admin_market (repeg_curve_admin _ _ _ _ _ Hok) Hsame.
  - run step_admin_market (admin_update_k _ _ _ _ _ Hok) Hsame.
  - run step_admin_market (admin_update_market_admin (World.state w) _ _ Hok) Hsame.
  - run step_admin_state Hok Hsame.
  - eapply Hsame; cycle 1; [by eapply step_update_order_filler_reward_structure|done].
  - run step_withdraw_fees Hok Hsame.
  - eapply Hsame; [|eapply step_withdraw_from_insurance_vault; [done|]]; [done|].
    match goal with Hv : State.insurance_vault _ = _ |- _ => rewrite Hv end.
    match goal with Hv : State.insurance_vault_authority _ = _ |- _ => by rewrite Hv end.
  - eapply Hsame; [|eapply step_withdraw_from_insurance_vault_to_market; [done..|]]; [done|].
    match goal with Hv : State.insurance_vault _ = _ |- _ => rewrite Hv end.
    match goal with Hv : State.insurance_vault_authority _ = _ |- _ => by rewrite Hv end.
  - exact (Hsame payer Hpayer (step_other_programs _ _ _)).
Qed.

Lemma any_transaction_steps w w' : any_transaction w w' → rtc any_step w w'.
Proof.
  intros (payer & others & i & Htx).
  destruct (transaction_step _ _ _ _ payer Htx) as (signer & w1 & _ & Hs & Hend); [constructor|].
  destruct Hend as [->|[_ Hend]]; [apply rtc_once; by exists signer, i|].
  eapply rtc_l; [by exists signer, i|]. apply rtc_once. by exists signer, OtherPrograms.
Qed.

Lemma transactions_steps w w' : rtc any_transaction w w' → rtc any_step w w'.
Proof.
  induction 1 as [|w1 w2 w3 Hs _ IH]; [done|].
  etransitivity; [by apply any_transaction_steps|exact IH].
Qed.

(** C7. Transactions refine the steps: a state that the exchange reaches by transactions is
    one that it reaches by steps, and a transaction from there is the step of one of its
    signers, with the ledger of a new bank's vault besides; so that what is shown of steps
    holds of what can be sent to the program. *)
Theorem transactions_refine_steps w payer others i w' :
  reachable w → transaction w (payer :: others) i w' →
  (∃ st ost ledger, rtc any_step (new_world st ost ledger) w)
  ∧ ∃ signer w1, signer ∈ payer :: others ∧ step w signer i w1
    ∧ w' = w1 <| World.ledger := w'.(World.ledger) |>
    ∧ (i ≠ InitializeBank → w' = w1).
Proof.
  intros [signed w0 [ledger a p st ost _ _] Hsteps] Htx. split.
  - eexists _, _, _. by apply transactions_steps.
  - destruct (transaction_step _ _ _ _ payer Htx) as (signer & w1 & Hin & Hs & Hend);
      [constructor|]. exists signer, w1. split_and!; [done|done|..].
    + destruct Hend as [->|[_ Hend]]; [by destruct w1|by inversion Hend].
    + by destruct Hend as [->|[-> _]].
Qed.
End Refinement.
