(* ===== verification/Custody.v ===== *)
(** * The custody of the tokens

    The vaults of the banks and of the insurance fund are token accounts that only the
    program signs for.  Whatever transactions are sent, they stay in its custody, and
    tokens leave them only by the instructions, and with the signatures, that are meant
    to take them out. *)

From stdpp Require Import base numbers list gmap.
From S2P Require Import Prelude Constants Bn State Value AmmMath BankBalance Twap Oracle.
From S2P Require Import Addresses Maps PositionMath Position Funding Fees Margin.
From S2P Require Import OrderValidation Orders Tokens BankHandlers BankLedger Loading Trading.
From S2P Require Import Liquidation LiquidationProps Frames BankTypes Admin System Contexts.
From S2P Require Import Transactions.
Local Open Scope Z_scope.

(** ** Definitions *)

Section Custody.
Context `{BnLib} `{OracleAccounts} `{TokenProgram} `{ProgramAddresses} `{Roots}.

(** A token account that is the program's, for which it signs as [a]. *)
Definition owned_as (t : TokenAccount) (a : Address) : Prop :=
  t.(TokenAccount.owner) = address a ∧ t.(TokenAccount.delegate) = None.

(** Which transfers an instruction is meant to make on behalf of the program. *)
Inductive authorized (w : World) (signed : list Pubkey) : Instruction → Signer → Prop :=
| authorized_withdraw user authority bank_index nonce :
    owned_by w.(World.users) user authority → authority ∈ signed → has_type U64 bank_index →
    authorized w signed Withdraw (BankVaultSigns bank_index nonce)
| authorized_withdraw_fees nonce :
    w.(World.state).(State.admin) ∈ signed →
    authorized w signed WithdrawFees (BankVaultSigns 0 nonce)
| authorized_liquidate liquidator authority nonce :
    owned_by w.(World.users) liquidator authority → authority ∈ signed →
    authorized w signed Liquidate (BankVaultSigns 0 nonce)
| authorized_withdraw_from_insurance_vault nonce :
    w.(World.state).(State.admin) ∈ signed →
    authorized w signed WithdrawFromInsuranceVault
      (InsuranceVaultSigns w.(World.state).(State.insurance_vault) nonce)
| authorized_withdraw_from_insurance_vault_to_market nonce :
    w.(World.state).(State.admin) ∈ signed →
    authorized w signed WithdrawFromInsuranceVaultToMarket
      (InsuranceVaultSigns w.(World.state).(State.insurance_vault) nonce).

(** What becomes of the token accounts of the program: they stay as they are but for the
    amounts, and one that has less than before has paid by a transfer that the program
    has signed and the instruction is meant to make. *)
Definition ledger_guarded (w : World) (signed : list Pubkey) (i : Instruction)
    (ledger' : Ledger) : Prop :=
  ∀ k t a, w.(World.ledger) !! k = Some t → owned_as t a →
    ∃ x, ledger' !! k = Some (t <| TokenAccount.amount := x |>)
      ∧ (x < t.(TokenAccount.amount) → ∃ s, authorized w signed i s ∧ signs s = Some (address a)).

(** A bank and its vault, and the insurance vault. *)
Record bank_in_custody (ledger : Ledger) (i : Z) (b : Bank) : Prop := {
  custody_index : b.(Bank.bank_index) = i ∧ has_type U64 i;
  custody_vault : b.(Bank.vault) = address (BankVaultAddress i);
  custody_authority :
    (b.(Bank.vault_authority), b.(Bank.vault_authority_nonce)) = find_bank_vault_authority i;
  custody_account : ∃ t, ledger !! b.(Bank.vault) = Some t
    ∧ t.(TokenAccount.mint) = b.(Bank.mint) ∧ owned_as t (BankVaultAuthorityAddress i);
}.

Record custody (w : World) : Prop := {
  custody_insurance_vault :
    w.(World.state).(State.insurance_vault) = address InsuranceVaultAddress;
  custody_insurance_authority :
    (w.(World.state).(State.insurance_vault_authority),
     w.(World.state).(State.insurance_vault_nonce))
    = find_insurance_vault_authority w.(World.state).(State.insurance_vault);
  custody_insurance_account :
    ∃ t, w.(World.ledger) !! w.(World.state).(State.insurance_vault) = Some t
      ∧ owned_as t (InsuranceVaultAuthorityAddress w.(World.state).(State.insurance_vault));
  custody_counter : has_type U64 w.(World.state).(State.number_of_banks);
  custody_banks i c :
    w.(World.banks) !! i = Some c → ∃ b, c = Loaded b ∧ bank_in_custody w.(World.ledger) i b;
}.
End Custody.

(** ** Transfers *)

Section Transfers.
Context `{TokenLaws} `{!AddressLaws}.

Lemma same_amount t : t = t <| TokenAccount.amount := t.(TokenAccount.amount) |>.
Proof. by destruct t. Qed.

(** A transfer takes from an account of the program only what the program signs for. *)
Lemma transfer_guarded s l from to auth x l' k t a :
  token_transfer s l from to auth x = Some l' → l !! k = Some t → owned_as t a →
  ∃ y, l' !! k = Some (t <| TokenAccount.amount := y |>)
    ∧ (y < t.(TokenAccount.amount) → signs s = Some (address a)).
Proof.
  intros Htok Hk [Howner Hdel].
  apply token_transfer_spec in Htok
    as (Hsign & f & g & d & Hf & Hg & _ & Hauth & Hx & Hd & ->).
  assert (k = from → signs s = Some (address a)) as Hfrom.
  { intros ->. rewrite Hk in Hf. injection Hf as <-. rewrite Hdel in Hauth.
    destruct Hauth as [->|]; [|done]. rewrite Howner in Hsign.
    destruct Hsign as [Hs|]; [|done]. by destruct (address_no_private_key a). }
  destruct (Z.eqb_spec from to) as [->|Hne].
  - exists t.(TokenAccount.amount). rewrite <-same_amount. split; [done|lia].
  - destruct (decide (k = to)) as [->|Hto]; [|destruct (decide (k = from)) as [->|Hkf]].
    + rewrite Hk in Hg. injection Hg as <-. eexists. rewrite lookup_insert_eq.
      split; [done|lia].
    + rewrite Hk in Hf. injection Hf as <-. eexists.
      rewrite lookup_insert_ne, lookup_insert_eq by done. split; [|auto].
      rewrite (Hd Hdel). destruct t. cbn in Hdel. by subst.
    + exists t.(TokenAccount.amount). rewrite !lookup_insert_ne, <-same_amount by done.
      split; [done|lia].
Qed.

(** Nobody else signs as a bank's vault authority, and the caller as nothing. *)
Lemma signs_bank_vault s i :
  has_type U64 i → signs s = Some (address (BankVaultAuthorityAddress i)) →
  (∀ j n, s = BankVaultSigns j n → has_type U64 j) → ∃ n, s = BankVaultSigns i n.
Proof.
  intros Hi Hs Hj. destruct (address_created (BankVaultAuthorityAddress i)) as [n Hn].
  destruct s as [|j m|v m]; cbn [signs] in Hs; [done|..];
    pose proof (create_program_address_inj _ _ _ Hs Hn) as Heq;
    apply app_inj_2 in Heq as [Heq _]; try done.
  - apply seeds_inj in Heq; [|by eapply Hj|done]. injection Heq as ->. by exists m.
Qed.

Lemma signs_insurance_vault s v :
  signs s = Some (address (InsuranceVaultAuthorityAddress v)) →
  ∃ u n, s = InsuranceVaultSigns u n.
Proof.
  intros Hs. destruct (address_created (InsuranceVaultAuthorityAddress v)) as [n Hn].
  destruct s as [|j m|u m]; cbn [signs] in Hs; [done| |by eexists _, _].
  pose proof (create_program_address_inj _ _ _ Hs Hn) as Heq.
  apply app_inj_2 in Heq as [Heq _]; done.
Qed.
End Transfers.

(** ** What a transaction does to the ledger *)

Section Ledger.
Context `{BnLib} `{OracleAccounts} `{TokenLaws} `{!AddressLaws} `{Roots}.

Lemma guarded_refl w signed i : ledger_guarded w signed i w.(World.ledger).
Proof.
  intros k t a Hk _. exists t.(TokenAccount.amount). rewrite <-same_amount. split; [done|lia].
Qed.

Lemma guarded_new w signed i k t :
  w.(World.ledger) !! k = None → ledger_guarded w signed i (<[k:=t]> w.(World.ledger)).
Proof.
  intros Hnew k' t' a Hk' Ha. rewrite lookup_insert_ne by congruence.
  by apply (guarded_refl w signed i).
Qed.

Lemma guarded_kept w signed i l' :
  keeps_owned w.(World.ledger) l' → ledger_guarded w signed i l'.
Proof.
  intros Hl k t a Hk [Ho Hd]. destruct (Hl _ _ _ Hk Ho Hd) as (x & Hx & Hle).
  exists x. split; [done|lia].
Qed.

Lemma guarded_transfer w signed i s from to auth x l' :
  token_transfer s w.(World.ledger) from to auth x = Some l' →
  s = CallerSigns ∨ authorized w signed i s → ledger_guarded w signed i l'.
Proof.
  intros Htok Hs k t a Hk Ha.
  destruct (transfer_guarded _ _ _ _ _ _ _ _ _ _ Htok Hk Ha) as (y & Hy & Hsign).
  exists y. split; [done|]. intros Hlt. apply Hsign in Hlt. exists s. split; [|done].
  by destruct Hs as [->|].
Qed.

(** What the transfers of controller/token.rs are. *)
#[local] Instance send_from_bank_vault_transfer ledger from to auth i n x :
  Frame (send_from_bank_vault ledger from to auth i n x)
    (λ r, token_transfer (BankVaultSigns i n) ledger from to auth x = Some r).
Proof. intros r Hok. by apply unwrap_ok in Hok. Qed.

#[local] Instance send_from_insurance_vault_transfer ledger from to auth n x :
  Frame (send_from_insurance_vault ledger from to auth n x)
    (λ r, token_transfer (InsuranceVaultSigns from n) ledger from to auth x = Some r).
Proof. intros r Hok. by apply unwrap_ok in Hok. Qed.

#[local] Instance receive_transfer ledger from to auth x :
  Frame (receive ledger from to auth x)
    (λ r, token_transfer CallerSigns ledger from to auth x = Some r).
Proof. intros r Hok. by apply unwrap_ok in Hok. Qed.

Lemma liquidate_transfer st users bm mm om ledger key liquidator vault insurance auth clock
    users' bm' mm' ledger' :
  liquidate st users bm mm om ledger key liquidator vault insurance auth clock
    = Ok (users', bm', mm', ledger') →
  ledger' = ledger
  ∨ ∃ n x, token_transfer (BankVaultSigns 0 n) ledger vault insurance auth x = Some ledger'.
Proof.
  intros Hok. apply liquidate_inv in Hok as (u & u1 & om1 & status & progress & t & us2 & bm2
    & u2 & bank & k & bank3 & u3 & _ & _ & _ & _ & _ & _ & _ & _ & _ & _ & _ & _ & _ & Hl & _).
  destruct (0 <? _); [right; eauto|by left].
Qed.

Lemma withdraw_transfer st users banks markets om ledger key token vault auth clock i amount ro
    users' banks' om' ledger' :
  withdraw st users banks markets om ledger key token vault auth clock i amount ro
    = Ok (users', banks', om', ledger') →
  ∃ n x, token_transfer (BankVaultSigns i n) ledger vault token auth x = Some ledger'.
Proof.
  intros Hok. unfold withdraw in Hok. frame_steps. eauto.
Qed.

Lemma deposit_transfer users banks markets ledger key token vault auth clock i amount ro
    users' banks' ledger' :
  deposit users banks markets ledger key token vault auth clock i amount ro
    = Ok (users', banks', ledger') →
  ∃ x, token_transfer CallerSigns ledger token vault auth x = Some ledger'.
Proof. intros Hok. unfold deposit in Hok. frame_steps. eauto. Qed.

Lemma withdraw_fees_transfer m bank ledger vault recipient auth x m' ledger' :
  withdraw_fees m bank ledger vault recipient auth x = Ok (m', ledger') →
  ∃ n, token_transfer (BankVaultSigns 0 n) ledger vault recipient auth x = Some ledger'.
Proof. intros Hok. unfold withdraw_fees in Hok. cbv zeta in Hok. frame_steps. eauto. Qed.

Lemma withdraw_to_market_transfer st m ledger vault to auth x m' ledger' :
  withdraw_from_insurance_vault_to_market st m ledger vault to auth x = Ok (m', ledger') →
  token_transfer (InsuranceVaultSigns vault st.(State.insurance_vault_nonce)) ledger vault to
    auth x = Some ledger'.
Proof.
  intros Hok. unfold withdraw_from_insurance_vault_to_market in Hok. by frame_steps.
Qed.

(** Every transaction guards the token accounts of the program. *)
Lemma transaction_guarded w signed i w' :
  transaction w signed i w' → ledger_guarded w signed i w'.(World.ledger).
Proof.
  intros Htx. tx_cases Htx;
    try match goal with
    | Hu : user_has_authority _ _ _ = true |- _ => apply user_has_authority_owned in Hu
    end;
    try match goal with
    | Ha : has_one_admin _ _ = true |- _ => apply Z.eqb_eq in Ha; rewrite <-Ha in *
    end; try exact (guarded_refl w signed _).
  - by apply guarded_new.
  - apply deposit_transfer in Hok as [x Htok]. eapply guarded_transfer; [exact Htok|by left].
  - apply withdraw_transfer in Hok as (n & x & Htok).
    eapply guarded_transfer; [exact Htok|right; by econstructor].
  - apply liquidate_transfer in Hok as [->|(n & x & Htok)]; [exact (guarded_refl w signed _)|].
    eapply guarded_transfer; [exact Htok|right; by econstructor].
  - apply withdraw_fees_transfer in Hok as [n Htok].
    eapply guarded_transfer; [exact Htok|right; by constructor].
  - apply (frame (r := send_from_insurance_vault _ _ _ _ _ _)) in Hok.
    eapply guarded_transfer; [exact Hok|right].
    match goal with Hv : State.insurance_vault _ = _ |- _ => rewrite <-Hv end. by constructor.
  - apply withdraw_to_market_transfer in Hok. eapply guarded_transfer; [exact Hok|right].
    match goal with Hv : State.insurance_vault _ = _ |- _ => rewrite <-Hv end. by constructor.
  - by apply guarded_kept.
Qed.
End Ledger.

(** ** Custody is kept *)

Section Invariant.
Context `{BnLib} `{OracleAccounts} `{TokenLaws} `{!AddressLaws} `{Roots}.

Definition insurance_of (st : State) :=
  (st.(State.insurance_vault), st.(State.insurance_vault_authority),
   st.(State.insurance_vault_nonce)).

Lemma initialize_bank_custody st p clock st' b :
  initialize_bank st p clock = Ok (st', b) →
  let i := st.(State.number_of_banks) in
  b.(Bank.bank_index) = i ∧ b.(Bank.vault) = p.(BankParams.bank_vault)
  ∧ b.(Bank.mint) = p.(BankParams.bank_mint)
  ∧ (b.(Bank.vault_authority), b.(Bank.vault_authority_nonce)) = find_bank_vault_authority i
  ∧ insurance_of st' = insurance_of st
  ∧ (has_type U64 i → has_type U64 st'.(State.number_of_banks)).
Proof.
  cbv zeta. intros Hok. unfold initialize_bank in Hok.
  destruct (find_bank_vault_authority _) as [va n]. destruct (negb _); [done|].
  unfold get_then_update_id in Hok.
  apply bind_ok in Hok as ([] & _ & Hok). apply bind_ok in Hok as (t & _ & Hok).
  apply Ok_inj in Hok. injection Hok as <- <-.
  do 5 (split; [done|]). intros _. cbn -[checked_add].
  destruct (checked_add _ _ _) as [x|] eqn:Hx; [|done].
  unfold checked_add in Hx. by apply checked_some in Hx as [-> ?].
Qed.

Lemma transaction_state w signed i w' :
  transaction w signed i w' → i ≠ InitializeBank →
  insurance_of w'.(World.state) = insurance_of w.(World.state)
  ∧ w'.(World.state).(State.number_of_banks) = w.(World.state).(State.number_of_banks).
Proof.
  intros Htx Hi'. tx_cases Htx; try done.
  - unfold initialize_market in Hok. destruct (negb _); [done|]. cbv zeta in Hok.
    by frame_steps.
  - unfold initialize_order_state in Hok. destruct (negb _); [done|].
    apply Ok_inj in Hok. by injection Hok as <- <-.
  - by destruct Hok.
Qed.

Lemma transaction_banks w payer others i w' :
  transaction w (payer :: others) i w' → i ≠ InitializeBank →
  banks_evolve w.(World.banks) w'.(World.banks).
Proof.
  intros Htx Hi. destruct (transaction_step _ _ _ _ payer Htx) as (signer & w1 & _ & Hs & Hend);
    [constructor|]. destruct Hend as [->|[]]; [by eapply step_banks|done].
Qed.

(** A bank keeps what identifies its vault, and the vault stays the program's. *)
Lemma bank_custody_kept w signed i l' j b b' :
  ledger_guarded w signed i l' → bank_in_custody w.(World.ledger) j b →
  bank_params b' = bank_params b → bank_in_custody l' j b'.
Proof.
  intros Hl [Hj Hv Ha (t & Ht & Hm & Hown)] Hp.
  injection Hp as Ei _ _ _ Em Ev Ea En _ _ _ _ _ _ _ _.
  split; [by rewrite Ei|by rewrite Ev|by rewrite Ea, En|].
  destruct (Hl _ _ _ Ht Hown) as (x & Hx & _). rewrite Ev, Em. by eexists.
Qed.

Lemma insurance_kept w signed i st' l' :
  ledger_guarded w signed i l' → custody w → insurance_of st' = insurance_of w.(World.state) →
  st'.(State.insurance_vault) = address InsuranceVaultAddress
  ∧ (st'.(State.insurance_vault_authority), st'.(State.insurance_vault_nonce))
    = find_insurance_vault_authority st'.(State.insurance_vault)
  ∧ ∃ t, l' !! st'.(State.insurance_vault) = Some t
      ∧ owned_as t (InsuranceVaultAuthorityAddress st'.(State.insurance_vault)).
Proof.
  intros Hl [Hv Ha (t & Ht & Hown) _ _] Heq. injection Heq as Ev Ea En.
  rewrite Ev, Ea, En. split_and!; [done|done|].
  destruct (Hl _ _ _ Ht Hown) as (x & Hx & _). by eexists.
Qed.

(** The new bank has a vault of its own. *)
Lemma initialize_bank_keeps_custody w signed w' :
  transaction w signed InitializeBank w' → custody w → custody w'.
Proof.
  intros Htx Hw. pose proof (transaction_guarded _ _ _ _ Htx) as Hl.
  inversion Htx as [|a p clock st' bank Hc Hp Hok| | | | | | | | | | | | | |
    | | | | | | | | | | | | |]; subst. checks Hc. destruct Hp as (_ & Hmint & Hvault & _ & _).
  apply initialize_bank_custody in Hok as (Ei & Ev & Em & Ea & Es & Et). cbn in Hl.
  pose proof (insurance_kept _ _ _ _ _ Hl Hw Es) as (Hiv & Hia & Hit).
  split; [done|done|done|by apply Et, Hw|]. cbn. intros j c Hj.
  apply lookup_insert_Some in Hj as [[<- <-]|[_ Hj]].
  - exists bank. split; [done|]. rewrite Ei. split; [by split; [|apply Hw]|congruence|done|].
    rewrite Ev, Em, Hvault, Hmint, lookup_insert_eq. eexists. split_and!; [done|done|].
    by split.
  - destruct (custody_banks _ Hw _ _ Hj) as (b & -> & Hb). exists b. split; [done|].
    by eapply bank_custody_kept.
Qed.

Lemma transaction_keeps_custody w payer others i w' :
  transaction w (payer :: others) i w' → custody w → custody w'.
Proof.
  intros Htx Hw. destruct (decide (i = InitializeBank)) as [->|Hi];
    [by eapply initialize_bank_keeps_custody|].
  pose proof (transaction_guarded _ _ _ _ Htx) as Hl.
  destruct (transaction_state _ _ _ _ Htx Hi) as [Es Et].
  destruct (insurance_kept _ _ _ _ _ Hl Hw Es) as (Hiv & Hia & Hit).
  destruct (transaction_banks _ _ _ _ _ Htx Hi) as [Hnone Hsome].
  split; [done|done|done|by rewrite Et; apply Hw|]. intros j c Hj.
  destruct (World.banks w !! j) as [c0|] eqn:Hj0; [|by rewrite (Hnone _ Hj0) in Hj].
  destruct (custody_banks _ Hw _ _ Hj0) as (b & -> & Hb).
  destruct (Hsome _ _ Hj0) as (b' & Hb' & E). exists b'.
  split; [congruence|]. eapply bank_custody_kept; [done..|]. by apply evolves_params.
Qed.

Lemma initialized_custody signed w : initialized signed w → custody w.
Proof.
  intros [ledger a p st ost Hc Hok]. checks Hc. unfold initialize in Hok.
  destruct (find_insurance_vault_authority _) as [auth n] eqn:Ha.
  destruct (Z.eqb_spec a.(Initialize.insurance_vault_authority) auth) as [Hauth|]; [|done].
  apply Ok_inj in Hok as <-. split; cbn; try done.
  exists (new_token_account (Initialize.quote_asset_mint a) auth).
  rewrite Hauth, lookup_insert_eq. split; [done|]. split; [|done].
  change auth with (auth, n).1. by rewrite <-Ha.
Qed.

Lemma reachable_custody w : reachable w → custody w.
Proof.
  intros [signed w0 Hw0%initialized_custody Hsteps].
  induction Hsteps as [|w1 w2 w3 (payer & others & i & Htx) _ IH]; [done|].
  by eapply IH, transaction_keeps_custody.
Qed.

(** C6. Whatever transactions are sent: every bank has the token account at the vault
    address of its index, which holds its mint, which the program signs for with the
    seeds and nonce that the bank keeps, and which has no delegate; and so has the insurance
    fund. *)
Theorem vaults_in_custody w :
  reachable w →
  (∀ i b, w.(World.banks) !! i = Some (Loaded b) →
     b.(Bank.vault) = address (BankVaultAddress i)
     ∧ signs (BankVaultSigns i b.(Bank.vault_authority_nonce)) = Some b.(Bank.vault_authority)
     ∧ ∃ t, w.(World.ledger) !! b.(Bank.vault) = Some t
       ∧ t.(TokenAccount.mint) = b.(Bank.mint)
       ∧ t.(TokenAccount.owner) = b.(Bank.vault_authority)
       ∧ t.(TokenAccount.delegate) = None)
  ∧ let st := w.(World.state) in
    signs (InsuranceVaultSigns st.(State.insurance_vault) st.(State.insurance_vault_nonce))
      = Some st.(State.insurance_vault_authority)
    ∧ ∃ t, w.(World.ledger) !! st.(State.insurance_vault) = Some t
      ∧ t.(TokenAccount.owner) = st.(State.insurance_vault_authority)
      ∧ t.(TokenAccount.delegate) = None.
Proof.
  intros Hw%reachable_custody. split; cbv zeta.
  - intros i b Hb. destruct (custody_banks _ Hw _ _ Hb) as (b0 & [= <-] & [_ Hv Ha Ht]).
    unfold find_bank_vault_authority in Ha.
    pose proof (find_program_address_spec (seeds (BankVaultAuthorityAddress i))) as Hs.
    rewrite <-Ha in Hs. split; [done|]. split; [exact Hs|].
    destruct Ht as (t & Ht & Hm & Ho & Hd). exists t. split_and!; try done.
    rewrite Ho. unfold address. by rewrite <-Ha.
  - destruct Hw as [_ Ha (t & Ht & Ho & Hd) _ _]. unfold find_insurance_vault_authority in Ha.
    set (v := State.insurance_vault (World.state w)) in *.
    pose proof (find_program_address_spec (seeds (InsuranceVaultAuthorityAddress v))) as Hs.
    rewrite <-Ha in Hs. split; [exact Hs|]. exists t. split_and!; try done.
    rewrite Ho. unfold address. by rewrite <-Ha.
Qed.

(** C4. Tokens leave the vault of a bank only when the owner of a user withdraws from that
    bank, the administrator withdraws fees from the quote asset bank, or a liquidation
    pays the insurance fund from it; by no other instruction, by no transaction of another
    program, and without that signature by nobody. *)
Theorem bank_vault_debits w payer others i w' j b t :
  reachable w → transaction w (payer :: others) i w' →
  w.(World.banks) !! j = Some (Loaded b) → w.(World.ledger) !! b.(Bank.vault) = Some t →
  ∃ x, w'.(World.ledger) !! b.(Bank.vault) = Some (t <| TokenAccount.amount := x |>)
    ∧ (x < t.(TokenAccount.amount) →
       let owner_signed :=
         ∃ user authority, owned_by w.(World.users) user authority
           ∧ authority ∈ payer :: others in
       (i = Withdraw ∧ owner_signed)
       ∨ (i = WithdrawFees ∧ j = 0 ∧ w.(World.state).(State.admin) ∈ payer :: others)
       ∨ (i = Liquidate ∧ j = 0 ∧ owner_signed)).
Proof.
  intros Hw%reachable_custody Htx Hb Ht.
  destruct (custody_banks _ Hw _ _ Hb) as (b0 & [= <-] & [[_ Hj] _ _ (t0 & Ht0 & _ & Hown)]).
  rewrite Ht in Ht0. injection Ht0 as <-.
  destruct (transaction_guarded _ _ _ _ Htx _ _ _ Ht Hown) as (x & Hx & Hpaid).
  exists x. split; [done|]. intros (s & Hauth & Hs)%Hpaid. cbv zeta.
  apply signs_bank_vault in Hs as [n ->]; [|done|]; inversion Hauth; subst; try naive_solver.
  all: intros k m [= <- <-]; done.
Qed.

(** C5. Tokens leave the insurance vault only by the two instructions of the administrator
    that withdraw from it, with the administrator's signature. *)
Theorem insurance_vault_debits w payer others i w' t :
  reachable w → transaction w (payer :: others) i w' →
  w.(World.ledger) !! w.(World.state).(State.insurance_vault) = Some t →
  ∃ x, w'.(World.ledger) !! w.(World.state).(State.insurance_vault)
      = Some (t <| TokenAccount.amount := x |>)
    ∧ (x < t.(TokenAccount.amount) →
       (i = WithdrawFromInsuranceVault ∨ i = WithdrawFromInsuranceVaultToMarket)
       ∧ w.(World.state).(State.admin) ∈ payer :: others).
Proof.
  intros Hw%reachable_custody Htx Ht. destruct Hw as [_ _ (t0 & Ht0 & Hown) _ _].
  rewrite Ht in Ht0. injection Ht0 as <-.
  destruct (transaction_guarded _ _ _ _ Htx _ _ _ Ht Hown) as (x & Hx & Hpaid).
  exists x. split; [done|]. intros (s & Hauth & Hs)%Hpaid.
  apply signs_insurance_vault in Hs as (u & n & ->). inversion Hauth; subst; auto.
Qed.
End Invariant.
