(* ===== verification/Liveness.v ===== *)
(** * Progress

    That the code returns: exactly which lists of accounts the loop of an instruction
    loads its markets from, and that an order that nothing protects can be canceled. *)

From stdpp Require Import base numbers list gmap.
From S2P Require Import Prelude Constants Bn State Value AmmMath BankBalance Twap Oracle.
From S2P Require Import Maps PositionMath CurveMath Repeg AmmController OrdersMath Position.
From S2P Require Import Funding Fees Margin OrderValidation Orders Addresses Tokens BankHandlers.
From S2P Require Import BankLedger BankOrders Loading.
Local Open Scope Z_scope.

(** ** The loops over the accounts *)

Section Loops.
Context `{OracleAccounts}.

(** The accounts that a loop takes: markets that pass its checks. *)
Definition takes_market (writable_markets : gset Z) (oracles : gmap Z AccountInfo)
    (a : Remaining) (m : Market) : Prop :=
  a.(contents) = MarketData m ∧ a.(owned) = true
  ∧ (m.(Market.market_index) ∈ writable_markets → a.(writable) = true)
  ∧ market_checked oracles m.(Market.market_index) (Loaded m).

Definition insert_market (mm : MarketMap) (m : Market) : MarketMap :=
  <[m.(Market.market_index) := Loaded m]> mm.

(** What stops a loop. *)
Definition holds_market (a : Remaining) : bool :=
  match a.(contents) with MarketData _ | Borrowed => true | _ => false end.

Lemma load_markets_prefix w oracles accounts mm mm' rest :
  load_markets w oracles accounts mm = Ok (mm', rest) →
  ∃ taken ms, accounts = taken ++ rest ∧ Forall2 (takes_market w oracles) taken ms
    ∧ mm' = foldl insert_market mm ms
    ∧ match rest with [] => True | a :: _ => holds_market a = false end.
Proof.
  revert mm. induction accounts as [|a accounts IH]; intros mm Hok; cbn in Hok.
  { apply Ok_inj in Hok; injection Hok as <- <-. by exists [], []. }
  destruct (contents a) as [| |m| | | |] eqn:Hc;
    try (apply Ok_inj in Hok; injection Hok as <- <-; exists [], [];
         split_and!; try done; unfold holds_market; by rewrite Hc); [|done].
  destruct (owned a) eqn:Howned; cbn [negb] in Hok; [|done].
  destruct (_ && _) eqn:Hw; [done|]. destruct (Market.initialized m) eqn:Hinit;
    cbn [negb] in Hok; [|done].
  destruct (match oracles !! _ with Some _ => _ | None => _ end) eqn:Ho; [done|].
  apply IH in Hok as (taken & ms & -> & Hall & -> & Hrest).
  exists (a :: taken), (m :: ms). split_and!; try done. constructor; [|done].
  split_and!; try done.
  - intros Hin. rewrite bool_decide_true in Hw by done. by destruct (writable a).
  - exists m. split_and!; try done. intros o Hlook. rewrite Hlook in Ho.
    by apply negb_false_iff, Z.eqb_eq in Ho.
Qed.

Lemma load_markets_takes w oracles taken ms rest mm :
  Forall2 (takes_market w oracles) taken ms →
  match rest with [] => True | a :: _ => holds_market a = false end →
  load_markets w oracles (taken ++ rest) mm = Ok (foldl insert_market mm ms, rest).
Proof.
  intros Hall Hrest. revert mm. induction Hall as [|a m taken ms Ha Hall IH]; intros mm; cbn.
  - destruct rest as [|a rest]; [done|]. unfold holds_market in Hrest. cbn.
    by destruct (contents a).
  - destruct Ha as (Hc & -> & Hw & m' & [= <-] & _ & Hinit & Ho). rewrite Hc. cbn [negb].
    destruct (bool_decide _ && _) eqn:Hb.
    { apply andb_true_iff in Hb as [Hb Hn]. apply bool_decide_eq_true in Hb.
      by rewrite Hw in Hn. }
    rewrite Hinit. cbn [negb].
    destruct (oracles !! _) as [o|]; [rewrite (Ho o) by done; rewrite Z.eqb_refl|]; apply IH.
Qed.

(** C39. The loop that loads the markets ends well exactly when the accounts start with
    initialized markets of this program with the oracle that is expected, writable where
    that is needed, up to the end or to the first account that is no market: it takes
    these into the map in their order and leaves the others. *)
Theorem load_market_map_takes_prefix w oracles accounts mm rest :
  load_market_map w oracles accounts = Ok (mm, rest) ↔
  ∃ taken ms, accounts = taken ++ rest ∧ Forall2 (takes_market w oracles) taken ms
    ∧ mm = foldl insert_market ∅ ms
    ∧ match rest with [] => True | a :: _ => holds_market a = false end.
Proof.
  split; [apply load_markets_prefix|]. intros (taken & ms & -> & Hall & -> & Hrest).
  by apply load_markets_takes.
Qed.
End Loops.

(** ** Orders can be canceled *)

Section Cancel.
Context `{BnLib} `{OracleAccounts} `{Roots}.

(** C32. The owner of an open order that is not post-only can always cancel it, whatever
    its margin: if funding can be settled, the market is loaded and the order does not
    depend on an oracle that cannot be read, then the cancellation succeeds and empties
    the order's slot. *)
Theorem cancel_order_succeeds st id users key u u1 n o m v mm bm om clock oracle :
  users_wf users → users !! key = Some (Loaded u) →
  settle_funding_payment u mm = Ok u1 →
  iter_position (λ o, o.(Order.order_id) =? id) u.(User.orders) = Some n →
  u.(User.orders) !! n = Some o → o.(Order.status) = Open → o.(Order.post_only) = false →
  mm !! o.(Order.market_index) = Some (Loaded m) →
  get_valid_oracle_price oracle m o
    st.(State.oracle_guard_rails).(OracleGuardRails.validity) clock.(Clock.slot) = Ok v →
  ∃ u', cancel_order_by_order_id st id users key mm bm om clock oracle
          = Ok (<[key := Loaded u']> users, om)
        ∧ u'.(User.orders) = <[n := Order_default]> u.(User.orders).
Proof.
  intros Hus Hu Hf Hn Ho Hopen Hpost Hm Hv.
  unfold cancel_order_by_order_id, cancel_first_order, load_mut, load_cell_mut, load_cell.
  rewrite Hu. cbn [bind]. rewrite Hn. cbn [ok_or bind]. unfold cancel_order. rewrite Hf.
  cbn [bind]. pose proof (settle_funding_wf _ _ _ Hf) as (Hos & _ & Hwf).
  specialize (Hwf (Hus _ _ Hu)). unfold get_order. rewrite Hos, Ho. cbn [unwrap bind].
  rewrite bool_decide_false by (intros Hne; by apply Hne).
  unfold market_get_ref, load_cell. rewrite Hm. cbn [bind]. rewrite Hv. cbn [bind].
  unfold validate_order_can_be_canceled, check_if_order_can_be_canceled.
  rewrite Hos, Ho. cbn [unwrap bind]. rewrite Hpost. cbn [negb bind].
  destruct (wf_covered _ Hwf (Order.market_index o)) as (k & p & Hp & Hfor).
  { rewrite Hos. eapply open_order_count_pos; [exact Ho|]. unfold open_in.
    by rewrite Hopen, Z.eqb_refl. }
  destruct (get_position_index (User.positions u1) (Order.market_index o)) as [j|e|] eqn:Hj.
  - cbn [bind]. apply get_position_index_ok in Hj as (q & Hq & _).
    unfold get_position. rewrite Hq. cbn [unwrap bind]. rewrite drop_borrowed.
    eexists. split; [done|]. cbn. by rewrite Hos.
  - by rewrite (get_position_index_err _ _ _ Hj k p Hp) in Hfor.
  - exfalso. revert Hj. clear. unfold get_position_index. by destruct (iter_position _ _).
Qed.
End Cancel.
