(* ===== verification/Withdrawals.v ===== *)
(** * Deposits can be taken out

    That a withdrawal of the quote asset succeeds: what the computations on the quote
    asset's bank return, and the instruction as a whole for a user who only lends. *)

From stdpp Require Import base numbers list gmap.
From S2P Require Import Prelude Constants Bn State Value AmmMath BankBalance Twap Oracle.
From S2P Require Import Maps PositionMath CurveMath Repeg AmmController OrdersMath Position.
From S2P Require Import Funding Fees Margin OrderValidation Orders Addresses Tokens BankHandlers.
From S2P Require Import BankLedger BankOrders Loading Trading Liquidation TradingProps Frames.
From S2P Require Import LiquidationProps BankTypes.
Local Open Scope Z_scope.

(** ** The bank of the quote asset *)

(** What [initialize_bank] makes of the first bank; its interest has not fallen since. *)
Record quote_bank (bank : Bank) : Prop := {
  quote_index : bank.(Bank.bank_index) = QUOTE_ASSET_BANK_INDEX;
  quote_decimals : bank.(Bank.decimals) = 6;
  quote_oracle : bank.(Bank.oracle) = Pubkey_default;
  quote_weight : bank.(Bank.initial_asset_weight) = BANK_WEIGHT_PRECISION;
  quote_interest : BANK_CUMULATIVE_INTEREST_PRECISION ≤ bank.(Bank.cumulative_deposit_interest);
}.

(** A balance and a token amount of six decimals differ by ten. *)
Abbreviation PRECISION := (10 ^ 10).

Lemma bank_evolves_quote bank bank' :
  bank_evolves bank bank' → quote_bank bank → quote_bank bank'.
Proof.
  intros [_ Hp Hi _] []. unfold bank_params in Hp. injection Hp as ? _ ? _ _ _ _ _ ? _ _ _ ?.
  split; congruence || lia.
Qed.

Lemma quote_token_amount bank bal t :
  bank.(Bank.decimals) = 6 → has_type U128 (bal * cumulative_interest bank t) →
  0 ≤ bal * cumulative_interest bank t →
  get_token_amount bal bank t = Ok (bal * cumulative_interest bank t / PRECISION).
Proof.
  intros Hd Hx Hpos. unfold get_token_amount. rewrite Hd.
  assert (csub U8 16 6 = Ok 10) as -> by reflexivity. cbn [bind].
  rewrite cmul_in by done. cbn [bind]. change (int_pow U128 10 10) with PRECISION.
  by apply cdiv_in.
Qed.

(** What is taken off a deposit that is worth [worth] for an amount: all of it for all
    that it is worth. *)
Definition debit (bank : Bank) (bal worth amount : Z) : Z :=
  if amount <? worth
  then amount * PRECISION / bank.(Bank.cumulative_deposit_interest) else bal.

Section Bank.
Context (bank : Bank) (bal worth amount : Z).
Hypothesis Hquote : quote_bank bank.
Hypothesis Htyped : Bank.typed bank.
Hypothesis Hbal : has_type U128 bal.
Hypothesis Hworth : get_token_amount bal bank Deposit = Ok worth.
Hypothesis Hamount : 0 < amount ≤ worth.

Local Abbreviation interest := bank.(Bank.cumulative_deposit_interest).
Local Abbreviation δ := (debit bank bal worth amount).

Lemma interest_pos : 0 < interest.
Proof. pose proof (quote_interest _ Hquote). unfold BANK_CUMULATIVE_INTEREST_PRECISION in *. lia. Qed.

Lemma worth_eq : has_type U128 (bal * interest) ∧ worth = bal * interest / PRECISION.
Proof.
  apply get_token_amount_ok in Hworth as (_ & Hx & -> & _);
    [|rewrite (quote_decimals _ Hquote); lia].
  unfold token_precision. by rewrite (quote_decimals _ Hquote).
Qed.

Lemma worth_le : worth * PRECISION ≤ bal * interest < (worth + 1) * PRECISION.
Proof.
  destruct worth_eq as [_ ->].
  pose proof (Z.div_mod (bal * interest) PRECISION ltac:(done)).
  pose proof (Z.mod_pos_bound (bal * interest) PRECISION ltac:(done)). lia.
Qed.

(** The debit is covered, and it is worth the amount. *)
Lemma debit_bounds :
  0 ≤ δ ≤ bal ∧ (amount < worth → δ * interest ≤ amount * PRECISION)
  ∧ (amount = worth → δ = bal).
Proof.
  pose proof interest_pos as Hc. pose proof worth_le as Hw. unfold debit.
  destruct (Z.ltb_spec amount worth).
  - pose proof (mul_div_le' (amount * PRECISION) interest Hc).
    assert (0 ≤ amount * PRECISION / interest) by (apply Z.div_pos; lia).
    split_and!; [done| |done|lia]. apply Z.div_le_upper_bound; [done|]. nia.
  - split_and!; [int_lia|lia|lia|done].
Qed.

Lemma debit_amount :
  (if amount <? worth
   then let? d := get_bank_balance amount bank Deposit in Ok (amount, d)
   else Ok (worth, bal)) = Ok (amount, δ).
Proof.
  pose proof interest_pos as Hc. pose proof worth_le as Hw. destruct worth_eq as [Hx _].
  pose proof debit_bounds as (Hd & _ & _). unfold debit in *.
  destruct (Z.ltb_spec amount worth); [|do 2 f_equal; lia].
  unfold get_bank_balance. rewrite (quote_decimals _ Hquote).
  assert (csub U8 16 6 = Ok 10) as -> by reflexivity. cbn [bind].
  change (int_pow U128 10 10) with PRECISION.
  assert (has_type U128 (amount * PRECISION)) by (unfold_int; lia).
  rewrite cmul_in by done. cbn [bind cumulative_interest]. rewrite cdiv_in by done.
  cbn [bind]. by rewrite bool_decide_false, andb_false_r by done.
Qed.

Hypothesis Hcovered : bal ≤ bank.(Bank.deposit_balance).

Definition taken : Bank :=
  bank <| Bank.deposit_balance := bank.(Bank.deposit_balance) - δ |>.

Lemma debit_ok :
  reduce_existing amount bank (UserBankBalance.mk 0 Deposit bal)
    = Ok (0, taken, UserBankBalance.mk 0 Deposit (bal - δ)).
Proof.
  pose proof debit_bounds as (Hd & _ & _). pose proof (Bank.deposit_balance_ty _ Htyped).
  unfold reduce_existing. cbn [balance balance_type UserBankBalance_BankBalance
    UserBankBalance.balance UserBankBalance.balance_type].
  rewrite Hworth. cbn [bind]. rewrite (proj2 (Z.eqb_neq worth 0)) by lia. cbn [negb].
  rewrite debit_amount. cbn [bind decrease_bank_balance].
  rewrite csub_in by int_lia.
  cbn [bind decrease_balance UserBankBalance_BankBalance UserBankBalance.balance].
  rewrite csub_in by int_lia. cbn [bind].
  assert (0 ≤ amount ≤ int_max U128) as Ha.
  { apply get_token_amount_ok in Hworth as (_ & _ & _ & Hw);
      [|rewrite (quote_decimals _ Hquote); lia]. int_lia. }
  rewrite csub_in by int_lia. by rewrite Z.sub_diag.
Qed.

Lemma taken_quote : quote_bank taken.
Proof. by destruct Hquote. Qed.

(** What is left is worth what can be computed. *)
Lemma left_worth :
  ∃ w, get_token_amount (bal - δ) taken Deposit = Ok w ∧ has_type U128 (w * PRECISION).
Proof.
  pose proof debit_bounds as (Hd & _ & _). pose proof interest_pos as Hc.
  destruct worth_eq as [Hx _].
  assert (0 ≤ (bal - δ) * interest ≤ bal * interest) as Hle by nia.
  assert (has_type U128 ((bal - δ) * interest)) as Hx' by (unfold_int; lia).
  eexists. split.
  { exact (quote_token_amount taken _ Deposit (quote_decimals _ Hquote) Hx' (proj1 Hle)). }
  change (cumulative_interest taken Deposit) with interest.
  pose proof (mul_div_le' ((bal - δ) * interest) PRECISION ltac:(done)).
  assert (0 ≤ (bal - δ) * interest / PRECISION) by (apply Z.div_pos; [lia|done]).
  unfold_int. lia.
Qed.

(** What the deposits and the borrows of the bank are worth. *)
Context (deposits borrows : Z).
Hypothesis Hdeposits :
  get_token_amount bank.(Bank.deposit_balance) bank Deposit = Ok deposits.
Hypothesis Hborrows : get_token_amount bank.(Bank.borrow_balance) bank Borrow = Ok borrows.
Hypothesis Hsolvent : borrows = 0 ∨ borrows + amount < deposits.

Lemma taken_covered : validate_deposits taken = Ok ().
Proof.
  pose proof debit_bounds as (Hd & Hd1 & Hd2). pose proof interest_pos as Hc.
  pose proof worth_le as Hw.
  apply get_token_amount_ok in Hdeposits as (_ & Hx & Hdep & _);
    [|rewrite (quote_decimals _ Hquote); lia].
  unfold token_precision in Hdep. rewrite (quote_decimals _ Hquote) in Hdep.
  cbn [cumulative_interest] in *. change (10 ^ (16 - 6)) with PRECISION in Hdep.
  assert (0 ≤ (Bank.deposit_balance bank - δ) * interest) as Hpos by nia.
  assert (has_type U128 ((Bank.deposit_balance bank - δ) * interest)) as Hx'
    by (assert ((Bank.deposit_balance bank - δ) * interest ≤ Bank.deposit_balance bank * interest)
          by nia; unfold_int; lia).
  unfold validate_deposits.
  change (Bank.deposit_balance taken) with (Bank.deposit_balance bank - δ).
  rewrite (quote_token_amount taken _ Deposit (quote_decimals _ Hquote) Hx' Hpos).
  cbn [bind]. change (get_token_amount (Bank.borrow_balance taken) taken Borrow)
    with (get_token_amount (Bank.borrow_balance bank) bank Borrow).
  rewrite Hborrows. cbn [bind]. apply validate_ok, Z.leb_le.
  destruct Hsolvent as [->|Hs]; [by apply Z.div_pos|].
  apply Z.div_le_lower_bound; [done|].
  change (cumulative_interest taken Deposit) with interest.
  pose proof (Z.div_mod (Bank.deposit_balance bank * interest) PRECISION ltac:(done)).
  pose proof (Z.mod_pos_bound (Bank.deposit_balance bank * interest) PRECISION ltac:(done)).
  destruct (Z.eq_dec amount worth) as [Heq|]; [rewrite (Hd2 Heq)|]; nia.
Qed.

Lemma take_out :
  update_bank_balances amount Borrow bank (UserBankBalance.mk 0 Deposit bal)
    = Ok (taken, UserBankBalance.mk 0 Deposit (bal - δ)).
Proof.
  unfold update_bank_balances. rewrite bool_decide_false by done.
  rewrite debit_ok. cbn [bind]. change (0 <? 0) with false. cbn [bind].
  by rewrite taken_covered.
Qed.
End Bank.

(** ** A user who only lends *)

(** A user with a deposit of the quote asset as its only balance, and without positions;
    it may have open orders. *)
Record lends (u : User) (bal : Z) : Prop := {
  lends_balances : ∃ rest, u.(User.bank_balances) = UserBankBalance.mk 0 Deposit bal :: rest
    ∧ Forall (λ b, b.(UserBankBalance.balance) = 0) rest;
  lends_positions :
    Forall (λ p, p.(MarketPosition.base_asset_amount) = 0
                 ∧ p.(MarketPosition.unsettled_pnl) = 0) u.(User.positions);
}.

Lemma fold_result_idle {A B} (f : B → A → result B) acc l :
  Forall (λ x, f acc x = Ok acc) l → fold_result f acc l = Ok acc.
Proof. induction 1 as [|x l Hx _ IH]; cbn [fold_result]; [done|]. by rewrite Hx. Qed.

Lemma map_result_idle {A} (f : A → result A) l :
  Forall (λ x, f x = Ok x) l → map_result f l = Ok l.
Proof. induction 1 as [|x l Hx _ IH]; cbn [map_result]; [done|]. by rewrite Hx, IH. Qed.

Section Lender.
Context `{BnLib} `{OracleAccounts}.

Lemma lends_settles u bal mm : lends u bal → settle_funding_payment u mm = Ok u.
Proof.
  intros [_ Hps]. unfold settle_funding_payment. rewrite map_result_idle.
  - cbn [bind]. by destruct u.
  - eapply Forall_impl; [exact Hps|]. intros p [Hb _]. unfold settle_position_funding.
    by rewrite Hb.
Qed.

(** The deposit is its collateral, whatever it is worth. *)
Lemma quote_collateral bank bm om bal worth :
  bm !! QUOTE_ASSET_BANK_INDEX = Some (Loaded bank) → quote_bank bank →
  om.(OracleMap.quote_asset_price_data) = quote_asset_price →
  get_token_amount bal bank Deposit = Ok worth → has_type U128 (worth * PRECISION) →
  ∃ c, 0 ≤ c ∧ has_type U128 c
    ∧ margin_bank_step get_price_data bm Initial (om, 0, 0) (UserBankBalance.mk 0 Deposit bal)
      = Ok (om, c, 0).
Proof.
  intros Hbank Hq Hprice Hworth Hty. unfold margin_bank_step.
  cbn [UserBankBalance.balance UserBankBalance.balance_type].
  destruct (Z.eqb_spec bal 0); [by exists 0|].
  assert (0 ≤ worth) by (unfold_int; lia). exists worth.
  assert (has_type U128 worth) as Hw by (unfold_int; lia). split_and!; [done|done|].
  unfold bank_balance_value, bank_get_ref, load_cell. cbn [UserBankBalance.bank_index].
  change 0 with QUOTE_ASSET_BANK_INDEX at 1. rewrite Hbank. cbn [bind].
  unfold get_price_data. rewrite (quote_oracle _ Hq), Z.eqb_refl, Hprice. cbn [bind].
  unfold get_balance_value. cbn [UserBankBalance.balance UserBankBalance.balance_type].
  rewrite Hworth, (quote_decimals _ Hq). cbn [bind]. change (wrap U8 (6 - 6)) with 0.
  change (int_pow U128 10 (10 + 0)) with PRECISION.
  change (cast U128 (OraclePriceData.price quote_asset_price)) with (Ok PRECISION).
  cbn [bind]. rewrite cmul_in by done. cbn [bind].
  rewrite cdiv_in by done. cbn [bind]. rewrite Z.div_mul by done.
  unfold add_weighted, get_asset_weight. rewrite (quote_weight _ Hq).
  change BANK_WEIGHT_PRECISION with 100.
  assert (has_type U128 (worth * 100)) by (unfold_int; lia).
  rewrite cmul_in by done. cbn [bind]. rewrite cdiv_in by done. cbn [bind].
  by rewrite Z.div_mul, cadd_in by done.
Qed.

Lemma lends_margin u bank bm mm om bal worth :
  lends u bal → bm !! QUOTE_ASSET_BANK_INDEX = Some (Loaded bank) → quote_bank bank →
  om.(OracleMap.quote_asset_price_data) = quote_asset_price →
  get_token_amount bal bank Deposit = Ok worth → has_type U128 (worth * PRECISION) →
  meets_initial_margin_requirement u mm bm om = Ok (om, true).
Proof.
  intros [(rest & Hbs & Hrest) Hps] Hbank Hq Hprice Hworth Hty.
  destruct (quote_collateral bank bm om bal worth) as (c & Hc & Hcty & Hstep); [done..|].
  unfold meets_initial_margin_requirement, calculate_margin_requirement_and_total_collateral,
    margin_requirement_and_total_collateral.
  rewrite Hbs. cbn [fold_result]. rewrite Hstep. cbn [bind].
  rewrite fold_result_idle; cycle 1.
  { eapply Forall_impl; [exact Hrest|]. intros b Hb. unfold margin_bank_step. by rewrite Hb. }
  cbn [bind]. rewrite fold_result_idle; cycle 1.
  { eapply Forall_impl; [exact Hps|]. intros p [Hb Hu]. unfold margin_position_step.
    by rewrite Hb, Hu. }
  cbn [bind]. change (cdiv U128 0 MARGIN_PRECISION) with (@Ok Z 0). cbn [bind].
  change (cadd U128 0 0) with (@Ok Z 0). cbn [bind].
  unfold collateral_after_pnl, calculate_updated_collateral. cbn [Z.ltb Z.compare andb].
  change (unsigned_abs 0) with 0.
  rewrite csub_in by (by rewrite Z.sub_0_r). cbn [bind]. rewrite Z.sub_0_r.
  rewrite csub_in by (by rewrite Z.sub_0_r). cbn [bind]. rewrite Z.sub_0_r.
  by rewrite (proj2 (Z.leb_le 0 c)).
Qed.
End Lender.

(** ** The withdrawal *)

Section Withdraw.
Context `{BnLib} `{OracleAccounts} `{TokenProgram}.

Lemma interest_keeps_deposits bank bank' now :
  update_bank_cumulative_interest bank now = Ok bank' →
  bank'.(Bank.deposit_balance) = bank.(Bank.deposit_balance).
Proof.
  unfold update_bank_cumulative_interest. intros Hok. cbv zeta in Hok.
  apply bind_ok in Hok as (i & _ & Hok). destruct (_ && _); by inv_ok.
Qed.

(** The slot of the deposit after a withdrawal. *)
Definition left_with (u : User) (bal : Z) : User :=
  set_bank_balance u 0 (UserBankBalance.mk 0 Deposit bal).

Lemma left_with_lends u bal bal' : lends u bal → lends (left_with u bal') bal'.
Proof.
  intros [(rest & Hbs & Hrest) Hps]. split; [|exact Hps]. exists rest.
  unfold left_with, set_bank_balance. cbn. by rewrite Hbs.
Qed.

(** Deposits can be taken out: a user without positions whose only balance is a deposit
    of the quote asset can withdraw any part of what it is worth, with its interest, and
    then all its balance is gone if it takes all.  The exchange must not be paused, the
    interest of the bank must be computable, and the tokens must be there: enough in the
    vault for the token program to pay them, and enough deposits left to cover what is
    borrowed from the bank. *)
Lemma withdraw_succeeds st users bm mm om ledger key token vault auth clock amount u bank
    bank1 bal worth deposits borrows ledger' :
  st.(State.exchange_paused) = false →
  users !! key = Some (Loaded u) → User.typed u → lends u bal →
  bm !! QUOTE_ASSET_BANK_INDEX = Some (Loaded bank) → quote_bank bank → Bank.typed bank →
  bal ≤ bank.(Bank.deposit_balance) →
  om.(OracleMap.quote_asset_price_data) = quote_asset_price →
  update_bank_cumulative_interest bank clock.(Clock.unix_timestamp) = Ok bank1 →
  get_token_amount bal bank1 Deposit = Ok worth → 0 < amount ≤ worth →
  get_token_amount bank1.(Bank.deposit_balance) bank1 Deposit = Ok deposits →
  get_token_amount bank1.(Bank.borrow_balance) bank1 Borrow = Ok borrows →
  borrows = 0 ∨ borrows + amount < deposits →
  token_transfer (BankVaultSigns 0 bank.(Bank.vault_authority_nonce)) ledger vault token auth
    amount = Some ledger' →
  ∃ bal' bank',
    withdraw st users bm mm om ledger key token vault auth clock QUOTE_ASSET_BANK_INDEX amount
      false
    = Ok (<[key := Loaded (left_with u bal')]> users,
          <[QUOTE_ASSET_BANK_INDEX := Loaded bank']> bm, om, ledger')
    ∧ 0 ≤ bal' ≤ bal ∧ (amount = worth → bal' = 0)
    ∧ bank'.(Bank.deposit_balance) - bal' = bank.(Bank.deposit_balance) - bal.
Proof.
  intros Hpaused Hu Hut Hl Hb Hq Hbt Hcov Hprice Hint Hworth Hamount Hd Hbo Hsolv Htr.
  pose proof (frame (r := update_bank_cumulative_interest bank _) _ Hint) as Hev.
  pose proof (bank_evolves_quote _ _ Hev Hq) as Hq1.
  pose proof (evolves_typed _ _ Hev Hbt) as Hbt1.
  pose proof (interest_keeps_deposits _ _ _ Hint) as Hdep.
  destruct (lends_balances _ _ Hl) as (rest & Hbs & _).
  assert (has_type U128 bal) as Hbal.
  { pose proof (User.bank_balances_ty _ Hut) as Hty. rewrite Hbs in Hty.
    apply Forall_cons in Hty as [[_ Hty] _]. exact Hty. }
  rewrite <-Hdep in Hcov.
  pose proof (take_out bank1 bal worth amount Hq1 Hbt1 Hbal Hworth Hamount Hcov deposits borrows
    Hd Hbo Hsolv) as Htake.
  pose proof (debit_bounds bank1 bal worth amount Hq1 Hbal Hworth Hamount) as (Hδ & _ & Hall).
  set (bal' := bal - debit bank1 bal worth amount) in *.
  set (bank2 := taken bank1 bal worth amount) in *.
  exists bal', bank2. split; [|split_and!; [lia|lia|intros Heq; specialize (Hall Heq); lia|]].
  2:{ unfold bank2, taken, bal'. cbn. lia. }
  unfold withdraw, exchange_not_paused. rewrite Hpaused. cbn [negb validate bind].
  unfold load_mut, load_cell_mut, load_cell. rewrite Hu. cbn [bind].
  rewrite (lends_settles u bal) by exact Hl. cbn [bind].
  unfold bank_get_ref_mut, load_cell_mut, load_cell. rewrite Hb. cbn [bind]. rewrite Hint.
  cbn [bind]. unfold get_or_add_bank_balance, get_bank_balance_mut.
  rewrite (quote_index _ Hq1). change (QUOTE_ASSET_BANK_INDEX =? 0) with true. cbn [bind].
  unfold reduce_only_amount, update_user_bank_balance, get_user_bank_balance. rewrite Hbs.
  cbn [lookup list_lookup unwrap bind andb]. rewrite Htake. cbn [bind].
  fold bank2. fold bal'. fold (left_with u bal'). rewrite drop_borrowed.
  destruct (left_worth bank1 bal worth amount Hq1 Hbal Hworth Hamount) as (w & Hw & Hwty).
  rewrite (lends_margin _ bank2 _ _ _ bal' w);
    [|by eapply left_with_lends|apply lookup_insert_eq|by apply taken_quote|exact Hprice
     |exact Hw|exact Hwty].
  cbn [bind negb]. unfold bank_get_ref, load_cell. rewrite lookup_insert_eq. cbn [bind].
  change (Bank.vault_authority_nonce bank2) with (Bank.vault_authority_nonce bank1).
  assert (Bank.vault_authority_nonce bank1 = Bank.vault_authority_nonce bank) as ->
    by (pose proof (evolves_params _ _ Hev) as Hp; unfold bank_params in Hp; congruence).
  unfold send_from_bank_vault. change QUOTE_ASSET_BANK_INDEX with 0 in Htr |- *.
  rewrite Htr. cbn [unwrap bind]. by rewrite drop_borrowed.
Qed.
End Withdraw.
