(* ===== verification/SystemLiveness.v ===== *)
(** * What the exchange lets its users do

    In whatever state the exchange has come to, a user who only lends can withdraw. *)

From stdpp Require Import base numbers list gmap.
From S2P Require Import Prelude Constants Bn State Value AmmMath BankBalance Twap Oracle.
From S2P Require Import Maps PositionMath CurveMath Repeg AmmController OrdersMath Position.
From S2P Require Import Funding Fees Margin OrderValidation Orders Addresses Tokens BankHandlers.
From S2P Require Import BankLedger BankOrders Loading Trading Liquidation TradingProps Frames.
From S2P Require Import LiquidationProps BankTypes Admin AdminProps Exposure System.
From S2P Require Import Typing TypedUsers TypedBanks TypedSystem Withdrawals.
Local Open Scope Z_scope.

Section Liveness.
Context `{BnTypes} `{OracleAccounts} `{TokenProgram} `{AddressTypes} `{Roots}.

(** ** The bank of the quote asset *)

Lemma initialize_quote_bank st p clock st' bank :
  initialize_bank st p clock = Ok (st', bank) → bank.(Bank.bank_index) = 0 → quote_bank bank.
Proof.
  intros Hok Hi. unfold initialize_bank in Hok.
  destruct (find_bank_vault_authority _) as [va nonce]. destruct (negb _); [done|].
  destruct (get_then_update_id _) as [x next]. apply bind_ok in Hok as ([] & Hv & Hok).
  apply bind_ok in Hok as (now & _ & Hok). apply Ok_inj in Hok; injection Hok as _ <-.
  cbn [Bank.bank_index] in Hi. rewrite Hi in *. cbn [Z.eqb] in Hv.
  unfold validate_quote_bank in Hv.
  repeat (apply bind_ok in Hv as ([] & ?%validate_ok & Hv)). apply validate_ok in Hv.
  bool_prop. by split.
Qed.

(** It is not there yet, or it is as it was created but for its interest and totals. *)
Definition quote_bank_ok (w : World) : Prop :=
  w.(World.banks) !! QUOTE_ASSET_BANK_INDEX = None
  ∨ ∃ bank, w.(World.banks) !! QUOTE_ASSET_BANK_INDEX = Some (Loaded bank) ∧ quote_bank bank.

Lemma step_quote_bank w signer i w' : step w signer i w' → quote_bank_ok w → quote_bank_ok w'.
Proof.
  intros Hstep Hw. destruct (decide (i = InitializeBank)) as [->|Hi].
  - unfold quote_bank_ok. inversion Hstep as [|p clock st' bank _ Hok Hnew| | | | | | | | | | |
      | | | | | | | | | | | | |]; subst. cbn -[QUOTE_ASSET_BANK_INDEX].
    destruct (decide (Bank.bank_index bank = QUOTE_ASSET_BANK_INDEX)) as [Hb|Hb].
    + right. exists bank. rewrite Hb, lookup_insert_eq. split; [done|].
      by eapply initialize_quote_bank.
    + by rewrite lookup_insert_ne.
  - destruct (step_banks _ _ _ _ Hstep Hi) as [Hnone Hsome].
    destruct Hw as [Hw|(bank & Hb & Hq)]; [left; auto|right].
    destruct (Hsome _ _ Hb) as (bank' & Hb' & He). exists bank'. split; [done|].
    by eapply bank_evolves_quote.
Qed.

Lemma reachable_quote_bank st ost ledger w bank :
  rtc any_step (new_world st ost ledger) w →
  w.(World.banks) !! QUOTE_ASSET_BANK_INDEX = Some (Loaded bank) → quote_bank bank.
Proof.
  intros Hrun Hb. assert (quote_bank_ok w) as [Hn|(b & Hb' & Hq)]; [|congruence|congruence].
  clear Hb. revert w Hrun. apply rtc_ind_r; [by left|].
  intros w1 w2 _ (signer & i & Hs) Hw. by eapply step_quote_bank.
Qed.

(** ** Withdrawals *)

(** C15. Whoever only lends can get its tokens back, in whatever state the exchange has come
    to: when the program is not paused, the interest of the bank of the quote asset can be
    computed and its deposits and the tokens in its vault cover the amount, the owner of an
    account without positions can withdraw any part of what its deposit is worth, with the
    interest; the account then has the rest of its balance and nothing else of it changes,
    and a withdrawal of all that the deposit is worth leaves none of it. *)
Theorem lenders_can_withdraw admin insurance owner b st ost ledger0 w signer key token vault auth
    clock amount u bal bank bank1 worth deposits borrows ledger' :
  initialize admin insurance owner b = Ok st → OrderState.typed ost →
  rtc any_step (new_world st ost ledger0) w →
  w.(World.state).(State.exchange_paused) = false →
  w.(World.users) !! key = Some (Loaded u) → has_one_authority u signer = true → lends u bal →
  w.(World.banks) !! QUOTE_ASSET_BANK_INDEX = Some (Loaded bank) →
  bal ≤ bank.(Bank.deposit_balance) →
  update_bank_cumulative_interest bank clock.(Clock.unix_timestamp) = Ok bank1 →
  get_token_amount bal bank1 Deposit = Ok worth → 0 < amount ≤ worth →
  get_token_amount bank1.(Bank.deposit_balance) bank1 Deposit = Ok deposits →
  get_token_amount bank1.(Bank.borrow_balance) bank1 Borrow = Ok borrows →
  borrows = 0 ∨ borrows + amount < deposits →
  token_transfer (BankVaultSigns 0 bank.(Bank.vault_authority_nonce)) w.(World.ledger) vault
    token auth amount = Some ledger' →
  ∃ w' bal', step w signer Withdraw w'
    ∧ w'.(World.ledger) = ledger'
    ∧ w'.(World.users) = <[key := Loaded (left_with u bal')]> w.(World.users)
    ∧ 0 ≤ bal' ≤ bal ∧ (amount = worth → bal' = 0).
Proof.
  intros Hst Host Hrun Hpaused Hu Hauth Hl Hb Hcov Hint Hworth Hamount Hd Hbo Hsolv Htr.
  pose proof (run_typed _ _ Hrun (new_world_typed _ _ _ _ _ _ _ Hst Host)) as Hw.
  pose proof (reachable_quote_bank _ _ _ _ _ Hrun Hb) as Hq.
  destruct (withdraw_succeeds w.(World.state) w.(World.users) w.(World.banks) ∅
    (load_oracle_map [] 0).1 w.(World.ledger) key token vault auth clock amount u bank bank1 bal
    worth deposits borrows ledger') as (bal' & bank' & Hok & Hbal' & Hall & _); try done.
  { by eapply (world_users_ty _ Hw). }
  { by eapply (world_banks_ty _ Hw). }
  eexists _, bal'. split.
  - eapply step_withdraw; [by exists u|done|apply map_empty_subseteq|exact Hok|].
    by apply literal_typed.
  - cbn. by split_and!; try apply Hbal'.
Qed.
End Liveness.
