(* ===== verification/MockOracle.v ===== *)
(** * The mock oracle program (programs/pyth/src)

    The program that the tests use in place of Pyth: it writes price accounts in Pyth's
    layout.  The clearing house reads them back through its own [get_pyth_price]. *)

From stdpp Require Import base numbers list.
From S2P Require Import Prelude Constants Bn State Value AmmMath Twap Oracle Maps Orders.
Local Open Scope Z_scope.

(** ** Definitions *)

(** *** pc.rs *)

Definition MAGIC : Z := 0xa1b2c3d4.
Definition VERSION_2 : Z := 2.
Definition VERSION : Z := VERSION_2.

Module AccountType.
Inductive AccountType := Unknown | Mapping | Product | Price.
End AccountType.
Abbreviation AccountType := AccountType.AccountType.

Module PriceStatus.
Inductive PriceStatus := Unknown | Trading | Halted | Auction.
End PriceStatus.
Abbreviation PriceStatus := PriceStatus.PriceStatus.

Inductive CorpAction := NoCorpAct.

Module PriceType.
Inductive PriceType := Unknown | Price | TWAP | Volatility.
End PriceType.
Abbreviation PriceType := PriceType.PriceType.

Module PriceInfo.
Record PriceInfo := mk {
  price : Z;
  conf : Z;
  status : PriceStatus;
  corp_act : CorpAction;
  pub_slot : Z;
}.
#[export] Instance PriceInfo_eta : Eta PriceInfo := λ r,
  mk r.(price) r.(conf) r.(status) r.(corp_act) r.(pub_slot).
End PriceInfo.
Abbreviation PriceInfo := PriceInfo.PriceInfo.
Export (hints) PriceInfo.

Module PriceComp.
Record PriceComp := mk {
  publisher : Pubkey;
  agg : PriceInfo;
  latest : PriceInfo;
}.
End PriceComp.
Abbreviation PriceComp := PriceComp.PriceComp.

(** The data of a price account; an [AccKey] is a key. *)
Module Price.
Record Price := mk {
  magic : Z;
  ver : Z;
  atype : AccountType;
  size : Z;
  ptype : PriceType;
  expo : Z;
  num : Z;
  unused : Z;
  curr_slot : Z;
  valid_slot : Z;
  twap : Z;
  avol : Z;
  drv0 : Z;
  drv1 : Z;
  drv2 : Z;
  drv3 : Z;
  drv4 : Z;
  drv5 : Z;
  prod : Pubkey;
  next : Pubkey;
  agg_pub : Pubkey;
  agg : PriceInfo;
  comp : list PriceComp;
}.
#[export] Instance Price_eta : Eta Price := λ r,
  mk r.(magic) r.(ver) r.(atype) r.(size) r.(ptype) r.(expo) r.(num) r.(unused)
  r.(curr_slot) r.(valid_slot) r.(twap) r.(avol) r.(drv0) r.(drv1) r.(drv2) r.(drv3)
  r.(drv4) r.(drv5) r.(prod) r.(next) r.(agg_pub) r.(agg) r.(comp).
End Price.
Abbreviation Price := Price.Price.
Export (hints) Price.

(** *** lib.rs *)

Module pyth.
Definition initialize (price_oracle : Price) (price expo conf : Z) : Price :=
  price_oracle
    <| Price.magic := MAGIC |> <| Price.ver := VERSION |>
    <| Price.atype := AccountType.Price |>
    <| Price.agg := price_oracle.(Price.agg) <| PriceInfo.price := price |>
                      <| PriceInfo.conf := conf |> |>
    <| Price.valid_slot := 228506959 |>
    <| Price.twap := price |> <| Price.expo := expo |>
    <| Price.ptype := PriceType.Price |>.

Definition set_price (price_oracle : Price) (price : Z) (clock : Clock) : result Price :=
  let? x := unwrap (checked_add I64 price_oracle.(Price.twap) price) in
  let? twap := unwrap (checked_div I64 x 2) in
  Ok (price_oracle
        <| Price.twap := twap |>
        <| Price.agg := price_oracle.(Price.agg) <| PriceInfo.price := price |> |>
        <| Price.curr_slot := clock.(Clock.slot) |>
        <| Price.valid_slot := clock.(Clock.slot) |>).

Definition set_twap (price_oracle : Price) (twap : Z) : Price :=
  price_oracle <| Price.twap := twap |>.
End pyth.
Import pyth.

(** ** Properties *)

(** What Pyth's client reads of the account. *)
Definition as_pyth (p : Price) : PythPrice :=
  PythPrice.mk p.(Price.agg).(PriceInfo.price) p.(Price.agg).(PriceInfo.conf) p.(Price.expo)
    p.(Price.valid_slot) p.(Price.twap).

(** The average of the mock is the mean of the old average and the new price, rounded
    towards zero; it is between the two. *)
Lemma set_price_twap_between p price clock p' :
  set_price p price clock = Ok p' →
  p'.(Price.twap) = Z.quot (p.(Price.twap) + price) 2
  ∧ Z.min p.(Price.twap) price ≤ p'.(Price.twap) ≤ Z.max p.(Price.twap) price.
Proof.
  intros Hok. unfold set_price in Hok. inv_ok.
  unfold checked_add in *. apply checked_some in Hx as [-> _].
  unfold checked_div in *. cbn [Z.eqb] in *. apply checked_some in Hx0 as [-> _].
  cbn. unfold int_quot. cbn [is_signed]. split; [done|].
  pose proof (Z.quot_rem' (Price.twap p + price) 2).
  pose proof (Z.rem_bound_abs (Price.twap p + price) 2 ltac:(lia)). lia.
Qed.

(** A price that the mock publishes is what the clearing house reads in the same
    slot: with no delay, the mock's confidence, and the price and average scaled alike. *)
Theorem set_price_read `{OracleAccounts} p price clock p' account data :
  set_price p price clock = Ok p' → load_pyth account = Ok (as_pyth p') →
  get_pyth_price account clock.(Clock.slot) = Ok data →
  ∃ scale, oracle_scale p.(Price.expo) = Ok scale
    ∧ scale_price price scale = Ok data.(OraclePriceData.price)
    ∧ data.(OraclePriceData.delay) = 0
    ∧ data.(OraclePriceData.has_sufficient_number_of_data_points) = true
    ∧ get_pyth_twap account = scale_price p'.(Price.twap) scale.
Proof.
  intros Hset Hload Hok.
  assert (has_type I64 p'.(Price.twap)) as Htwap.
  { unfold set_price in Hset. inv_ok. unfold checked_div in *. cbn [Z.eqb] in *.
    by apply checked_some in Hx0 as [-> ?]. }
  assert (p'.(Price.expo) = p.(Price.expo) ∧ p'.(Price.agg).(PriceInfo.price) = price
    ∧ p'.(Price.valid_slot) = clock.(Clock.slot)) as (Hexpo & Hprice & Hslot)
    by (unfold set_price in Hset; inv_ok; done).
  unfold get_pyth_price in Hok. unfold get_pyth_twap. rewrite Hload in *.
  cbn [or_err bind as_pyth PythPrice.agg_price PythPrice.agg_conf PythPrice.expo
       PythPrice.valid_slot PythPrice.twap_val] in *.
  rewrite Hexpo, Hprice, Hslot in *.
  apply bind_ok in Hok as (x & Hx & Hok). apply cast_ok in Hx as [-> _].
  apply bind_ok in Hok as (c & _ & Hok). apply bind_ok in Hok as (scale & Hscale & Hok).
  apply bind_ok in Hok as (y & Hy & Hok). apply bind_ok in Hok as (z & _ & Hok).
  apply bind_ok in Hok as (w & _ & Hok). apply bind_ok in Hok as (s1 & Hs1 & Hok).
  apply bind_ok in Hok as (s2 & Hs2 & Hok). apply bind_ok in Hok as (delay & Hd & Hok).
  apply cast_ok in Hs1 as [-> _]. apply cast_ok in Hs2 as [-> _]. apply csub_ok in Hd as [-> _].
  apply Ok_inj in Hok as <-. exists scale. cbn. rewrite Hscale. split_and!; try done; [lia|].
  unfold cast_to_i128. rewrite (proj2 (cast_ok I128 p'.(Price.twap) p'.(Price.twap)));
    [done|]. split; [done|]. unfold has_type in *. cbn [int_min int_max] in *. lia.
Qed.
