(* ===== verification/Faucet.v ===== *)
(** * The faucet of test tokens (programs/mock_usdc_faucet/src)

    The program of the tests that owns a mint and gives its tokens to whoever asks.  The
    token program and the derivation of addresses are parameters, as in [Tokens]. *)

From stdpp Require Import base numbers gmap.
From S2P Require Import Prelude State Maps Tokens.
Local Open Scope Z_scope.

(** ** Definitions *)

Module FaucetError.
Inductive ErrorCode := InvalidMintAccountAuthority | Unauthorized.
End FaucetError.

(** The results of this program, which has error codes of its own. *)
Inductive faucet_result (A : Type) :=
| FaucetOk (a : A)
| FaucetErr (e : FaucetError.ErrorCode)
| FaucetPanic.
Arguments FaucetOk {A} a.
Arguments FaucetErr {A} e.
Arguments FaucetPanic {A}.

Module MockUSDCFaucetState.
Record MockUSDCFaucetState := mk {
  admin : Pubkey;
  mint : Pubkey;
  mint_authority : Pubkey;
  mint_authority_nonce : Z;
}.
End MockUSDCFaucetState.
Abbreviation MockUSDCFaucetState := MockUSDCFaucetState.MockUSDCFaucetState.

(** What the faucet reads of the account of a mint. *)
Record Mint := mk_mint {
  mint_key : Pubkey;
  mint_owner : option Pubkey;
}.

(** [Pubkey::find_program_address] with the mint as the seed. *)
Class FaucetAddresses := find_mint_authority : Pubkey → Pubkey * Z.

(** The token program's [mint_to]: the mint and nonce that sign, the ledger, the mint, the
    account, the authority and the amount. *)
Class MintProgram :=
  token_mint_to : Pubkey * Z → Ledger → Mint → Pubkey → Pubkey → Z → option Ledger.

(** Only the authority of the mint creates tokens, in an account that exists. *)
Class MintLaws `{FaucetAddresses} `{MintProgram} : Prop := {
  token_mint_to_spec seeds l mint to authority amount l' :
    token_mint_to seeds l mint to authority amount = Some l' →
    mint.(mint_owner) = Some authority ∧ find_mint_authority seeds.1 = (authority, seeds.2)
    ∧ ∃ b, l !! to = Some b
      ∧ l' = <[to := b <| TokenAccount.amount := b.(TokenAccount.amount) + amount |>]> l;
}.

Module mock_usdc_faucet.
Section Faucet.
Context `{FaucetAddresses} `{MintProgram}.

(** The account of the faucet is created at an address that has no seed of the caller's:
    there is one, and it can be created once. *)
Definition initialize (faucet : option MockUSDCFaucetState) (admin : Pubkey)
    (mint_account : Mint) : faucet_result MockUSDCFaucetState :=
  match faucet, mint_account.(mint_owner) with
  | None, Some owner =>
      let '(mint_authority, nonce) := find_mint_authority mint_account.(mint_key) in
      if negb (owner =? mint_authority) then FaucetErr FaucetError.InvalidMintAccountAuthority
      else FaucetOk (MockUSDCFaucetState.mk admin mint_account.(mint_key) mint_authority nonce)
  | _, _ => FaucetPanic
  end.

Definition mint_to_user (faucet : MockUSDCFaucetState) (ledger : Ledger) (mint_account : Mint)
    (user_token_account mint_authority : Pubkey) (amount : Z) : faucet_result Ledger :=
  match token_mint_to (faucet.(MockUSDCFaucetState.mint),
          faucet.(MockUSDCFaucetState.mint_authority_nonce)) ledger mint_account
          user_token_account mint_authority amount with
  | Some ledger => FaucetOk ledger
  | None => FaucetPanic
  end.
End Faucet.
End mock_usdc_faucet.
Import mock_usdc_faucet.

(** ** Properties *)

Section Properties.
Context `{MintLaws}.

(** The faucet is created once, for a mint that it has the authority of. *)
Lemma initialize_ok faucet admin mint faucet' :
  initialize faucet admin mint = FaucetOk faucet' →
  faucet = None
  ∧ mint.(mint_owner) = Some faucet'.(MockUSDCFaucetState.mint_authority)
  ∧ find_mint_authority faucet'.(MockUSDCFaucetState.mint)
    = (faucet'.(MockUSDCFaucetState.mint_authority),
       faucet'.(MockUSDCFaucetState.mint_authority_nonce))
  ∧ faucet'.(MockUSDCFaucetState.mint) = mint.(mint_key)
  ∧ faucet'.(MockUSDCFaucetState.admin) = admin.
Proof.
  intros Hok. unfold initialize in Hok. destruct faucet; [done|].
  destruct (mint_owner mint) as [owner|]; [|done].
  destruct (find_mint_authority _) as [authority nonce] eqn:Ha.
  destruct (Z.eqb_spec owner authority) as [->|]; cbn [negb] in Hok; [|done].
  injection Hok as <-. done.
Qed.

(** Tokens are created in the account that is given, nowhere else, and only by the
    authority that the faucet was created with. *)
Lemma mint_to_user_adds faucet ledger mint to authority amount ledger' :
  find_mint_authority faucet.(MockUSDCFaucetState.mint)
    = (faucet.(MockUSDCFaucetState.mint_authority),
       faucet.(MockUSDCFaucetState.mint_authority_nonce)) →
  mint_to_user faucet ledger mint to authority amount = FaucetOk ledger' →
  authority = faucet.(MockUSDCFaucetState.mint_authority)
  ∧ mint.(mint_owner) = Some authority
  ∧ (∃ b, ledger !! to = Some b ∧ ledger' !! to
       = Some (b <| TokenAccount.amount := b.(TokenAccount.amount) + amount |>))
  ∧ ∀ k, k ≠ to → ledger' !! k = ledger !! k.
Proof.
  intros Hf Hok. unfold mint_to_user in Hok.
  destruct (token_mint_to _ _ _ _ _ _) as [l|] eqn:Hm; [|done]. injection Hok as <-.
  apply token_mint_to_spec in Hm as (Ho & Hs & b & Hb & ->). cbn [fst snd] in Hs.
  rewrite Hf in Hs. injection Hs as <-. split_and!; try done.
  - exists b. by rewrite lookup_insert_eq.
  - intros k Hk. by rewrite lookup_insert_ne.
Qed.
End Properties.

(** The laws hold of a token program that follows them. *)
#[export] Instance example_faucet_addresses : FaucetAddresses := λ mint, (mint + 1, 255).
#[export] Instance example_mint_program : MintProgram := λ seeds l mint to authority amount,
  match l !! to with
  | Some b =>
      if bool_decide (mint.(mint_owner) = Some authority
                      ∧ find_mint_authority seeds.1 = (authority, seeds.2))
      then Some (<[to := b <| TokenAccount.amount := b.(TokenAccount.amount) + amount |>]> l)
      else None
  | None => None
  end.

#[export] Instance example_mint_laws : MintLaws.
Proof.
  split. intros seeds l mint to authority amount l' Hok.
  unfold token_mint_to, example_mint_program in Hok. destruct (l !! to) as [b|]; [|done].
  case_bool_decide as Hc; [|done]. injection Hok as <-. destruct Hc. split_and!; eauto.
Qed.

Lemma mint_to_user_example :
  mint_to_user (MockUSDCFaucetState.mk 1 40 41 255)
    {[ 500 := TokenAccount.mk true 40 9 7 None ]} (mk_mint 40 (Some 41)) 500 41 10
  = FaucetOk {[ 500 := TokenAccount.mk true 40 9 17 None ]}.
Proof. vm_compute. reflexivity. Qed.
