(* ===== verification/Examples.v ===== *)
(** * Concrete states and witnesses

    A market whose price is 50, its oracle, users with a deposit, and for each
    property with hypotheses a closed instance of it on these states, with the
    model evaluated by the kernel. *)

From stdpp Require Import base numbers list gmap.
From S2P Require Import Prelude Constants Bn State Value AmmMath BankBalance Twap Oracle.
From S2P Require Import PositionMath CurveMath Repeg AmmController OrdersMath Position.
From S2P Require Import Maps Funding Fees Margin OrderValidation Orders.
Local Open Scope Z_scope.

(** ** States *)

(** An oracle account of key 7 with the price 50 and a confidence of 0.01. *)
Definition example_oracle : AccountInfo :=
  (7, (Some (PythPrice.mk 500000000000 100000000 (-10) 10 500000000000), None)).

Definition example_amm : AMM := {|
  AMM.oracle := 7;
  AMM.oracle_source := Pyth;
  AMM.base_asset_reserve := 10000000000000000;
  AMM.quote_asset_reserve := 10000000000000000;
  AMM.terminal_quote_asset_reserve := 10000000000000000;
  AMM.cumulative_repeg_rebate_long := 0;
  AMM.cumulative_repeg_rebate_short := 0;
  AMM.cumulative_funding_rate_long := 70000000000;
  AMM.cumulative_funding_rate_short := 60000000000;
  AMM.cumulative_funding_rate_lp := 0;
  AMM.last_funding_rate := 0;
  AMM.last_funding_rate_ts := 0;
  AMM.funding_period := 3600;
  AMM.last_oracle_price_twap := 500000000000;
  AMM.last_mark_price_twap := 500000000000;
  AMM.last_mark_price_twap_ts := 0;
  AMM.sqrt_k := 10000000000000000;
  AMM.peg_multiplier := 50000;
  AMM.total_fee := 1000000000;
  AMM.total_fee_minus_distributions := 900000000;
  AMM.total_mm_fee := 0;
  AMM.total_exchange_fee := 0;
  AMM.net_revenue_since_last_funding := 0;
  AMM.total_fee_withdrawn := 0;
  AMM.minimum_quote_asset_trade_size := 10000000;
  AMM.last_oracle_price_twap_ts := 0;
  AMM.last_oracle_normalised_price := 500000000000;
  AMM.last_oracle_price := 500000000000;
  AMM.last_oracle_conf := 0;
  AMM.last_oracle_delay := 0;
  AMM.last_oracle_mark_spread_pct := 0;
  AMM.minimum_base_asset_trade_size := 1000000000;
  AMM.base_spread := 1000;
  AMM.long_spread := 500;
  AMM.short_spread := 500;
  AMM.last_bid_price_twap := 500000000000;
  AMM.last_ask_price_twap := 500000000000;
  AMM.net_base_asset_amount := 0;
  AMM.quote_asset_amount_long := 0;
  AMM.quote_asset_amount_short := 0;
  AMM.mark_std := 0;
  AMM.long_intensity_time := 0;
  AMM.long_intensity_count := 0;
  AMM.long_intensity_volume := 0;
  AMM.short_intensity_time := 0;
  AMM.short_intensity_count := 0;
  AMM.short_intensity_volume := 0;
  AMM.curve_update_intensity := 0;
|}.

Definition example_market : Market := {|
  Market.market_index := 0;
  Market.pubkey := 20;
  Market.initialized := true;
  Market.amm := example_amm;
  Market.base_asset_amount_long := 0;
  Market.base_asset_amount_short := 0;
  Market.open_interest := 0;
  Market.margin_ratio_initial := 2000;
  Market.margin_ratio_partial := 625;
  Market.margin_ratio_maintenance := 500;
  Market.next_trade_record_id := 1;
  Market.next_funding_rate_record_id := 1;
  Market.next_curve_record_id := 1;
  Market.pnl_pool := PNLPool.mk 0;
|}.

(** The quote asset bank, whose oracle is the default key. *)
Definition example_quote_bank : Bank :=
  example_bank <| Bank.cumulative_deposit_interest := 10000000000 |>
               <| Bank.cumulative_borrow_interest := 10000000000 |>.

Definition example_market_map : MarketMap := {[ 0 := Loaded example_market ]}.
Definition example_bank_map : BankMap := {[ 0 := Loaded example_quote_bank ]}.
Definition example_oracle_map : OracleMap := {|
  OracleMap.oracles := {[ 7 := (example_oracle, Pyth) ]};
  OracleMap.price_data := ∅;
  OracleMap.slot := 10;
  OracleMap.quote_asset_price_data := quote_asset_price;
|}.

(** A user with the given deposit, positions and orders. *)
Definition make_user (authority deposit : Z) (positions : list MarketPosition)
    (orders : list Order) : User := {|
  User.authority := authority;
  User.user_id := 0;
  User.name := replicate 32 0;
  User.bank_balances :=
    UserBankBalance.mk 0 Deposit deposit :: replicate 7 (UserBankBalance.mk 0 Deposit 0);
  User.total_fee_paid := 0;
  User.total_fee_rebate := 0;
  User.total_token_discount := 0;
  User.total_referral_reward := 0;
  User.total_referee_discount := 0;
  User.next_order_id := 1;
  User.positions :=
    positions ++ replicate (5 - length positions) MarketPosition_default;
  User.orders := orders ++ replicate (32 - length orders) Order_default;
|}.

Definition example_fees : FeeStructure := {|
  FeeStructure.fee_numerator := 10;
  FeeStructure.fee_denominator := 10000;
  FeeStructure.discount_token_tiers :=
    let tier := DiscountTokenTier.mk 1000000000 20 100 in
    DiscountTokenTiers.mk tier tier tier tier;
  FeeStructure.referral_discount := ReferralDiscount.mk 5 100 5 100;
|}.

Definition example_guard_rails : OracleGuardRails :=
  OracleGuardRails.mk (PriceDivergenceGuardRails.mk 1 10) (ValidityGuardRails.mk 1000 4 5)
    true.

Definition example_state : State := {|
  State.admin := 1;
  State.exchange_paused := false;
  State.funding_paused := false;
  State.admin_controls_prices := true;
  State.insurance_vault := 2;
  State.insurance_vault_authority := 3;
  State.insurance_vault_nonce := 255;
  State.margin_ratio_initial := 2000;
  State.margin_ratio_maintenance := 500;
  State.margin_ratio_partial := 625;
  State.partial_liquidation_close_percentage_numerator := 25;
  State.partial_liquidation_close_percentage_denominator := 100;
  State.partial_liquidation_penalty_percentage_numerator := 25;
  State.partial_liquidation_penalty_percentage_denominator := 1000;
  State.full_liquidation_penalty_percentage_numerator := 1;
  State.full_liquidation_penalty_percentage_denominator := 1;
  State.partial_liquidation_liquidator_share_denominator := 2;
  State.full_liquidation_liquidator_share_denominator := 20;
  State.fee_structure := example_fees;
  State.whitelist_mint := 0;
  State.discount_mint := 0;
  State.oracle_guard_rails := example_guard_rails;
  State.order_state := 4;
  State.number_of_markets := 1;
  State.number_of_banks := 1;
|}.

Definition example_order_state : OrderState :=
  OrderState.mk (OrderFillerRewardStructure.mk 1 10 10000) 500000.

Definition example_clock : Clock := Clock.mk 60 10.

(** A limit order for one unit at 51. *)
Definition example_params : OrderParams := {|
  OrderParams.order_type := OrderType.Limit;
  OrderParams.direction := Long;
  OrderParams.user_order_id := 1;
  OrderParams.quote_asset_amount := 0;
  OrderParams.base_asset_amount := 10000000000000;
  OrderParams.price := 510000000000;
  OrderParams.market_index := 0;
  OrderParams.reduce_only := false;
  OrderParams.post_only := false;
  OrderParams.immediate_or_cancel := false;
  OrderParams.trigger_price := 0;
  OrderParams.trigger_condition := Above;
  OrderParams.position_limit := 0;
  OrderParams.oracle_price_offset := 0;
|}.

(** The user who trades, a filler, a referrer and one who takes no part. *)
Definition example_users : UserMap := {[
  100 := Loaded (make_user 101 10000000000 [] []);
  200 := Loaded (make_user 201 0 [] []);
  300 := Loaded (make_user 301 0 [] []);
  400 := Loaded (make_user 401 5000000 [] [])
]}.

Local Abbreviation placed :=
  (place_order example_state example_order_state example_users 100 example_market_map None
    (Some 300) example_clock example_params (Some example_oracle)).

Local Abbreviation filled users :=
  (fill_order 1 example_state example_order_state users 100 example_market_map
    example_bank_map example_oracle_map example_oracle 200 (Some 300) example_clock).

(** ** Evaluation *)

Definition from_ok {A} (default : A) (r : result A) : A :=
  match r with Ok a => a | _ => default end.

Lemma from_ok_eq {A} (default : A) r : is_ok r = true → r = Ok (from_ok default r).
Proof. by destruct r. Qed.

(** The state after the placement, and after its fill at the price 50.07. *)
Definition placed_users : UserMap := from_ok ∅ placed.
Definition fill_result : UserMap * MarketMap * OracleMap * Z :=
  from_ok (∅, ∅, example_oracle_map, 0) (filled placed_users).
Definition filled_users : UserMap := fill_result.1.1.1.
Definition filled_markets : MarketMap := fill_result.1.1.2.
Definition filled_user : User :=
  match filled_users !! 100 with Some (Loaded u) => u | _ => make_user 0 0 [] [] end.
Definition placed_user : User :=
  match placed_users !! 100 with Some (Loaded u) => u | _ => make_user 0 0 [] [] end.

Lemma placed_eq : placed = Ok placed_users.
Proof. apply from_ok_eq. vm_compute. reflexivity. Qed.

Lemma filled_eq :
  filled placed_users = Ok (filled_users, filled_markets, fill_result.1.2, fill_result.2).
Proof.
  unfold filled_users, filled_markets. rewrite <- !surjective_pairing.
  apply from_ok_eq. vm_compute. reflexivity.
Qed.

(** A user without positions and orders is well formed. *)
Lemma make_user_wf authority deposit : orders_wf (make_user authority deposit [] []).
Proof.
  assert (∀ i k p, (make_user authority deposit [] []).(User.positions) !! k = Some p →
                   is_for p i = false) as Hfree.
  { intros i k p Hk. apply list_elem_of_lookup_2 in Hk. cbn in Hk.
    repeat (apply elem_of_cons in Hk as [->|Hk]; [by apply andb_false_r|]).
    by apply elem_of_nil in Hk. }
  split.
  - intros i j k p q Hp _ Hi. by rewrite (Hfree i j p Hp) in Hi.
  - intros i k p Hp Hi. by rewrite (Hfree i k p Hp) in Hi.
  - intros i. vm_compute. by destruct (i =? 0).
  - vm_compute. lia.
Qed.

Lemma example_users_wf : users_wf example_users.
Proof.
  intros k u Hk. unfold example_users in Hk.
  repeat (apply lookup_insert_Some in Hk as [[_ Hk]|[_ Hk]];
          [injection Hk as <-; apply make_user_wf|]).
  apply lookup_singleton_Some in Hk as [_ Hk]. injection Hk as <-. apply make_user_wf.
Qed.

(** The placement and the fill are steps of the order system. *)
Lemma placed_step : order_step example_users placed_users.
Proof.
  exact (step_place _ _ example_state example_order_state 100 example_market_map None
    (Some 300) example_clock example_params (Some example_oracle) placed_eq).
Qed.

Lemma filled_step : order_step placed_users filled_users.
Proof.
  exact (step_fill _ _ 1 example_state example_order_state 100 example_market_map
    example_bank_map example_oracle_map example_oracle 200 (Some 300) example_clock
    _ _ _ filled_eq).
Qed.

Lemma placed_users_wf : users_wf placed_users.
Proof.
  eapply order_step_wf; [apply placed_step|apply example_users_wf].
Qed.

Local Abbreviation cancelled :=
  (cancel_order_by_order_id example_state 1 placed_users 100 example_market_map
    example_bank_map example_oracle_map example_clock None).
Definition cancel_result : UserMap * OracleMap := from_ok (∅, example_oracle_map) cancelled.

Lemma cancelled_eq : cancelled = Ok (cancel_result.1, cancel_result.2).
Proof.
  rewrite <- surjective_pairing. apply from_ok_eq. vm_compute. reflexivity.
Qed.

(** ** Witnesses of the order system *)

Lemma order_system_invariant_witness : users_wf filled_users.
Proof.
  apply (order_system_invariant example_users).
  - eapply rtc_l; [apply placed_step|]. eapply rtc_l; [apply filled_step|]. apply rtc_refl.
  - apply example_users_wf.
Defined.

Lemma fill_order_within_order_witness :
  ∃ u u' n o, placed_users !! 100 = Some (Loaded u) ∧ filled_users !! 100 = Some (Loaded u')
    ∧ u.(User.orders) !! n = Some o ∧ o.(Order.order_id) = 1 ∧ o.(Order.status) = Open
    ∧ if fill_result.2 =? 0 then u'.(User.orders) = u.(User.orders)
      else ∃ o' fill, u'.(User.orders) = <[n := o']> u.(User.orders)
             ∧ order_after_fill o o' fill ∧ fill.(fill_base) = fill_result.2.
Proof.
  exact (fill_order_within_order 1 example_state example_order_state placed_users 100
    example_market_map example_bank_map example_oracle_map example_oracle 200 (Some 300)
    example_clock _ _ _ _ placed_users_wf filled_eq).
Defined.

Lemma fill_order_frame_witness : filled_users !! 400 = placed_users !! 400.
Proof.
  apply (fill_order_frame 1 example_state example_order_state placed_users 100
    example_market_map example_bank_map example_oracle_map example_oracle 200 (Some 300)
    example_clock _ _ _ _ filled_eq); discriminate.
Defined.

Lemma place_order_ok_witness :
  ∃ u u' n old o market v,
    example_users !! 100 = Some (Loaded u) ∧ placed_users = <[100 := Loaded u']> example_users
    ∧ u.(User.orders) !! n = Some old ∧ old.(Order.status) = Init
    ∧ u'.(User.orders) = <[n := o]> u.(User.orders)
    ∧ o.(Order.status) = Open ∧ o.(Order.order_id) = u.(User.next_order_id)
    ∧ o.(Order.base_asset_amount_filled) = 0
    ∧ market_get_ref example_market_map 0 = Ok market
    ∧ validate_order o market example_order_state v = Ok ().
Proof.
  exact (place_order_ok example_state example_order_state example_users 100
    example_market_map None (Some 300) example_clock example_params (Some example_oracle)
    placed_users example_users_wf placed_eq).
Defined.

Lemma cancel_order_by_order_id_ok_witness :
  ∃ u u' n o, placed_users !! 100 = Some (Loaded u)
    ∧ cancel_result.1 = <[100 := Loaded u']> placed_users
    ∧ u.(User.orders) !! n = Some o ∧ o.(Order.order_id) = 1 ∧ o.(Order.status) = Open
    ∧ (∀ m o', u.(User.orders) !! m = Some o' → (m < n)%nat → o'.(Order.order_id) ≠ 1)
    ∧ u'.(User.orders) = <[n := Order_default]> u.(User.orders).
Proof.
  exact (cancel_order_by_order_id_ok example_state 1 placed_users 100 example_market_map
    example_bank_map example_oracle_map example_clock None _ _ placed_users_wf cancelled_eq).
Defined.

Definition example_order : Order := default Order_default (head placed_user.(User.orders)).
Definition example_fill : Fill := mk_fill 10000000000000 50075091 true 0.
Local Abbreviation settled referrer :=
  (settle_fill example_state example_order_state (<[100 := MutBorrowed]> placed_users)
     placed_user 100 200 referrer example_market_map 0 0 example_order 60 example_fill).
Definition settle_result : UserMap * User * MarketMap :=
  from_ok (∅, placed_user, ∅) (settled (Some 300)).

Lemma settled_eq :
  settled (Some 300) = Ok (settle_result.1.1, settle_result.1.2, settle_result.2).
Proof. rewrite <- !surjective_pairing. apply from_ok_eq. vm_compute. reflexivity. Qed.

Lemma settle_fill_conserves_witness :
  ∃ m m', example_market_map !! 0 = Some (Loaded m)
    ∧ settle_result.2 !! 0 = Some (Loaded m')
    ∧ owed settle_result.1.2 + owed_to_all settle_result.1.1
      + m'.(Market.amm).(AMM.total_fee_minus_distributions)
      = owed placed_user + owed_to_all (<[100 := MutBorrowed]> placed_users)
        + m.(Market.amm).(AMM.total_fee_minus_distributions) + 0
    ∧ m'.(Market.amm).(AMM.total_fee) - m.(Market.amm).(AMM.total_fee)
      = m'.(Market.amm).(AMM.total_fee_minus_distributions)
        - m.(Market.amm).(AMM.total_fee_minus_distributions).
Proof.
  exact (settle_fill_conserves example_state example_order_state
    (<[100 := MutBorrowed]> placed_users) placed_user 100 200 (Some 300) example_market_map
    0 0 example_order 60 example_fill _ _ _ settled_eq).
Defined.

Lemma self_referral_fails_witness : is_ok (settled (Some 100)) = false.
Proof.
  apply (self_referral_fails example_state example_order_state
    (<[100 := MutBorrowed]> placed_users)). apply lookup_insert_eq.
Defined.

Local Abbreviation executed :=
  (execute_order placed_user 0 example_market_map example_bank_map example_oracle_map 0
     500000000000 60 None).
Definition execute_result : User * MarketMap * OracleMap * Fill :=
  from_ok (placed_user, ∅, example_oracle_map, no_fill) executed.

Lemma executed_eq :
  executed = Ok (execute_result.1.1.1, execute_result.1.1.2, execute_result.1.2,
                 execute_result.2).
Proof. rewrite <- !surjective_pairing. apply from_ok_eq. vm_compute. reflexivity. Qed.

Lemma example_order_fields :
  placed_user.(User.orders) !! 0%nat = Some example_order
  ∧ example_order.(Order.order_type) = OrderType.Limit
  ∧ example_order.(Order.direction) = Long
  ∧ execute_result.2.(fill_base) = 10000000000000.
Proof. vm_compute. done. Qed.

Lemma execute_order_moves_position_witness :
  ∃ k p p',
    placed_user.(User.positions) !! k = Some p
    ∧ execute_result.1.1.1.(User.positions) !! k = Some p'
    ∧ p'.(MarketPosition.base_asset_amount)
      = p.(MarketPosition.base_asset_amount) + 10000000000000.
Proof.
  destruct example_order_fields as (Ho & Ht & Hd & Hf).
  destruct (execute_order_moves_position placed_user 0 example_market_map example_bank_map
    example_oracle_map 0 500000000000 60 None execute_result.1.1.1
    execute_result.1.1.2 execute_result.1.2 execute_result.2 example_order Ho)
    as (k & p & p' & m & m' & Hp & _ & Hp' & _ & _ & Hb & _).
  - rewrite Ht. discriminate.
  - exact executed_eq.
  - rewrite Hf. discriminate.
  - exists k, p, p'. rewrite Hd, Hf in Hb. auto.
Defined.
