(* ===== verification/Witnesses.v ===== *)
(** * Witnesses

    For the theorems with hypotheses, an instance on concrete arguments where every
    hypothesis holds, with the model evaluated by the kernel.  The states are those of
    [Examples]; the witnesses of the banks are in [BankBalance]. *)

From stdpp Require Import base numbers list gmap.
From S2P Require Import Prelude Constants Bn State Value AmmMath BankBalance Twap Oracle.
From S2P Require Import PositionMath CurveMath Repeg AmmController OrdersMath Position.
From S2P Require Import Maps Funding FundingProps Fees Margin OrderValidation Orders MarginProps Examples.
Local Open Scope Z_scope.

(** Evaluates a computation that succeeds, and names the equation. *)
Ltac evaluate t E :=
  let H := fresh in
  assert (is_ok t = true) as H by (vm_compute; reflexivity);
  destruct t eqn:E; [|discriminate H|discriminate H].

(** Decides a range on concrete numbers. *)
Ltac concrete := vm_compute; intuition discriminate.

Lemma example_amm_typed : AMM.typed example_amm.
Proof. split; concrete. Qed.

Lemma example_market_typed : Market.typed example_market.
Proof. split; try apply example_amm_typed; try split; concrete. Qed.

(** ** Swaps *)

Lemma calculate_swap_output_invariant_witness :
  calculate_swap_output 1000 5000 Add 5000 = Ok (4166, 6000)
  ∧ 4166 * 6000 ≤ 5000 * 5000 < (4166 + 1) * 6000.
Proof.
  split; [vm_compute; reflexivity|].
  apply (calculate_swap_output_invariant 1000 5000 Add 5000 4166 6000);
    [concrete..|vm_compute; reflexivity].
Defined.

Lemma bid_ask_price_above_mark_witness :
  500000000000 ≤ 500250000000
  ∧ 500000000000 ≤ 500250000000.
Proof.
  destruct (bid_ask_price_above_mark example_amm 500000000000 500250000000 500250000000
    example_amm_typed) as (Hbid & Hask & _); [concrete..|vm_compute; reflexivity|auto].
Defined.

Lemma calculate_spread_reserves_panics_witness :
  calculate_spread_reserves (example_amm <| AMM.long_spread := 1 |>) Long = Panic.
Proof.
  apply (calculate_spread_reserves_panics (example_amm <| AMM.long_spread := 1 |>) Long).
  vm_compute. reflexivity.
Defined.

Definition swapped_amm : AMM :=
  (from_ok (example_amm, (0, 0))
     (swap_base_asset example_amm 10000000000000 Remove 60 None false)).1.

Lemma base_swap_round_trip_loses_witness :
  ∃ amm2 v1 v2 s1 s2,
    swap_base_asset example_amm 10000000000000 Remove 60 None false
      = Ok (swapped_amm, (v1, s1))
    ∧ swap_base_asset swapped_amm 10000000000000 Add 60 None false = Ok (amm2, (v2, s2))
    ∧ amm2.(AMM.base_asset_reserve) = 10000000000000000 ∧ v2 < v1.
Proof.
  evaluate (swap_base_asset example_amm 10000000000000 Remove 60 None false) E1.
  destruct a as [amm1 [v1 s1]].
  assert (swapped_amm = amm1) as <- by (unfold swapped_amm; rewrite E1; reflexivity).
  evaluate (swap_base_asset swapped_amm 10000000000000 Add 60 None false) E2.
  destruct a as [amm2 [v2 s2]]. exists amm2, v1, v2, s1, s2.
  split; [reflexivity|]. split; [reflexivity|].
  apply (base_swap_round_trip_loses example_amm 10000000000000 Remove swapped_amm amm2
    v1 v2 s1 s2 60 60 None None example_amm_typed); [split; concrete|concrete..|exact E1|exact E2].
Defined.

(** ** Roots *)

Lemma search_root_spec n x fuel lo hi :
  0 ≤ lo < hi → hi - lo ≤ 2 ^ Z.of_nat fuel → lo ^ n ≤ x < hi ^ n →
  0 ≤ search_root n x fuel lo hi
  ∧ search_root n x fuel lo hi ^ n ≤ x < (search_root n x fuel lo hi + 1) ^ n.
Proof.
  revert lo hi. induction fuel as [|fuel IH]; intros lo hi Hlo Hfuel Hx; cbn [search_root].
  - assert (hi = lo + 1) as -> by (change (2 ^ Z.of_nat 0) with 1 in Hfuel; lia). lia.
  - destruct (Z.leb_spec (hi - lo) 1) as [|Hgap].
    { assert (hi = lo + 1) as -> by lia. lia. }
    rewrite Nat2Z.inj_succ, Z.pow_succ_r in Hfuel by lia.
    pose proof (Z.div_mod (lo + hi) 2 ltac:(lia)).
    pose proof (Z.mod_pos_bound (lo + hi) 2 ltac:(lia)).
    set (mid := (lo + hi) / 2) in *.
    destruct (Z.leb_spec (mid ^ n) x); apply IH; lia.
Qed.

#[local] Instance example_roots_laws : RootsLaws.
Proof.
  split. intros n x Hn Hx. apply search_root_spec.
  - int_lia.
  - change (Z.of_nat 130) with 130. assert (2 ^ 128 ≤ 2 ^ 130) by (vm_compute; discriminate).
    assert (x + 1 ≤ 2 ^ 128) by (change (2 ^ 128) with (int_max U128 + 1); int_lia). lia.
  - assert (0 ≤ x) by int_lia. rewrite Z.pow_0_l by lia. split; [lia|].
    assert ((x + 1) ^ 1 ≤ (x + 1) ^ n) by (apply Z.pow_le_mono_r; lia).
    rewrite Z.pow_1_r in *. lia.
Qed.

(** ** Fees *)

Lemma filler_reward_bounds_witness :
  ∃ r, calculate_filler_reward 50000 30 60
         example_order_state.(OrderState.order_filler_reward_structure) = Ok r
  ∧ 30 ≤ 60 ∧ r ≤ 50000 * 1 / 10 ∧ (10000 ≤ 50000 * 1 / 10 → 10000 ≤ r).
Proof.
  evaluate (calculate_filler_reward 50000 30 60
              example_order_state.(OrderState.order_filler_reward_structure)) E.
  exists a. split; [reflexivity|].
  apply (filler_reward_bounds 50000 30 60
           example_order_state.(OrderState.order_filler_reward_structure) a);
    [concrete|split; concrete|exact E].
Defined.

Lemma taker_fee_conserved_witness :
  ∃ u m td fr rr rd,
    calculate_fee_for_order 50075091 example_fees
      example_order_state.(OrderState.order_filler_reward_structure) OrderDiscountTier.First
      60 60 true false 10 false = Ok (u, m, td, fr, rr, rd)
    ∧ u + 10 = m + fr + rr ∧ u + td + rd = 50075091 * 10 / 10000.
Proof.
  evaluate (calculate_fee_for_order 50075091 example_fees
    example_order_state.(OrderState.order_filler_reward_structure) OrderDiscountTier.First
    60 60 true false 10 false) E.
  destruct a as [[[[[u m] td] fr] rr] rd]. exists u, m, td, fr, rr, rd.
  split; [reflexivity|].
  destruct (taker_fee_conserved 50075091 example_fees
    example_order_state.(OrderState.order_filler_reward_structure) OrderDiscountTier.First
    60 60 true false 10 u m td fr rr rd E) as (H1 & H2 & _). split; [exact H1|exact H2].
Defined.

Lemma maker_rebate_from_surplus_witness :
  ∃ u m td fr rr rd,
    calculate_fee_for_order 50075091 example_fees
      example_order_state.(OrderState.order_filler_reward_structure) OrderDiscountTier.None
      60 60 false false 40000 true = Ok (u, m, td, fr, rr, rd)
    ∧ m + fr - u = 40000 ∧ - (50075091 / 2000) ≤ u ≤ 0 ∧ 0 ≤ m.
Proof.
  evaluate (calculate_fee_for_order 50075091 example_fees
    example_order_state.(OrderState.order_filler_reward_structure) OrderDiscountTier.None
    60 60 false false 40000 true) E.
  destruct a as [[[[[u m] td] fr] rr] rd]. exists u, m, td, fr, rr, rd.
  split; [reflexivity|].
  destruct (maker_rebate_from_surplus 50075091 example_fees
    example_order_state.(OrderState.order_filler_reward_structure) OrderDiscountTier.None
    60 60 false false 40000 u m td fr rr rd ltac:(lia) E) as (H1 & H2 & H3 & _).
  split; [exact H1|]. split; [exact H2|exact H3].
Defined.

(** ** Positions and orders *)

Lemma update_position_with_base_asset_amount_tracks_witness :
  ∃ m' user' u,
    update_position_with_base_asset_amount 10000000000000 Long example_market placed_user 0
      500000000000 60 None = Ok (m', user', u)
    ∧ ∃ p p', placed_user.(User.positions) !! 0%nat = Some p
        ∧ user' = set_position placed_user 0 p'
        ∧ p'.(MarketPosition.base_asset_amount)
          = p.(MarketPosition.base_asset_amount) + 10000000000000
        ∧ tracks example_market m' p.(MarketPosition.base_asset_amount)
            p'.(MarketPosition.base_asset_amount).
Proof.
  evaluate (update_position_with_base_asset_amount 10000000000000 Long example_market
    placed_user 0 500000000000 60 None) E.
  destruct a as [[m' user'] u]. exists m', user', u. split; [reflexivity|].
  exact (update_position_with_base_asset_amount_tracks 10000000000000 Long example_market
    placed_user 0 500000000000 60 None m' user' u ltac:(lia) E).
Defined.

(** A long of one unit, and the market that has it. *)
Definition example_position : MarketPosition :=
  MarketPosition_default <| MarketPosition.base_asset_amount := 10000000000000 |>
                         <| MarketPosition.quote_asset_amount := 50075091 |>
                         <| MarketPosition.last_cumulative_funding_rate := 70000000000 |>.
Definition traded_market : Market :=
  match filled_markets !! 0 with Some (Loaded m) => m | _ => example_market end.

Lemma trade_base_asset_amount_risk_witness :
  ∃ m' p' u,
    trade_base_asset_amount 30000000000000 Short traded_market example_position
      500000000000 60 None = Ok (m', p', u)
    ∧ u.(PositionUpdate.potentially_risk_increasing)
      = bool_decide (10000000000000 ≤ Z.abs p'.(MarketPosition.base_asset_amount)).
Proof.
  evaluate (trade_base_asset_amount 30000000000000 Short traded_market example_position
    500000000000 60 None) E.
  destruct a as [[m' p'] u]. exists m', p', u. split; [reflexivity|].
  exact (trade_base_asset_amount_risk 30000000000000 Short traded_market example_position
    500000000000 60 None m' p' u eq_refl E).
Defined.

Lemma reductions_keep_quote_totals_witness :
  ∃ m' p' u,
    trade_base_asset_amount 4000000000000 Short traded_market example_position
      500000000000 60 None = Ok (m', p', u)
    ∧ m'.(Market.amm).(AMM.quote_asset_amount_long) = 50075091
    ∧ m'.(Market.amm).(AMM.net_base_asset_amount) = 6000000000000.
Proof.
  evaluate (trade_base_asset_amount 4000000000000 Short traded_market example_position
    500000000000 60 None) E.
  destruct a as [[m' p'] u]. exists m', p', u. split; [reflexivity|].
  destruct (reductions_keep_quote_totals 4000000000000 Short traded_market example_position
      500000000000 60 None m' p' u) as (H1 & _ & H2); [concrete|reflexivity|exact E|].
  rewrite H1, H2. vm_compute. auto.
Defined.

Lemma reduce_only_amount_reduces_witness :
  let amount := calculate_base_asset_amount_for_reduce_only_order 30 Short 20 in
  0 ≤ amount ≤ 30 ∧ Z.abs (20 - amount) = Z.abs 20 - amount ∧ 0 ≤ (20 - amount) * 20.
Proof. apply (reduce_only_amount_reduces 30 Short 20). lia. Defined.

(** A trigger limit order to sell at 48 or better when the price falls below 49. *)
Definition example_trigger_order : Order :=
  Order_default <| Order.order_type := OrderType.TriggerLimit |>
                <| Order.direction := Short |> <| Order.status := Open |>
                <| Order.base_asset_amount := 10000000000000 |>
                <| Order.price := 480000000000 |> <| Order.trigger_price := 490000000000 |>
                <| Order.trigger_condition := Below |>.

Lemma example_trigger_order_typed : Order.typed example_trigger_order.
Proof. split; concrete. Qed.

Lemma trigger_condition_met_witness :
  485000000000 < 490000000000 ∧ ∀ o, Some 486000000000 = Some o → o * 99 < 490000000000 * 100.
Proof.
  apply (trigger_condition_met example_trigger_order 485000000000 (Some 486000000000));
    [concrete|vm_compute; reflexivity].
Defined.

Lemma validate_order_accepts_witness :
  accepted example_trigger_order example_market example_order_state None.
Proof.
  apply (validate_order_accepts example_trigger_order example_market example_order_state None
           example_trigger_order_typed).
  vm_compute. reflexivity.
Defined.

(** A reduce-only order for almost all of the position. *)
Definition example_reduce_params : OrderParams :=
  example_params <| OrderParams.reduce_only := true |> <| OrderParams.direction := Short |>
                 <| OrderParams.base_asset_amount := 9999900000000 |>.

Lemma get_base_asset_amount_for_order_no_dust_witness :
  let order_size :=
    get_base_asset_amount_for_order example_reduce_params example_market example_position in
  (order_size = 10000000000000 ∨ 1000000000 < Z.abs (10000000000000 - order_size))
  ∧ (order_size = 9999900000000
     ∨ order_size = 10000000000000 ∧ Z.abs (10000000000000 - 9999900000000) ≤ 1000000000).
Proof.
  exact (get_base_asset_amount_for_order_no_dust example_reduce_params example_market
    example_position ltac:(concrete)).
Defined.

(** ** Oracle prices and averages *)

Definition example_oracle_data : OraclePriceData :=
  OraclePriceData.mk 510000000000 100000000 5 true.

Lemma is_oracle_valid_spec_witness :
  is_oracle_valid example_amm example_oracle_data example_guard_rails.(OracleGuardRails.validity)
  = Ok true.
Proof.
  etransitivity; [apply (is_oracle_valid_spec example_amm example_oracle_data
    example_guard_rails.(OracleGuardRails.validity) example_amm_typed); split; concrete|].
  vm_compute. reflexivity.
Defined.

Lemma update_mark_twap_ok_witness :
  ∃ amm' mid, update_mark_twap example_amm 60 (Some 520000000000) = Ok (amm', mid)
    ∧ 500000000000 ≤ amm'.(AMM.last_mark_price_twap) ≤ 520000000000
    ∧ amm'.(AMM.last_mark_price_twap_ts) = 60.
Proof.
  evaluate (update_mark_twap example_amm 60 (Some 520000000000)) E.
  destruct a as [amm' mid]. exists amm', mid. split; [reflexivity|].
  destruct (update_mark_twap_ok example_amm 60 520000000000 amm' mid E) as (H1 & H2 & _).
  split; [exact H1|exact H2].
Defined.

Lemma calculate_new_oracle_price_twap_bounds_witness :
  ∃ t, calculate_new_oracle_price_twap example_amm 60 510000000000 = Ok t
    ∧ 500000000000 ≤ t ≤ 510000000000.
Proof.
  evaluate (calculate_new_oracle_price_twap example_amm 60 510000000000) E.
  exists a. split; [reflexivity|].
  exact (proj1 (calculate_new_oracle_price_twap_bounds example_amm 60 510000000000 a
    example_amm_typed eq_refl E)).
Defined.

(** ** Curve and peg *)

(** The market with a long of one unit, and curve updates at full intensity. *)
Definition intense_market : Market :=
  traded_market <| Market.amm :=
    traded_market.(Market.amm) <| AMM.curve_update_intensity := 100 |> |>.

Lemma intense_market_typed : Market.typed intense_market.
Proof. split; try (split; concrete); concrete. Qed.

Lemma calculate_budgeted_k_scale_bounds_witness :
  calculate_budgeted_k_scale intense_market 10000 500000000000 = Ok (1001000, 1000000)
  ∧ 978 * 1000000 ≤ 1000 * 1001000 ∧ 1000 * 1001000 < 1002 * 1000000.
Proof.
  assert (calculate_budgeted_k_scale intense_market 10000 500000000000
          = Ok (1001000, 1000000)) as E by (vm_compute; reflexivity).
  split; [exact E|].
  destruct (calculate_budgeted_k_scale_bounds intense_market 10000 500000000000 1001000
    1000000 intense_market_typed E) as (_ & _ & H1 & H2 & _). auto.
Defined.

(** A budget of one unit of the quote asset; the assertion fails. *)
Lemma large_k_budget_fails_witness :
  is_ok (calculate_budgeted_k_scale intense_market 1000000 500000000000) = false
  ∧ formulaic_update_k intense_market (-2000000) 500000000000 = Panic.
Proof.
  split; [|vm_compute; reflexivity].
  apply (large_k_budget_fails intense_market 1000000 500000000000); concrete.
Defined.

Lemma calculate_budgeted_peg_between_witness :
  ∃ peg cost market',
    calculate_budgeted_peg intense_market 10000000000000000 1000000 51000
      = Ok (peg, cost, market')
    ∧ 50000 ≤ peg ≤ 51000 ∧ market' = set_peg intense_market peg.
Proof.
  evaluate (calculate_budgeted_peg intense_market 10000000000000000 1000000 51000) E.
  destruct a as [[peg cost] market']. exists peg, cost, market'. split; [reflexivity|].
  exact (calculate_budgeted_peg_between intense_market 10000000000000000 1000000 51000 peg
    cost market' intense_market_typed ltac:(concrete) ltac:(concrete) E).
Defined.

(** The oracle at 52. *)
Definition high_oracle : AccountInfo :=
  (7, (Some (PythPrice.mk 520000000000 100000000 (-10) 10 520000000000), None)).

Lemma repeg_ok_witness :
  ∃ market' cost, repeg intense_market high_oracle 50010 10 example_guard_rails
                  = Ok (market', cost)
    ∧ 50010 ≠ 50000
    ∧ market' = set_peg (set_total_fee_minus_distributions intense_market
        (intense_market.(Market.amm).(AMM.total_fee_minus_distributions) - cost)) 50010.
Proof.
  evaluate (repeg intense_market high_oracle 50010 10 example_guard_rails) E.
  destruct a as [market' cost]. exists market', cost. split; [reflexivity|].
  destruct (repeg_ok intense_market high_oracle 50010 10 example_guard_rails market' cost E)
    as (H1 & H2 & _). split; [exact H1|exact H2].
Defined.

(** ** Funding *)

Lemma next_update_wait_on_period_witness :
  calculate_next_update_wait 4000 3600 = Ok 3200 ∧ (4000 + 3200) mod 3600 = 0
  ∧ calculate_next_update_wait 5000 3600 = Ok 5800 ∧ (5000 + 5800) mod 3600 = 0.
Proof.
  destruct (next_update_wait_on_period 4000 3600 ltac:(lia)) as (H1 & _ & _ & H2 & _).
  destruct (next_update_wait_on_period 5000 3600 ltac:(lia)) as (H3 & _ & _ & H4 & _).
  split; [apply H1; concrete|]. split; [exact H2|].
  split; [apply H3; concrete|exact H4].
Defined.

Lemma calculate_funding_rate_bounds_witness :
  ∃ r, calculate_funding_rate 510000000000 500000000000 3600 = Ok r
    ∧ Z.abs r ≤ 500000000000 / 33 * FUNDING_PAYMENT_PRECISION ∧ 0 ≤ r.
Proof.
  evaluate (calculate_funding_rate 510000000000 500000000000 3600) E.
  exists a. split; [reflexivity|].
  destruct (calculate_funding_rate_bounds 510000000000 500000000000 3600 a ltac:(lia) E)
    as (H1 & _ & H2 & _). split; [exact H1|apply H2; lia].
Defined.

(** The market whose fees are 500.00001, of which funding may take 0.00001 times 2/3. *)
Definition poor_market : Market :=
  traded_market <| Market.amm := traded_market.(Market.amm)
    <| AMM.total_fee_minus_distributions := 500000010 |> |>.

Lemma poor_market_typed : Market.typed poor_market.
Proof. split; try (split; concrete); concrete. Qed.

Lemma calculate_funding_rate_long_short_ok_witness :
  ∃ market' l s, calculate_funding_rate_long_short poor_market (-1000000000000)
                 = Ok (market', (l, s))
    ∧ ∃ payment, calculate_funding_payment_in_quote_precision (-1000000000000)
                   poor_market.(Market.amm).(AMM.net_base_asset_amount) = Ok payment
      ∧ market' = set_total_fee_minus_distributions poor_market
                    market'.(Market.amm).(AMM.total_fee_minus_distributions).
Proof.
  evaluate (calculate_funding_rate_long_short poor_market (-1000000000000)) E.
  destruct a as [market' [l s]]. exists market', l, s. split; [reflexivity|].
  destruct (calculate_funding_rate_long_short_ok poor_market (-1000000000000) market' l s
    poor_market_typed E) as (payment & H1 & H2 & _). exists payment. auto.
Defined.

(** One unit long against 0.4 short, with 0.00003 of fees above the lower bound: the longs,
    who are to receive, get 0.00402, of which the shorts pay 0.004. *)
Definition lopsided_market : Market :=
  traded_market <| Market.base_asset_amount_short := -4000000000000 |>
    <| Market.amm := traded_market.(Market.amm)
         <| AMM.net_base_asset_amount := 6000000000000 |>
         <| AMM.total_fee_minus_distributions := 500032706 |> |>.

Lemma lopsided_market_typed : Market.typed lopsided_market.
Proof. split; try (split; concrete); concrete. Qed.

Lemma funding_is_covered_witness :
  ∃ market' l s pl,
    calculate_funding_rate_long_short lopsided_market (-1000000000000) = Ok (market', (l, s))
    ∧ calculate_funding_payment_in_quote_precision l 10000000000000 = Ok pl
    ∧ pl - 4000 ≤ 500032706 - market'.(Market.amm).(AMM.total_fee_minus_distributions) + 1.
Proof.
  evaluate (calculate_funding_rate_long_short lopsided_market (-1000000000000)) E.
  destruct a as [market' [l s]].
  assert (l = -401900000000 ∧ s = -1000000000000) as [-> ->].
  { apply (f_equal (λ r, match r with Ok (_, ls) => ls | _ => (0, 0) end)) in E.
    vm_compute in E. injection E as <- <-. split; reflexivity. }
  evaluate (calculate_funding_payment_in_quote_precision (-401900000000) 10000000000000) E2.
  exists market', (-401900000000), (-1000000000000), a.
  split; [reflexivity|]. split; [exact E2|].
  apply (funding_is_covered lopsided_market (-1000000000000) lopsided_market_typed
    ltac:(concrete) ltac:(concrete) ltac:(concrete) ltac:(vm_compute; reflexivity)
    market' (-401900000000) (-1000000000000) a (-4000) E E2).
  vm_compute. reflexivity.
Defined.

(** ** Maps and margin *)

Lemma example_oracle_map_cache_ok : cache_ok example_oracle_map.
Proof. intros k d Hk. vm_compute in Hk. destruct k; discriminate Hk. Qed.

Lemma load_cell_mut_exclusive_witness :
  ∃ market borrowed,
    load_cell_mut example_market_map 0 MarketNotFound UnableToLoadMarketAccount
      = Ok (market, borrowed)
    ∧ load_cell example_market_map 0 MarketNotFound UnableToLoadMarketAccount = Ok market
    ∧ load_cell borrowed 0 MarketNotFound UnableToLoadMarketAccount
      = Err UnableToLoadMarketAccount.
Proof.
  exists example_market, {[ 0 := MutBorrowed ]}.
  destruct (load_cell_mut_exclusive example_market_map 0 MarketNotFound
    UnableToLoadMarketAccount example_market {[ 0 := MutBorrowed ]}) as (H1 & H2 & _).
  - vm_compute. reflexivity.
  - split; [vm_compute; reflexivity|]. split; [exact H1|]. apply H2.
Defined.

Lemma margin_cache_transparent_witness :
  result_rel (λ r r', same_prices r.1 r'.1 ∧ r.2 = r'.2)
    (calculate_margin_requirement_and_total_collateral filled_user filled_markets Partial
       example_bank_map example_oracle_map)
    (margin_requirement_and_total_collateral lookup_uncached filled_user filled_markets
       Partial example_bank_map example_oracle_map).
Proof.
  apply (margin_cache_transparent filled_user filled_markets Partial example_bank_map
    example_oracle_map example_oracle_map_cache_ok).
Defined.

(** One unit long on a deposit of 2. *)
Definition weak_user : User := make_user 101 2000000 [example_position] [].

Lemma calculate_liquidation_status_ok_witness :
  ∃ om' st,
    calculate_liquidation_status weak_user filled_markets example_bank_map
      example_oracle_map example_guard_rails 10 = Ok (om', st)
    ∧ length st.(LiquidationStatus.market_statuses) = 5%nat.
Proof.
  evaluate (calculate_liquidation_status weak_user filled_markets example_bank_map
    example_oracle_map example_guard_rails 10) E.
  destruct a as [om' st]. exists om', st. split; [reflexivity|].
  exact (proj2 (calculate_liquidation_status_ok weak_user filled_markets example_bank_map
    example_oracle_map example_guard_rails 10 om' st E)).
Defined.

Lemma borrower_has_no_liquidation_status_witness :
  ¬ is_ok (calculate_liquidation_status
             (weak_user <| User.bank_balances := [UserBankBalance.mk 0 Borrow 5] |>)
             filled_markets example_bank_map example_oracle_map example_guard_rails 10).
Proof.
  apply (borrower_has_no_liquidation_status
    (weak_user <| User.bank_balances := [UserBankBalance.mk 0 Borrow 5] |>) filled_markets
    example_bank_map example_oracle_map example_guard_rails 10 None).
  intros H. apply Forall_cons in H as [H _]. vm_compute in H. intuition discriminate.
Defined.

(** The user passes the check of a post-only order and is liquidated in full. *)
Lemma fill_requirement_spec_witness :
  ∃ om' om2 status requirement collateral,
    meets_fill_requirement weak_user filled_markets example_bank_map example_oracle_map true
      = Ok (om', true)
    ∧ margin_of weak_user filled_markets example_bank_map example_oracle_map Partial
        requirement collateral
    ∧ requirement < (collateral + 1) * MARGIN_PRECISION
    ∧ calculate_liquidation_status weak_user filled_markets example_bank_map
        example_oracle_map example_guard_rails 10 = Ok (om2, status)
    ∧ status.(LiquidationStatus.liquidation_type) = FULL.
Proof.
  evaluate (meets_fill_requirement weak_user filled_markets example_bank_map
    example_oracle_map true) E.
  destruct a as [om' b]. assert (b = true) as ->.
  { apply (f_equal (λ r, match r with Ok (_, x) => x | _ => false end)) in E.
    vm_compute in E. by symmetry. }
  evaluate (calculate_liquidation_status weak_user filled_markets example_bank_map
    example_oracle_map example_guard_rails 10) E2.
  destruct a as [om2 status].
  destruct (fill_requirement_spec weak_user filled_markets example_bank_map
    example_oracle_map true om' true example_oracle_map_cache_ok E)
    as (requirement & collateral & Hm & Hlt & _).
  exists om', om2, status, requirement, collateral.
  split; [reflexivity|]. split; [exact Hm|]. split; [apply Hlt; reflexivity|].
  split; [reflexivity|].
  apply (f_equal (λ r, match r with Ok (_, x) => x.(LiquidationStatus.liquidation_type)
                       | _ => NONE end)) in E2.
  vm_compute in E2. by symmetry.
Defined.
