(* ===== verification/SystemExamples.v ===== *)
(** * A run of the exchange and witnesses

    The exchange from its creation to the first trade: a bank, a market and a user are
    created, the user deposits, places an order and opens a position.  Then, for the theorems on the whole
    program and on its instructions, instances on concrete states. *)

From stdpp Require Import base numbers list gmap.
From S2P Require Import Prelude Constants Bn State Value AmmMath BankBalance Twap Oracle.
From S2P Require Import Maps PositionMath CurveMath Repeg AmmController OrdersMath Position.
From S2P Require Import Funding Fees Margin OrderValidation Orders Addresses Tokens BankHandlers.
From S2P Require Import BankLedger BankOrders Loading Trading Liquidation TradingProps Frames.
From S2P Require Import LiquidationProps BankTypes Admin AdminProps Exposure System.
From S2P Require Import SystemExposure Liveness Typing.
From S2P Require Import Examples Witnesses.
Local Open Scope Z_scope.

(** ** A run *)

(** Evaluates a step to its result. *)
Ltac run := apply from_ok_eq; vm_compute; reflexivity.

(** Compares the fields of concrete arguments with the bounds of their types. *)
Ltac have_types := first [literal | split; literal].

Definition start_state : State :=
  example_state <| State.number_of_banks := 0 |> <| State.number_of_markets := 0 |>.

(** The token accounts: the user's, the bank's vault and the insurance vault. *)
Definition start_ledger : Ledger := {[
  500 := TokenAccount.mk true 30 101 20000000000 None;
  600 := TokenAccount.mk true 30 (find_bank_vault_authority 0).1 0 None;
  2 := TokenAccount.mk true 30 3 0 None
]}.

Definition world0 : World := new_world start_state example_order_state start_ledger.

Definition quote_bank_params : BankParams :=
  BankParams.mk _ 30 31 6 600 (find_bank_vault_authority 0).1 (0, (None, None)) 700000 20000 1000000 QuoteAsset
    100 100 100 100.
Definition bank_result : State * Bank :=
  from_ok (start_state, example_bank) (initialize_bank start_state quote_bank_params example_clock).
Definition world1 : World :=
  world0 <| World.state := bank_result.1 |>
         <| World.banks := <[bank_result.2.(Bank.bank_index) := Loaded bank_result.2]> ∅ |>.

Lemma step1 : step world0 1 InitializeBank world1.
Proof.
  apply (step_initialize_bank world0 1 quote_bank_params example_clock bank_result.1
    bank_result.2); [reflexivity| |reflexivity|have_types].
  rewrite <- surjective_pairing. run.
Qed.

Definition user_result : UserMap :=
  from_ok ∅ (initialize_user ∅ 100 101 0 (replicate 32 0)).
Definition world2 : World := world1 <| World.users := user_result |>.

Lemma step2 : step world1 101 InitializeUser world2.
Proof.
  apply (step_initialize_user world1 101 100 0 (replicate 32 0) user_result); [run|have_types].
Qed.

Definition deposit_result : UserMap * BankMap * Ledger :=
  from_ok (∅, ∅, ∅)
    (deposit world2.(World.users) world2.(World.banks) ∅ start_ledger 100 500 600 101
       example_clock 0 10000000000 false).
Definition world3 : World :=
  world2 <| World.users := deposit_result.1.1 |>
         <| World.banks := deposit_result.1.2 ∪ world2.(World.banks) |>
         <| World.ledger := deposit_result.2 |>.

Lemma owned_from_eq users key signer :
  match users !! key with Some (Loaded u) => has_one_authority u signer | _ => false end
    = true → owned_by users key signer.
Proof. unfold owned_by. destruct (users !! key) as [[u|]|]; try done. by exists u. Qed.

Lemma step3 : step world2 101 Deposit_ world3.
Proof.
  apply (step_deposit world2 101 world2.(World.banks) ∅ 100 500 600 example_clock 0
    10000000000 false deposit_result.1.1 deposit_result.1.2 deposit_result.2).
  - apply owned_from_eq. vm_compute. reflexivity.
  - done.
  - apply map_empty_subseteq.
  - rewrite <- !surjective_pairing. run.
  - have_types.
Qed.

Definition new_market_params : MarketParams :=
  MarketParams.mk _ 20 example_oracle 10000000000000000 10000000000000000 3600 50000 Pyth
    2000 625 500.
Definition market_result : State * Market :=
  from_ok (start_state, example_market)
    (initialize_market world3.(World.state) new_market_params example_clock).
Definition world4 : World :=
  world3 <| World.state := market_result.1 |>
         <| World.markets :=
              <[market_result.2.(Market.market_index) := Loaded market_result.2]> ∅ |>.

Lemma step4 : step world3 1 InitializeMarket world4.
Proof.
  apply (step_initialize_market world3 1 new_market_params example_clock market_result.1
    market_result.2); [vm_compute; reflexivity| |vm_compute; reflexivity|have_types..].
  rewrite <- surjective_pairing. run.
Qed.

Definition market_account : Remaining :=
  mk_remaining 20 true true (MarketData market_result.2).
Definition order_result : UserMap :=
  from_ok ∅ (place_order_ix world4.(World.state) example_order_state world4.(World.users)
    [market_account] 100 101 example_oracle example_clock example_params
    (mk_optional_accounts false false)).
Definition world5 : World := world4 <| World.users := order_result |>.

Lemma step5 : step world4 101 PlaceOrder world5.
Proof.
  apply (step_place_order world4 101 [market_account] 100 example_oracle example_clock
    example_params (mk_optional_accounts false false) order_result).
  - apply owned_from_eq. vm_compute. reflexivity.
  - constructor; [|constructor]. intros _. vm_compute. reflexivity.
  - run.
  - have_types.
  - have_types.
Qed.

(** A long of 50 of the quote asset on the new market. *)
Definition trade_result : UserMap * MarketMap * OracleMap :=
  from_ok (∅, ∅, example_oracle_map)
    (open_position world5.(World.state) world5.(World.users) world5.(World.banks)
       world5.(World.markets) example_oracle_map [] 100 101 example_oracle example_clock Long
       50000000 0 0 (mk_optional_accounts false false)).
Definition world6 : World :=
  world5 <| World.users := trade_result.1.1 |>
         <| World.markets := trade_result.1.2 ∪ world5.(World.markets) |>.

Lemma step6 : step world5 101 OpenPosition world6.
Proof.
  apply (step_open_position world5 101 world5.(World.banks) world5.(World.markets)
    example_oracle_map [] 100 example_oracle example_clock Long 50000000 0 0
    (mk_optional_accounts false false) trade_result.1.1 trade_result.1.2 trade_result.2).
  - apply owned_from_eq. vm_compute. reflexivity.
  - done.
  - done.
  - rewrite <- !surjective_pairing. run.
  - have_types.
  - have_types.
Qed.

(** The run up to the order, in which nothing is settled. *)
Lemma example_run :
  rtc any_step_but_settle_pnl (new_world start_state example_order_state start_ledger)
    world5.
Proof.
  eapply rtc_l; [exists 1, InitializeBank; split; [done|apply step1]|].
  eapply rtc_l; [exists 101, InitializeUser; split; [done|apply step2]|].
  eapply rtc_l; [exists 101, Deposit_; split; [done|apply step3]|].
  eapply rtc_l; [exists 1, InitializeMarket; split; [done|apply step4]|].
  eapply rtc_once. exists 101, PlaceOrder. split; [done|apply step5].
Qed.

Lemma forget_kind w w' : rtc any_step_but_settle_pnl w w' → rtc any_step w w'.
Proof. apply rtc_subrel. intros x y (signer & i & _ & Hs). by exists signer, i. Qed.

(** ** The theorems on the run *)

Lemma system_invariant_witness : ∃ excess, 0 ≤ excess ∧ world_ok excess world5.
Proof.
  apply (system_invariant start_state example_order_state start_ledger world5).
  apply forget_kind, example_run.
Defined.

Definition world5_bank : Bank :=
  match world5.(World.banks) !! 0 with Some (Loaded b) => b | _ => example_bank end.

Lemma system_books_exact_witness :
  accounted world5.(World.users) world5.(World.markets) 0 Deposit = 10000000000
  ∧ bank_total world5_bank Deposit = 10000000000.
Proof.
  assert (accounted world5.(World.users) world5.(World.markets) 0 Deposit
          = bank_total world5_bank Deposit) as ->.
  { apply (system_books_exact start_state example_order_state start_ledger world5 0
      world5_bank Deposit); [apply example_run|vm_compute; reflexivity]. }
  vm_compute. auto.
Defined.

Lemma params_change_by_admin_witness :
  world5.(World.state) = world4.(World.state)
  ∧ world5.(World.order_state) = world4.(World.order_state)
  ∧ view market_params world5.(World.markets) = view market_params world4.(World.markets).
Proof.
  apply (params_change_by_admin world4 101 PlaceOrder world5 step5). vm_compute. reflexivity.
Defined.

Definition world2_user : User :=
  match world2.(World.users) !! 100 with Some (Loaded u) => u | _ => placed_user end.

Lemma user_stays_owned_witness :
  ∃ u', world5.(World.users) !! 100 = Some (Loaded u')
    ∧ user_owner u' = user_owner world2_user.
Proof.
  apply (user_stays_owned world2 world5 100 world2_user); [|vm_compute; reflexivity].
  eapply rtc_l; [exists 101, Deposit_; apply step3|].
  eapply rtc_l; [exists 1, InitializeMarket; apply step4|].
  eapply rtc_once. exists 101, PlaceOrder. apply step5.
Defined.

Lemma trading_keeps_funds_witness :
  view User.bank_balances world5.(World.users) = view User.bank_balances world4.(World.users)
  ∧ world5.(World.banks) = world4.(World.banks)
  ∧ view Market.pnl_pool world5.(World.markets) = view Market.pnl_pool world4.(World.markets)
  ∧ world5.(World.ledger) = world4.(World.ledger).
Proof. apply (trading_keeps_funds world4 101 PlaceOrder world5 step5 eq_refl). Defined.

Definition world1_bank : Bank := bank_result.2.

Lemma banks_stay_typed_witness :
  ∃ b', world5.(World.banks) !! 0 = Some (Loaded b') ∧ bank_evolves world1_bank b'.
Proof.
  apply (banks_stay_typed world1 world5 0 world1_bank); [|vm_compute; reflexivity].
  eapply rtc_l; [exists 101, InitializeUser; apply step2|].
  eapply rtc_l; [exists 101, Deposit_; apply step3|].
  eapply rtc_l; [exists 1, InitializeMarket; apply step4|].
  eapply rtc_once. exists 101, PlaceOrder. apply step5.
Defined.

Definition world6_market : Market :=
  match world6.(World.markets) !! 0 with Some (Loaded m) => m | _ => example_market end.

Lemma market_counts_positions_witness :
  world6_market.(Market.amm).(AMM.net_base_asset_amount) = 9990009990010
  ∧ cell_sum (base_in 0) world6.(World.users) = 9990009990010.
Proof.
  destruct (market_counts_positions start_state example_order_state start_ledger world6 0
    world6_market) as [<- _]; [|vm_compute; reflexivity|vm_compute; auto].
  eapply rtc_r; [apply forget_kind, example_run|]. exists 101, OpenPosition. apply step6.
Defined.

(** ** Instructions on the example states *)

(** A trade of 5 of the quote asset, with a referrer. *)
Local Abbreviation settled_trade :=
  (settle_trade example_state example_users example_market (make_user 101 10000000000 [] [])
     0 None (Some 300) 5000000 0 100).
Definition settle_trade_result : UserMap * Market * User :=
  from_ok (∅, example_market, placed_user) settled_trade.

Lemma settled_trade_eq :
  settled_trade = Ok (settle_trade_result.1.1, settle_trade_result.1.2, settle_trade_result.2).
Proof. rewrite <- !surjective_pairing. run. Qed.

Lemma settle_trade_conserves_witness :
  owed settle_trade_result.2 + owed_to_all settle_trade_result.1.1
    + settle_trade_result.1.2.(Market.amm).(AMM.total_fee_minus_distributions)
  = owed (make_user 101 10000000000 [] []) + owed_to_all example_users + 900000000 + 100 + 0
  ∧ settle_trade_result.1.2.(Market.amm).(AMM.total_fee) - 1000000000
    = settle_trade_result.1.2.(Market.amm).(AMM.total_fee_minus_distributions) - 900000000.
Proof.
  exact (settle_trade_conserves example_state example_users example_market
    (make_user 101 10000000000 [] []) 0 None (Some 300) 5000000 0 100
    settle_trade_result.1.1 settle_trade_result.1.2 settle_trade_result.2 settled_trade_eq).
Defined.

(** A long of 50 of the quote asset at 51 at most. *)
Local Abbreviation opened :=
  (open_position example_state example_users example_bank_map example_market_map
     example_oracle_map [] 100 101 example_oracle example_clock Long 50000000 0 510000000000
     (mk_optional_accounts false false)).
Definition open_result : UserMap * MarketMap * OracleMap :=
  from_ok (∅, ∅, example_oracle_map) opened.

Lemma opened_eq : opened = Ok (open_result.1.1, open_result.1.2, open_result.2).
Proof. rewrite <- !surjective_pairing. run. Qed.

Lemma open_position_safe_witness :
  ∃ m2 u3 u4 upd,
    (upd.(PositionUpdate.potentially_risk_increasing) = true →
     meets_initial_margin_requirement u3 (<[0 := Loaded m2]> example_market_map)
       example_bank_map example_oracle_map = Ok (open_result.2, true))
    ∧ (has_type U128 upd.(PositionUpdate.base_asset_amount) →
       upd.(PositionUpdate.quote_asset_amount) * 100000000000000000
         / upd.(PositionUpdate.base_asset_amount) ≤ 510000000000)
    ∧ open_result.1.1 !! 100 = Some (Loaded u4)
    ∧ u4.(User.bank_balances) = u3.(User.bank_balances).
Proof.
  destruct (open_position_safe example_state example_users example_bank_map
    example_market_map example_oracle_map [] 100 101 example_oracle example_clock Long
    50000000 0 510000000000 (mk_optional_accounts false false) open_result.1.1
    open_result.1.2 open_result.2 opened_eq)
    as (_ & _ & u & u1 & u2 & k & m & m1 & mark & spread & valid & m2 & u3 & upd & token
      & referrer & us & m3 & u4 & m4 & _ & _ & _ & _ & _ & _ & Hmeets & Hlimit & _ & _ & Hb
      & _ & _ & Hkept & _).
  exists m2, u3, u4, upd. split; [exact Hmeets|].
  split; [intros Hty; apply (Hlimit ltac:(discriminate) Hty)|]. split; [exact Hkept|exact Hb].
Defined.

(** A withdrawal of 1000 from the vault. *)
Definition example_ledger : Ledger := {[
  500 := TokenAccount.mk true 30 101 20000000000 None;
  600 := TokenAccount.mk true 30 900 90000000000 None;
  2 := TokenAccount.mk true 30 3 0 None
]}.
Definition funded_bank : Bank :=
  example_quote_bank <| Bank.deposit_balance := 40005000000 |>
                     <| Bank.last_updated := 30 |>.
Definition funded_banks : BankMap := {[ 0 := Loaded funded_bank ]}.

Local Abbreviation withdrawn :=
  (withdraw example_state example_users funded_banks example_market_map example_oracle_map
     example_ledger 100 500 600 900 example_clock 0 1000000000 false).
Definition withdraw_result : UserMap * BankMap * OracleMap * Ledger :=
  from_ok (∅, ∅, example_oracle_map, ∅) withdrawn.

Lemma withdrawn_eq :
  withdrawn = Ok (withdraw_result.1.1.1, withdraw_result.1.1.2, withdraw_result.1.2,
                  withdraw_result.2).
Proof. rewrite <- !surjective_pairing. run. Qed.

Lemma withdraw_safe_witness :
  ∃ u' bank' paid,
    withdraw_result.1.1.1 = <[100 := Loaded u']> example_users ∧ paid ≤ 1000000000
    ∧ token_transfer (BankVaultSigns 0 bank'.(Bank.vault_authority_nonce)) example_ledger 600
        500 900 paid = Some withdraw_result.2.
Proof.
  destruct (withdraw_safe example_state example_users funded_banks example_market_map
    example_oracle_map example_ledger 100 500 600 900 example_clock 0 1000000000 false
    _ _ _ _ withdrawn_eq) as (u' & bank' & paid & _ & _ & Hu & _ & _ & Hp & Ht & _).
  exists u', bank', paid. auto.
Defined.

(** All that the user has, to another account of its own. *)
Local Abbreviation transferred :=
  (transfer_deposit example_users funded_banks example_market_map example_oracle_map 100 200
     example_clock 0 10000000000).
Definition transfer_result : UserMap * BankMap * OracleMap :=
  from_ok (∅, ∅, example_oracle_map) transferred.

Lemma transferred_eq :
  transferred = Ok (transfer_result.1.1, transfer_result.1.2, transfer_result.2).
Proof. rewrite <- !surjective_pairing. run. Qed.

Lemma transfer_deposit_empties_sender_witness :
  100 ≠ 200 ∧ ∃ f', transfer_result.1.1 !! 100 = Some (Loaded f')
    ∧ ∀ k b, f'.(User.bank_balances) !! k = Some b → b.(UserBankBalance.bank_index) = 0 →
        b.(UserBankBalance.balance) = 0.
Proof.
  exact (transfer_deposit_empties_sender example_users funded_banks example_market_map
    example_oracle_map 100 200 example_clock 0 10000000000 transfer_result.1.1
    transfer_result.1.2 transfer_result.2 transferred_eq).
Defined.

(** The liquidation of a user with one unit long on a deposit of 2. *)
Definition weak_users : UserMap := <[100 := Loaded weak_user]> example_users.
Local Abbreviation liquidated :=
  (liquidate example_state weak_users funded_banks filled_markets example_oracle_map
     example_ledger 100 200 600 2 900 example_clock).
Definition liquidate_result : UserMap * BankMap * MarketMap * Ledger :=
  from_ok (∅, ∅, ∅, ∅) liquidated.

Lemma liquidated_eq :
  liquidated = Ok (liquidate_result.1.1.1, liquidate_result.1.1.2, liquidate_result.1.2,
                   liquidate_result.2).
Proof. rewrite <- !surjective_pairing. run. Qed.

Lemma liquidate_safe_witness :
  ∃ status progress to_liquidator bank us2 bank2 u2 k bank3 u3,
    status.(LiquidationStatus.adjusted_total_collateral)
      < status.(LiquidationStatus.margin_requirement)
    ∧ 0 < progress.(base_asset_value_closed)
    ∧ 0 ≤ progress.(liquidation_fee) ∧ to_liquidator ≤ progress.(liquidation_fee)
    ∧ liquidator_paid weak_users 100 200 to_liquidator progress.(liquidated_user) bank
        us2 bank2 u2
    ∧ update_user_bank_balance progress.(liquidation_fee) Borrow bank2 u2 k = Ok (bank3, u3)
    ∧ liquidate_result.1.1.1 = <[100 := Loaded u3]> us2.
Proof.
  destruct (liquidate_safe example_state weak_users funded_banks filled_markets
    example_oracle_map example_ledger 100 200 600 2 900 example_clock _ _ _ _ liquidated_eq)
    as (_ & u & u1 & om1 & status & progress & t & bank & us2 & bank2 & u2 & k & bank3 & u3
        & _ & _ & _ & Hs & _ & Hb & _ & _ & (Hfee & _ & _ & Ht) & _ & Hpaid & _ & Hup & Hus & _).
  exists status, progress, t, bank, us2, bank2, u2, k, bank3, u3. tauto.
Defined.

(** The same user with the smallest borrow cannot be liquidated. *)
Definition borrowing_user : User :=
  weak_user <| User.bank_balances := <[1%nat := UserBankBalance.mk 1 Borrow 1]>
    weak_user.(User.bank_balances) |>.

Lemma borrower_is_not_liquidated_witness :
  is_ok liquidated = true
  ∧ ∀ r, liquidate example_state (<[100 := Loaded borrowing_user]> weak_users) funded_banks
           filled_markets example_oracle_map example_ledger 100 200 600 2 900 example_clock
         ≠ Ok r.
Proof.
  split; [vm_compute; reflexivity|].
  apply (borrower_is_not_liquidated example_state (<[100 := Loaded borrowing_user]> weak_users)
    funded_banks filled_markets example_oracle_map example_ledger 100 200 600 2 900
    example_clock borrowing_user (UserBankBalance.mk 1 Borrow 1));
    [apply lookup_insert_eq| |discriminate|reflexivity].
  apply (list_elem_of_lookup_2 _ 1). vm_compute. reflexivity.
Defined.

(** The order that [placed_users] has can be canceled. *)
Lemma cancel_order_succeeds_witness :
  ∃ u', cancel_order_by_order_id example_state 1 placed_users 100 example_market_map
          example_bank_map example_oracle_map example_clock (Some example_oracle)
        = Ok (<[100 := Loaded u']> placed_users, example_oracle_map)
      ∧ u'.(User.orders) = <[0%nat := Order_default]> placed_user.(User.orders).
Proof.
  apply (cancel_order_succeeds example_state 1 placed_users 100 placed_user
    (from_ok placed_user (settle_funding_payment placed_user example_market_map)) 0
    example_order example_market (Some 500000000000) example_market_map example_bank_map
    example_oracle_map example_clock (Some example_oracle) placed_users_wf);
    [vm_compute; reflexivity|run|vm_compute; reflexivity..].
Defined.

(** ** The administrator *)

Definition new_sqrt_k : Z := 10001000000000000.
Local Abbreviation k_updated :=
  (update_k_ix example_state traded_market example_oracle new_sqrt_k).
Definition k_result : Market := from_ok example_market k_updated.

Lemma k_updated_eq : k_updated = Ok k_result.
Proof. run. Qed.


Lemma update_k_ix_safe_witness :
  ∃ before after, mark_price traded_market.(Market.amm) = Ok before
    ∧ mark_price k_result.(Market.amm) = Ok after
    ∧ Z.abs (before - after) ≤ MARK_PRICE_PRECISION / 10000.
Proof.
  destruct (update_k_ix_safe example_state traded_market example_oracle new_sqrt_k k_result
    k_updated_eq) as (before & after & _ & _ & _ & H1 & H2 & H3 & _).
  exists before, after. auto.
Defined.

Local Abbreviation fees_withdrawn :=
  (withdraw_fees example_market funded_bank example_ledger 600 500 900 400000000).
Definition fees_result : Market * Ledger := from_ok (example_market, ∅) fees_withdrawn.

Lemma fees_withdrawn_eq : fees_withdrawn = Ok (fees_result.1, fees_result.2).
Proof. rewrite <- surjective_pairing. run. Qed.

Lemma withdraw_fees_bounded_witness :
  fees_result.1.(Market.amm).(AMM.total_fee_withdrawn) = 0 + 400000000
  ∧ fees_result.1.(Market.amm).(AMM.total_fee_withdrawn) ≤ 1000000000 / 2.
Proof.
  destruct (withdraw_fees_bounded example_market funded_bank example_ledger 600 500 900
    400000000 fees_result.1 fees_result.2 fees_withdrawn_eq)
    as (H1 & H2 & _).
  split; [exact H1|exact H2].
Defined.

(** ** The loading of accounts *)

Definition loaded_accounts : list Remaining :=
  [mk_remaining 20 true true (MarketData example_market); mk_remaining 77 false false OtherData].
Definition load_result : MarketMap * list Remaining :=
  from_ok (∅, []) (load_market_map {[ 0 ]} (get_market_oracles 0 example_oracle) loaded_accounts).

Lemma load_market_map_takes_prefix_witness :
  ∃ taken ms, loaded_accounts = taken ++ load_result.2
    ∧ Forall2 (takes_market {[ 0 ]} (get_market_oracles 0 example_oracle)) taken ms
    ∧ load_result.1 = foldl insert_market ∅ ms
    ∧ match load_result.2 with [] => True | a :: _ => holds_market a = false end.
Proof.
  apply (proj1 (load_market_map_takes_prefix {[ 0 ]} (get_market_oracles 0 example_oracle)
    loaded_accounts load_result.1 load_result.2)).
  rewrite <- surjective_pairing. run.
Defined.

(** ** An order that is immediate, or canceled, and reduce-only

    A sale of a little less than the unit that the user has is placed as one unit, which
    leaves no dust, and filled at once; the instruction then takes the order not to be
    filled, cancels it, finds no order and fails. *)

Definition ioc_params : OrderParams :=
  example_params <| OrderParams.direction := Short |> <| OrderParams.reduce_only := true |>
                 <| OrderParams.base_asset_amount := 9999900000000 |>
                 <| OrderParams.price := 480000000000 |>
                 <| OrderParams.immediate_or_cancel := true |>.
Definition ioc_users : UserMap :=
  <[100 := Loaded (make_user 101 10000000000 [example_position] [])]> example_users.
Definition ioc_accounts : list Remaining :=
  [mk_remaining 30 true true (BankData example_quote_bank);
   mk_remaining 20 true true (MarketData traded_market)].
Definition ioc_with (params : OrderParams) : result (UserMap * MarketMap) :=
  place_and_fill_order example_state example_order_state ioc_users ioc_accounts 100 101
    example_oracle example_clock params (mk_optional_accounts false false).

Lemma reduce_only_ioc_fails : ioc_with ioc_params = Err OrderDoesNotExist.
Proof. vm_compute. reflexivity. Qed.

Lemma exact_ioc_succeeds :
  is_ok (ioc_with (ioc_params <| OrderParams.base_asset_amount := 10000000000000 |>)) = true.
Proof. vm_compute. reflexivity. Qed.
