(* ===== verification/EventExamples.v ===== *)
(** * Logs of concrete runs

    The run of [SystemExamples] with its log, and the logs of single instructions. *)

From stdpp Require Import base numbers list gmap.
From S2P Require Import Prelude Constants Bn State Value AmmMath BankBalance Twap Oracle.
From S2P Require Import Maps PositionMath CurveMath Repeg AmmController OrdersMath Position.
From S2P Require Import Funding Fees Margin OrderValidation Orders Events EventFunding.
From S2P Require Import Addresses Tokens BankHandlers BankLedger BankOrders EventBanks Loading.
From S2P Require Import Trading EventOrders Liquidation EventTrades TradingProps Frames Admin.
From S2P Require Import EventAdmin EventLog LiquidationProps System EventSystem EventKinds.
From S2P Require Import EventProps EventFills Examples Witnesses SystemExamples.
Local Open Scope Z_scope.

(** A computation whose result is known has its own log. *)
Lemma own_log {A} (m : emits A) (n : result A) r : erase m = n → n = Ok r → m = (m.1, Ok r).
Proof. destruct m as [l s]. cbn. by intros -> ->. Qed.

(** ** The run up to the first trade *)

Local Abbreviation logged_deposit :=
  (deposit_emits world2.(World.users) world2.(World.banks) ∅ start_ledger 100 500 600 101
     example_clock 0 10000000000 false).

Lemma recorded3 : recorded world2 101 Deposit_ logged_deposit.1 world3.
Proof.
  apply (recorded_deposit world2 101 world2.(World.banks) ∅ 100 500 600 example_clock 0
    10000000000 false _ deposit_result.1.1 deposit_result.1.2 deposit_result.2).
  - apply owned_from_eq. vm_compute. reflexivity.
  - done.
  - apply map_empty_subseteq.
  - eapply own_log; [apply deposit_erase|]. rewrite <- !surjective_pairing. run.
  - have_types.
Qed.

Local Abbreviation logged_order :=
  (place_order_ix_emits world4.(World.state) example_order_state world4.(World.users)
    [market_account] 100 101 example_oracle example_clock example_params
    (mk_optional_accounts false false)).

Lemma recorded5 : recorded world4 101 PlaceOrder logged_order.1 world5.
Proof.
  apply (recorded_place_order world4 101 [market_account] 100 example_oracle example_clock
    example_params (mk_optional_accounts false false) _ order_result).
  - apply owned_from_eq. vm_compute. reflexivity.
  - constructor; [|constructor]. intros _. vm_compute. reflexivity.
  - eapply own_log; [apply place_order_ix_erase|]. run.
  - have_types.
  - have_types.
Qed.

Local Abbreviation logged_trade :=
  (open_position_emits world5.(World.state) world5.(World.users) world5.(World.banks)
     world5.(World.markets) example_oracle_map [] 100 101 example_oracle example_clock Long
     50000000 0 0 (mk_optional_accounts false false)).

Lemma recorded6 : recorded world5 101 OpenPosition logged_trade.1 world6.
Proof.
  apply (recorded_open_position world5 101 world5.(World.banks) world5.(World.markets)
    example_oracle_map [] 100 example_oracle example_clock Long 50000000 0 0
    (mk_optional_accounts false false) _ trade_result.1.1 trade_result.1.2 trade_result.2).
  - apply owned_from_eq. vm_compute. reflexivity.
  - done.
  - done.
  - eapply own_log; [apply open_position_erase|]. rewrite <- !surjective_pairing. run.
  - have_types.
  - have_types.
Qed.

Definition example_log : list Event :=
  ((((([] ++ []) ++ []) ++ logged_deposit.1) ++ []) ++ logged_order.1) ++ logged_trade.1.

Lemma example_recorded_run :
  recorded_run (new_world start_state example_order_state start_ledger) example_log world6.
Proof.
  eapply recorded_more; [|apply recorded6]. eapply recorded_more; [|apply recorded5].
  eapply recorded_more; [|by apply recorded_nothing, step4].
  eapply recorded_more; [|apply recorded3].
  eapply recorded_more; [|by apply recorded_nothing, step2].
  eapply recorded_more; [|by apply recorded_nothing, step1]. apply recorded_start.
Qed.

Lemma records_are_numbered_witness :
  ids TradeCounter 0 example_log = [1]
  ∧ numbered 1 (ids TradeCounter 0 example_log) = Some (next_id TradeCounter world6_market).
Proof.
  split; [vm_compute; reflexivity|].
  apply (records_are_numbered start_state example_order_state start_ledger example_log world6 0
    world6_market TradeCounter example_recorded_run). vm_compute. reflexivity.
Defined.

Lemma deposits_recorded_witness :
  ∃ r, deposits logged_deposit.1 = [r] ∧ tokens_moved 101 r start_ledger world3.(World.ledger).
Proof.
  destruct (deposits_recorded world2 101 Deposit_ logged_deposit.1 world3 recorded3)
    as (_ & r & Hr & _ & _ & _ & Ht). exists r. exact (conj Hr Ht).
Defined.

(** ** Single instructions *)

(** The payment of a position of one unit, whose market has moved its rate. *)
Definition charged_user : User := make_user 101 10000000000 [example_position] [].
Definition charged_markets : MarketMap := {[ 0 := Loaded (example_market
  <| Market.amm := example_amm <| AMM.cumulative_funding_rate_long := 100000000000000 |> |>)
]}.
Local Abbreviation charged :=
  (settle_funding_payment_emits charged_user 100 charged_markets 60).

Lemma charged_eq : charged = (charged.1, Ok (from_ok charged_user charged.2)).
Proof. eapply own_log; [reflexivity|]. run. Qed.

Lemma funding_payments_recorded_witness :
  only [PaymentKind] charged.1
  ∧ FundingPaymentRecord.funding_payment <$> payments charged.1 = [-999300].
Proof.
  split; [|vm_compute; reflexivity].
  exact (proj1 (funding_payments_recorded charged_user 100 charged_markets 60 _ _ charged_eq)).
Defined.

(** The fill of [fill_result]. *)
Local Abbreviation logged_fill :=
  (fill_order_emits 1 example_state example_order_state placed_users 100 example_market_map
    example_bank_map example_oracle_map example_oracle 200 (Some 300) example_clock).

Lemma logged_fill_eq :
  logged_fill = (logged_fill.1, Ok (filled_users, filled_markets, fill_result.1.2,
                                    fill_result.2)).
Proof. eapply own_log; [apply fill_order_erase|apply filled_eq]. Qed.

Lemma fill_order_recorded_witness :
  ∃ t r, trades logged_fill.1 = [t] ∧ order_records logged_fill.1 = [r]
    ∧ t.(TradeRecord.base_asset_amount) = r.(OrderRecord.base_asset_amount_filled)
    ∧ r.(OrderRecord.trade_record_id) = t.(TradeRecord.record_id).
Proof.
  destruct (fill_order_recorded 1 example_state example_order_state placed_users 100
    example_market_map example_bank_map example_oracle_map example_oracle 200 (Some 300)
    example_clock _ _ _ _ _ logged_fill_eq) as (u & u' & n & o & _ & _ & _ & _ & _ & Hx).
  rewrite (eq_refl : (fill_result.2 =? 0) = false) in Hx.
  destruct Hx as (t & r & Ht & Hr & Hrec & _). exists t, r.
  unfold records_fill in Hrec. split; [exact Ht|]. split; [exact Hr|].
  destruct Hrec as (_ & _ & _ & _ & _ & _ & _ & _ & Hid & _ & _ & _ & Hb & Hb' & _).
  rewrite Hb, Hb'. split; [reflexivity|exact Hid].
Defined.

(** The liquidation of [liquidate_result]. *)
Local Abbreviation logged_liquidation :=
  (liquidate_emits example_state weak_users funded_banks filled_markets example_oracle_map
     example_ledger 100 200 600 2 900 example_clock).

Lemma logged_liquidation_eq :
  logged_liquidation
  = (logged_liquidation.1,
     Ok (liquidate_result.1.1.1, liquidate_result.1.1.2, liquidate_result.1.2,
         liquidate_result.2)).
Proof. eapply own_log; [apply liquidate_erase|apply liquidated_eq]. Qed.

Lemma liquidation_recorded_witness :
  ∃ r, liquidations logged_liquidation.1 = [r]
    ∧ r.(LiquidationRecord.base_asset_value_closed)
      = sum_of TradeRecord.quote_asset_amount (trades logged_liquidation.1).
Proof.
  destruct (liquidation_recorded example_state weak_users funded_banks filled_markets
    example_oracle_map example_ledger 100 200 600 2 900 example_clock _ _ _ _ _
    logged_liquidation_eq) as (r & u & u' & Hr & _ & _ & (_ & _ & _ & _ & Hv & _) & _).
  exists r. exact (conj Hr Hv).
Defined.

(** The change of k of [k_result]. *)
Local Abbreviation logged_k :=
  (update_k_ix_emits example_state traded_market example_oracle example_clock new_sqrt_k).

Lemma logged_k_eq : logged_k = (logged_k.1, Ok k_result).
Proof. eapply own_log; [apply update_k_ix_erase|apply k_updated_eq]. Qed.

Lemma put_market_inj w i m m' :
  w <| World.markets := <[i := Loaded m]> w.(World.markets) |>
  = w <| World.markets := <[i := Loaded m']> w.(World.markets) |> → m = m'.
Proof.
  intros Heq. apply (f_equal World.markets), (f_equal (.!! i)) in Heq. cbn in Heq.
  rewrite !lookup_insert_eq in Heq. by injection Heq.
Qed.

Lemma only_market x i m :
  ({[0 := Loaded x]} : MarketMap) !! i = Some (Loaded m) → i = 0 ∧ m = x.
Proof. intros Hm. apply lookup_singleton_Some in Hm as [<- Hm]. by injection Hm as ->. Qed.

Definition curve_world : World :=
  (new_world example_state example_order_state example_ledger)
    <| World.markets := {[ 0 := Loaded traded_market ]} |>.

Lemma curve_changes_recorded_witness :
  ∃ r, logged_k.1 = [ECurve r] ∧ records_curve traded_market k_result r.
Proof.
  assert (recorded curve_world 1 AdminMarket logged_k.1
    (curve_world <| World.markets := <[0 := Loaded k_result]> curve_world.(World.markets) |>))
    as Hrec.
  { apply (recorded_on_market curve_world 1 0 traded_market AdminMarket logged_k.1 k_result);
      [reflexivity..|].
    exact (recorded_update_k _ _ _ example_oracle example_clock new_sqrt_k _ _ logged_k_eq). }
  destruct (curve_changes_recorded curve_world 1 logged_k.1 _ Hrec)
    as (_ & i & m & m' & Hm & Hw & Hcases).
  change (({[0 := Loaded traded_market]} : MarketMap) !! i = Some (Loaded m)) in Hm.
  destruct (only_market traded_market i m Hm) as [-> ->].
  destruct (put_market_inj curve_world 0 k_result m' Hw).
  assert (length logged_k.1 = 1%nat) as Hlen by (vm_compute; reflexivity).
  destruct Hcases as [(r & Hl & Hr & _)|[[Hl _]|[Hl _]]];
    [|rewrite Hl in Hlen; discriminate Hlen..].
  exists r. exact (conj Hl Hr).
Defined.
