(* ===== verification/CustodyExamples.v ===== *)
(** * Transactions on a concrete exchange

    The exchange is created by transactions: the state, the quote asset bank, a user, who
    deposits and withdraws.  The theorems of [Transactions] and [Custody] on this run. *)

From stdpp Require Import base numbers list gmap.
From S2P Require Import Prelude Constants Bn State Value AmmMath BankBalance Twap Oracle.
From S2P Require Import Addresses Maps PositionMath Position Funding Fees Margin.
From S2P Require Import OrderValidation Orders Tokens BankHandlers BankLedger Loading Trading.
From S2P Require Import Liquidation LiquidationProps Frames BankTypes Admin System Contexts.
From S2P Require Import Transactions Custody Examples Witnesses SystemExamples.
From S2P Require Import Typing TypedUsers TypedBanks TypedSystem Withdrawals SystemLiveness.
Local Open Scope Z_scope.

(** ** The run *)

Definition insurance_key : Pubkey := address InsuranceVaultAddress.
Definition insurance_authority : Pubkey := (find_insurance_vault_authority insurance_key).1.
Definition initialize_accounts : Initialize.Accounts :=
  Initialize.mk 1 (address ClearingHouseAddress) 30 insurance_key insurance_authority.
Definition user_tokens : Ledger := {[ 500 := TokenAccount.mk true 30 101 20000000000 None ]}.
Definition created_state : State :=
  from_ok example_state (initialize 1 insurance_key insurance_authority true).
Definition chain0 : World :=
  new_world created_state example_order_state
    (<[insurance_key := new_token_account 30 insurance_authority]> user_tokens).

Lemma chain0_initialized : initialized [1] chain0.
Proof.
  apply (tx_initialize [1] user_tokens initialize_accounts true created_state);
    [vm_compute; reflexivity|run].
Qed.

Definition bank_vault_key : Pubkey := address (BankVaultAddress 0).
Definition bank_authority : Pubkey := (find_bank_vault_authority 0).1.
Definition bank_accounts : InitializeBank.Accounts :=
  InitializeBank.mk (address (BankAddress 0)) 30 bank_vault_key bank_authority
    (address ClearingHouseAddress) 0 1.
Definition chain_bank_params : BankParams :=
  BankParams.mk _ (address (BankAddress 0)) 30 6 bank_vault_key bank_authority (0, (None, None))
    700000 20000 1000000 QuoteAsset 100 100 100 100.
Definition created_bank : State * Bank :=
  from_ok (created_state, example_bank)
    (initialize_bank created_state chain_bank_params example_clock).
Definition chain1 : World :=
  chain0 <| World.state := created_bank.1 |>
         <| World.banks := <[created_bank.2.(Bank.bank_index) := Loaded created_bank.2]> ∅ |>
         <| World.ledger := <[bank_vault_key := new_token_account 30 bank_authority]>
              chain0.(World.ledger) |>.

Lemma tx1 : transaction chain0 [1] InitializeBank chain1.
Proof.
  apply (tx_initialize_bank chain0 [1] bank_accounts chain_bank_params example_clock
    created_bank.1 created_bank.2); [vm_compute; reflexivity|by split_and!| |have_types].
  rewrite <-surjective_pairing. run.
Qed.

Definition user_key : Pubkey := address (UserAddress 101 0).
Definition user_accounts : InitializeUser.Accounts :=
  InitializeUser.mk user_key (address ClearingHouseAddress) 101 101.
Definition chain2 : World :=
  chain1 <| World.users := from_ok ∅ (initialize_user ∅ user_key 101 0 (replicate 32 0)) |>.

Lemma tx2 : transaction chain1 [101] InitializeUser chain2.
Proof.
  apply (tx_initialize_user chain1 [101] user_accounts 0 (replicate 32 0));
    [vm_compute; reflexivity|run|have_types].
Qed.

Definition deposit_accounts : Deposit.Accounts :=
  Deposit.mk (address ClearingHouseAddress) user_key 101 bank_vault_key 500.
Definition deposited : UserMap * BankMap * Ledger :=
  from_ok (∅, ∅, ∅)
    (deposit chain2.(World.users) chain2.(World.banks) ∅ chain2.(World.ledger) user_key 500
       bank_vault_key 101 example_clock 0 10000000000 false).
Definition chain3 : World :=
  chain2 <| World.users := deposited.1.1 |>
         <| World.banks := deposited.1.2 ∪ chain2.(World.banks) |>
         <| World.ledger := deposited.2 |>.

Lemma tx3 : transaction chain2 [101] Deposit_ chain3.
Proof.
  apply (tx_deposit chain2 [101] deposit_accounts chain2.(World.banks) ∅ example_clock 0
    10000000000 false deposited.1.1 deposited.1.2 deposited.2).
  - vm_compute. reflexivity.
  - done.
  - done.
  - apply map_empty_subseteq.
  - rewrite <-!surjective_pairing. run.
Qed.

Definition withdraw_accounts : Withdraw.Accounts :=
  Withdraw.mk (address ClearingHouseAddress) user_key 101 bank_vault_key bank_authority 500.
Definition taken_out : UserMap * BankMap * OracleMap * Ledger :=
  from_ok (∅, ∅, example_oracle_map, ∅)
    (withdraw chain3.(World.state) chain3.(World.users) chain3.(World.banks) ∅
       example_oracle_map chain3.(World.ledger) user_key 500 bank_vault_key bank_authority
       example_clock 0 4000000000 false).
Definition chain4 : World :=
  chain3 <| World.users := taken_out.1.1.1 |>
         <| World.banks := taken_out.1.1.2 ∪ chain3.(World.banks) |>
         <| World.ledger := taken_out.2 |>.

Lemma tx4 : transaction chain3 [101] Withdraw chain4.
Proof.
  apply (tx_withdraw chain3 [101] withdraw_accounts chain3.(World.banks) ∅ example_oracle_map
    example_clock 0 4000000000 false taken_out.1.1.1 taken_out.1.1.2 taken_out.1.2 taken_out.2).
  - vm_compute. reflexivity.
  - done.
  - done.
  - apply map_empty_subseteq.
  - rewrite <-!surjective_pairing. run.
Qed.

Lemma chain3_run : rtc any_transaction chain0 chain3.
Proof.
  eapply rtc_l; [exists 1, [], InitializeBank; exact tx1|].
  eapply rtc_l; [exists 101, [], InitializeUser; exact tx2|].
  eapply rtc_once. exists 101, [], Deposit_. exact tx3.
Qed.

Lemma chain3_reachable : reachable chain3.
Proof. exact (reachable_from _ [1] chain0 chain0_initialized chain3_run). Qed.

(** ** The theorems on the run *)

Definition vault_of (w : World) : TokenAccount :=
  match w.(World.ledger) !! bank_vault_key with
  | Some t => t | None => new_token_account 0 0
  end.
Definition bank_of (w : World) : Bank :=
  match w.(World.banks) !! 0 with Some (Loaded b) => b | _ => example_bank end.

Lemma transactions_refine_steps_witness :
  ∃ signer, signer ∈ [101] ∧ step chain3 signer Withdraw chain4.
Proof.
  destruct (transactions_refine_steps chain3 101 [] Withdraw chain4 chain3_reachable tx4)
    as (_ & signer & w1 & Hin & Hs & _ & Heq).
  exists signer. split; [exact Hin|]. rewrite (Heq ltac:(discriminate)). exact Hs.
Defined.

Lemma vaults_in_custody_witness :
  (bank_of chain3).(Bank.vault) = bank_vault_key
  ∧ (vault_of chain3).(TokenAccount.amount) = 10000000000
  ∧ ∃ t, chain3.(World.ledger) !! bank_vault_key = Some t
    ∧ t.(TokenAccount.owner) = bank_authority.
Proof.
  destruct (vaults_in_custody chain3 chain3_reachable) as [Hb _].
  destruct (Hb 0 (bank_of chain3)) as (Hv & _ & t & Ht & _ & Ho & _); [vm_compute; reflexivity|].
  split; [exact Hv|]. split; [vm_compute; reflexivity|].
  exists t. split; [exact Ht|]. rewrite Ho. vm_compute. reflexivity.
Defined.

Lemma bank_vault_debits_witness :
  ∃ x, (vault_of chain4).(TokenAccount.amount) = x ∧ x = 6000000000
    ∧ ∃ user authority, owned_by chain3.(World.users) user authority ∧ authority ∈ [101].
Proof.
  destruct (bank_vault_debits chain3 101 [] Withdraw chain4 0 (bank_of chain3)
    (vault_of chain3) chain3_reachable tx4) as (x & Hx & Hpaid);
    [vm_compute; reflexivity..|].
  assert (x = 6000000000) as ->.
  { apply (f_equal (λ o, match o with Some t => t.(TokenAccount.amount) | None => 0 end)) in Hx.
    vm_compute in Hx. by symmetry. }
  exists 6000000000. split; [vm_compute; reflexivity|]. split; [reflexivity|].
  destruct Hpaid as [[_ Ho]|[[? _]|[? _]]]; [vm_compute; reflexivity|exact Ho|done..].
Defined.

(** Another program pays into the insurance vault, and the administrator takes it out. *)
Definition chain5 : World :=
  chain0 <| World.ledger := <[insurance_key := TokenAccount.mk true 30 insurance_authority
              7000000 None]> chain0.(World.ledger) |>.

Lemma tx5 : transaction chain0 [101] OtherPrograms chain5.
Proof.
  apply tx_other_programs. intros k t a Hk _ _. change (World.ledger chain5) with (<[insurance_key :=
    TokenAccount.mk true 30 insurance_authority 7000000 None]> (World.ledger chain0)).
  change (World.ledger chain0) with
    (<[insurance_key := new_token_account 30 insurance_authority]> user_tokens) in *.
  destruct (decide (k = insurance_key)) as [->|Hne].
  - rewrite lookup_insert_eq in Hk. injection Hk as <-. exists 7000000.
    rewrite lookup_insert_eq. split; [done|]. discriminate.
  - exists t.(TokenAccount.amount). rewrite lookup_insert_ne by done.
    rewrite lookup_insert_ne in Hk by done.
    rewrite lookup_insert_ne, <-same_amount by done. split; [exact Hk|lia].
Qed.

Definition insurance_accounts : WithdrawFromInsuranceVault.Accounts :=
  WithdrawFromInsuranceVault.mk (address ClearingHouseAddress) 1 insurance_key
    insurance_authority 500.
Definition insurance_taken : Ledger :=
  from_ok ∅ (withdraw_from_insurance_vault chain5.(World.state) chain5.(World.ledger)
    insurance_key 500 insurance_authority 3000000).
Definition chain6 : World := chain5 <| World.ledger := insurance_taken |>.

Lemma tx6 : transaction chain5 [1] WithdrawFromInsuranceVault chain6.
Proof.
  apply (tx_withdraw_from_insurance_vault chain5 [1] insurance_accounts 3000000);
    [vm_compute; reflexivity|run].
Qed.

Lemma chain5_reachable : reachable chain5.
Proof.
  apply (reachable_from _ [1] chain0 chain0_initialized).
  eapply rtc_once. exists 101, [], OtherPrograms. exact tx5.
Qed.

Definition insurance_of_world (w : World) : TokenAccount :=
  match w.(World.ledger) !! insurance_key with
  | Some t => t | None => new_token_account 0 0
  end.

Lemma insurance_vault_debits_witness :
  (insurance_of_world chain6).(TokenAccount.amount) = 4000000 ∧ 1 ∈ [1].
Proof.
  destruct (insurance_vault_debits chain5 1 [] WithdrawFromInsuranceVault chain6
    (insurance_of_world chain5) chain5_reachable tx6) as (x & Hx & Hpaid);
    [vm_compute; reflexivity|].
  assert (x = 4000000) as ->.
  { apply (f_equal (λ o, match o with Some t => t.(TokenAccount.amount) | None => 0 end)) in Hx.
    vm_compute in Hx. by symmetry. }
  split; [vm_compute; reflexivity|]. destruct Hpaid as [_ Ha]; [vm_compute; reflexivity|].
  exact Ha.
Defined.

(** The user takes out all of its deposit. *)
Definition lender : User :=
  match chain3.(World.users) !! user_key with Some (Loaded u) => u | _ => User_zeroed end.
Definition paid_out : Ledger :=
  match token_transfer (BankVaultSigns 0 (bank_of chain3).(Bank.vault_authority_nonce))
    chain3.(World.ledger) bank_vault_key 500 bank_authority 10000000000 with
  | Some l => l | None => ∅ end.

Lemma lenders_can_withdraw_witness :
  (bank_of chain3).(Bank.deposit_balance) = 10000000000
  ∧ ∃ w' bal', step chain3 101 Withdraw w' ∧ w'.(World.ledger) = paid_out ∧ bal' = 0.
Proof.
  split; [vm_compute; reflexivity|].
  destruct (lenders_can_withdraw 1 insurance_key insurance_authority true created_state
    example_order_state (<[insurance_key := new_token_account 30 insurance_authority]> user_tokens)
    chain3 101 user_key 500 bank_vault_key bank_authority example_clock 10000000000 lender
    10000000000 (bank_of chain3) (bank_of chain3) 10000000000 10000000000 0 paid_out)
    as (w' & bal' & Hs & Hl & _ & _ & Hall).
  - run.
  - repeat (split; try literal).
  - exact (transactions_steps _ _ chain3_run).
  - vm_compute. reflexivity.
  - vm_compute. reflexivity.
  - vm_compute. reflexivity.
  - split; [eexists; split; [vm_compute; reflexivity|by repeat constructor]|].
    vm_compute. by repeat constructor.
  - vm_compute. reflexivity.
  - vm_compute. discriminate.
  - vm_compute. reflexivity.
  - vm_compute. reflexivity.
  - split; [reflexivity|discriminate].
  - vm_compute. reflexivity.
  - vm_compute. reflexivity.
  - by left.
  - vm_compute. reflexivity.
  - exists w', bal'. split; [exact Hs|]. split; [exact Hl|]. by apply Hall.
Defined.
